(* ===== verification/_CoqProject ===== *)
-Q . S2P
Prelude.v
CTypes.v
Bpf.v
SimKernel.v
VmlinuxEnums.v
VmlinuxTypes.v
WarmorLsm.v
LsmExec.v
LsmFile.v
LsmConnect.v
LsmBind.v
LsmListen.v
LsmMount.v
LsmPtrace.v
TracepointDefs.v
ExecveMonitor.v
OpenatMonitor.v
ConnectMonitor.v
GoEvents.v
LsmPolicy.v
Fnv.v
Demo.v
LsmHooks.v
GoPolicyMap.v
EndToEnd.v
Monitors.v
LsmEvents.v
WinCommon.v
WinProcess.v
WinFile.v
WinNetwork.v
BpfWindows.v
GoApi.v
WinLoader.v
WinFacts.v
EsfBridge.v
Layout.v
Sha256.v
GoCache.v
GoLineage.v
GoNet.v
GoNetFilter.v
GoSandbox.v
GoActions.v
GoWasm.v
GoEnforcer.v
EnforcerFacts.v
EnforcerLife.v
GoLoader.v
LinuxPlatform.v
DaemonEndToEnd.v
EnforcerDemo.v
GoFmt.v
PolicySchema.v
RustRuntime.v
PolicyCodegen.v
RustSyntax.v
RustModule.v
CodegenText.v
PolicySemantics.v
CodegenCorrect.v
CodegenEval.v
CompiledPolicy.v
PolicyEvaluation.v
Streaming.v
Simulator.v
PolicyRuntime.v
PolicyEndToEnd.v
PolicyDemo.v
BlastRadius.v
PolicyMerge.v
MergedPolicy.v
PolicyDiff.v
Jwt.v
PolicyStore.v
PolicyServer.v
PolicyServerFacts.v
Canary.v
Temporal.v
Learner.v
