(* ===== verification/Prelude.v ===== *)
(** * A verification of warmor: kernel-side enforcement and the daemon behind it

    warmor watches and restricts what containers do.  On Linux, BPF programs
    attached to LSM hooks decide on operations from a policy map and report them
    through a ring buffer; three tracepoint programs report system calls; a Go
    daemon loads the programs, reads the records, decides on each event (network
    filter, sandbox, decision cache, a policy compiled to WebAssembly), terminates
    denied processes and writes its decisions back into the policy map.  Policies are
    YAML documents that a compiler turns into Rust programs for the WebAssembly
    engine; decisions are recorded by a streaming pipeline and can be replayed.  Documents
    are merged, compared and learned from recorded events; a policy server hands compiled
    ones to the agents of a fleet, in rollouts that a canary analysis watches.  On Windows,
    eBPF programs do the same with a map keyed by process id; on macOS a C bridge
    connects Endpoint Security with the daemon.  This library models the C programs
    of the repository statement by statement, the Go code from the loaders to the
    enforcer, the policy compiler with the programs it generates, the policy server with
    its clients and the tools around them, and proves what makes them correct, and where
    parts disagree.

    ** How the parts are modelled

    Bytes are [Z] in [0, 256), an object in memory is its list of bytes, a w-bit
    integer is a [Z] with explicit wrap-around.  A C struct is a value of [ctype]
    and its members are read and written at the offsets of the ABI layout rule, so
    that C and Go sides meet on bytes.  BPF helpers, maps and ring buffers are the
    typeclass [BpfKernel], with what linux/bpf.h documents of them as
    [BpfKernelOk]; a program is a function from a kernel state to its return value
    and the next state.  A Go call returns a value, an error, a panic or blocks
    ([go] of [GoApi.v]); the enforcer is a state monad over it, with a heap for the
    decisions that cache and handler share; goroutines are step relations.  The
    WebAssembly engine is the typeclass [Wasm], with the assumption [WasmOk] that
    its calls return; for compiled policies it is instantiated by an evaluator of the
    generated programs.  The files, the toolchain and the engine's compiler that
    loading a policy uses are the typeclass [OS].  Clock readings and the order in which
    a Go map is iterated are arguments, so that the theorems hold for all of them.

    The kernel programs and what shares bytes with them:

    - [Prelude.v]: machine integers, byte strings, C strings, tactics, hints,
      inevitability of a property along a step relation.
    - [CTypes.v]: C types, [sizeof], [offsetof], typed loads and stores, and the
      soundness of the layout rule.
    - [Bpf.v]: the helper interface; [SimKernel.v]: a kernel that implements it,
      on which the witnesses run; [Demo.v]: one concrete machine state of it.
    - [VmlinuxTypes.v], [VmlinuxEnums.v]: the kernel types and enumerations of
      bpf/vmlinux.h that the programs use.
    - [WarmorLsm.v]: bpf/warmor_lsm.h (structs, maps, [fnv1a_hash],
      [should_skip_cgroup], [is_enforce_enabled], [emit_lsm_event]).
    - [LsmExec.v], [LsmFile.v], [LsmConnect.v], [LsmBind.v], [LsmListen.v],
      [LsmMount.v], [LsmPtrace.v]: bpf/lsm_*.bpf.c, one hook each.
    - [TracepointDefs.v], [ExecveMonitor.v], [OpenatMonitor.v],
      [ConnectMonitor.v]: bpf/tracepoint_defs.h and bpf/*_monitor.bpf.c.
    - [GoPolicyMap.v]: internal/ebpf/policy_map.go; [GoEvents.v]: the decoding in
      internal/ebpf/events.go, loader.go and lsm_loader.go.
    - [WinCommon.v], [WinProcess.v], [WinFile.v], [WinNetwork.v]:
      internal/platform/etw/programs; [BpfWindows.v]: bpf-windows; [WinLoader.v]: the
      parser and the policy map of internal/platform/etw (ebpf_loader.go,
      ebpf_policy_map.go).
    - [EsfBridge.v]: internal/platform/esf/bridge.c.

    The daemon:

    - [GoApi.v]: pkg/api/types.go, and the control flow of Go.
    - [Sha256.v], [GoNet.v]: what the daemon uses of crypto/sha256, encoding/hex and
      net (address and CIDR parsing).
    - [GoCache.v]: internal/cache; [GoLineage.v]: internal/lineage/tracker.go;
      [GoNetFilter.v], [GoSandbox.v], [GoActions.v]: netfilter.go, sandbox.go and
      actions.go of internal/enforcer.
    - [GoWasm.v]: internal/wasm (policy.go, hostcallback.go, pool.go, context.go).
    - [GoEnforcer.v]: internal/enforcer/enforcer.go, [handleEvent] stage by stage,
      construction, statistics, reload and shutdown.
    - [GoLoader.v]: loading, attaching and closing in internal/ebpf/loader.go and
      lsm_loader.go; [LinuxPlatform.v]: internal/platform/linux.go with cgroup.go.

    Policies, from the document to the decision, and what becomes of decisions:

    - [GoFmt.v]: what the compiler uses of fmt and strconv, on decoded YAML values, and
      float64 arithmetic.
    - [PolicySchema.v]: internal/compiler/schema.go and parser.go;
      [PolicyCodegen.v]: codegen.go, the text that depends on the policy;
      [RustRuntime.v]: the constant helper functions of the generated program.
    - [RustSyntax.v], [RustModule.v]: a lexer, parser, type checker and evaluator of
      the generated fragment of Rust, with linear memory, allocator and exports.
    - [PolicySemantics.v]: what a policy means, independently of its compilation;
      [CodegenText.v], [CodegenCorrect.v], [CodegenEval.v], [CompiledPolicy.v]: from
      the text to the decision; [PolicyEvaluation.v]: in the instance pool.
    - [PolicyRuntime.v]: internal/compiler/build.go and the loading of
      internal/wasm/runtime.go.
    - [Streaming.v]: internal/streaming/event.go and pipeline.go; [Simulator.v]:
      internal/simulator/replay.go.
    - [PolicyMerge.v]: internal/policymerge (types.go, merge.go, validate.go);
      [PolicyDiff.v]: internal/policydiff; [Learner.v]: internal/learner (recorder.go,
      synthesizer.go).

    The fleet, and the analyses of events:

    - [Jwt.v]: internal/crypto/jwt.go, with base64 and HMAC-SHA256.
    - [PolicyStore.v]: types.go, store.go and rollout.go of internal/policyserver;
      [PolicyServer.v]: server.go, containers.go and client.go; [Canary.v]: canary.go.
    - [BlastRadius.v]: internal/blastradius; [Temporal.v]: internal/temporal.

    No binary of the repository uses the client, the canary analysis, the blast radius and
    the temporal guard yet; they are modelled as the packages stand.

    ** What the theorems show

    - [LsmPolicy.v] states the policy decision abstractly ([rule], [verdict],
      [judge]) and proves that the decision code refines it; [LsmHooks.v] proves it
      of all seven hooks, and from it: when an operation is denied, that audit mode
      never denies, that every interleaving of hook calls preserves the policy and
      counts hits exactly, that counters never influence a verdict, and which part
      of a path, name, endpoint or port each hook decides on.
    - [Fnv.v] relates every hash routine to FNV-1a over bytes.
    - [GoPolicyMap.v] and [EndToEnd.v]: userspace and programs agree on the bytes of
      keys and values, rules and filters that userspace installs are the ones the
      programs apply, filters up to old entries that deleting while iterating misses,
      and a deny rule for a short pattern denies, end to end; also for which patterns
      and ports it does not.
    - [Monitors.v] and [LsmEvents.v]: monitors only observe, the filter is installed
      in all of them, and a submitted record is decoded by the daemon to the values
      the kernel had, with the exact exceptions (reversed IPv4 octets, swapped
      ports).
    - [WinFacts.v]: documented layout, when an operation is blocked, the effect of
      rules, and what the parser makes of the records.
    - [EsfBridge.v]: between calls the bridge's global client is never a deleted one.
    - [Layout.v]: every struct has a sound layout, and the two declarations of a shared
      one, in C and Go or in a program and the kernel, read the same bytes.
    - [GoCache.v]: hits return the latest unexpired decision, the cache is bounded,
      and what its key identifies.  [GoLineage.v]: ancestry walks end with a proper
      chain.  [GoNetFilter.v]: the blocklist blocks its prefixes and nothing else,
      the rate limit is exact.  [GoWasm.v]: the bytes a module sees of an event, and
      that an evaluation returns and gives its instance back.
    - [EnforcerFacts.v]: [handleEvent] implements the layered decision [outcome_of]
      with its effects; audit mode never terminates a process, a failed evaluation
      denies, unknown actions pass, statistics add up, the process tree has no edges.
      [EnforcerLife.v]: every run of a constructed enforcer refines the
      specification, the event loop ends, closing and reloading panic.
    - [GoLoader.v]: what a partial load leaves behind, and when its cleanup panics.
      [LinuxPlatform.v]: what every outcome of loading the platform guarantees, that
      the monitors deliver every decodable record once and in order, and exactly when
      stopping them returns.
    - [DaemonEndToEnd.v]: system call, record, event, decision, rule and the kernel's
      next verdict composed: denied executions of paths of at most 16 characters are
      blocked from then on, denied connections are not.  [EnforcerDemo.v]: a concrete daemon and its runs.
    - [PolicySchema.v]: exactly which documents are accepted and as what.
      [RustRuntime.v]: the glob matcher ends and decides the glob language.
      [CodegenText.v]: what is quoted is read back.  [PolicyEvaluation.v]: a policy
      whose values fit their fields ([policy_compiles]) compiles, and every evaluation
      returns the decision and the reason of the first matching rule; memory of an
      instance is used up but never exceeded.  [PolicyEndToEnd.v]: a deny rule of a
      document, on such a path, reaches the kernel.  [PolicyDemo.v]: the repository's example policy
      run, documents that are accepted and do not build, a document whose text
      becomes code.
    - [PolicyRuntime.v]: once loaded, a document can no longer be changed.
      [Streaming.v]: every interleaving delivers accepted events in order and accounts
      for all of them, and exactly how emitting can panic.  [Simulator.v]: what a
      replay counts, what it decides alike, and why it reports no changes.
    - [PolicyMerge.v]: a merge returns, with which rules under each strategy, and unique
      names.  [MergedPolicy.v]: through the compiler's parser and the meaning of policies, a
      union decides every event as its parts in order if joining the variables changes no
      rule; and the examples in which merging changes decisions.  [PolicyDiff.v]: what a difference lists, and two policies without
      difference that decide differently.  [Learner.v]: what a session records, and exactly
      which learned policies the compiler accepts.
    - [Jwt.v]: which tokens are accepted, and that issued ones are until they expire.
      [PolicyServerFacts.v]: invariants of every run of the server, who can change
      policies, what a poll installs, that agents only move to higher versions, and what a
      rollout does.  [Canary.v]: from the recorded decisions, when a rollout is rolled back,
      and that it is once.
    - [BlastRadius.v]: the searches end and report exact distances with paths; the graph is
      what was observed.  [Temporal.v]: when the guard denies.

    ** Bounds and fuel

    The only loops of the C sources are bounded by 16 and are structural recursions
    on the number of iterations left, starting at 16, so no fuel can run out.  The
    decimal printers of [GoEvents.v] get as many steps as the type has digits (5
    for 16 bits, 10 for 32 bits).  A string probe read copies into the 64, 16 or
    256 byte buffers the programs declare.  The ancestry walk recurs on the depth
    limit of the tracker, the loop of the code itself; the IPv6 parser on the eight
    groups an address can have, each iteration of the source consuming one; filling
    the instance pool on its size.  The glob matcher backtracks; its fuel
    (|s|+2)(|s|+|p|+1) is proved to be enough by a measure that every iteration
    decreases.  The parser of [RustSyntax.v] recurs on the number of tokens plus 64,
    proved to be enough for every generated program that compiles.  Quoting a string
    recurs on its length.  The breadth-first search of [BlastRadius.v] gets 1 + 2|E| steps,
    proved to be enough by the number of endpoints not yet visited plus the length of the
    queue.  The search for a free rule name gets one step more than there are names, proved
    to be enough because the candidates are distinct.  Everything else is structural.

    ** What is not modelled

    The BPF verifier, JIT and memory model: a program runs to its end between two
    steps of an execution, and the atomic increment of a counter is one step.
    CO-RE relocation is taken to yield the offsets of vmlinux.h.  Mutexes: each
    operation of the daemon is one step, and one goroutine handles events; calls of the
    macOS bridge do not overlap either.  The YAML
    decoder and strconv's table of printable runes are arguments; rustc beyond
    parsing and typing the generated fragment, LLVM and cargo are outside, and a text
    outside the fragment counts as rejected.  JSON encoders and decoders and the Ed25519
    signature are arguments; HTTP routing, TLS and certificates are outside, a request is
    what they make of it.  Metrics, logging and the sinks of the pipeline, the event store
    of the simulator, the command line, the Windows loader's polling loop, and the packages
    that only wrap files, encodings and templates (policybundle, policygen, sbompolicy,
    testing) or report on events (attackgraph, container, dashboard, drift, escape,
    integrity) are outside: they do not take part in a decision.  Endpoint Security, the
    Windows eBPF API and the WebAssembly engine are interfaces, the file system and the
    success of kernel calls are arguments.  Of bpf/vmlinux.h, which is generated, the types
    and enumerations that the programs reach are modelled.  Policies with printable runes
    beyond ASCII are compiled as the code does, but the theorem on compiled policies is for
    ASCII values.

    ** This file

    Shared vocabulary of the development: machine-width arithmetic on [Z],
    little-endian byte strings, reads and writes of a byte region inside an
    object, C strings, and the automation (hint databases and tactics) the
    component files use. *)

From stdpp Require Export base tactics list numbers strings gmap.

#[global] Open Scope Z_scope.
Declare Scope warmor_scope.
Delimit Scope warmor_scope with warmor.

(** ** Machine integers *)

Definition to_u (w z : Z) : Z := z mod 2 ^ w.

Abbreviation to_u8 := (to_u 8).
Abbreviation to_u16 := (to_u 16).
Abbreviation to_u32 := (to_u 32).
Abbreviation to_u64 := (to_u 64).

(** Value of the w-bit pattern [z] read as a two's complement integer. *)
Definition to_s (w z : Z) : Z :=
  let u := z mod 2 ^ w in if u <? 2 ^ (w - 1) then u else u - 2 ^ w.

Definition is_u (w z : Z) : Prop := 0 <= z < 2 ^ w.
Definition is_byte (b : Z) : Prop := 0 <= b < 256.

#[global] Instance is_u_dec w z : Decision (is_u w z).
Proof. unfold is_u. apply _. Defined.
#[global] Instance is_byte_dec b : Decision (is_byte b).
Proof. unfold is_byte. apply _. Defined.

(** C truth value of an integer used as a condition. *)
Definition truthy (z : Z) : bool := negb (z =? 0).

(** ** Byte strings *)

Fixpoint le_bytes (n : nat) (z : Z) : list Z :=
  match n with
  | O => []
  | S n' => z mod 256 :: le_bytes n' (z / 256)
  end.

Fixpoint le_val (bs : list Z) : Z :=
  match bs with
  | [] => 0
  | b :: bs' => b + 256 * le_val bs'
  end.

(** Big-endian reading, for the network byte order of Go's [binary.BigEndian]. *)
Definition be_val (bs : list Z) : Z := le_val (rev bs).
Definition be_bytes (n : nat) (z : Z) : list Z := rev (le_bytes n z).

(** [slice off n bs] are the [n] bytes at offset [off]; [splice off new bs]
    overwrites the bytes at [off] with [new]. *)
Definition slice (off n : nat) (bs : list Z) : list Z := take n (drop off bs).
Definition splice (off : nat) (new bs : list Z) : list Z :=
  take off bs ++ new ++ drop (off + length new) bs.

(** The bytes before the first NUL. *)
Fixpoint cstr (bs : list Z) : list Z :=
  match bs with
  | [] => []
  | b :: bs' => if b =? 0 then [] else b :: cstr bs'
  end.

(** The bytes of a string literal. *)
Definition bstr (s : string) : list Z :=
  (fun a => Z.of_N (Ascii.N_of_ascii a)) <$> String.list_ascii_of_string s.

(** ** Automation *)

Create HintDb warmor discriminated.
Create Rewrite HintDb warmor_len.

(** Case analysis on the innermost boolean test or match of the goal. *)
Ltac case_step :=
  match goal with
  | |- context [match ?x with _ => _ end] =>
      lazymatch x with
      | context [match _ with _ => _ end] => fail
      | _ => destruct x eqn:?
      end
  end.
Ltac case_all := repeat (case_step; simplify_eq/=).

(** Normalises [Z] boolean comparisons among the hypotheses. *)
Ltac zbool :=
  repeat match goal with
  | H : (_ =? _) = true |- _ => apply Z.eqb_eq in H
  | H : (_ =? _) = false |- _ => apply Z.eqb_neq in H
  | H : (_ <=? _) = true |- _ => apply Z.leb_le in H
  | H : (_ <=? _) = false |- _ => apply Z.leb_gt in H
  | H : (_ <? _) = true |- _ => apply Z.ltb_lt in H
  | H : (_ <? _) = false |- _ => apply Z.ltb_ge in H
  | H : negb _ = true |- _ => apply negb_true_iff in H
  | H : negb _ = false |- _ => apply negb_false_iff in H
  | H : truthy _ = true |- _ => unfold truthy in H
  | H : truthy _ = false |- _ => unfold truthy in H
  end.

(** Length side conditions of byte-string goals. *)
Ltac len := autorewrite with warmor_len; simpl; try lia.

(** Membership in a list of literals. *)
Ltac listed := apply (bool_decide_unpack _); vm_compute; exact I.

(** Case analysis on membership in a list of literals. *)
Ltac list_cases H := repeat (apply elem_of_cons in H as [->|H]); [..|by apply not_elem_of_nil in H].

(** ** Lemmas on machine integers *)

Lemma to_u_range w z : 0 <= w -> 0 <= to_u w z < 2 ^ w.
Proof. intros. apply Z.mod_pos_bound. lia. Qed.

Lemma to_u_id w z : is_u w z -> to_u w z = z.
Proof. intros. by apply Z.mod_small. Qed.

Lemma to_u_idemp w z : to_u w (to_u w z) = to_u w z.
Proof. unfold to_u. apply Zmod_mod. Qed.

Lemma to_u_add_l w a b : to_u w (to_u w a + b) = to_u w (a + b).
Proof. unfold to_u. apply Zplus_mod_idemp_l. Qed.

Lemma to_s_mod w z : 0 <= w -> to_s w z mod 2 ^ w = z mod 2 ^ w.
Proof.
  intros Hw. unfold to_s. cbv zeta. case_match; [apply Zmod_mod|].
  by rewrite Zminus_mod, Z_mod_same_full, Z.sub_0_r, !Zmod_mod.
Qed.

Lemma to_s_of_nat_succ n : to_s 64 (to_s 64 (Z.of_nat n) + 1) = to_s 64 (Z.of_nat (S n)).
Proof.
  assert (Hm : (to_s 64 (Z.of_nat n) + 1) mod 2 ^ 64 = Z.of_nat (S n) mod 2 ^ 64).
  { rewrite <- Zplus_mod_idemp_l, to_s_mod by lia. rewrite Zplus_mod_idemp_l. f_equal. lia. }
  unfold to_s at 1. rewrite Hm. done.
Qed.

(** The high half of a 64-bit word is a 32-bit value. *)
Lemma shiftr32_range z : is_u 64 z -> is_u 32 (Z.shiftr z 32).
Proof.
  unfold is_u. intros. rewrite Z.shiftr_div_pow2 by lia.
  split; [apply Z.div_pos; lia | apply Z.div_lt_upper_bound; lia].
Qed.

Lemma lxor_range w a b : 0 <= w -> is_u w a -> is_u w b -> is_u w (Z.lxor a b).
Proof.
  unfold is_u. intros Hw [? ?] [? ?].
  assert (0 <= Z.lxor a b) by (apply Z.lxor_nonneg; lia).
  split; [done|].
  destruct (Z.eq_dec (Z.lxor a b) 0) as [->|]; [lia|].
  apply Z.log2_lt_pow2; [lia|].
  eapply Z.le_lt_trans; [by apply Z.log2_lxor|].
  destruct (Z.eq_dec a 0) as [->|]; destruct (Z.eq_dec b 0) as [->|].
  - simpl in *. done.
  - rewrite Z.max_r by (rewrite Z.log2_nonpos by lia; apply Z.log2_nonneg).
    apply Z.log2_lt_pow2; lia.
  - rewrite Z.max_l by (rewrite (Z.log2_nonpos 0) by lia; apply Z.log2_nonneg).
    apply Z.log2_lt_pow2; lia.
  - apply Z.max_lub_lt; apply Z.log2_lt_pow2; lia.
Qed.

(** The disjunction of a small number with a shifted one is their sum. *)
Lemma lor_shiftl_add a b k : 0 <= k -> 0 <= a < 2 ^ k -> Z.lor a (Z.shiftl b k) = a + 2 ^ k * b.
Proof.
  intros Hk Ha. destruct (Z.eq_dec a 0) as [->|Hne]; [rewrite Z.lor_0_l, Z.shiftl_mul_pow2 by done; lia|].
  pose proof (Z.add_lor_land a (Z.shiftl b k)) as Hs.
  assert (Hz : Z.land a (Z.shiftl b k) = 0).
  { apply Z.bits_inj'. intros i Hi. rewrite Z.land_spec, Z.bits_0, Z.shiftl_spec by done.
    destruct (Z.lt_ge_cases i k); [rewrite (Z.testbit_neg_r b) by lia; apply andb_false_r|].
    rewrite Z.bits_above_log2; [done|lia|]. apply Z.log2_lt_pow2; [lia|].
    eapply Z.lt_le_trans; [apply Ha|]. apply Z.pow_le_mono_r; lia. }
  rewrite Hz, Z.shiftl_mul_pow2 in Hs by done. rewrite Z.shiftl_mul_pow2 by done. lia.
Qed.

(** ** Lemmas on byte strings *)

Lemma length_le_bytes n z : length (le_bytes n z) = n.
Proof. revert z. induction n; intros; simpl; auto. Qed.

Lemma length_be_bytes n z : length (be_bytes n z) = n.
Proof. unfold be_bytes. by rewrite length_rev, length_le_bytes. Qed.

Lemma le_val_le_bytes n z : le_val (le_bytes n z) = z mod 256 ^ Z.of_nat n.
Proof.
  revert z. induction n as [|n IH]; intros z.
  { simpl. symmetry. apply Z.mod_1_r. }
  cbn [le_bytes le_val]. rewrite IH.
  replace (256 ^ Z.of_nat (S n)) with (256 * 256 ^ Z.of_nat n)
    by (rewrite <- Z.pow_succ_r by lia; f_equal; lia).
  rewrite Z.rem_mul_r by lia. lia.
Qed.

Lemma le_val_le_bytes_id n z :
  0 <= z < 256 ^ Z.of_nat n -> le_val (le_bytes n z) = z.
Proof. intros. rewrite le_val_le_bytes. by apply Z.mod_small. Qed.

Lemma le_bytes_is_byte n z : Forall is_byte (le_bytes n z).
Proof.
  revert z. induction n as [|n IH]; intros z; simpl; constructor; auto.
  apply Z.mod_pos_bound. lia.
Qed.

Lemma le_bytes_le_val bs :
  Forall is_byte bs -> le_bytes (length bs) (le_val bs) = bs.
Proof.
  induction 1 as [|b bs Hb _ IH]; simpl; [done|]. unfold is_byte in Hb.
  f_equal.
  - rewrite (Z.mul_comm 256), Z_mod_plus_full. apply Z.mod_small. lia.
  - by rewrite (Z.mul_comm 256), Z.div_add, (Z.div_small b) by lia.
Qed.

Lemma le_val_range bs :
  Forall is_byte bs -> 0 <= le_val bs < 256 ^ Z.of_nat (length bs).
Proof.
  induction 1 as [|b bs Hb _ IH]; simpl; [lia|].
  replace (Z.of_nat (S (length bs))) with (Z.succ (Z.of_nat (length bs))) by lia.
  rewrite Z.pow_succ_r by lia. unfold is_byte in Hb. lia.
Qed.

Lemma le_bytes_inj n a b :
  0 <= a < 256 ^ Z.of_nat n -> 0 <= b < 256 ^ Z.of_nat n ->
  le_bytes n a = le_bytes n b -> a = b.
Proof.
  intros Ha Hb Heq. rewrite <- (le_val_le_bytes_id n a Ha), Heq.
  by apply le_val_le_bytes_id.
Qed.

Lemma length_slice off n bs :
  (off + n <= length bs)%nat -> length (slice off n bs) = n.
Proof. intros. unfold slice. rewrite length_take, length_drop. lia. Qed.

Lemma length_splice off new bs :
  (off + length new <= length bs)%nat -> length (splice off new bs) = length bs.
Proof.
  intros. unfold splice. rewrite !length_app, length_take, length_drop. lia.
Qed.

Lemma slice_splice_same off new bs :
  (off + length new <= length bs)%nat -> slice off (length new) (splice off new bs) = new.
Proof.
  intros. unfold slice, splice.
  rewrite drop_app_length' by (rewrite length_take; lia).
  by rewrite take_app_length.
Qed.

Lemma slice_splice_before off n off' new bs :
  (off + n <= off')%nat -> (off' + length new <= length bs)%nat ->
  slice off n (splice off' new bs) = slice off n bs.
Proof.
  intros. unfold slice, splice. rewrite !take_drop_commute.
  rewrite take_app_le by (rewrite length_take; lia).
  rewrite take_take. do 2 f_equal. lia.
Qed.

Lemma slice_splice_after off n off' new bs :
  (off' + length new <= off)%nat -> (off' + length new <= length bs)%nat ->
  slice off n (splice off' new bs) = slice off n bs.
Proof.
  intros. unfold slice, splice. rewrite app_assoc, drop_app_ge; rewrite length_app, length_take.
  2: lia. rewrite drop_drop. do 2 f_equal. lia.
Qed.

Lemma slice_splice_disjoint off n off' new bs :
  (off + n <= off' \/ off' + length new <= off)%nat ->
  (off' + length new <= length bs)%nat ->
  slice off n (splice off' new bs) = slice off n bs.
Proof. intros [|] ?; [by apply slice_splice_before | by apply slice_splice_after]. Qed.

(** Writing back what is already there changes nothing, and a region that is
    overwritten twice keeps the last value. *)
Lemma splice_slice_id off n bs :
  (off + n <= length bs)%nat -> splice off (slice off n bs) bs = bs.
Proof.
  intros. unfold splice. rewrite length_slice by lia. unfold slice.
  rewrite <- (drop_drop bs n off), take_drop. apply take_drop.
Qed.

Lemma slice_splice_within off n off' new bs :
  (off' <= off)%nat -> (off + n <= off' + length new)%nat ->
  (off' + length new <= length bs)%nat ->
  slice off n (splice off' new bs) = slice (off - off') n new.
Proof.
  intros. unfold slice, splice.
  rewrite drop_app_ge by (rewrite length_take; lia).
  rewrite length_take, Nat.min_l by lia.
  rewrite drop_app_le by lia. rewrite take_app_le by (rewrite length_drop; lia). done.
Qed.

Lemma slice_is_byte off n bs : Forall is_byte bs -> Forall is_byte (slice off n bs).
Proof. intros. by apply Forall_take, Forall_drop. Qed.

Lemma splice_is_byte off new bs :
  Forall is_byte new -> Forall is_byte bs -> Forall is_byte (splice off new bs).
Proof.
  intros. unfold splice. rewrite !Forall_app.
  auto using Forall_take, Forall_drop.
Qed.

Lemma take_min_length {A} n (s : list A) : take (n `min` length s) s = take n s.
Proof.
  destruct (decide (n <= length s)%nat).
  - by rewrite Nat.min_l.
  - by rewrite Nat.min_r, !take_ge by lia.
Qed.

Lemma cstr_nul s rest : Forall (fun b => b <> 0) s -> cstr (s ++ 0 :: rest) = s.
Proof. induction 1 as [|b s Hb _ IH]; simpl; [done|]. case_match; zbool; congruence. Qed.

Lemma cstr_id s : Forall (fun b => b <> 0) s -> cstr s = s.
Proof. induction 1 as [|b s Hb _ IH]; simpl; [done|]. case_match; zbool; congruence. Qed.

Lemma cstr_nonzero bs : Forall (fun b => b <> 0) (cstr bs).
Proof. induction bs as [|b bs IH]; simpl; [done|]. case_match; zbool; auto. Qed.

(** A buffer longer than the string in it holds the terminator. *)
Lemma cstr_split bs :
  (length (cstr bs) < length bs)%nat -> exists tl, bs = cstr bs ++ 0 :: tl.
Proof.
  induction bs as [|b bs IH]; simpl; [lia|]. case_match; zbool; simpl; [subst; eauto|].
  intros Hl. destruct IH as [tl Htl]; [lia|]. exists tl. by rewrite <- Htl.
Qed.

Lemma length_cstr bs : (length (cstr bs) <= length bs)%nat.
Proof. induction bs as [|b bs IH]; simpl; [done|]. case_match; simpl; lia. Qed.

#[export] Hint Rewrite length_le_bytes length_be_bytes : warmor_len.
#[export] Hint Rewrite @length_app @length_take @length_drop @length_replicate : warmor_len.
#[export] Hint Rewrite length_slice length_splice using (autorewrite with warmor_len; lia) : warmor_len.
#[export] Hint Resolve le_bytes_is_byte slice_is_byte splice_is_byte : warmor.
#[export] Hint Resolve to_u_range lxor_range : warmor.

(** ** Lemmas on lists and options *)

(** Lists and options collected from the end of a list. *)
Lemma omap_snoc {A B} (f : A -> option B) l x : omap f (l ++ [x]) = omap f l ++ option_list (f x).
Proof. rewrite omap_app. simpl. by destruct (f x). Qed.

Lemma last_option_list {A} (l : list A) o : last (l ++ option_list o) = match o with Some x => Some x | None => last l end.
Proof. destruct o; simpl; [apply last_snoc|by rewrite app_nil_r]. Qed.
Lemma head_option_list {A} (l : list A) o : head (l ++ option_list o) = match head l with Some x => Some x | None => o end.
Proof. by destruct l, o. Qed.

(** ** Inevitability *)

(** Every execution reaches [P], whatever choices are made, without getting stuck. *)
Inductive inevitable {A} (step : A -> A -> Prop) (P : A -> Prop) (s : A) : Prop :=
  | inevitable_now : P s -> inevitable step P s
  | inevitable_step : (exists s', step s s') ->
      (forall s', step s s' -> inevitable step P s') -> inevitable step P s.

(** A measure that every step decreases, and progress until [P]. *)
Lemma inevitable_measure {A} (step : A -> A -> Prop) (P I : A -> Prop) (m : A -> nat) :
  (forall s, I s -> P s \/ exists s', step s s') ->
  (forall s s', I s -> step s s' -> I s' /\ (m s' < m s)%nat) ->
  forall s, I s -> inevitable step P s.
Proof.
  intros Hprog Hdec s. induction s as [s IH] using (induction_ltof1 _ m). intros HI.
  destruct (Hprog s HI) as [HP|Hstep]; [by constructor|]. apply inevitable_step; [done|].
  intros s' Hs. destruct (Hdec s s' HI Hs) as [HI' Hlt]. by apply IH.
Qed.
