(* ===== verification/CTypes.v ===== *)
(** C data types and the memory layout the compiler gives them.

    The BPF programs read kernel objects and write event records through
    struct members, and the userspace loaders decode the same records by byte
    offset; what connects the two sides is the layout rule of the ABI.  This
    file defines the types, [sizeof], [alignof] and the offset of a member
    path (with anonymous members, unions, bit-fields and
    [__attribute__((packed))]), typed loads and stores on the bytes of an
    object, and proves the rule sound: members of a struct are aligned, lie
    inside the object and do not overlap. *)

From S2P Require Import Prelude.

(** ** Types *)

(** [CRec is_union packed min_align members]; a member with an empty name is
    anonymous, [Some w] makes it a bit-field of [w] bits. *)
Inductive ctype : Type :=
  | CInt (size : Z) (signed : bool)
  | CPtr
  | CArr (n : Z) (t : ctype)
  | CRec (is_union packed : bool) (min_align : Z) (fs : cfields)
with cfields : Type :=
  | FNil
  | FCons (name : string) (bits : option Z) (t : ctype) (rest : cfields).

Scheme ctype_mind := Induction for ctype Sort Prop
  with cfields_mind := Induction for cfields Sort Prop.
Combined Scheme ctype_cfields_ind from ctype_mind, cfields_mind.

(** *** Concrete syntax for declarations *)

Fixpoint fields_of (l : list (string * option Z * ctype)) : cfields :=
  match l with
  | [] => FNil
  | (n, b, t) :: l' => FCons n b t (fields_of l')
  end.

Definition struct (l : list (string * option Z * ctype)) : ctype :=
  CRec false false 1 (fields_of l).
Definition struct_packed (l : list (string * option Z * ctype)) : ctype :=
  CRec false true 1 (fields_of l).
Definition union (l : list (string * option Z * ctype)) : ctype :=
  CRec true false 1 (fields_of l).

Definition mem (t : ctype) (name : string) : string * option Z * ctype := (name, None, t).
Definition bitf (t : ctype) (name : string) (w : Z) : string * option Z * ctype :=
  (name, Some w, t).

(** The integer types of the x86-64 and BPF targets. *)
Definition c_char := CInt 1 true.
Definition c_uchar := CInt 1 false.
Definition c_bool := CInt 1 false.
Definition c_short := CInt 2 true.
Definition c_ushort := CInt 2 false.
Definition c_int := CInt 4 true.
Definition c_uint := CInt 4 false.
Definition c_long := CInt 8 true.
Definition c_ulong := CInt 8 false.
Definition c_llong := CInt 8 true.
Definition c_ullong := CInt 8 false.
Definition c_int128 := CInt 16 true.
Definition c_enum := CInt 4 false.

Definition __u8 := c_uchar.
Definition __u16 := c_ushort.
Definition __u32 := c_uint.
Definition __u64 := c_ullong.
Definition __s32 := c_int.

(** ** Layout *)

Definition align_up (a n : Z) : Z := (n + a - 1) / a * a.

Fixpoint alignof (t : ctype) : Z :=
  match t with
  | CInt s _ => s
  | CPtr => 8
  | CArr _ t => alignof t
  | CRec _ packed al fs => Z.max al (if packed then 1 else fields_align fs)
  end
with fields_align (fs : cfields) : Z :=
  match fs with
  | FNil => 1
  | FCons nm (Some _) t r =>
      (* an unnamed bit-field does not raise the alignment of its struct *)
      Z.max (if String.eqb nm "" then 1 else alignof t) (fields_align r)
  | FCons _ None t r => Z.max (alignof t) (fields_align r)
  end.

(** Bit position of the next member, [sz] and [al] being its type's size and
    alignment in bytes and [pos] the first free bit. *)
Definition place (packed : bool) (bits : option Z) (sz al pos : Z) : Z :=
  match bits with
  | None => align_up (if packed then 8 else 8 * al) pos
  | Some w =>
      if packed then pos
      else if w =? 0 then align_up (8 * sz) pos
      else if pos mod (8 * sz) + w <=? 8 * sz then pos
      else align_up (8 * sz) pos
  end.

Definition bit_width (bits : option Z) (sz : Z) : Z :=
  match bits with None => 8 * sz | Some w => w end.

Fixpoint sizeof (t : ctype) : Z :=
  match t with
  | CInt s _ => s
  | CPtr => 8
  | CArr n t => n * sizeof t
  | CRec is_union packed al fs =>
      align_up (Z.max al (if packed then 1 else fields_align fs))
               (align_up 8 (fields_end is_union packed fs 0) / 8)
  end
with fields_end (is_union packed : bool) (fs : cfields) (pos : Z) : Z :=
  match fs with
  | FNil => pos
  | FCons _ b t r =>
      let off := place packed b (sizeof t) (alignof t) (if is_union then 0 else pos) in
      let e := off + bit_width b (sizeof t) in
      fields_end is_union packed r (if is_union then Z.max pos e else e)
  end.

(** Where each member is placed, offsets in bits. *)
Record slot := Slot { sl_name : string; sl_bits : option Z; sl_type : ctype; sl_off : Z }.

Definition sl_end (x : slot) : Z := sl_off x + bit_width (sl_bits x) (sizeof (sl_type x)).

Fixpoint placed (is_union packed : bool) (fs : cfields) (pos : Z) : list slot :=
  match fs with
  | FNil => []
  | FCons nm b t r =>
      let off := place packed b (sizeof t) (alignof t) (if is_union then 0 else pos) in
      let e := off + bit_width b (sizeof t) in
      Slot nm b t off :: placed is_union packed r (if is_union then Z.max pos e else e)
  end.

(** Member lookup; anonymous struct and union members are searched through.
    The result is the bit offset, the bit-field width if any, and the type. *)
Fixpoint find_member (t : ctype) (nm : string) : option (Z * option Z * ctype) :=
  match t with
  | CRec is_union packed _ fs => find_fields is_union packed fs 0 nm
  | _ => None
  end
with find_fields (is_union packed : bool) (fs : cfields) (pos : Z) (nm : string)
    : option (Z * option Z * ctype) :=
  match fs with
  | FNil => None
  | FCons nm' b t r =>
      let off := place packed b (sizeof t) (alignof t) (if is_union then 0 else pos) in
      let e := off + bit_width b (sizeof t) in
      let pos' := if is_union then Z.max pos e else e in
      if String.eqb nm' nm then Some (off, b, t)
      else
        match (if String.eqb nm' "" then find_member t nm else None) with
        | Some (o, b', t') => Some (off + o, b', t')
        | None => find_fields is_union packed r pos' nm
        end
  end.

(** [offsetof t path]: byte offset and type of the member [a.b.c]. *)
Fixpoint offsetof (t : ctype) (path : list string) : option (Z * ctype) :=
  match path with
  | [] => Some (0, t)
  | nm :: path' =>
      match find_member t nm with
      | Some (o, None, t') =>
          match offsetof t' path' with
          | Some (o', t'') => Some (o / 8 + o', t'')
          | None => None
          end
      | _ => None
      end
  end.

(** ** Typed access to the bytes of an object *)

Definition foff (t : ctype) (path : list string) : nat :=
  match offsetof t path with Some (o, _) => Z.to_nat o | None => 0 end.
Definition fsize (t : ctype) (path : list string) : nat :=
  match offsetof t path with Some (_, t') => Z.to_nat (sizeof t') | None => 0 end.

(** [ldb]/[stb] move raw bytes, [ld]/[st] an unsigned integer member. *)
Definition ldb (t : ctype) (path : list string) (obj : list Z) : list Z :=
  slice (foff t path) (fsize t path) obj.
Definition stb (t : ctype) (path : list string) (new obj : list Z) : list Z :=
  splice (foff t path) new obj.
Definition ld (t : ctype) (path : list string) (obj : list Z) : Z := le_val (ldb t path obj).
Definition st (t : ctype) (path : list string) (v : Z) (obj : list Z) : list Z :=
  stb t path (le_bytes (fsize t path) v) obj.

(** An object of type [t] with every byte zero, as an initialiser leaves the
    members it does not name. *)
Definition zeroed (t : ctype) : list Z := replicate (Z.to_nat (sizeof t)) 0.

(** Decidable disjointness and containment of two member regions. *)
Definition apart (t : ctype) (p q : list string) : bool :=
  (foff t p + fsize t p <=? foff t q)%nat || (foff t q + fsize t q <=? foff t p)%nat.
Definition fits (t : ctype) (p : list string) : bool :=
  (foff t p + fsize t p <=? Z.to_nat (sizeof t))%nat.

(** ** Well-formed types *)

Fixpoint wf_ctype (t : ctype) : bool :=
  match t with
  | CInt s _ => 0 <? s
  | CPtr => true
  | CArr n t => (0 <=? n) && wf_ctype t
  | CRec _ _ al fs => (0 <? al) && wf_fields fs
  end
with wf_fields (fs : cfields) : bool :=
  match fs with
  | FNil => true
  | FCons _ b t r =>
      wf_ctype t
      && match b, t with
         | None, _ => true
         | Some w, CInt _ _ => 0 <=? w
         | Some _, _ => false
         end
      && wf_fields r
  end.

Lemma align_up_le a n : 0 < a -> n <= align_up a n.
Proof.
  intros. unfold align_up. pose proof (Z.mul_div_le (n + a - 1) a).
  pose proof (Z.mod_pos_bound (n + a - 1) a). pose proof (Z.div_mod (n + a - 1) a). lia.
Qed.

Lemma align_up_lt a n : 0 < a -> align_up a n < n + a.
Proof.
  intros. unfold align_up. pose proof (Z.mod_pos_bound (n + a - 1) a).
  pose proof (Z.div_mod (n + a - 1) a). lia.
Qed.

Lemma align_up_mod a n : 0 < a -> align_up a n mod a = 0.
Proof. intros. unfold align_up. apply Z_mod_mult. Qed.

Lemma alignof_pos_mut :
  (forall t, wf_ctype t = true -> 0 < alignof t) /\
  (forall fs, wf_fields fs = true -> 0 < fields_align fs).
Proof.
  apply ctype_cfields_ind; simpl; intros; rewrite ?andb_true_iff in *; zbool;
    try destruct_and?; zbool; auto; try lia.
  specialize (H0 ltac:(done)). destruct bits; lia.
Qed.

Lemma alignof_pos t : wf_ctype t = true -> 0 < alignof t.
Proof. apply alignof_pos_mut. Qed.

(** What well-formedness says of one member. *)
Lemma wf_fields_cons nm b t r :
  wf_fields (FCons nm b t r) = true ->
  wf_ctype t = true /\ wf_fields r = true /\
  (forall w, b = Some w -> 0 <= w /\ 0 < sizeof t /\ exists s sg, t = CInt s sg).
Proof.
  simpl. rewrite !andb_true_iff. intros [[Ht Hb] Hr]. split_and!; auto.
  intros w ->. destruct t; zbool; try discriminate. simpl in Ht. zbool.
  split_and!; eauto.
Qed.

Lemma place_ge packed b sz al pos :
  0 < al -> (forall w, b = Some w -> 0 < sz) -> pos <= place packed b sz al pos.
Proof.
  intros Hal Hsz. unfold place. destruct b as [w|].
  - specialize (Hsz w eq_refl). repeat case_match; try lia; apply align_up_le; lia.
  - apply align_up_le. case_match; lia.
Qed.

Lemma place_None_aligned packed sz al pos :
  0 < al -> place packed None sz al pos mod (if packed then 8 else 8 * al) = 0.
Proof. intros. apply align_up_mod. case_match; lia. Qed.

Lemma place_None_byte packed sz al pos : 0 < al -> place packed None sz al pos mod 8 = 0.
Proof.
  intros Hal. unfold place, align_up. set (q := _ / _). destruct packed.
  - apply Z_mod_mult.
  - replace (q * (8 * al)) with (q * al * 8) by lia. apply Z_mod_mult.
Qed.

Lemma sizeof_nonneg_mut :
  (forall t, wf_ctype t = true -> 0 <= sizeof t) /\
  (forall fs, wf_fields fs = true ->
     forall u p pos, 0 <= pos -> pos <= fields_end u p fs pos).
Proof.
  apply ctype_cfields_ind; try (simpl; intros; zbool; lia).
  - simpl. intros n t IH. rewrite andb_true_iff. intros []. zbool.
    apply Z.mul_nonneg_nonneg; auto.
  - simpl. intros u p al fs IH. rewrite andb_true_iff. intros []. zbool.
    assert (0 <= fields_end u p fs 0) by (apply IH; auto; lia).
    pose proof (align_up_le 8 (fields_end u p fs 0)).
    etrans; [|apply align_up_le; lia]. apply Z.div_pos; lia.
  - intros nm b t IHt r IHr (Ht & Hr & Hb)%wf_fields_cons u p pos Hpos. simpl.
    specialize (IHt Ht). pose proof (alignof_pos t Ht).
    assert (0 <= bit_width b (sizeof t)).
    { destruct b as [w|]; simpl; [destruct (Hb w); auto|lia]. }
    pose proof (place_ge p b (sizeof t) (alignof t) (if u then 0 else pos) ltac:(done)
      ltac:(intros w ->; by destruct (Hb w) as (?&?&?))).
    destruct u; (etrans; [|apply IHr; auto; lia]); lia.
Qed.

Lemma sizeof_nonneg t : wf_ctype t = true -> 0 <= sizeof t.
Proof. apply sizeof_nonneg_mut. Qed.

Lemma fields_end_ge fs u p pos :
  wf_fields fs = true -> 0 <= pos -> pos <= fields_end u p fs pos.
Proof. intros. by apply sizeof_nonneg_mut. Qed.

(** ** Soundness of the layout rule *)

(** One member: it starts at or after the free position and ends after it starts. *)
Lemma member_bounds packed b t pos :
  wf_ctype t = true ->
  (forall w, b = Some w -> 0 <= w /\ 0 < sizeof t /\ exists s sg, t = CInt s sg) ->
  let off := place packed b (sizeof t) (alignof t) pos in
  pos <= off /\ 0 <= bit_width b (sizeof t).
Proof.
  intros Ht Hb off. split.
  - apply place_ge; [by apply alignof_pos|]. intros w ->. by destruct (Hb w) as (?&?&?).
  - pose proof (sizeof_nonneg t Ht). destruct b as [w|]; simpl; [destruct (Hb w); auto|lia].
Qed.

Lemma placed_bounds fs u p pos x :
  wf_fields fs = true -> 0 <= pos -> x ∈ placed u p fs pos ->
  (if u then 0 else pos) <= sl_off x /\ sl_off x <= sl_end x <= fields_end u p fs pos.
Proof.
  revert pos. induction fs as [|nm b t r IH]; intros pos; [by rewrite elem_of_nil|].
  intros (Ht & Hr & Hb)%wf_fields_cons Hpos.
  pose proof (member_bounds p b t (if u then 0 else pos) Ht Hb) as [H1 H2].
  cbn [placed fields_end]. set (off := place _ _ _ _ _) in *.
  assert (0 <= off) by (destruct u; lia).
  rewrite elem_of_cons. intros [->|Hx].
  - unfold sl_end; simpl.
    pose proof (fields_end_ge r u p
      (if u then Z.max pos (off + bit_width b (sizeof t)) else off + bit_width b (sizeof t)) Hr).
    destruct u; lia.
  - apply IH in Hx; [|done|destruct u; lia]. destruct u; lia.
Qed.

Lemma rec_end_le u p al fs :
  wf_ctype (CRec u p al fs) = true -> fields_end u p fs 0 <= 8 * sizeof (CRec u p al fs).
Proof.
  intros Hwf. pose proof (alignof_pos _ Hwf). simpl in *.
  set (e := fields_end u p fs 0). set (a := Z.max _ _) in *.
  pose proof (align_up_le 8 e). pose proof (align_up_mod 8 e).
  pose proof (align_up_le a (align_up 8 e / 8)).
  pose proof (Z.div_mod (align_up 8 e) 8). lia.
Qed.

Lemma find_bounds_mut nm :
  (forall t, wf_ctype t = true -> forall o b t', find_member t nm = Some (o, b, t') ->
     0 <= o /\ o + bit_width b (sizeof t') <= 8 * sizeof t /\ wf_ctype t' = true /\
     (b = None -> o mod 8 = 0)) /\
  (forall fs, wf_fields fs = true -> forall u p pos o b t', 0 <= pos ->
     find_fields u p fs pos nm = Some (o, b, t') ->
     0 <= o /\ o + bit_width b (sizeof t') <= fields_end u p fs pos /\ wf_ctype t' = true /\
     (b = None -> o mod 8 = 0)).
Proof.
  apply ctype_cfields_ind; try (simpl; done).
  - intros u p al fs IH Hwf o b t' Hf. pose proof (rec_end_le u p al fs Hwf).
    simpl in Hwf. apply andb_true_iff in Hwf as [? ?].
    cbn [find_member] in Hf. apply IH in Hf as (?&?&?&?); [|done|lia]. split_and!; auto; lia.
  - intros nm' b' t IHt r IHr (Ht & Hr & Hb)%wf_fields_cons u p pos o b t' Hpos.
    pose proof (member_bounds p b' t (if u then 0 else pos) Ht Hb) as [H1 H2].
    cbn [find_fields fields_end]. set (off := place _ _ _ _ _) in *.
    set (pos' := if u then Z.max pos _ else _).
    assert (0 <= off) by (destruct u; lia).
    assert (off + bit_width b' (sizeof t) <= pos') by (subst pos'; destruct u; lia).
    pose proof (fields_end_ge r u p pos' Hr ltac:(lia)).
    assert (b' = None -> off mod 8 = 0) as Hoff
      by (intros ->; apply place_None_byte; by apply alignof_pos).
    destruct (String.eqb nm' nm); [intros [= <- <- <-]; split_and!; auto; etrans; eauto|].
    destruct (String.eqb nm' ""); [|intros; by eapply IHr; eauto; lia].
    destruct (find_member t nm) as [[[o1 b1] t1]|] eqn:Hf;
      [|intros; by eapply IHr; eauto; lia].
    intros [= <- <- <-]. destruct (IHt Ht _ _ _ eq_refl) as (?&?&?&Hm).
    destruct b' as [w|].
    { destruct (Hb w eq_refl) as (?&?&?&?&->). by simpl in Hf. }
    simpl in *. split_and!; auto; try lia.
    intros ->. rewrite Z.add_mod by lia. rewrite Hoff, Hm by done. done.
Qed.

(** Every member path lies inside its object and starts on a byte. *)
Lemma offsetof_in_bounds path t o t' :
  wf_ctype t = true -> offsetof t path = Some (o, t') ->
  0 <= o /\ o + sizeof t' <= sizeof t /\ wf_ctype t' = true.
Proof.
  revert t o. induction path as [|nm path IH]; intros t o Hwf; simpl.
  { intros [= <- <-]. auto with lia. }
  destruct (find_member t nm) as [[[o1 [w|]] t1]|] eqn:Hf; try done.
  destruct (offsetof t1 path) as [[o2 t2]|] eqn:Ho; try done. intros [= <- <-].
  apply (find_bounds_mut nm) in Hf as (?&Hb&Hw&Hm); [|done]. specialize (Hm eq_refl).
  apply IH in Ho as (?&?&?); [|done]. simpl in Hb.
  pose proof (Z.div_mod o1 8). split_and!; auto; lia.
Qed.

Lemma foff_fsize_fits t path :
  wf_ctype t = true -> (foff t path + fsize t path <= Z.to_nat (sizeof t))%nat.
Proof.
  intros Hwf. unfold foff, fsize.
  destruct (offsetof t path) as [[o t']|] eqn:Ho; [|lia].
  apply offsetof_in_bounds in Ho as (?&?&?); [|done].
  pose proof (sizeof_nonneg t' ltac:(done)). lia.
Qed.

(** ** Loads after stores *)

Lemma length_stb t path new obj :
  (foff t path + length new <= length obj)%nat -> length (stb t path new obj) = length obj.
Proof. apply length_splice. Qed.

Lemma length_st t path v obj :
  (foff t path + fsize t path <= length obj)%nat -> length (st t path v obj) = length obj.
Proof. intros. apply length_stb. by rewrite length_le_bytes. Qed.

Lemma ldb_stb_same t p new obj :
  (foff t p + fsize t p <= length obj)%nat -> length new = fsize t p ->
  ldb t p (stb t p new obj) = new.
Proof.
  intros ? Hl. unfold ldb, stb. rewrite <- Hl. apply slice_splice_same. lia.
Qed.

Lemma ld_st_same t p v obj :
  (foff t p + fsize t p <= length obj)%nat ->
  ld t p (st t p v obj) = v mod 256 ^ Z.of_nat (fsize t p).
Proof.
  intros. unfold ld, st. rewrite ldb_stb_same by (rewrite ?length_le_bytes; lia).
  apply le_val_le_bytes.
Qed.

Lemma ldb_stb_apart t p q new obj :
  apart t p q = true -> (length new <= fsize t q)%nat ->
  (foff t q + fsize t q <= length obj)%nat ->
  ldb t p (stb t q new obj) = ldb t p obj.
Proof.
  unfold apart, ldb, stb. rewrite orb_true_iff, !Nat.leb_le. intros.
  apply slice_splice_disjoint; lia.
Qed.

Lemma ldb_st_apart t p q v obj :
  apart t p q = true -> (foff t q + fsize t q <= length obj)%nat ->
  ldb t p (st t q v obj) = ldb t p obj.
Proof. intros. apply ldb_stb_apart; auto. by rewrite length_le_bytes. Qed.

Lemma ld_st_apart t p q v obj :
  apart t p q = true -> (foff t q + fsize t q <= length obj)%nat ->
  ld t p (st t q v obj) = ld t p obj.
Proof. intros. unfold ld. by rewrite ldb_st_apart. Qed.

Lemma st_is_byte t p v obj : Forall is_byte obj -> Forall is_byte (st t p v obj).
Proof. intros. apply splice_is_byte; auto using le_bytes_is_byte. Qed.

Lemma stb_is_byte t p new obj :
  Forall is_byte new -> Forall is_byte obj -> Forall is_byte (stb t p new obj).
Proof. apply splice_is_byte. Qed.

Lemma length_zeroed t : length (zeroed t) = Z.to_nat (sizeof t).
Proof. apply length_replicate. Qed.

Lemma zeroed_is_byte t : Forall is_byte (zeroed t).
Proof. apply Forall_replicate. unfold is_byte. lia. Qed.

#[export] Hint Resolve st_is_byte stb_is_byte zeroed_is_byte : warmor.

(** ** Objects of a type

    The side conditions of the load/store lemmas are decided by computation:
    [obj t bs] says that [bs] are the bytes of an object of type [t]. *)

Definition obj (t : ctype) (bs : list Z) : Prop := length bs = Z.to_nat (sizeof t).

Lemma fits_spec t p : fits t p = true -> (foff t p + fsize t p <= Z.to_nat (sizeof t))%nat.
Proof. apply Nat.leb_le. Qed.

Lemma obj_st t p v bs : fits t p = true -> obj t bs -> obj t (st t p v bs).
Proof. unfold obj. intros Hf%fits_spec Hb. rewrite length_st; lia. Qed.

Lemma obj_stb t p new bs :
  fits t p = true -> (length new <= fsize t p)%nat -> obj t bs -> obj t (stb t p new bs).
Proof. unfold obj. intros Hf%fits_spec ? Hb. rewrite length_stb; lia. Qed.

Lemma obj_zeroed t : obj t (zeroed t).
Proof. apply length_zeroed. Qed.

Lemma length_ldb t p bs : fits t p = true -> obj t bs -> length (ldb t p bs) = fsize t p.
Proof. unfold obj. intros Hf%fits_spec Hb. apply length_slice. lia. Qed.

Lemma ldb_stb_eq t p new bs :
  fits t p = true -> obj t bs -> length new = fsize t p -> ldb t p (stb t p new bs) = new.
Proof. unfold obj. intros Hf%fits_spec Hb ?. apply ldb_stb_same; lia. Qed.

Lemma ld_st_eq t p v bs :
  fits t p = true -> obj t bs ->
  ld t p (st t p v bs) = v mod 256 ^ Z.of_nat (fsize t p).
Proof. unfold obj. intros Hf%fits_spec Hb. apply ld_st_same; lia. Qed.

Lemma ldb_st_ne t p q v bs :
  fits t q && apart t p q = true -> obj t bs -> ldb t p (st t q v bs) = ldb t p bs.
Proof. unfold obj. intros [Hf%fits_spec ?]%andb_prop Hb. apply ldb_st_apart; [done|lia]. Qed.

Lemma ldb_stb_ne t p q new bs :
  fits t q && apart t p q = true -> obj t bs -> (length new <= fsize t q)%nat ->
  ldb t p (stb t q new bs) = ldb t p bs.
Proof. unfold obj. intros [Hf%fits_spec ?]%andb_prop Hb ?. apply ldb_stb_apart; auto; lia. Qed.

Lemma ld_st_ne t p q v bs :
  fits t q && apart t p q = true -> obj t bs -> ld t p (st t q v bs) = ld t p bs.
Proof. intros. unfold ld. by rewrite ldb_st_ne. Qed.

Lemma ld_stb_ne t p q new bs :
  fits t q && apart t p q = true -> obj t bs -> (length new <= fsize t q)%nat ->
  ld t p (stb t q new bs) = ld t p bs.
Proof. intros. unfold ld. by rewrite ldb_stb_ne. Qed.

(** Members at the same place of two types, such as the C struct of a record and
    the struct userspace decodes it with. *)
Definition same_member (t : ctype) (p : list string) (t' : ctype) (p' : list string) : bool :=
  (foff t p =? foff t' p')%nat && (fsize t p =? fsize t' p')%nat.

Lemma ldb_same t p t' p' bs : same_member t p t' p' = true -> ldb t p bs = ldb t' p' bs.
Proof. intros [Ho Hs]%andb_prop. apply Nat.eqb_eq in Ho, Hs. unfold ldb. by rewrite Ho, Hs. Qed.

Lemma ld_same t p t' p' bs : same_member t p t' p' = true -> ld t p bs = ld t' p' bs.
Proof. intros. unfold ld. by rewrite (ldb_same t p t' p'). Qed.

(** A member of a nested struct, read from the bytes stored into the struct. *)
Definition sub_member (t : ctype) (q p : list string) (t' : ctype) : bool :=
  (foff t (q ++ p) =? foff t q + foff t' p)%nat && (fsize t (q ++ p) =? fsize t' p)%nat &&
  (foff t' p + fsize t' p <=? fsize t q)%nat.

Lemma ldb_stb_sub t q p t' new bs :
  sub_member t q p t' = true -> fits t q = true -> obj t bs -> length new = fsize t q ->
  ldb t (q ++ p) (stb t q new bs) = ldb t' p new.
Proof.
  unfold obj. intros [[Ho Hs]%andb_prop Hb]%andb_prop Hf%fits_spec Hobj Hn.
  apply Nat.eqb_eq in Ho, Hs. apply Nat.leb_le in Hb. unfold ldb, stb. rewrite Ho, Hs.
  rewrite slice_splice_within by lia. f_equal. lia.
Qed.

Create HintDb layout discriminated.
#[export] Hint Constants Opaque : layout.
#[export] Hint Resolve obj_st obj_stb obj_zeroed : layout.
#[export] Hint Extern 1 (fits _ _ = true) => vm_compute; reflexivity : layout.
#[export] Hint Extern 1 (fits _ _ && apart _ _ _ = true) => vm_compute; reflexivity : layout.

(** Sizes of the byte strings stores are given. *)
Lemma length_ldb_le t p bs (n : nat) : (fsize t p <= n)%nat -> (length (ldb t p bs) <= n)%nat.
Proof. intros. unfold ldb, slice. rewrite length_take. lia. Qed.
Lemma length_le_bytes_le n z (m : nat) : (n <= m)%nat -> (length (le_bytes n z) <= m)%nat.
Proof. by rewrite length_le_bytes. Qed.
Lemma length_replicate_le n (b : Z) (m : nat) : (n <= m)%nat -> (length (replicate n b) <= m)%nat.
Proof. by rewrite length_replicate. Qed.

#[export] Hint Extern 1 (length (ldb _ _ _) <= fsize _ _)%nat =>
  apply length_ldb_le; vm_compute; lia : layout.
#[export] Hint Extern 1 (length (le_bytes _ _) <= fsize _ _)%nat =>
  apply length_le_bytes_le; vm_compute; lia : layout.
#[export] Hint Extern 1 (length (replicate _ _) <= fsize _ _)%nat =>
  apply length_replicate_le; vm_compute; lia : layout.

(** Solves the layout side conditions (by computation on the types). *)
Ltac lay := solve [eauto 40 with nocore layout].

(** Reads of a member through a chain of stores. *)
Ltac field_step :=
  first
    [ rewrite ldb_st_ne by lay | rewrite ld_st_ne by lay | rewrite ld_st_eq by lay
    | rewrite ldb_stb_ne by lay | rewrite ld_stb_ne by lay | rewrite ldb_stb_eq by lay ].

(** A value in range is read back unchanged; [stored] proves such reads. *)
Lemma stored_id t p v w : is_u w v -> 2 ^ w = 256 ^ Z.of_nat (fsize t p) ->
  v mod 256 ^ Z.of_nat (fsize t p) = v.
Proof. intros Hv <-. by apply Z.mod_small. Qed.

Ltac stored := repeat field_step; eapply stored_id; [eassumption|vm_compute; reflexivity].
