(* ===== verification/Bpf.v ===== *)
(** The BPF run-time the programs are loaded into: the interface of the kernel
    helpers they call, and a reference kernel that implements it.

    The helpers ([bpf_map_lookup_elem], [bpf_ringbuf_reserve],
    [bpf_probe_read_kernel_str], ...) are kernel code, so the programs are
    defined and proved against an interface: [kenv] holds what a helper only
    reads (the current task, the clock, kernel and user memory), [BpfKernel]
    the operations on maps and ring buffers, and [BpfKernelOk] what the helper
    documentation (linux/bpf.h) promises of them.  [SimKernel] is a concrete
    kernel that satisfies the promises; the witnesses of the development run
    the programs on it. *)

From S2P Require Import Prelude CTypes.

(** ** What a program sees of the machine *)

(** A source pointer of a probe read: an address, or a buffer on the BPF stack
    of the running program. *)
Inductive kptr : Type :=
  | KAddr (a : Z)
  | KStack (buf : list Z).

Definition NULL : kptr := KAddr 0.
Definition is_null (p : kptr) : bool :=
  match p with KAddr a => a =? 0 | KStack _ => false end.

(** The part of the kernel a running program can only read.  A probe read takes
    the source and the previous bytes of the destination, and returns the
    helper's return code with the bytes of the destination afterwards. *)
Record kenv : Type := KEnv {
  cur_pid_tgid : Z;
  cur_uid_gid : Z;
  cur_cgroup_id : Z;
  ktime_ns : Z;
  cur_comm : nat -> list Z;
  kmem : Z -> option Z;
  umem : Z -> option Z;
  probe_kernel : kptr -> list Z -> Z * list Z;
  probe_kernel_str : kptr -> list Z -> Z * list Z;
  probe_user : Z -> list Z -> Z * list Z;
  probe_user_str : Z -> list Z -> Z * list Z;
  uninit : nat -> list Z;  (* an uninitialised stack object *)
}.

(** Byte [i] of the object a pointer designates. *)
Definition src_byte (e : kenv) (p : kptr) (i : nat) : option Z :=
  match p with
  | KAddr a => kmem e (a + Z.of_nat i)
  | KStack b => b !! i
  end.
Definition usr_byte (e : kenv) (a : Z) (i : nat) : option Z := umem e (a + Z.of_nat i).

(** [bytes_at rd bs]: the reader yields exactly [bs] from offset 0.
    [cstring_at rd s]: a readable NUL-terminated string [s]. *)
Definition bytes_at (rd : nat -> option Z) (bs : list Z) : Prop :=
  forall i b, bs !! i = Some b -> rd i = Some b.
Definition cstring_at (rd : nat -> option Z) (s : list Z) : Prop :=
  Forall (fun b => b <> 0) s /\ Forall is_byte s /\ bytes_at rd (s ++ [0]).

(** Documented behaviour of a raw probe read and of a string probe read. *)
Definition probe_ok (read : list Z -> Z * list Z) (rd : nat -> option Z) : Prop :=
  (forall dst, length (read dst).2 = length dst) /\
  (forall dst, Forall is_byte dst -> Forall is_byte (read dst).2) /\
  (forall dst bs, bytes_at rd bs -> Forall is_byte bs -> length bs = length dst ->
     read dst = (0, bs)).

Definition probe_str_ok (read : list Z -> Z * list Z) (rd : nat -> option Z) : Prop :=
  (forall dst, length (read dst).2 = length dst) /\
  (forall dst, Forall is_byte dst -> Forall is_byte (read dst).2) /\
  (forall dst s, cstring_at rd s -> dst <> [] ->
     let n := Nat.min (S (length s)) (length dst) in
     exists tail, read dst = (Z.of_nat n, take (n - 1) s ++ 0 :: tail)) /\
  (forall dst, rd 0%nat = None -> (read dst).1 < 0).

Record kenv_ok (e : kenv) : Prop := {
  ok_pid_tgid : is_u 64 (cur_pid_tgid e);
  ok_uid_gid : is_u 64 (cur_uid_gid e);
  ok_cgroup_id : is_u 64 (cur_cgroup_id e);
  ok_ktime : is_u 64 (ktime_ns e);
  ok_comm_len : forall n, length (cur_comm e n) = n;
  ok_comm_bytes : forall n, Forall is_byte (cur_comm e n);
  ok_probe_kernel : forall p, probe_ok (probe_kernel e p) (src_byte e p);
  ok_probe_kernel_str : forall p, probe_str_ok (probe_kernel_str e p) (src_byte e p);
  ok_probe_user : forall a, probe_ok (probe_user e a) (usr_byte e a);
  ok_probe_user_str : forall a, probe_str_ok (probe_user_str e a) (usr_byte e a);
  ok_uninit_len : forall n, length (uninit e n) = n;
  ok_uninit_bytes : forall n, Forall is_byte (uninit e n);
}.

(** ** Maps and ring buffers *)

(** The map types the programs use, from [enum bpf_map_type]. *)
Definition BPF_MAP_TYPE_HASH : Z := 1.
Definition BPF_MAP_TYPE_ARRAY : Z := 2.
Definition BPF_MAP_TYPE_RINGBUF : Z := 27.

(** A map as a program declares it; the kernel identifies it by its name. *)
Record bpf_map : Type := BpfMap {
  bm_name : string;
  bm_type : Z;
  bm_max_entries : Z;
  bm_key_size : Z;
  bm_value_size : Z;
}.

#[global] Instance bpf_map_eq_dec : EqDecision bpf_map.
Proof. solve_decision. Defined.

(** [map_contents] are the bytes of the value stored under a key, [map_poke] a
    store through the value pointer a lookup returned, [ring_records] the
    records submitted so far.  [map_update_elem] and [map_delete_elem] are the
    operations of the bpf system call that userspace uses. *)
Class BpfKernel (K : Type) := {
  kernel_env : K -> kenv;
  map_contents : K -> bpf_map -> list Z -> option (list Z);
  map_poke : bpf_map -> list Z -> list Z -> K -> K;
  ringbuf_reserve : bpf_map -> Z -> K -> option (list Z) * K;
  ringbuf_submit : bpf_map -> list Z -> K -> K;
  ring_records : K -> bpf_map -> list (list Z);
  map_update_elem : bpf_map -> list Z -> list Z -> K -> Z * K;
  map_delete_elem : bpf_map -> list Z -> K -> Z * K;
}.

Class BpfKernelOk (K : Type) `{BpfKernel K} : Prop := {
  env_ok (k : K) : kenv_ok (kernel_env k);
  env_poke m key v k : kernel_env (map_poke m key v k) = kernel_env k;
  env_reserve m n k : kernel_env (ringbuf_reserve m n k).2 = kernel_env k;
  env_submit m r k : kernel_env (ringbuf_submit m r k) = kernel_env k;
  env_update m key v k : kernel_env (map_update_elem m key v k).2 = kernel_env k;
  env_delete m key k : kernel_env (map_delete_elem m key k).2 = kernel_env k;

  poke_same m key v old k :
    map_contents k m key = Some old -> length v = length old ->
    map_contents (map_poke m key v k) m key = Some v;
  poke_other m key v m' key' k :
    (bm_name m, key) <> (bm_name m', key') ->
    map_contents (map_poke m key v k) m' key' = map_contents k m' key';
  poke_ring m key v k r : ring_records (map_poke m key v k) r = ring_records k r;
  poke_room m key v k r n :
    (ringbuf_reserve r n (map_poke m key v k)).1 = (ringbuf_reserve r n k).1;

  reserve_maps m n k m' key :
    map_contents (ringbuf_reserve m n k).2 m' key = map_contents k m' key;
  reserve_ring m n k r : ring_records (ringbuf_reserve m n k).2 r = ring_records k r;
  reserve_len m n k rec :
    (ringbuf_reserve m n k).1 = Some rec -> length rec = Z.to_nat n /\ Forall is_byte rec;

  submit_maps m rec k m' key :
    map_contents (ringbuf_submit m rec k) m' key = map_contents k m' key;
  submit_ring_same m rec k :
    ring_records (ringbuf_submit m rec k) m = ring_records k m ++ [rec];
  submit_ring_other m rec k r :
    bm_name m <> bm_name r -> ring_records (ringbuf_submit m rec k) r = ring_records k r;

  update_same m key v k :
    (map_update_elem m key v k).1 = 0 ->
    map_contents (map_update_elem m key v k).2 m key = Some v;
  update_other m key v m' key' k :
    (bm_name m, key) <> (bm_name m', key') ->
    map_contents (map_update_elem m key v k).2 m' key' = map_contents k m' key';
  update_err m key v k m' key' :
    (map_update_elem m key v k).1 <> 0 ->
    map_contents (map_update_elem m key v k).2 m' key' = map_contents k m' key';
  update_code m key v k : (map_update_elem m key v k).1 <= 0;
  update_ring m key v k r : ring_records (map_update_elem m key v k).2 r = ring_records k r;

  delete_same m key k :
    bm_type m = BPF_MAP_TYPE_HASH -> map_contents (map_delete_elem m key k).2 m key = None;
  delete_other m key m' key' k :
    (bm_name m, key) <> (bm_name m', key') ->
    map_contents (map_delete_elem m key k).2 m' key' = map_contents k m' key';
  delete_ring m key k r : ring_records (map_delete_elem m key k).2 r = ring_records k r;
}.

(** ** The helpers, as the programs call them *)

Section Helpers.
Context {K : Type} `{BpfKernel K}.

Definition bpf_get_current_pid_tgid (k : K) : Z := cur_pid_tgid (kernel_env k).
Definition bpf_get_current_uid_gid (k : K) : Z := cur_uid_gid (kernel_env k).
Definition bpf_get_current_cgroup_id (k : K) : Z := cur_cgroup_id (kernel_env k).
Definition bpf_ktime_get_ns (k : K) : Z := ktime_ns (kernel_env k).
Definition bpf_get_current_comm (k : K) (size : nat) : list Z := cur_comm (kernel_env k) size.
Definition bpf_probe_read_kernel (k : K) (src : kptr) (dst : list Z) : Z * list Z :=
  probe_kernel (kernel_env k) src dst.
Definition bpf_probe_read_kernel_str (k : K) (src : kptr) (dst : list Z) : Z * list Z :=
  probe_kernel_str (kernel_env k) src dst.
Definition bpf_probe_read_user (k : K) (src : Z) (dst : list Z) : Z * list Z :=
  probe_user (kernel_env k) src dst.
Definition bpf_probe_read_user_str (k : K) (src : Z) (dst : list Z) : Z * list Z :=
  probe_user_str (kernel_env k) src dst.
Definition stack_object (k : K) (size : nat) : list Z := uninit (kernel_env k) size.

(** A pointer to a map value: NULL is [None], a hit designates the live value
    of the entry, so that a later load sees a store made in between. *)
Record vptr : Type := VPtr { vp_map : bpf_map; vp_key : list Z }.

Definition bpf_map_lookup_elem (k : K) (m : bpf_map) (key : list Z) : option vptr :=
  match map_contents k m key with Some _ => Some (VPtr m key) | None => None end.

Definition vload (k : K) (p : vptr) : list Z := default [] (map_contents k (vp_map p) (vp_key p)).
Definition vstore (p : vptr) (v : list Z) (k : K) : K := map_poke (vp_map p) (vp_key p) v k.

(** [__sync_fetch_and_add(&p->path, n)] on a member of a map value. *)
Definition sync_fetch_and_add (t : ctype) (path : list string) (p : vptr) (n : Z) (k : K) : K :=
  vstore p (st t path (ld t path (vload k p) + n) (vload k p)) k.

(** [BPF_CORE_READ(src, a.b.c)]: probe read of the member into a temporary.
    The relocation makes the member offset that of the running kernel, whose
    types are those of vmlinux.h. *)
Definition core_read (k : K) (t : ctype) (path : list string) (src : Z) : Z :=
  le_val (bpf_probe_read_kernel k (KAddr (src + Z.of_nat (foff t path)))
            (replicate (fsize t path) 0)).2.
End Helpers.

(** ** Helper facts the programs rely on *)

Section HelperFacts.
Context {K : Type} `{BpfKernelOk K}.
Implicit Types (k : K).

Lemma probe_read_kernel_bytes k p dst bs :
  bytes_at (src_byte (kernel_env k) p) bs -> Forall is_byte bs -> length bs = length dst ->
  bpf_probe_read_kernel k p dst = (0, bs).
Proof. intros. by apply (ok_probe_kernel _ (env_ok k) p). Qed.

Lemma probe_read_user_bytes k a dst bs :
  bytes_at (usr_byte (kernel_env k) a) bs -> Forall is_byte bs -> length bs = length dst ->
  bpf_probe_read_user k a dst = (0, bs).
Proof. intros. by apply (ok_probe_user _ (env_ok k) a). Qed.

(** A member that memory holds is what [BPF_CORE_READ] returns. *)
Lemma core_read_value k t path src v :
  bytes_at (src_byte (kernel_env k) (KAddr (src + Z.of_nat (foff t path))))
    (le_bytes (fsize t path) v) ->
  0 <= v < 256 ^ Z.of_nat (fsize t path) ->
  core_read k t path src = v.
Proof.
  intros Hm Hv. unfold core_read.
  rewrite (probe_read_kernel_bytes k _ _ (le_bytes (fsize t path) v)); auto using le_bytes_is_byte.
  - by apply le_val_le_bytes_id.
  - by rewrite length_le_bytes, length_replicate.
Qed.

(** A string shorter than the buffer is copied whole, with its terminator; a
    longer one is cut to the buffer. *)
Lemma probe_read_kernel_str_cstring k p dst s :
  cstring_at (src_byte (kernel_env k) p) s -> dst <> [] ->
  let n := Nat.min (S (length s)) (length dst) in
  exists tail, bpf_probe_read_kernel_str k p dst = (Z.of_nat n, take (n - 1) s ++ 0 :: tail).
Proof. intros Hs Hd. by apply (ok_probe_kernel_str _ (env_ok k) p). Qed.

Lemma probe_read_user_str_cstring k a dst s :
  cstring_at (usr_byte (kernel_env k) a) s -> dst <> [] ->
  let n := Nat.min (S (length s)) (length dst) in
  exists tail, bpf_probe_read_user_str k a dst = (Z.of_nat n, take (n - 1) s ++ 0 :: tail).
Proof. intros Hs Hd. by apply (ok_probe_user_str _ (env_ok k) a). Qed.

Lemma length_probe_kernel_str k p dst :
  length (bpf_probe_read_kernel_str k p dst).2 = length dst.
Proof. apply (ok_probe_kernel_str _ (env_ok k) p). Qed.

Lemma length_probe_kernel k p dst : length (bpf_probe_read_kernel k p dst).2 = length dst.
Proof. apply (ok_probe_kernel _ (env_ok k) p). Qed.

Lemma length_probe_user k a dst : length (bpf_probe_read_user k a dst).2 = length dst.
Proof. apply (ok_probe_user _ (env_ok k) a). Qed.

Lemma length_probe_user_str k a dst : length (bpf_probe_read_user_str k a dst).2 = length dst.
Proof. apply (ok_probe_user_str _ (env_ok k) a). Qed.

Lemma length_current_comm k n : length (bpf_get_current_comm k n) = n.
Proof. apply (ok_comm_len _ (env_ok k)). Qed.

Lemma length_stack_object k n : length (stack_object k n) = n.
Proof. apply (ok_uninit_len _ (env_ok k)). Qed.

(** Reads into a member of a record fill the member exactly. *)
Lemma fills_eq_le (n m : nat) : n = m -> (n <= m)%nat.
Proof. lia. Qed.

Lemma fills_comm k t q : length (bpf_get_current_comm k (fsize t q)) = fsize t q.
Proof. apply length_current_comm. Qed.

Lemma fills_user_str k a t q ev :
  fits t q = true -> obj t ev ->
  length (bpf_probe_read_user_str k a (ldb t q ev)).2 = fsize t q.
Proof. intros. rewrite length_probe_user_str. by apply length_ldb. Qed.

Lemma fills_user k a t q ev :
  fits t q = true -> obj t ev -> length (bpf_probe_read_user k a (ldb t q ev)).2 = fsize t q.
Proof. intros. rewrite length_probe_user. by apply length_ldb. Qed.

Lemma fills_kernel_str k p t q ev :
  fits t q = true -> obj t ev ->
  length (bpf_probe_read_kernel_str k p (ldb t q ev)).2 = fsize t q.
Proof. intros. rewrite length_probe_kernel_str. by apply length_ldb. Qed.
End HelperFacts.

#[export] Hint Resolve fills_eq_le : layout.
#[export] Hint Extern 1 (length (bpf_get_current_comm _ _) = _) => apply fills_comm : layout.
#[export] Hint Extern 1 (length (bpf_probe_read_user_str _ _ _).2 = _) =>
  apply fills_user_str : layout.
#[export] Hint Extern 1 (length (bpf_probe_read_user _ _ _).2 = _) => apply fills_user : layout.
#[export] Hint Extern 1 (length (bpf_probe_read_kernel_str _ _ _).2 = _) =>
  apply fills_kernel_str : layout.

#[export] Hint Rewrite @length_probe_kernel_str @length_probe_kernel @length_probe_user
  @length_probe_user_str @length_current_comm @length_stack_object using apply _ : warmor_len.
