(* ===== verification/SimKernel.v ===== *)
(** A reference kernel for the helper interface: maps are finite maps from the
    map's name and the key bytes to the value bytes, memory is a finite map
    from addresses to bytes, and a ring buffer accepts records while it has
    free space, handing out memory that still holds old bytes.  It shows that
    the promises of [BpfKernelOk] can be kept together, and it is the kernel on
    which the witnesses of the development run the programs. *)

From S2P Require Import Prelude CTypes Bpf.

Record sim_kernel : Type := SimK {
  sk_pid_tgid : Z;
  sk_uid_gid : Z;
  sk_cgroup_id : Z;
  sk_ktime : Z;
  sk_comm : list Z;
  sk_kmem : gmap Z Z;
  sk_umem : gmap Z Z;
  sk_maps : gmap (string * list Z) (list Z);
  sk_space : Z;
  sk_log : list (string * list Z);
}.

(** Bytes a ring buffer or the stack still holds from earlier use. *)
Definition stale_byte : Z := 170.

Definition fixed_len (n : nat) (bs : list Z) : list Z := take n (bs ++ replicate n 0).
Definition byte_clamp (bs : list Z) : list Z := (fun b => b mod 256) <$> bs.

(** Reads of [n] bytes, and of a string into a buffer of [n] bytes; the string
    reader copies up to the terminator or to the last byte of the buffer. *)
Fixpoint sim_bytes (rd : nat -> option Z) (i n : nat) : option (list Z) :=
  match n with
  | O => Some []
  | S n' =>
      match rd i, sim_bytes rd (S i) n' with
      | Some b, Some bs => Some (b mod 256 :: bs)
      | _, _ => None
      end
  end.

Fixpoint sim_str (rd : nat -> option Z) (i n : nat) : option (list Z) :=
  match n with
  | O => None
  | S n' =>
      match rd i with
      | None => None
      | Some b =>
          match n' with
          | O => Some [0]
          | S _ =>
              if b mod 256 =? 0 then Some [0]
              else match sim_str rd (S i) n' with
                   | Some bs => Some (b mod 256 :: bs)
                   | None => None
                   end
          end
      end
  end.

Definition EFAULT : Z := -14.
Definition E2BIG : Z := -7.
Definition ENOENT : Z := -2.
Definition EINVAL : Z := -22.

Definition sim_probe (rd : nat -> option Z) (dst : list Z) : Z * list Z :=
  match sim_bytes rd 0 (length dst) with
  | Some bs => (0, bs)
  | None => (EFAULT, replicate (length dst) 0)
  end.

Definition sim_probe_str (rd : nat -> option Z) (dst : list Z) : Z * list Z :=
  match sim_str rd 0 (length dst) with
  | Some bs => (Z.of_nat (length bs), bs ++ drop (length bs) dst)
  | None => (EFAULT, replicate (length dst) 0)
  end.

Definition sim_src (s : sim_kernel) (p : kptr) (i : nat) : option Z :=
  match p with
  | KAddr a => sk_kmem s !! (a + Z.of_nat i)
  | KStack b => b !! i
  end.
Definition sim_usr (s : sim_kernel) (a : Z) (i : nat) : option Z :=
  sk_umem s !! (a + Z.of_nat i).

Definition sim_env (s : sim_kernel) : kenv := {|
  cur_pid_tgid := to_u64 (sk_pid_tgid s);
  cur_uid_gid := to_u64 (sk_uid_gid s);
  cur_cgroup_id := to_u64 (sk_cgroup_id s);
  ktime_ns := to_u64 (sk_ktime s);
  cur_comm := fun n => fixed_len n (byte_clamp (take (n - 1) (sk_comm s)));
  kmem := fun a => sk_kmem s !! a;
  umem := fun a => sk_umem s !! a;
  probe_kernel := fun p => sim_probe (sim_src s p);
  probe_kernel_str := fun p => sim_probe_str (sim_src s p);
  probe_user := fun a => sim_probe (sim_usr s a);
  probe_user_str := fun a => sim_probe_str (sim_usr s a);
  uninit := fun n => replicate n stale_byte;
|}.

Definition set_maps (s : sim_kernel) (m : gmap (string * list Z) (list Z)) : sim_kernel :=
  SimK (sk_pid_tgid s) (sk_uid_gid s) (sk_cgroup_id s) (sk_ktime s) (sk_comm s)
       (sk_kmem s) (sk_umem s) m (sk_space s) (sk_log s).
Definition set_ring (s : sim_kernel) (space : Z) (log : list (string * list Z)) : sim_kernel :=
  SimK (sk_pid_tgid s) (sk_uid_gid s) (sk_cgroup_id s) (sk_ktime s) (sk_comm s)
       (sk_kmem s) (sk_umem s) (sk_maps s) space log.

Definition sim_entries (s : sim_kernel) (m : bpf_map) : nat :=
  size (filter (fun kv => kv.1.1 = bm_name m) (sk_maps s)).

#[global] Instance SimKernel : BpfKernel sim_kernel := {
  kernel_env := sim_env;
  map_contents s m key := sk_maps s !! (bm_name m, key);
  map_poke m key v s :=
    match sk_maps s !! (bm_name m, key) with
    | Some _ => set_maps s (<[(bm_name m, key) := v]> (sk_maps s))
    | None => s
    end;
  ringbuf_reserve m n s :=
    if n <=? sk_space s
    then (Some (replicate (Z.to_nat n) stale_byte), set_ring s (sk_space s - n) (sk_log s))
    else (None, s);
  ringbuf_submit m rec s := set_ring s (sk_space s) (sk_log s ++ [(bm_name m, rec)]);
  ring_records s m :=
    (filter (fun e : string * list Z => e.1 = bm_name m) (sk_log s)).*2;
  map_update_elem m key v s :=
    match sk_maps s !! (bm_name m, key) with
    | Some _ => (0, set_maps s (<[(bm_name m, key) := v]> (sk_maps s)))
    | None =>
        if Z.of_nat (sim_entries s m) <? bm_max_entries m
        then (0, set_maps s (<[(bm_name m, key) := v]> (sk_maps s)))
        else (E2BIG, s)
    end;
  map_delete_elem m key s :=
    if bm_type m =? BPF_MAP_TYPE_HASH then
      match sk_maps s !! (bm_name m, key) with
      | Some _ => (0, set_maps s (delete (bm_name m, key) (sk_maps s)))
      | None => (ENOENT, s)
      end
    else (EINVAL, s);
}.

(** ** The reference kernel keeps the promises *)

Lemma length_fixed_len n bs : length (fixed_len n bs) = n.
Proof. unfold fixed_len. rewrite length_take, length_app, length_replicate. lia. Qed.

Lemma byte_clamp_is_byte bs : Forall is_byte (byte_clamp bs).
Proof.
  unfold byte_clamp. apply Forall_fmap, Forall_true. intros. apply Z.mod_pos_bound. lia.
Qed.

Lemma replicate_is_byte n b : is_byte b -> Forall is_byte (replicate n b).
Proof. apply Forall_replicate. Qed.

Lemma fixed_len_is_byte n bs : Forall is_byte bs -> Forall is_byte (fixed_len n bs).
Proof.
  intros. unfold fixed_len. apply Forall_take, Forall_app. split; [done|].
  apply replicate_is_byte. unfold is_byte. lia.
Qed.

Lemma sim_bytes_spec rd n i bs :
  sim_bytes rd i n = Some bs -> length bs = n /\ Forall is_byte bs.
Proof.
  revert i bs. induction n as [|n IH]; intros i bs; simpl; [by intros [= <-]|].
  destruct (rd i), (sim_bytes rd (S i) n) eqn:E; try done. intros [= <-].
  apply IH in E as [<- ?]. split; [done|]. constructor; [|done].
  apply Z.mod_pos_bound. lia.
Qed.

Lemma sim_str_spec rd n i bs :
  sim_str rd i n = Some bs -> (length bs <= n)%nat /\ Forall is_byte bs.
Proof.
  assert (is_byte 0) by (unfold is_byte; lia).
  revert i bs. induction n as [|n IH]; intros i bs; cbn [sim_str]; [done|].
  destruct (rd i) as [b|]; [|done]. destruct n as [|n].
  { intros [= <-]. auto. }
  destruct (b mod 256 =? 0); [intros [= <-]; simpl; split; [lia|auto]|].
  destruct (sim_str rd (S i) (S n)) as [l|] eqn:E; [|done]. intros [= <-].
  apply IH in E as [??]. simpl. split; [lia|]. constructor; [|done].
  apply Z.mod_pos_bound. lia.
Qed.

Lemma is_byte_mod b : is_byte b -> b mod 256 = b.
Proof. intros. by apply Z.mod_small. Qed.

Lemma sim_bytes_complete rd bs : forall i,
  Forall is_byte bs -> (forall j b, bs !! j = Some b -> rd (i + j)%nat = Some b) ->
  sim_bytes rd i (length bs) = Some bs.
Proof.
  induction bs as [|b bs IH]; intros i Hb Hrd; simpl; [done|].
  apply Forall_cons in Hb as [Hb Hbs].
  rewrite <- (Nat.add_0_r i), (Hrd 0%nat b eq_refl), Nat.add_0_r, IH.
  - by rewrite is_byte_mod.
  - done.
  - intros j c Hj. rewrite Nat.add_succ_l, <- Nat.add_succ_r. by apply Hrd.
Qed.

Lemma sim_str_complete rd s : forall i n,
  Forall (fun b => b <> 0) s -> Forall is_byte s -> (0 < n)%nat ->
  (forall j b, (s ++ [0]) !! j = Some b -> rd (i + j)%nat = Some b) ->
  sim_str rd i n = Some (take (Nat.min (S (length s)) n - 1) s ++ [0]).
Proof.
  induction s as [|c s IH]; intros i [|n] Hz Hb Hn Hrd; try lia; cbn [sim_str];
    rewrite <- (Nat.add_0_r i) at 1; rewrite (Hrd 0%nat _ eq_refl).
  { by destruct n. }
  apply Forall_cons in Hz as [? Hz]. apply Forall_cons in Hb as [Hc Hb].
  destruct n as [|n]; [by rewrite Nat.min_r by (simpl; lia)|].
  rewrite is_byte_mod by done. destruct (c =? 0) eqn:E; zbool; [done|].
  rewrite IH; auto; [| lia |].
  - cbn [length]. rewrite !Nat.sub_1_r. simpl.
    replace (Init.Nat.pred (S (length s) `min` S n)) with (length s `min` n)%nat by lia.
    done.
  - intros j b Hj. rewrite Nat.add_succ_l, <- Nat.add_succ_r. by apply Hrd.
Qed.

Lemma sim_probe_ok rd : probe_ok (sim_probe rd) rd.
Proof.
  unfold sim_probe. split_and!.
  - intros dst. destruct (sim_bytes rd 0 (length dst)) eqn:E; simpl.
    + by apply sim_bytes_spec in E as [? _].
    + apply length_replicate.
  - intros dst _. destruct (sim_bytes rd 0 (length dst)) eqn:E; simpl.
    + by apply sim_bytes_spec in E as [_ ?].
    + apply replicate_is_byte. unfold is_byte. lia.
  - intros dst bs Hrd Hb <-. by rewrite sim_bytes_complete.
Qed.

Lemma sim_probe_str_ok rd : probe_str_ok (sim_probe_str rd) rd.
Proof.
  unfold sim_probe_str. split_and!.
  - intros dst. destruct (sim_str rd 0 (length dst)) eqn:E; simpl.
    + apply sim_str_spec in E as [? _]. rewrite length_app, length_drop. lia.
    + apply length_replicate.
  - intros dst Hd. destruct (sim_str rd 0 (length dst)) eqn:E; simpl.
    + apply sim_str_spec in E as [_ ?]. apply Forall_app. auto using Forall_drop.
    + apply replicate_is_byte. unfold is_byte. lia.
  - intros dst s (Hz & Hb & Hrd) Hd n.
    assert (0 < length dst)%nat by (destruct dst; simpl; [done|lia]).
    rewrite (sim_str_complete rd s) by auto. fold n.
    exists (drop n dst). rewrite length_app, length_take. cbn [length].
    replace (Nat.min (n - 1) (length s) + 1)%nat with n by (subst n; lia).
    by rewrite <- app_assoc.
  - intros dst H0. destruct (length dst) eqn:E; simpl; [done|]. rewrite H0. done.
Qed.

Lemma sim_env_ok s : kenv_ok (sim_env s).
Proof.
  constructor; simpl; try (intros; apply to_u_range; lia);
    auto using sim_probe_ok, sim_probe_str_ok, length_fixed_len, length_replicate.
  - intros. apply fixed_len_is_byte, byte_clamp_is_byte.
  - intros. apply replicate_is_byte. unfold is_byte, stale_byte. lia.
Qed.

#[global] Instance SimKernelOk : BpfKernelOk sim_kernel.
Proof.
  constructor; [apply sim_env_ok|..];
    simpl; intros; repeat case_match; simpl in *; simplify_eq;
    rewrite ?filter_app, ?fmap_app;
    try apply lookup_insert_eq; try apply lookup_delete_eq;
    try (by rewrite lookup_insert_ne || by rewrite lookup_delete_ne); zbool; try done; try lia.
  - split; [apply length_replicate|]. apply replicate_is_byte. unfold is_byte, stale_byte. lia.
  - by rewrite filter_cons_True.
  - rewrite filter_cons_False by done. by rewrite app_nil_r.
Qed.
