(* ===== verification/VmlinuxTypes.v ===== *)
(** bpf/vmlinux.h: the kernel types the BPF programs are compiled against.

    One definition per C type, with the members in declaration order, for the
    types of the LSM hook arguments and tracepoint contexts ([struct
    linux_binprm], [file], [socket], [sockaddr], [path], [task_struct],
    [trace_event_raw_sys_enter]), the objects one pointer away from them, the
    kernel's own map objects, and every type these embed by value.  A struct is
    [struct_<tag>], a union [union_<tag>], a typedef has its own name; pointers
    and function pointers are [CPtr], an enum-typed member is an [int]-sized
    integer.  [kernel_types] lists the hook-argument types. *)

From S2P Require Import Prelude CTypes.

Definition u32 : ctype := __u32.

Definition u64 : ctype := __u64.

Definition struct_qstr : ctype :=
  struct [
    mem (union [
      mem (struct [
        mem u32 "hash";
        mem u32 "len"]) "";
      mem u64 "hash_len"]) "";
    mem CPtr "name"].

Definition struct_path : ctype :=
  struct [
    mem CPtr "mnt";
    mem CPtr "dentry"].

Definition __kernel_sa_family_t : ctype := c_ushort.

Definition sa_family_t : ctype := __kernel_sa_family_t.

Definition struct_sockaddr : ctype :=
  struct [
    mem sa_family_t "sa_family";
    mem (CArr 14 c_char) "sa_data"].

Definition struct_seqcount : ctype :=
  struct [
    mem c_uint "sequence"].

Definition seqcount_t : ctype := struct_seqcount.

Definition struct_seqcount_spinlock : ctype :=
  struct [
    mem seqcount_t "seqcount"].

Definition seqcount_spinlock_t : ctype := struct_seqcount_spinlock.

Definition struct_hlist_bl_node : ctype :=
  struct [
    mem CPtr "next";
    mem CPtr "pprev"].

Definition union_shortname_store : ctype :=
  union [
    mem (CArr 40 c_uchar) "string";
    mem (CArr 5 c_ulong) "words"].

Definition arch_spinlock_t : ctype :=
  struct [].

Definition struct_raw_spinlock : ctype :=
  struct [
    mem arch_spinlock_t "raw_lock"].

Definition struct_spinlock : ctype :=
  struct [
    mem (union [
      mem struct_raw_spinlock "rlock"]) ""].

Definition spinlock_t : ctype := struct_spinlock.

Definition struct_lockref : ctype :=
  struct [
    mem (union [
      mem (struct [
        mem spinlock_t "lock";
        mem c_int "count"]) ""]) ""].

Definition struct_list_head : ctype :=
  struct [
    mem CPtr "next";
    mem CPtr "prev"].

Definition struct_hlist_node : ctype :=
  struct [
    mem CPtr "next";
    mem CPtr "pprev"].

Definition struct_hlist_head : ctype :=
  struct [
    mem CPtr "first"].

Definition struct_callback_head : ctype :=
  struct [
    mem CPtr "next";
    mem CPtr "func"].

Definition struct_dentry : ctype :=
  struct [
    mem c_uint "d_flags";
    mem seqcount_spinlock_t "d_seq";
    mem struct_hlist_bl_node "d_hash";
    mem CPtr "d_parent";
    mem (union [
      mem struct_qstr "__d_name";
      mem struct_qstr "d_name"]) "";
    mem CPtr "d_inode";
    mem union_shortname_store "d_shortname";
    mem CPtr "d_op";
    mem CPtr "d_sb";
    mem c_ulong "d_time";
    mem CPtr "d_fsdata";
    mem struct_lockref "d_lockref";
    mem (union [
      mem struct_list_head "d_lru";
      mem CPtr "d_wait"]) "";
    mem struct_hlist_node "d_sib";
    mem struct_hlist_head "d_children";
    mem (union [
      mem struct_hlist_node "d_alias";
      mem struct_hlist_bl_node "d_in_lookup_hash";
      mem struct_callback_head "d_rcu"]) "d_u"].

Definition fmode_t : ctype := c_uint.

Definition __s64 : ctype := c_llong.

Definition s64 : ctype := __s64.

Definition atomic64_t : ctype :=
  struct [
    mem s64 "counter"].

Definition atomic_long_t : ctype := atomic64_t.

Definition raw_spinlock_t : ctype := struct_raw_spinlock.

Definition struct_mutex : ctype :=
  struct [
    mem atomic_long_t "owner";
    mem raw_spinlock_t "wait_lock";
    mem struct_list_head "wait_list"].

Definition __kernel_loff_t : ctype := c_llong.

Definition loff_t : ctype := __kernel_loff_t.

Definition errseq_t : ctype := u32.

Definition struct_llist_node : ctype :=
  struct [
    mem CPtr "next"].

Definition struct_file_ra_state : ctype :=
  struct [
    mem c_ulong "start";
    mem c_uint "size";
    mem c_uint "async_size";
    mem c_uint "ra_pages";
    mem c_ushort "order";
    mem c_ushort "mmap_miss";
    mem loff_t "prev_pos"].

Definition freeptr_t : ctype :=
  struct [
    mem c_ulong "v"].

Definition file_ref_t : ctype :=
  struct [
    mem atomic64_t "refcnt"].

Definition struct_file : ctype :=
  struct [
    mem spinlock_t "f_lock";
    mem fmode_t "f_mode";
    mem CPtr "f_op";
    mem CPtr "f_mapping";
    mem CPtr "private_data";
    mem CPtr "f_inode";
    mem c_uint "f_flags";
    mem c_uint "f_iocb_flags";
    mem CPtr "f_cred";
    mem CPtr "f_owner";
    mem (union [
      mem struct_path "f_path";
      mem struct_path "__f_path"]) "";
    mem (union [
      mem struct_mutex "f_pos_lock";
      mem u64 "f_pipe"]) "";
    mem loff_t "f_pos";
    mem CPtr "f_security";
    mem errseq_t "f_wb_err";
    mem errseq_t "f_sb_err";
    mem (union [
      mem struct_callback_head "f_task_work";
      mem struct_llist_node "f_llist";
      mem struct_file_ra_state "f_ra";
      mem freeptr_t "f_freeptr"]) "";
    mem file_ref_t "f_ref"].

Definition __kernel_ulong_t : ctype := c_ulong.

Definition struct_rlimit : ctype :=
  struct [
    mem __kernel_ulong_t "rlim_cur";
    mem __kernel_ulong_t "rlim_max"].

Definition struct_linux_binprm : ctype :=
  struct [
    mem CPtr "vma";
    mem c_ulong "vma_pages";
    mem c_ulong "argmin";
    mem CPtr "mm";
    mem c_ulong "p";
    bitf c_uint "have_execfd" 1;
    bitf c_uint "execfd_creds" 1;
    bitf c_uint "secureexec" 1;
    bitf c_uint "point_of_no_return" 1;
    bitf c_uint "comm_from_dentry" 1;
    bitf c_uint "is_check" 1;
    mem CPtr "executable";
    mem CPtr "interpreter";
    mem CPtr "file";
    mem CPtr "cred";
    mem c_int "unsafe";
    mem c_uint "per_clear";
    mem c_int "argc";
    mem c_int "envc";
    mem CPtr "filename";
    mem CPtr "interp";
    mem CPtr "fdpath";
    mem c_uint "interp_flags";
    mem c_int "execfd";
    mem c_ulong "exec";
    mem struct_rlimit "rlim_stack";
    mem (CArr 256 c_char) "buf"].

Definition socket_state : ctype := c_enum.

Definition struct_wait_queue_head : ctype :=
  struct [
    mem spinlock_t "lock";
    mem struct_list_head "head"].

Definition wait_queue_head_t : ctype := struct_wait_queue_head.

Definition struct_socket_wq : ctype :=
  struct [
    mem wait_queue_head_t "wait";
    mem CPtr "fasync_list";
    mem c_ulong "flags";
    mem struct_callback_head "rcu"].

Definition struct_socket : ctype :=
  struct [
    mem socket_state "state";
    mem c_short "type";
    mem c_ulong "flags";
    mem CPtr "file";
    mem CPtr "sk";
    mem CPtr "ops";
    mem struct_socket_wq "wq"].

Definition __addrpair : ctype := __u64.

Definition __be32 : ctype := __u32.

Definition __portpair : ctype := __u32.

Definition __be16 : ctype := __u16.

Definition possible_net_t : ctype :=
  struct [].

Definition struct_in6_addr : ctype :=
  struct [
    mem (union [
      mem (CArr 16 __u8) "u6_addr8";
      mem (CArr 8 __be16) "u6_addr16";
      mem (CArr 4 __be32) "u6_addr32"]) "in6_u"].

Definition struct_hlist_nulls_node : ctype :=
  struct [
    mem CPtr "next";
    mem CPtr "pprev"].

Definition atomic_t : ctype :=
  struct [
    mem c_int "counter"].

Definition struct_refcount_struct : ctype :=
  struct [
    mem atomic_t "refs"].

Definition refcount_t : ctype := struct_refcount_struct.

Definition struct_sock_common : ctype :=
  struct [
    mem (union [
      mem __addrpair "skc_addrpair";
      mem (struct [
        mem __be32 "skc_daddr";
        mem __be32 "skc_rcv_saddr"]) ""]) "";
    mem (union [
      mem c_uint "skc_hash";
      mem (CArr 2 __u16) "skc_u16hashes"]) "";
    mem (union [
      mem __portpair "skc_portpair";
      mem (struct [
        mem __be16 "skc_dport";
        mem __u16 "skc_num"]) ""]) "";
    mem c_ushort "skc_family";
    mem c_uchar "skc_state";
    bitf c_uchar "skc_reuse" 4;
    bitf c_uchar "skc_reuseport" 1;
    bitf c_uchar "skc_ipv6only" 1;
    bitf c_uchar "skc_net_refcnt" 1;
    bitf c_uchar "skc_bypass_prot_mem" 1;
    mem c_int "skc_bound_dev_if";
    mem (union [
      mem struct_hlist_node "skc_bind_node";
      mem struct_hlist_node "skc_portaddr_node"]) "";
    mem CPtr "skc_prot";
    mem possible_net_t "skc_net";
    mem struct_in6_addr "skc_v6_daddr";
    mem struct_in6_addr "skc_v6_rcv_saddr";
    mem atomic64_t "skc_cookie";
    mem (union [
      mem c_ulong "skc_flags";
      mem CPtr "skc_listener";
      mem CPtr "skc_tw_dr"]) "";
    mem (CArr 0 c_int) "skc_dontcopy_begin";
    mem (union [
      mem struct_hlist_node "skc_node";
      mem struct_hlist_nulls_node "skc_nulls_node"]) "";
    mem c_ushort "skc_tx_queue_mapping";
    mem (union [
      mem c_int "skc_incoming_cpu";
      mem u32 "skc_rcv_wnd";
      mem u32 "skc_tw_rcv_nxt"]) "";
    mem refcount_t "skc_refcnt";
    mem (CArr 0 c_int) "skc_dontcopy_end";
    mem (union [
      mem u32 "skc_rxhash";
      mem u32 "skc_window_clamp";
      mem u32 "skc_tw_snd_nxt"]) ""].

Definition struct_sk_buff_list : ctype :=
  struct [
    mem CPtr "next";
    mem CPtr "prev"].

Definition struct_sk_buff_head : ctype :=
  struct [
    mem (union [
      mem (struct [
        mem CPtr "next";
        mem CPtr "prev"]) "";
      mem struct_sk_buff_list "list"]) "";
    mem __u32 "qlen";
    mem spinlock_t "lock"].

Definition u16 : ctype := __u16.

Definition u8 : ctype := __u8.

Definition socket_lock_t : ctype :=
  struct [
    mem spinlock_t "slock";
    mem c_int "owned";
    mem wait_queue_head_t "wq"].

Definition struct_rb_root : ctype :=
  struct [
    mem CPtr "rb_node"].

Definition struct_page_frag : ctype :=
  struct [
    mem CPtr "page";
    mem __u32 "offset";
    mem __u32 "size"].

Definition struct_timer_list : ctype :=
  struct [
    mem struct_hlist_node "entry";
    mem c_ulong "expires";
    mem CPtr "function";
    mem u32 "flags"].

Definition __kernel_uid32_t : ctype := c_uint.

Definition uid_t : ctype := __kernel_uid32_t.

Definition kuid_t : ctype :=
  struct [
    mem uid_t "val"].

Definition netdev_features_t : ctype := u64.

Definition gfp_t : ctype := c_uint.

Definition arch_rwlock_t : ctype :=
  struct [].

Definition rwlock_t : ctype :=
  struct [
    mem arch_rwlock_t "raw_lock"].

Definition ktime_t : ctype := s64.

Definition struct_sock_cgroup_data : ctype :=
  struct [].

Definition netns_tracker : ctype :=
  struct [].

Definition struct_xarray : ctype :=
  struct [
    mem spinlock_t "xa_lock";
    mem gfp_t "xa_flags";
    mem CPtr "xa_head"].

Definition struct_sock : ctype :=
  struct [
    mem struct_sock_common "__sk_common";
    mem (CArr 0 __u8) "__cacheline_group_begin__sock_write_rx";
    mem atomic_t "sk_drops";
    mem __s32 "sk_peek_off";
    mem struct_sk_buff_head "sk_error_queue";
    mem struct_sk_buff_head "sk_receive_queue";
    mem (struct [
      mem atomic_t "rmem_alloc";
      mem c_int "len";
      mem CPtr "head";
      mem CPtr "tail"]) "sk_backlog";
    mem (CArr 0 __u8) "__cacheline_group_end__sock_write_rx";
    mem (CArr 0 __u8) "__cacheline_group_begin__sock_read_rx";
    mem CPtr "sk_rx_dst";
    mem c_int "sk_rx_dst_ifindex";
    mem u32 "sk_rx_dst_cookie";
    mem c_uint "sk_ll_usec";
    mem c_uint "sk_napi_id";
    mem u16 "sk_busy_poll_budget";
    mem u8 "sk_prefer_busy_poll";
    mem u8 "sk_userlocks";
    mem c_int "sk_rcvbuf";
    mem CPtr "sk_filter";
    mem (union [
      mem CPtr "sk_wq";
      mem CPtr "sk_wq_raw"]) "";
    mem CPtr "sk_data_ready";
    mem c_long "sk_rcvtimeo";
    mem c_int "sk_rcvlowat";
    mem (CArr 0 __u8) "__cacheline_group_end__sock_read_rx";
    mem (CArr 0 __u8) "__cacheline_group_begin__sock_read_rxtx";
    mem c_int "sk_err";
    mem CPtr "sk_socket";
    mem (CArr 0 __u8) "__cacheline_group_end__sock_read_rxtx";
    mem (CArr 0 __u8) "__cacheline_group_begin__sock_write_rxtx";
    mem socket_lock_t "sk_lock";
    mem u32 "sk_reserved_mem";
    mem c_int "sk_forward_alloc";
    mem u32 "sk_tsflags";
    mem (CArr 0 __u8) "__cacheline_group_end__sock_write_rxtx";
    mem (CArr 0 __u8) "__cacheline_group_begin__sock_write_tx";
    mem c_int "sk_write_pending";
    mem atomic_t "sk_omem_alloc";
    mem c_int "sk_err_soft";
    mem c_int "sk_wmem_queued";
    mem refcount_t "sk_wmem_alloc";
    mem c_ulong "sk_tsq_flags";
    mem (union [
      mem CPtr "sk_send_head";
      mem struct_rb_root "tcp_rtx_queue"]) "";
    mem struct_sk_buff_head "sk_write_queue";
    mem struct_page_frag "sk_frag";
    mem (union [
      mem struct_timer_list "sk_timer";
      mem struct_timer_list "tcp_retransmit_timer";
      mem struct_timer_list "mptcp_retransmit_timer"]) "";
    mem c_ulong "sk_pacing_rate";
    mem atomic_t "sk_zckey";
    mem atomic_t "sk_tskey";
    mem c_ulong "sk_tx_queue_mapping_jiffies";
    mem (CArr 0 __u8) "__cacheline_group_end__sock_write_tx";
    mem (CArr 0 __u8) "__cacheline_group_begin__sock_read_tx";
    mem u32 "sk_dst_pending_confirm";
    mem u32 "sk_pacing_status";
    mem c_ulong "sk_max_pacing_rate";
    mem c_long "sk_sndtimeo";
    mem u32 "sk_priority";
    mem u32 "sk_mark";
    mem kuid_t "sk_uid";
    mem u16 "sk_protocol";
    mem u16 "sk_type";
    mem CPtr "sk_dst_cache";
    mem netdev_features_t "sk_route_caps";
    mem u16 "sk_gso_type";
    mem u16 "sk_gso_max_segs";
    mem c_uint "sk_gso_max_size";
    mem gfp_t "sk_allocation";
    mem u32 "sk_txhash";
    mem c_int "sk_sndbuf";
    mem u8 "sk_pacing_shift";
    mem c_bool "sk_use_task_frag";
    mem (CArr 0 __u8) "__cacheline_group_end__sock_read_tx";
    bitf u8 "sk_gso_disabled" 1;
    bitf u8 "sk_kern_sock" 1;
    bitf u8 "sk_no_check_tx" 1;
    bitf u8 "sk_no_check_rx" 1;
    mem u8 "sk_shutdown";
    mem c_ulong "sk_lingertime";
    mem CPtr "sk_prot_creator";
    mem rwlock_t "sk_callback_lock";
    mem u32 "sk_ack_backlog";
    mem u32 "sk_max_ack_backlog";
    mem c_ulong "sk_ino";
    mem spinlock_t "sk_peer_lock";
    mem c_int "sk_bind_phc";
    mem CPtr "sk_peer_pid";
    mem CPtr "sk_peer_cred";
    mem ktime_t "sk_stamp";
    mem c_int "sk_disconnects";
    mem (union [
      mem u8 "sk_txrehash";
      mem u8 "sk_scm_recv_flags";
      mem (struct [
        bitf u8 "sk_scm_credentials" 1;
        bitf u8 "sk_scm_security" 1;
        bitf u8 "sk_scm_pidfd" 1;
        bitf u8 "sk_scm_rights" 1;
        bitf u8 "sk_scm_unused" 4]) ""]) "";
    mem u8 "sk_clockid";
    bitf u8 "sk_txtime_deadline_mode" 1;
    bitf u8 "sk_txtime_report_errors" 1;
    bitf u8 "sk_txtime_unused" 6;
    mem u8 "sk_bpf_cb_flags";
    mem CPtr "sk_user_data";
    mem CPtr "sk_security";
    mem struct_sock_cgroup_data "sk_cgrp_data";
    mem CPtr "sk_state_change";
    mem CPtr "sk_write_space";
    mem CPtr "sk_error_report";
    mem CPtr "sk_backlog_rcv";
    mem CPtr "sk_destruct";
    mem CPtr "sk_reuseport_cb";
    mem CPtr "sk_bpf_storage";
    mem CPtr "sk_drop_counters";
    mem struct_callback_head "sk_rcu";
    mem netns_tracker "ns_tracker";
    mem struct_xarray "sk_user_frags"].

Definition struct_thread_info : ctype :=
  struct [
    mem c_ulong "flags";
    mem c_ulong "syscall_work";
    mem u32 "status"].

Definition struct___call_single_node : ctype :=
  struct [
    mem struct_llist_node "llist";
    mem (union [
      mem c_uint "u_flags";
      mem atomic_t "a_flags"]) "";
    mem u16 "src";
    mem u16 "dst"].

Definition struct_load_weight : ctype :=
  struct [
    mem c_ulong "weight";
    mem u32 "inv_weight"].

Definition struct_rb_node : ctype :=
  struct [
    mem c_ulong "__rb_parent_color";
    mem CPtr "rb_right";
    mem CPtr "rb_left"].

Definition struct_sched_avg : ctype :=
  struct [
    mem u64 "last_update_time";
    mem u64 "load_sum";
    mem u64 "runnable_sum";
    mem u32 "util_sum";
    mem u32 "period_contrib";
    mem c_ulong "load_avg";
    mem c_ulong "runnable_avg";
    mem c_ulong "util_avg";
    mem c_uint "util_est"].

Definition struct_sched_entity : ctype :=
  struct [
    mem struct_load_weight "load";
    mem struct_rb_node "run_node";
    mem u64 "deadline";
    mem u64 "min_vruntime";
    mem u64 "min_slice";
    mem struct_list_head "group_node";
    mem c_uchar "on_rq";
    mem c_uchar "sched_delayed";
    mem c_uchar "rel_deadline";
    mem c_uchar "custom_slice";
    mem u64 "exec_start";
    mem u64 "sum_exec_runtime";
    mem u64 "prev_sum_exec_runtime";
    mem u64 "vruntime";
    mem (union [
      mem s64 "vlag";
      mem u64 "vprot"]) "";
    mem u64 "slice";
    mem u64 "nr_migrations";
    bitf c_long "" 64;
    bitf c_long "" 64;
    bitf c_long "" 64;
    bitf c_long "" 64;
    bitf c_long "" 64;
    bitf c_long "" 64;
    mem struct_sched_avg "avg"].

Definition struct_sched_rt_entity : ctype :=
  struct [
    mem struct_list_head "run_list";
    mem c_ulong "timeout";
    mem c_ulong "watchdog_stamp";
    mem c_uint "time_slice";
    mem c_ushort "on_rq";
    mem c_ushort "on_list";
    mem CPtr "back"].

Definition struct_timerqueue_node : ctype :=
  struct [
    mem struct_rb_node "node";
    mem ktime_t "expires"].

Definition struct_hrtimer : ctype :=
  struct [
    mem struct_timerqueue_node "node";
    mem ktime_t "_softexpires";
    mem CPtr "function";
    mem CPtr "base";
    mem u8 "state";
    mem u8 "is_rel";
    mem u8 "is_soft";
    mem u8 "is_hard"].

Definition dl_server_pick_f : ctype := CPtr.

Definition struct_sched_dl_entity : ctype :=
  struct [
    mem struct_rb_node "rb_node";
    mem u64 "dl_runtime";
    mem u64 "dl_deadline";
    mem u64 "dl_period";
    mem u64 "dl_bw";
    mem u64 "dl_density";
    mem s64 "runtime";
    mem u64 "deadline";
    mem c_uint "flags";
    bitf c_uint "dl_throttled" 1;
    bitf c_uint "dl_yielded" 1;
    bitf c_uint "dl_non_contending" 1;
    bitf c_uint "dl_overrun" 1;
    bitf c_uint "dl_server" 1;
    bitf c_uint "dl_server_active" 1;
    bitf c_uint "dl_defer" 1;
    bitf c_uint "dl_defer_armed" 1;
    bitf c_uint "dl_defer_running" 1;
    bitf c_uint "dl_defer_idle" 1;
    mem struct_hrtimer "dl_timer";
    mem struct_hrtimer "inactive_timer";
    mem CPtr "rq";
    mem dl_server_pick_f "server_pick_task"].

Definition struct_sched_statistics : ctype :=
  struct [].

Definition struct_cpumask : ctype :=
  struct [
    mem (CArr 1 c_ulong) "bits"].

Definition cpumask_t : ctype := struct_cpumask.

Definition union_rcu_special : ctype :=
  union [
    mem (struct [
      mem u8 "blocked";
      mem u8 "need_qs";
      mem u8 "exp_hint";
      mem u8 "need_mb"]) "b";
    mem u32 "s"].

Definition struct_sched_info : ctype :=
  struct [].

Definition struct_plist_node : ctype :=
  struct [
    mem c_int "prio";
    mem struct_list_head "prio_list";
    mem struct_list_head "node_list"].

Definition __kernel_clockid_t : ctype := c_int.

Definition clockid_t : ctype := __kernel_clockid_t.

Definition struct_restart_block : ctype :=
  struct [
    mem c_ulong "arch_data";
    mem CPtr "fn";
    mem (union [
      mem (struct [
        mem CPtr "uaddr";
        mem u32 "val";
        mem u32 "flags";
        mem u32 "bitset";
        mem ktime_t "time";
        mem CPtr "uaddr2"]) "futex";
      mem (struct [
        mem clockid_t "clockid";
        mem c_enum "type";
        mem (union [
          mem CPtr "rmtp";
          mem CPtr "compat_rmtp"]) "";
        mem ktime_t "expires"]) "nanosleep";
      mem (struct [
        mem CPtr "ufds";
        mem c_int "nfds";
        mem c_int "has_timeout";
        mem c_ulong "tv_sec";
        mem c_ulong "tv_nsec"]) "poll"]) ""].

Definition __kernel_pid_t : ctype := c_int.

Definition pid_t : ctype := __kernel_pid_t.

Definition struct_prev_cputime : ctype :=
  struct [
    mem u64 "utime";
    mem u64 "stime";
    mem raw_spinlock_t "lock"].

Definition struct_posix_cputimers : ctype :=
  struct [].

Definition sigset_t : ctype :=
  struct [
    mem (CArr 1 c_ulong) "sig"].

Definition struct_sigpending : ctype :=
  struct [
    mem struct_list_head "list";
    mem sigset_t "signal"].

Definition __kernel_size_t : ctype := __kernel_ulong_t.

Definition size_t : ctype := __kernel_size_t.

Definition struct_seccomp : ctype :=
  struct [].

Definition struct_syscall_user_dispatch : ctype :=
  struct [
    mem CPtr "selector";
    mem c_ulong "offset";
    mem c_ulong "len";
    mem c_bool "on_dispatch"].

Definition struct_wake_q_node : ctype :=
  struct [
    mem CPtr "next"].

Definition struct_task_io_accounting : ctype :=
  struct [].

Definition struct_rseq_data : ctype :=
  struct [].

Definition struct_sched_mm_cid : ctype :=
  struct [].

Definition struct_arch_tlbflush_unmap_batch : ctype :=
  struct [
    mem struct_cpumask "cpumask";
    mem c_bool "unmapped_pages"].

Definition struct_tlbflush_unmap_batch : ctype :=
  struct [
    mem struct_arch_tlbflush_unmap_batch "arch";
    mem c_bool "flush_required";
    mem c_bool "writable"].

Definition struct_kmap_ctrl : ctype :=
  struct [].

Definition struct_llist_head : ctype :=
  struct [
    mem CPtr "first"].

Definition union_unwind_task_id : ctype :=
  union [
    mem (struct [
      mem u32 "cpu";
      mem u32 "cnt"]) "";
    mem u64 "id"].

Definition struct_unwind_task_info : ctype :=
  struct [
    mem atomic_long_t "unwind_mask";
    mem CPtr "cache";
    mem struct_callback_head "work";
    mem union_unwind_task_id "id"].

Definition struct_desc_struct : ctype :=
  struct [
    mem u16 "limit0";
    mem u16 "base0";
    bitf u16 "base1" 8;
    bitf u16 "type" 4;
    bitf u16 "s" 1;
    bitf u16 "dpl" 2;
    bitf u16 "p" 1;
    bitf u16 "limit1" 4;
    bitf u16 "avl" 1;
    bitf u16 "l" 1;
    bitf u16 "d" 1;
    bitf u16 "g" 1;
    bitf u16 "base2" 8].

Definition struct_thread_struct : ctype :=
  struct [
    mem (CArr 3 struct_desc_struct) "tls_array";
    mem c_ulong "sp";
    mem c_ushort "es";
    mem c_ushort "ds";
    mem c_ushort "fsindex";
    mem c_ushort "gsindex";
    mem c_ulong "fsbase";
    mem c_ulong "gsbase";
    mem (CArr 4 CPtr) "ptrace_bps";
    mem c_ulong "virtual_dr6";
    mem c_ulong "ptrace_dr7";
    mem c_ulong "cr2";
    mem c_ulong "trap_nr";
    mem c_ulong "error_code";
    mem CPtr "io_bitmap";
    mem c_ulong "iopl_emul";
    bitf c_uint "iopl_warn" 1;
    mem u32 "pkru"].

Definition struct_task_struct : ctype :=
  struct [
    mem struct_thread_info "thread_info";
    mem c_uint "__state";
    mem c_uint "saved_state";
    mem CPtr "stack";
    mem refcount_t "usage";
    mem c_uint "flags";
    mem c_uint "ptrace";
    mem c_int "on_cpu";
    mem struct___call_single_node "wake_entry";
    mem c_uint "wakee_flips";
    mem c_ulong "wakee_flip_decay_ts";
    mem CPtr "last_wakee";
    mem c_int "recent_used_cpu";
    mem c_int "wake_cpu";
    mem c_int "on_rq";
    mem c_int "prio";
    mem c_int "static_prio";
    mem c_int "normal_prio";
    mem c_uint "rt_priority";
    mem struct_sched_entity "se";
    mem struct_sched_rt_entity "rt";
    mem struct_sched_dl_entity "dl";
    mem CPtr "dl_server";
    mem CPtr "sched_class";
    bitf c_long "" 64;
    bitf c_long "" 64;
    bitf c_long "" 64;
    mem struct_sched_statistics "stats";
    mem c_uint "policy";
    mem c_ulong "max_allowed_capacity";
    mem c_int "nr_cpus_allowed";
    mem CPtr "cpus_ptr";
    mem CPtr "user_cpus_ptr";
    mem cpumask_t "cpus_mask";
    mem CPtr "migration_pending";
    mem c_ushort "migration_disabled";
    mem c_ushort "migration_flags";
    mem c_int "trc_reader_nesting";
    mem c_int "trc_ipi_to_cpu";
    mem union_rcu_special "trc_reader_special";
    mem struct_list_head "trc_holdout_list";
    mem struct_list_head "trc_blkd_node";
    mem c_int "trc_blkd_cpu";
    mem struct_sched_info "sched_info";
    mem struct_list_head "tasks";
    mem struct_plist_node "pushable_tasks";
    mem struct_rb_node "pushable_dl_tasks";
    mem CPtr "mm";
    mem CPtr "active_mm";
    mem CPtr "faults_disabled_mapping";
    mem c_int "exit_state";
    mem c_int "exit_code";
    mem c_int "exit_signal";
    mem c_int "pdeath_signal";
    mem c_ulong "jobctl";
    mem c_uint "personality";
    bitf c_uint "sched_reset_on_fork" 1;
    bitf c_uint "sched_contributes_to_load" 1;
    bitf c_uint "sched_migrated" 1;
    bitf c_uint "sched_task_hot" 1;
    bitf c_long "" 28;
    bitf c_uint "sched_remote_wakeup" 1;
    bitf c_uint "in_execve" 1;
    bitf c_uint "in_iowait" 1;
    bitf c_uint "restore_sigmask" 1;
    bitf c_uint "in_nf_duplicate" 1;
    mem c_ulong "atomic_flags";
    mem struct_restart_block "restart_block";
    mem pid_t "pid";
    mem pid_t "tgid";
    mem CPtr "real_parent";
    mem CPtr "parent";
    mem struct_list_head "children";
    mem struct_list_head "sibling";
    mem CPtr "group_leader";
    mem struct_list_head "ptraced";
    mem struct_list_head "ptrace_entry";
    mem CPtr "thread_pid";
    mem (CArr 4 struct_hlist_node) "pid_links";
    mem struct_list_head "thread_node";
    mem CPtr "vfork_done";
    mem CPtr "set_child_tid";
    mem CPtr "clear_child_tid";
    mem CPtr "worker_private";
    mem u64 "utime";
    mem u64 "stime";
    mem u64 "gtime";
    mem struct_prev_cputime "prev_cputime";
    mem c_ulong "nvcsw";
    mem c_ulong "nivcsw";
    mem u64 "start_time";
    mem u64 "start_boottime";
    mem c_ulong "min_flt";
    mem c_ulong "maj_flt";
    mem struct_posix_cputimers "posix_cputimers";
    mem CPtr "ptracer_cred";
    mem CPtr "real_cred";
    mem CPtr "cred";
    mem (CArr 16 c_char) "comm";
    mem CPtr "nameidata";
    mem CPtr "fs";
    mem CPtr "files";
    mem CPtr "nsproxy";
    mem CPtr "signal";
    mem CPtr "sighand";
    mem sigset_t "blocked";
    mem sigset_t "real_blocked";
    mem sigset_t "saved_sigmask";
    mem struct_sigpending "pending";
    mem c_ulong "sas_ss_sp";
    mem size_t "sas_ss_size";
    mem c_uint "sas_ss_flags";
    mem CPtr "task_works";
    mem struct_seccomp "seccomp";
    mem struct_syscall_user_dispatch "syscall_dispatch";
    mem u64 "parent_exec_id";
    mem u64 "self_exec_id";
    mem spinlock_t "alloc_lock";
    mem raw_spinlock_t "pi_lock";
    mem struct_wake_q_node "wake_q";
    mem CPtr "blocked_on";
    mem CPtr "journal_info";
    mem CPtr "bio_list";
    mem CPtr "plug";
    mem CPtr "reclaim_state";
    mem CPtr "io_context";
    mem c_ulong "ptrace_message";
    mem CPtr "last_siginfo";
    mem struct_task_io_accounting "ioac";
    mem (CArr 4 u8) "perf_recursion";
    mem CPtr "perf_event_ctxp";
    mem struct_mutex "perf_event_mutex";
    mem struct_list_head "perf_event_list";
    mem CPtr "perf_ctx_data";
    mem struct_rseq_data "rseq";
    mem struct_sched_mm_cid "mm_cid";
    mem struct_tlbflush_unmap_batch "tlb_ubc";
    mem CPtr "splice_pipe";
    mem struct_page_frag "task_frag";
    mem c_int "nr_dirtied";
    mem c_int "nr_dirtied_pause";
    mem c_ulong "dirty_paused_when";
    mem u64 "timer_slack_ns";
    mem u64 "default_timer_slack_ns";
    mem c_int "curr_ret_stack";
    mem c_int "curr_ret_depth";
    mem CPtr "ret_stack";
    mem c_ullong "ftrace_timestamp";
    mem c_ullong "ftrace_sleeptime";
    mem atomic_t "trace_overrun";
    mem atomic_t "tracing_graph_pause";
    mem c_ulong "trace_recursion";
    mem CPtr "utask";
    mem struct_kmap_ctrl "kmap_ctrl";
    mem struct_callback_head "rcu";
    mem refcount_t "rcu_users";
    mem c_int "pagefault_disabled";
    mem CPtr "oom_reaper_list";
    mem struct_timer_list "oom_reaper_timer";
    mem CPtr "stack_vm_area";
    mem refcount_t "stack_refcount";
    mem CPtr "security";
    mem CPtr "bpf_storage";
    mem CPtr "bpf_ctx";
    mem CPtr "bpf_net_context";
    mem struct_llist_head "kretprobe_instances";
    mem struct_llist_head "rethooks";
    mem struct_callback_head "l1d_flush_kill";
    mem struct_unwind_task_info "unwind_info";
    mem struct_thread_struct "thread";
    bitf c_long "" 64;
    bitf c_long "" 64].

Definition struct_trace_entry : ctype :=
  struct [
    mem c_ushort "type";
    mem c_uchar "flags";
    mem c_uchar "preempt_count";
    mem c_int "pid"].

Definition struct_trace_event_raw_sys_enter : ctype :=
  struct [
    mem struct_trace_entry "ent";
    mem c_long "id";
    mem (CArr 6 c_ulong) "args";
    mem (CArr 0 c_char) "__data"].

Definition struct_trace_event_raw_sys_exit : ctype :=
  struct [
    mem struct_trace_entry "ent";
    mem c_long "id";
    mem c_long "ret";
    mem (CArr 0 c_char) "__data"].

Definition __kernel_gid32_t : ctype := c_uint.

Definition gid_t : ctype := __kernel_gid32_t.

Definition kgid_t : ctype :=
  struct [
    mem gid_t "val"].

Definition kernel_cap_t : ctype :=
  struct [
    mem u64 "val"].

Definition struct_cred : ctype :=
  struct [
    mem atomic_long_t "usage";
    mem kuid_t "uid";
    mem kgid_t "gid";
    mem kuid_t "suid";
    mem kgid_t "sgid";
    mem kuid_t "euid";
    mem kgid_t "egid";
    mem kuid_t "fsuid";
    mem kgid_t "fsgid";
    mem c_uint "securebits";
    mem kernel_cap_t "cap_inheritable";
    mem kernel_cap_t "cap_permitted";
    mem kernel_cap_t "cap_effective";
    mem kernel_cap_t "cap_bset";
    mem kernel_cap_t "cap_ambient";
    mem CPtr "security";
    mem CPtr "user";
    mem CPtr "user_ns";
    mem CPtr "ucounts";
    mem CPtr "group_info";
    mem (union [
      mem c_int "non_rcu";
      mem struct_callback_head "rcu"]) ""].

Definition umode_t : ctype := c_ushort.

Definition __kernel_dev_t : ctype := u32.

Definition dev_t : ctype := __kernel_dev_t.

Definition time64_t : ctype := __s64.

Definition blkcnt_t : ctype := u64.

Definition struct_inode_state_flags : ctype :=
  struct [
    mem c_enum "__state"].

Definition struct_rw_semaphore : ctype :=
  struct [
    mem atomic_long_t "count";
    mem atomic_long_t "owner";
    mem raw_spinlock_t "wait_lock";
    mem struct_list_head "wait_list"].

Definition struct_rb_root_cached : ctype :=
  struct [
    mem struct_rb_root "rb_root";
    mem CPtr "rb_leftmost"].

Definition struct_address_space : ctype :=
  struct [
    mem CPtr "host";
    mem struct_xarray "i_pages";
    mem struct_rw_semaphore "invalidate_lock";
    mem gfp_t "gfp_mask";
    mem atomic_t "i_mmap_writable";
    mem struct_rb_root_cached "i_mmap";
    mem c_ulong "nrpages";
    mem c_ulong "writeback_index";
    mem CPtr "a_ops";
    mem c_ulong "flags";
    mem errseq_t "wb_err";
    mem spinlock_t "i_private_lock";
    mem struct_list_head "i_private_list";
    mem struct_rw_semaphore "i_mmap_rwsem";
    mem CPtr "i_private_data"].

Definition struct_inode : ctype :=
  struct [
    mem umode_t "i_mode";
    mem c_ushort "i_opflags";
    mem c_uint "i_flags";
    mem kuid_t "i_uid";
    mem kgid_t "i_gid";
    mem CPtr "i_op";
    mem CPtr "i_sb";
    mem CPtr "i_mapping";
    mem CPtr "i_security";
    mem c_ulong "i_ino";
    mem (union [
      mem c_uint "i_nlink";
      mem c_uint "__i_nlink"]) "";
    mem dev_t "i_rdev";
    mem loff_t "i_size";
    mem time64_t "i_atime_sec";
    mem time64_t "i_mtime_sec";
    mem time64_t "i_ctime_sec";
    mem u32 "i_atime_nsec";
    mem u32 "i_mtime_nsec";
    mem u32 "i_ctime_nsec";
    mem u32 "i_generation";
    mem spinlock_t "i_lock";
    mem c_ushort "i_bytes";
    mem u8 "i_blkbits";
    mem c_enum "i_write_hint";
    mem blkcnt_t "i_blocks";
    mem struct_inode_state_flags "i_state";
    mem struct_rw_semaphore "i_rwsem";
    mem c_ulong "dirtied_when";
    mem c_ulong "dirtied_time_when";
    mem struct_hlist_node "i_hash";
    mem struct_list_head "i_io_list";
    mem struct_list_head "i_lru";
    mem struct_list_head "i_sb_list";
    mem struct_list_head "i_wb_list";
    mem (union [
      mem struct_hlist_head "i_dentry";
      mem struct_callback_head "i_rcu"]) "";
    mem atomic64_t "i_version";
    mem atomic64_t "i_sequence";
    mem atomic_t "i_count";
    mem atomic_t "i_dio_count";
    mem atomic_t "i_writecount";
    mem (union [
      mem CPtr "i_fop";
      mem CPtr "free_inode"]) "";
    mem CPtr "i_flctx";
    mem struct_address_space "i_data";
    mem (union [
      mem struct_list_head "i_devices";
      mem c_int "i_linklen"]) "";
    mem (union [
      mem CPtr "i_pipe";
      mem CPtr "i_cdev";
      mem CPtr "i_link";
      mem c_uint "i_dir_seq"]) "";
    mem CPtr "i_private"].

Definition struct_hlist_bl_head : ctype :=
  struct [
    mem CPtr "first"].

Definition qsize_t : ctype := c_llong.

Definition struct_mem_dqinfo : ctype :=
  struct [
    mem CPtr "dqi_format";
    mem c_int "dqi_fmt_id";
    mem struct_list_head "dqi_dirty_list";
    mem c_ulong "dqi_flags";
    mem c_uint "dqi_bgrace";
    mem c_uint "dqi_igrace";
    mem qsize_t "dqi_max_spc_limit";
    mem qsize_t "dqi_max_ino_limit";
    mem CPtr "dqi_priv"].

Definition struct_quota_info : ctype :=
  struct [
    mem c_uint "flags";
    mem struct_rw_semaphore "dqio_sem";
    mem (CArr 3 CPtr) "files";
    mem (CArr 3 struct_mem_dqinfo) "info";
    mem (CArr 3 CPtr) "ops"].

Definition struct_rcu_sync : ctype :=
  struct [
    mem c_int "gp_state";
    mem c_int "gp_count";
    mem wait_queue_head_t "gp_wait";
    mem struct_callback_head "cb_head"].

Definition struct_rcuwait : ctype :=
  struct [
    mem CPtr "task"].

Definition struct_percpu_rw_semaphore : ctype :=
  struct [
    mem struct_rcu_sync "rss";
    mem CPtr "read_count";
    mem struct_rcuwait "writer";
    mem wait_queue_head_t "waiters";
    mem atomic_t "block"].

Definition struct_sb_writers : ctype :=
  struct [
    mem c_ushort "frozen";
    mem c_int "freeze_kcount";
    mem c_int "freeze_ucount";
    mem CPtr "freeze_owner";
    mem (CArr 3 struct_percpu_rw_semaphore) "rw_sem"].

Definition uuid_t : ctype :=
  struct [
    mem (CArr 16 __u8) "b"].

Definition struct_list_lru : ctype :=
  struct [
    mem CPtr "node"].

Definition work_func_t : ctype := CPtr.

Definition struct_work_struct : ctype :=
  struct [
    mem atomic_long_t "data";
    mem struct_list_head "entry";
    mem work_func_t "func"].

Definition struct_super_block : ctype :=
  struct [
    mem struct_list_head "s_list";
    mem dev_t "s_dev";
    mem c_uchar "s_blocksize_bits";
    mem c_ulong "s_blocksize";
    mem loff_t "s_maxbytes";
    mem CPtr "s_type";
    mem CPtr "s_op";
    mem CPtr "dq_op";
    mem CPtr "s_qcop";
    mem CPtr "s_export_op";
    mem c_ulong "s_flags";
    mem c_ulong "s_iflags";
    mem c_ulong "s_magic";
    mem CPtr "s_root";
    mem struct_rw_semaphore "s_umount";
    mem c_int "s_count";
    mem atomic_t "s_active";
    mem CPtr "s_security";
    mem CPtr "s_xattr";
    mem struct_hlist_bl_head "s_roots";
    mem CPtr "s_mounts";
    mem CPtr "s_bdev";
    mem CPtr "s_bdev_file";
    mem CPtr "s_bdi";
    mem CPtr "s_mtd";
    mem struct_hlist_node "s_instances";
    mem c_uint "s_quota_types";
    mem struct_quota_info "s_dquot";
    mem struct_sb_writers "s_writers";
    mem CPtr "s_fs_info";
    mem u32 "s_time_gran";
    mem time64_t "s_time_min";
    mem time64_t "s_time_max";
    mem (CArr 32 c_char) "s_id";
    mem uuid_t "s_uuid";
    mem u8 "s_uuid_len";
    mem (CArr 37 c_char) "s_sysfs_name";
    mem c_uint "s_max_links";
    mem c_uint "s_d_flags";
    mem struct_mutex "s_vfs_rename_mutex";
    mem CPtr "s_subtype";
    mem CPtr "__s_d_op";
    mem CPtr "s_shrink";
    mem atomic_long_t "s_remove_count";
    mem c_int "s_readonly_remount";
    mem errseq_t "s_wb_err";
    mem CPtr "s_dio_done_wq";
    mem struct_hlist_head "s_pins";
    mem CPtr "s_user_ns";
    mem struct_list_lru "s_dentry_lru";
    mem struct_list_lru "s_inode_lru";
    mem struct_callback_head "rcu";
    mem struct_work_struct "destroy_work";
    mem struct_mutex "s_sync_lock";
    mem c_int "s_stack_depth";
    mem spinlock_t "s_inode_list_lock";
    mem struct_list_head "s_inodes";
    mem spinlock_t "s_inode_wblist_lock";
    mem struct_list_head "s_inodes_wb";
    mem c_long "s_min_writeback_pages"].

Definition struct_vfsmount : ctype :=
  struct [
    mem CPtr "mnt_root";
    mem CPtr "mnt_sb";
    mem c_int "mnt_flags";
    mem CPtr "mnt_idmap"].

Definition struct_maple_tree : ctype :=
  struct [
    mem (union [
      mem spinlock_t "ma_lock"]) "";
    mem c_uint "ma_flags";
    mem CPtr "ma_root"].

Definition struct_mm_mm_cid : ctype :=
  struct [].

Definition vm_flags_t : ctype := c_ulong.

Definition struct_percpu_counter : ctype :=
  struct [
    mem s64 "count"].

Definition __s16 : ctype := c_short.

Definition s16 : ctype := __s16.

Definition mm_context_t : ctype :=
  struct [
    mem u64 "ctx_id";
    mem atomic64_t "tlb_gen";
    mem c_ulong "next_trim_cpumask";
    mem c_ulong "flags";
    mem struct_mutex "lock";
    mem CPtr "vdso";
    mem CPtr "vdso_image";
    mem atomic_t "perf_rdpmc_allowed";
    mem u16 "pkey_allocation_map";
    mem s16 "execute_only_pkey";
    mem u16 "global_asid";
    mem c_bool "asid_transition"].

Definition mm_flags_t : ctype :=
  struct [
    mem (CArr 1 c_ulong) "__mm_flags"].

Definition struct_uprobes_state : ctype :=
  struct [
    mem CPtr "xol_area";
    mem struct_hlist_head "head_tramps"].

Definition struct_mm_struct : ctype :=
  struct [
    mem (struct [
      mem (struct [
        mem atomic_t "mm_count"]) "";
      mem struct_maple_tree "mm_mt";
      mem c_ulong "mmap_base";
      mem c_ulong "mmap_legacy_base";
      mem c_ulong "task_size";
      mem CPtr "pgd";
      mem atomic_t "mm_users";
      mem struct_mm_mm_cid "mm_cid";
      mem atomic_long_t "pgtables_bytes";
      mem c_int "map_count";
      mem spinlock_t "page_table_lock";
      mem struct_rw_semaphore "mmap_lock";
      mem struct_list_head "mmlist";
      mem c_ulong "hiwater_rss";
      mem c_ulong "hiwater_vm";
      mem c_ulong "total_vm";
      mem c_ulong "locked_vm";
      mem atomic64_t "pinned_vm";
      mem c_ulong "data_vm";
      mem c_ulong "exec_vm";
      mem c_ulong "stack_vm";
      mem vm_flags_t "def_flags";
      mem seqcount_t "write_protect_seq";
      mem spinlock_t "arg_lock";
      mem c_ulong "start_code";
      mem c_ulong "end_code";
      mem c_ulong "start_data";
      mem c_ulong "end_data";
      mem c_ulong "start_brk";
      mem c_ulong "brk";
      mem c_ulong "start_stack";
      mem c_ulong "arg_start";
      mem c_ulong "arg_end";
      mem c_ulong "env_start";
      mem c_ulong "env_end";
      mem (CArr 50 c_ulong) "saved_auxv";
      mem (CArr 4 struct_percpu_counter) "rss_stat";
      mem CPtr "binfmt";
      mem mm_context_t "context";
      mem mm_flags_t "flags";
      mem CPtr "user_ns";
      mem CPtr "exe_file";
      mem atomic_t "tlb_flush_pending";
      mem atomic_t "tlb_flush_batched";
      mem struct_uprobes_state "uprobes_state";
      mem struct_work_struct "async_put_work"]) "";
    mem (CArr 0 c_char) "flexible_array"].

Definition fop_flags_t : ctype := c_uint.

Definition struct_file_operations : ctype :=
  struct [
    mem CPtr "owner";
    mem fop_flags_t "fop_flags";
    mem CPtr "llseek";
    mem CPtr "read";
    mem CPtr "write";
    mem CPtr "read_iter";
    mem CPtr "write_iter";
    mem CPtr "iopoll";
    mem CPtr "iterate_shared";
    mem CPtr "poll";
    mem CPtr "unlocked_ioctl";
    mem CPtr "compat_ioctl";
    mem CPtr "mmap";
    mem CPtr "open";
    mem CPtr "flush";
    mem CPtr "release";
    mem CPtr "fsync";
    mem CPtr "fasync";
    mem CPtr "lock";
    mem CPtr "get_unmapped_area";
    mem CPtr "check_flags";
    mem CPtr "flock";
    mem CPtr "splice_write";
    mem CPtr "splice_read";
    mem CPtr "splice_eof";
    mem CPtr "setlease";
    mem CPtr "fallocate";
    mem CPtr "show_fdinfo";
    mem CPtr "copy_file_range";
    mem CPtr "remap_file_range";
    mem CPtr "fadvise";
    mem CPtr "uring_cmd";
    mem CPtr "uring_cmd_iopoll";
    mem CPtr "mmap_prepare"].

Definition struct_proto_ops : ctype :=
  struct [
    mem c_int "family";
    mem CPtr "owner";
    mem CPtr "release";
    mem CPtr "bind";
    mem CPtr "connect";
    mem CPtr "socketpair";
    mem CPtr "accept";
    mem CPtr "getname";
    mem CPtr "poll";
    mem CPtr "ioctl";
    mem CPtr "gettstamp";
    mem CPtr "listen";
    mem CPtr "shutdown";
    mem CPtr "setsockopt";
    mem CPtr "getsockopt";
    mem CPtr "show_fdinfo";
    mem CPtr "sendmsg";
    mem CPtr "recvmsg";
    mem CPtr "mmap";
    mem CPtr "splice_read";
    mem CPtr "splice_eof";
    mem CPtr "set_peek_off";
    mem CPtr "peek_len";
    mem CPtr "read_sock";
    mem CPtr "read_skb";
    mem CPtr "sendmsg_locked";
    mem CPtr "set_rcvlowat"].

Definition slab_flags_t : ctype := c_uint.

Definition struct_proto : ctype :=
  struct [
    mem CPtr "close";
    mem CPtr "pre_connect";
    mem CPtr "connect";
    mem CPtr "disconnect";
    mem CPtr "accept";
    mem CPtr "ioctl";
    mem CPtr "init";
    mem CPtr "destroy";
    mem CPtr "shutdown";
    mem CPtr "setsockopt";
    mem CPtr "getsockopt";
    mem CPtr "keepalive";
    mem CPtr "sendmsg";
    mem CPtr "recvmsg";
    mem CPtr "splice_eof";
    mem CPtr "bind";
    mem CPtr "bind_add";
    mem CPtr "backlog_rcv";
    mem CPtr "bpf_bypass_getsockopt";
    mem CPtr "release_cb";
    mem CPtr "hash";
    mem CPtr "unhash";
    mem CPtr "rehash";
    mem CPtr "get_port";
    mem CPtr "put_port";
    mem CPtr "psock_update_sk_prot";
    mem CPtr "stream_memory_free";
    mem CPtr "sock_is_readable";
    mem CPtr "enter_memory_pressure";
    mem CPtr "leave_memory_pressure";
    mem CPtr "memory_allocated";
    mem CPtr "per_cpu_fw_alloc";
    mem CPtr "sockets_allocated";
    mem CPtr "memory_pressure";
    mem CPtr "sysctl_mem";
    mem CPtr "sysctl_wmem";
    mem CPtr "sysctl_rmem";
    mem u32 "sysctl_wmem_offset";
    mem u32 "sysctl_rmem_offset";
    mem c_int "max_header";
    mem c_bool "no_autobind";
    mem CPtr "slab";
    mem c_uint "obj_size";
    mem c_uint "ipv6_pinfo_offset";
    mem slab_flags_t "slab_flags";
    mem c_uint "useroffset";
    mem c_uint "usersize";
    mem CPtr "rsk_prot";
    mem CPtr "twsk_prot";
    mem (union [
      mem CPtr "hashinfo";
      mem CPtr "udp_table";
      mem CPtr "raw_hash";
      mem CPtr "smc_hash"]) "h";
    mem CPtr "owner";
    mem (CArr 32 c_char) "name";
    mem struct_list_head "node";
    mem CPtr "diag_destroy"].

Definition seqlock_t : ctype :=
  struct [
    mem seqcount_spinlock_t "seqcount";
    mem spinlock_t "lock"].

Definition struct_signal_struct : ctype :=
  struct [
    mem refcount_t "sigcnt";
    mem atomic_t "live";
    mem c_int "nr_threads";
    mem c_int "quick_threads";
    mem struct_list_head "thread_head";
    mem wait_queue_head_t "wait_chldexit";
    mem CPtr "curr_target";
    mem struct_sigpending "shared_pending";
    mem struct_hlist_head "multiprocess";
    mem c_int "group_exit_code";
    mem c_int "notify_count";
    mem CPtr "group_exec_task";
    mem c_int "group_stop_count";
    mem c_uint "flags";
    mem CPtr "core_state";
    bitf c_uint "is_child_subreaper" 1;
    bitf c_uint "has_child_subreaper" 1;
    mem struct_posix_cputimers "posix_cputimers";
    mem (CArr 4 CPtr) "pids";
    mem CPtr "tty_old_pgrp";
    mem c_int "leader";
    mem CPtr "tty";
    mem seqlock_t "stats_lock";
    mem u64 "utime";
    mem u64 "stime";
    mem u64 "cutime";
    mem u64 "cstime";
    mem u64 "gtime";
    mem u64 "cgtime";
    mem struct_prev_cputime "prev_cputime";
    mem c_ulong "nvcsw";
    mem c_ulong "nivcsw";
    mem c_ulong "cnvcsw";
    mem c_ulong "cnivcsw";
    mem c_ulong "min_flt";
    mem c_ulong "maj_flt";
    mem c_ulong "cmin_flt";
    mem c_ulong "cmaj_flt";
    mem c_ulong "inblock";
    mem c_ulong "oublock";
    mem c_ulong "cinblock";
    mem c_ulong "coublock";
    mem c_ulong "maxrss";
    mem c_ulong "cmaxrss";
    mem struct_task_io_accounting "ioac";
    mem c_ullong "sum_sched_runtime";
    mem (CArr 16 struct_rlimit) "rlim";
    mem c_bool "oom_flag_origin";
    mem c_short "oom_score_adj";
    mem c_short "oom_score_adj_min";
    mem CPtr "oom_mm";
    mem struct_mutex "cred_guard_mutex";
    mem struct_rw_semaphore "exec_update_lock"].

Definition struct_fdtable : ctype :=
  struct [
    mem c_uint "max_fds";
    mem CPtr "fd";
    mem CPtr "close_on_exec";
    mem CPtr "open_fds";
    mem CPtr "full_fds_bits";
    mem struct_callback_head "rcu"].

Definition struct_files_struct : ctype :=
  struct [
    mem atomic_t "count";
    mem c_bool "resize_in_progress";
    mem wait_queue_head_t "resize_wait";
    mem CPtr "fdt";
    mem struct_fdtable "fdtab";
    mem spinlock_t "file_lock";
    mem c_uint "next_fd";
    mem (CArr 1 c_ulong) "close_on_exec_init";
    mem (CArr 1 c_ulong) "open_fds_init";
    mem (CArr 1 c_ulong) "full_fds_bits_init";
    mem (CArr 64 CPtr) "fd_array"].

Definition struct_fs_struct : ctype :=
  struct [
    mem c_int "users";
    mem seqlock_t "seq";
    mem c_int "umask";
    mem c_int "in_exec";
    mem struct_path "root";
    mem struct_path "pwd"].

Definition struct_nsproxy : ctype :=
  struct [
    mem refcount_t "count";
    mem CPtr "uts_ns";
    mem CPtr "ipc_ns";
    mem CPtr "mnt_ns";
    mem CPtr "pid_ns_for_children";
    mem CPtr "net_ns";
    mem CPtr "time_ns";
    mem CPtr "time_ns_for_children";
    mem CPtr "cgroup_ns"].

Definition struct_upid : ctype :=
  struct [
    mem c_int "nr";
    mem CPtr "ns"].

Definition struct_pid : ctype :=
  struct [
    mem refcount_t "count";
    mem c_uint "level";
    mem spinlock_t "lock";
    mem (struct [
      mem u64 "ino";
      mem struct_rb_node "pidfs_node";
      mem CPtr "stashed";
      mem CPtr "attr"]) "";
    mem (CArr 4 struct_hlist_head) "tasks";
    mem struct_hlist_head "inodes";
    mem wait_queue_head_t "wait_pidfd";
    mem struct_callback_head "rcu";
    mem (CArr 0 struct_upid) "numbers"].

Definition struct_bpf_map : ctype :=
  struct [
    mem (CArr 32 u8) "sha";
    mem CPtr "ops";
    mem CPtr "inner_map_meta";
    mem CPtr "security";
    mem c_enum "map_type";
    mem u32 "key_size";
    mem u32 "value_size";
    mem u32 "max_entries";
    mem u64 "map_extra";
    mem u32 "map_flags";
    mem u32 "id";
    mem CPtr "record";
    mem c_int "numa_node";
    mem u32 "btf_key_type_id";
    mem u32 "btf_value_type_id";
    mem u32 "btf_vmlinux_value_type_id";
    mem CPtr "btf";
    mem (CArr 16 c_char) "name";
    mem struct_mutex "freeze_mutex";
    mem atomic64_t "refcnt";
    mem atomic64_t "usercnt";
    mem (union [
      mem struct_work_struct "work";
      mem struct_callback_head "rcu"]) "";
    mem atomic64_t "writecnt";
    mem spinlock_t "owner_lock";
    mem CPtr "owner";
    mem c_bool "bypass_spec_v1";
    mem c_bool "frozen";
    mem c_bool "free_after_mult_rcu_gp";
    mem c_bool "free_after_rcu_gp";
    mem atomic64_t "sleepable_refcnt";
    mem CPtr "elem_count";
    mem u64 "cookie";
    mem CPtr "excl_prog_sha"].

Definition struct_bpf_mem_alloc : ctype :=
  struct [
    mem CPtr "caches";
    mem CPtr "cache";
    mem CPtr "objcg";
    mem c_bool "percpu";
    mem struct_work_struct "work"].

Definition struct_pcpu_freelist : ctype :=
  struct [
    mem CPtr "freelist"].

Definition struct_bpf_lru_list : ctype :=
  struct [
    mem (CArr 3 struct_list_head) "lists";
    mem (CArr 2 c_uint) "counts";
    mem CPtr "next_inactive_rotation";
    mem raw_spinlock_t "lock"].

Definition struct_bpf_common_lru : ctype :=
  struct [
    mem struct_bpf_lru_list "lru_list";
    mem CPtr "local_list"].

Definition del_from_htab_func : ctype := CPtr.

Definition struct_bpf_lru : ctype :=
  struct [
    mem (union [
      mem struct_bpf_common_lru "common_lru";
      mem CPtr "percpu_lru"]) "";
    mem del_from_htab_func "del_from_htab";
    mem CPtr "del_arg";
    mem c_uint "hash_offset";
    mem c_uint "target_free";
    mem c_uint "nr_scans";
    mem c_bool "percpu"].

Definition struct_bpf_htab : ctype :=
  struct [
    mem struct_bpf_map "map";
    mem struct_bpf_mem_alloc "ma";
    mem struct_bpf_mem_alloc "pcpu_ma";
    mem CPtr "buckets";
    mem CPtr "elems";
    mem (union [
      mem struct_pcpu_freelist "freelist";
      mem struct_bpf_lru "lru"]) "";
    mem CPtr "extra_elems";
    mem struct_percpu_counter "pcount";
    mem atomic_t "count";
    mem c_bool "use_percpu_counter";
    mem u32 "n_buckets";
    mem u32 "elem_size";
    mem u32 "hashrnd"].

(** The types the programs dereference or are handed by the kernel. *)
Definition kernel_types : list ctype := [
  struct_qstr;
  struct_path;
  struct_sockaddr;
  struct_dentry;
  struct_file;
  struct_linux_binprm;
  struct_socket;
  struct_sock;
  struct_task_struct;
  struct_trace_event_raw_sys_enter;
  struct_trace_event_raw_sys_exit;
  struct_cred;
  struct_inode;
  struct_super_block;
  struct_vfsmount;
  struct_mm_struct;
  struct_file_operations;
  struct_proto_ops;
  struct_proto;
  struct_signal_struct;
  struct_files_struct;
  struct_fs_struct;
  struct_nsproxy;
  struct_pid;
  struct_bpf_map;
  struct_bpf_htab].
