(* ===== verification/WarmorLsm.v ===== *)
(** bpf/warmor_lsm.h: the data and the inline functions every LSM program of
    warmor includes.

    [policy_key], [policy_value] and [warmor_event] are the structs as C lays
    them out; a key on the stack, a map value and an event record are the bytes
    of such a struct.  The four maps are shared by the seven LSM programs (the
    loader replaces each program's own maps by those of the exec program). *)

From S2P Require Import Prelude CTypes Bpf.

(** ** Constants *)

Definition EVENT_TYPE_EXEC : Z := 0.
Definition EVENT_TYPE_FILE : Z := 1.
Definition EVENT_TYPE_NETWORK : Z := 2.
Definition EVENT_TYPE_BIND : Z := 3.
Definition EVENT_TYPE_LISTEN : Z := 4.
Definition EVENT_TYPE_PTRACE : Z := 5.
Definition EVENT_TYPE_MOUNT : Z := 6.

Definition ACTION_ALLOW : Z := 0.
Definition ACTION_DENY : Z := 1.

Definition POLICY_MAP_MAX_ENTRIES : Z := 65536.
Definition LSM_RINGBUF_SIZE : Z := 256 * 1024.

(** ** Structures *)

Definition policy_key : ctype := struct [
  mem __u64 "cgroup_id";
  mem __u32 "rule_hash";
  mem __u8 "event_type";
  mem (CArr 3 __u8) "pad"].

Definition policy_value : ctype := struct [
  mem __u8 "action";
  mem __u8 "audit";
  mem __u16 "pad";
  mem __u32 "hit_count"].

Definition warmor_event : ctype := struct [
  mem __u32 "pid";
  mem __u32 "uid";
  mem __u32 "gid";
  mem (CArr 16 c_char) "comm";
  mem (CArr 256 c_char) "filename";
  mem __u64 "timestamp";
  mem __u64 "cgroup_id";
  mem __u8 "event_type";
  mem __u8 "decision";
  mem __u16 "remote_port";
  mem __u32 "remote_addr_v4";
  mem (CArr 16 __u8) "remote_addr_v6"].

(** ** Maps *)

Definition policy_map : bpf_map :=
  BpfMap "policy_map" BPF_MAP_TYPE_HASH POLICY_MAP_MAX_ENTRIES
         (sizeof policy_key) (sizeof policy_value).
Definition lsm_events : bpf_map :=
  BpfMap "lsm_events" BPF_MAP_TYPE_RINGBUF LSM_RINGBUF_SIZE 0 0.
Definition lsm_cgroup_filter : bpf_map :=
  BpfMap "lsm_cgroup_filter" BPF_MAP_TYPE_HASH 1024 (sizeof __u64) (sizeof __u8).
Definition lsm_enforce : bpf_map :=
  BpfMap "lsm_enforce" BPF_MAP_TYPE_ARRAY 1 (sizeof __u32) (sizeof __u8).

(** ** fnv1a_hash *)

Definition FNV_OFFSET : Z := 2166136261.
Definition FNV_PRIME : Z := 16777619.

(** [hash ^= c; hash *= 16777619u] on [__u32]. *)
Definition fnv_step (hash c : Z) : Z := to_u32 (Z.lxor hash c * FNV_PRIME).

(** The loop over [i] with [n] iterations left.  [data] is a [char] array and
    [char] is signed on the BPF target, so the conversion [(__u32)data[i]]
    sign-extends. *)
Fixpoint fnv1a_loop (n : nat) (i : nat) (data : list Z) (len hash : Z) : Z :=
  match n with
  | O => hash
  | S n' =>
      let c := default 0 (data !! i) in
      if (len <=? Z.of_nat i) || (c =? 0) then hash
      else fnv1a_loop n' (S i) data len (fnv_step hash (to_u32 (to_s 8 c)))
  end.

Definition fnv1a_hash (data : list Z) (len : Z) : Z := fnv1a_loop 16 0 data len FNV_OFFSET.

(** ** The inline helpers *)

Section WarmorLsm.
Context {K : Type} `{BpfKernel K}.

Definition should_skip_cgroup (cgid : Z) (k : K) : Z :=
  match bpf_map_lookup_elem k lsm_cgroup_filter (le_bytes 8 cgid) with
  | Some _ => 0
  | None =>
      let sentinel := 0 in
      match bpf_map_lookup_elem k lsm_cgroup_filter (le_bytes 8 sentinel) with
      | Some _ => 1
      | None => 0
      end
  end.

Definition is_enforce_enabled (k : K) : Z :=
  let key := 0 in
  match bpf_map_lookup_elem k lsm_enforce (le_bytes 4 key) with
  | Some val => if le_val (vload k val) =? 1 then 1 else 0
  | None => 0
  end.

(** A [struct policy_key] built by a designated initialiser: the members that
    are not named, the padding, are zero. *)
Definition mk_policy_key (cgroup_id rule_hash event_type : Z) : list Z :=
  st policy_key ["event_type"] event_type
    (st policy_key ["rule_hash"] rule_hash
      (st policy_key ["cgroup_id"] cgroup_id (zeroed policy_key))).

(** The stores of [emit_lsm_event] into the reserved record, in program order;
    [event] are the bytes the ring buffer hands out. *)
Definition fill_lsm_event (event_type decision : Z) (filename : kptr) (filename_len : Z)
    (cgroup_id remote_port remote_addr_v4 : Z) (remote_addr_v6 : option (list Z))
    (k : K) (event : list Z) : list Z :=
  let pid_tgid := bpf_get_current_pid_tgid k in
  let uid_gid := bpf_get_current_uid_gid k in
  let event := st warmor_event ["pid"] (Z.shiftr pid_tgid 32) event in
  let event := st warmor_event ["uid"] (to_u32 uid_gid) event in
  let event := st warmor_event ["gid"] (Z.shiftr uid_gid 32) event in
  let event := st warmor_event ["timestamp"] (bpf_ktime_get_ns k) event in
  let event := st warmor_event ["cgroup_id"] cgroup_id event in
  let event := st warmor_event ["event_type"] event_type event in
  let event := st warmor_event ["decision"] decision event in
  let event := st warmor_event ["remote_port"] remote_port event in
  let event := st warmor_event ["remote_addr_v4"] remote_addr_v4 event in
  let event := stb warmor_event ["comm"]
                 (bpf_get_current_comm k (fsize warmor_event ["comm"])) event in
  let event :=
    if negb (is_null filename) && (0 <? filename_len)
    then stb warmor_event ["filename"]
           (bpf_probe_read_kernel_str k filename (ldb warmor_event ["filename"] event)).2 event
    else stb warmor_event ["filename"] [0] event in
  match remote_addr_v6 with
  | Some a => stb warmor_event ["remote_addr_v6"] (take 16 a) event
  | None => stb warmor_event ["remote_addr_v6"] (replicate 16 0) event
  end.

Definition emit_lsm_event (event_type decision : Z) (filename : kptr) (filename_len : Z)
    (cgroup_id remote_port remote_addr_v4 : Z) (remote_addr_v6 : option (list Z)) (k : K) : K :=
  match ringbuf_reserve lsm_events (sizeof warmor_event) k with
  | (None, k) => k
  | (Some event, k) =>
      ringbuf_submit lsm_events
        (fill_lsm_event event_type decision filename filename_len cgroup_id
           remote_port remote_addr_v4 remote_addr_v6 k event) k
  end.
End WarmorLsm.
