(* ===== verification/LsmExec.v ===== *)
(** bpf/lsm_exec.bpf.c: the [bprm_check_security] hook, which decides whether a
    binary may be executed. *)

From S2P Require Import Prelude CTypes Bpf WarmorLsm VmlinuxTypes.

Section LsmExec.
Context {K : Type} `{BpfKernel K}.

Definition lsm_exec_check (bprm ret : Z) (k : K) : Z * K :=
  if negb (ret =? 0) then (ret, k) else
  let cgid := bpf_get_current_cgroup_id k in
  if truthy (should_skip_cgroup cgid k) then (0, k) else
  let filename := core_read k struct_linux_binprm ["filename"] bprm in
  let '(len, fname_buf) := bpf_probe_read_kernel_str k (KAddr filename) (stack_object k 64) in
  if len <=? 0 then (0, k) else
  let hash := fnv1a_hash fname_buf len in
  let key := mk_policy_key cgid hash EVENT_TYPE_EXEC in
  let val := bpf_map_lookup_elem k policy_map key in
  let val :=
    match val with
    | Some _ => val
    | None =>
        let key := st policy_key ["cgroup_id"] 0 key in
        bpf_map_lookup_elem k policy_map key
    end in
  match val with
  | Some val =>
      let k := sync_fetch_and_add policy_value ["hit_count"] val 1 k in
      if ld policy_value ["action"] (vload k val) =? ACTION_DENY then
        let k := emit_lsm_event EVENT_TYPE_EXEC 1 (KStack fname_buf) len cgid 0 0 None k in
        if truthy (is_enforce_enabled k) then (-1, k) else (0, k)
      else
        let k :=
          if truthy (ld policy_value ["audit"] (vload k val))
          then emit_lsm_event EVENT_TYPE_EXEC 0 (KStack fname_buf) len cgid 0 0 None k
          else k in
        (0, k)
  | None => (0, emit_lsm_event EVENT_TYPE_EXEC 0 (KStack fname_buf) len cgid 0 0 None k)
  end.

End LsmExec.
