(* ===== verification/LsmBind.v ===== *)
(** bpf/lsm_bind.bpf.c: the [socket_bind] hook, which decides on the local IPv4 or
    IPv6 endpoint. *)

From S2P Require Import Prelude CTypes Bpf WarmorLsm VmlinuxTypes.

Definition hash_ipv4_endpoint (addr port : Z) : Z :=
  let hash := FNV_OFFSET in
  let hash := fnv_step hash (Z.land addr 255) in
  let hash := fnv_step hash (Z.land (Z.shiftr addr 8) 255) in
  let hash := fnv_step hash (Z.land (Z.shiftr addr 16) 255) in
  let hash := fnv_step hash (Z.land (Z.shiftr addr 24) 255) in
  let hash := fnv_step hash (Z.land port 255) in
  let hash := fnv_step hash (Z.land (Z.shiftr port 8) 255) in
  hash.

(** The loop [for (i = 0; i < 16; i++)] with [n] iterations left. *)
Fixpoint hash_ipv6_loop (n i : nat) (addr : list Z) (hash : Z) : Z :=
  match n with
  | O => hash
  | S n' => hash_ipv6_loop n' (S i) addr (fnv_step hash (default 0 (addr !! i)))
  end.

Definition hash_ipv6_endpoint (addr : list Z) (port : Z) : Z :=
  let hash := hash_ipv6_loop 16 0 addr FNV_OFFSET in
  let hash := fnv_step hash (Z.land port 255) in
  let hash := fnv_step hash (Z.land (Z.shiftr port 8) 255) in
  hash.

(** The address structs declared inside the hook. *)
Definition sockaddr_in : ctype := struct [
  mem __u16 "sin_family";
  mem __u16 "sin_port";
  mem __u32 "sin_addr"].

Definition sockaddr_in6 : ctype := struct [
  mem __u16 "sin6_family";
  mem __u16 "sin6_port";
  mem __u32 "sin6_flowinfo";
  mem (CArr 16 __u8) "sin6_addr"].

Section LsmBind.
Context {K : Type} `{BpfKernel K}.

Definition lsm_bind_check (sock address addrlen : Z) (k : K) : Z * K :=
  let cgid := bpf_get_current_cgroup_id k in
  if truthy (should_skip_cgroup cgid k) then (0, k) else
  let family := le_val (bpf_probe_read_kernel k
                  (KAddr (address + Z.of_nat (foff struct_sockaddr ["sa_family"]))) [0; 0]).2 in
  (* hash, port, addr_v4 and addr_v6 after the branch on the family *)
  let endpoint :=
    if family =? 2 then
      let sin := (bpf_probe_read_kernel k (KAddr address)
                    (stack_object k (Z.to_nat (sizeof sockaddr_in)))).2 in
      let port := ld sockaddr_in ["sin_port"] sin in
      let addr_v4 := ld sockaddr_in ["sin_addr"] sin in
      Some (hash_ipv4_endpoint addr_v4 port, port, addr_v4, replicate 16 0)
    else if family =? 10 then
      let sin6 := (bpf_probe_read_kernel k (KAddr address)
                     (stack_object k (Z.to_nat (sizeof sockaddr_in6)))).2 in
      let port := ld sockaddr_in6 ["sin6_port"] sin6 in
      let addr_v6 := ldb sockaddr_in6 ["sin6_addr"] sin6 in
      Some (hash_ipv6_endpoint addr_v6 port, port, 0, addr_v6)
    else None in
  match endpoint with
  | None => (0, k)
  | Some (hash, port, addr_v4, addr_v6) =>
    let key := mk_policy_key cgid hash EVENT_TYPE_BIND in
    let val := bpf_map_lookup_elem k policy_map key in
    let val :=
      match val with
      | Some _ => val
      | None =>
          let key := st policy_key ["cgroup_id"] 0 key in
          bpf_map_lookup_elem k policy_map key
      end in
    match val with
    | Some val =>
        let k := sync_fetch_and_add policy_value ["hit_count"] val 1 k in
        if ld policy_value ["action"] (vload k val) =? ACTION_DENY then
          let k := emit_lsm_event EVENT_TYPE_BIND 1 NULL 0 cgid port addr_v4 (Some addr_v6) k in
          if truthy (is_enforce_enabled k) then (-1, k) else (0, k)
        else
          let k :=
            if truthy (ld policy_value ["audit"] (vload k val))
            then emit_lsm_event EVENT_TYPE_BIND 0 NULL 0 cgid port addr_v4 (Some addr_v6) k
            else k in
          (0, k)
    | None => (0, emit_lsm_event EVENT_TYPE_BIND 0 NULL 0 cgid port addr_v4 (Some addr_v6) k)
    end
  end.

End LsmBind.
