(* ===== verification/LsmListen.v ===== *)
(** bpf/lsm_listen.bpf.c: the [socket_listen] hook, which decides on the local port. *)

From S2P Require Import Prelude CTypes Bpf WarmorLsm VmlinuxTypes.

Definition hash_port (port : Z) : Z :=
  let hash := FNV_OFFSET in
  let hash := fnv_step hash (Z.land port 255) in
  let hash := fnv_step hash (Z.land (Z.shiftr port 8) 255) in
  hash.

Section LsmListen.
Context {K : Type} `{BpfKernel K}.

Definition lsm_listen_check (sock backlog : Z) (k : K) : Z * K :=
  let cgid := bpf_get_current_cgroup_id k in
  if truthy (should_skip_cgroup cgid k) then (0, k) else
  let port := core_read k struct_sock ["__sk_common"; "skc_num"]
                (core_read k struct_socket ["sk"] sock) in
  if port =? 0 then (0, k) else
  let hash := hash_port port in
  let key := mk_policy_key cgid hash EVENT_TYPE_LISTEN in
  let val := bpf_map_lookup_elem k policy_map key in
  let val :=
    match val with
    | Some _ => val
    | None =>
        let key := st policy_key ["cgroup_id"] 0 key in
        bpf_map_lookup_elem k policy_map key
    end in
  match val with
  | Some val =>
      let k := sync_fetch_and_add policy_value ["hit_count"] val 1 k in
      if ld policy_value ["action"] (vload k val) =? ACTION_DENY then
        let k := emit_lsm_event EVENT_TYPE_LISTEN 1 NULL 0 cgid port 0 None k in
        if truthy (is_enforce_enabled k) then (-1, k) else (0, k)
      else
        let k :=
          if truthy (ld policy_value ["audit"] (vload k val))
          then emit_lsm_event EVENT_TYPE_LISTEN 0 NULL 0 cgid port 0 None k
          else k in
        (0, k)
  | None => (0, emit_lsm_event EVENT_TYPE_LISTEN 0 NULL 0 cgid port 0 None k)
  end.

End LsmListen.
