(* ===== verification/LsmPtrace.v ===== *)
(** bpf/lsm_ptrace.bpf.c: the [ptrace_access_check] hook, which decides on the
    command name of the traced task. *)

From S2P Require Import Prelude CTypes Bpf WarmorLsm VmlinuxTypes.

Section LsmPtrace.
Context {K : Type} `{BpfKernel K}.

Definition lsm_ptrace_check (child mode : Z) (k : K) : Z * K :=
  let cgid := bpf_get_current_cgroup_id k in
  if truthy (should_skip_cgroup cgid k) then (0, k) else
  let comm_buf := (bpf_probe_read_kernel_str k
                     (KAddr (child + Z.of_nat (foff struct_task_struct ["comm"])))
                     (stack_object k 16)).2 in
  let hash := fnv1a_hash comm_buf 16 in
  let key := mk_policy_key cgid hash EVENT_TYPE_PTRACE in
  let val := bpf_map_lookup_elem k policy_map key in
  let val :=
    match val with
    | Some _ => val
    | None =>
        let key := st policy_key ["cgroup_id"] 0 key in
        bpf_map_lookup_elem k policy_map key
    end in
  match val with
  | Some val =>
      let k := sync_fetch_and_add policy_value ["hit_count"] val 1 k in
      if ld policy_value ["action"] (vload k val) =? ACTION_DENY then
        let k := emit_lsm_event EVENT_TYPE_PTRACE 1 (KStack comm_buf) 16 cgid 0 0 None k in
        if truthy (is_enforce_enabled k) then (-1, k) else (0, k)
      else
        let k :=
          if truthy (ld policy_value ["audit"] (vload k val))
          then emit_lsm_event EVENT_TYPE_PTRACE 0 (KStack comm_buf) 16 cgid 0 0 None k
          else k in
        (0, k)
  | None => (0, emit_lsm_event EVENT_TYPE_PTRACE 0 (KStack comm_buf) 16 cgid 0 0 None k)
  end.

End LsmPtrace.
