(* ===== verification/TracepointDefs.v ===== *)
(** bpf/tracepoint_defs.h: the context record of the syscall tracepoints, and its
    agreement with the kernel's own declaration in vmlinux.h. *)

From S2P Require Import Prelude CTypes VmlinuxTypes.

Definition trace_event_raw_sys_enter : ctype := struct [
  mem c_ullong "unused";
  mem c_long "id";
  mem (CArr 6 c_ulong) "args"].

Definition trace_event_raw_sys_exit : ctype := struct [
  mem c_ullong "unused";
  mem c_long "id";
  mem c_long "ret"].

(** [ctx->args[i]], the i-th argument of the system call. *)
Definition ctx_arg (ctx : list Z) (i : nat) : Z :=
  le_val (slice (foff trace_event_raw_sys_enter ["args"] + 8 * i) 8 ctx).

(** The context of a system call with the given arguments. *)
Definition sys_enter_ctx (id : Z) (args : list Z) : list Z :=
  replicate 8 0 ++ le_bytes 8 id ++ mjoin (le_bytes 8 <$> args).

Lemma mjoin_le_bytes_lookup args i a :
  args !! i = Some a -> slice (8 * i) 8 (mjoin (le_bytes 8 <$> args)) = le_bytes 8 a.
Proof.
  revert i. induction args as [|b args IH]; [done|]. intros [|i] Hi.
  { injection Hi as ->. unfold slice. rewrite Nat.mul_0_r, drop_0.
    change (mjoin (le_bytes 8 <$> a :: args)) with (le_bytes 8 a ++ mjoin (le_bytes 8 <$> args)).
    apply take_app_length'. by rewrite length_le_bytes. }
  rewrite <- (IH i Hi). unfold slice. change (mjoin (le_bytes 8 <$> b :: args)) with (le_bytes 8 b ++ mjoin (le_bytes 8 <$> args)).
  f_equal. rewrite drop_app_ge by (rewrite length_le_bytes; lia).
  rewrite length_le_bytes. f_equal. lia.
Qed.

Lemma ctx_arg_sys_enter id args i a :
  args !! i = Some a -> is_u 64 a -> ctx_arg (sys_enter_ctx id args) i = a.
Proof.
  intros Hi Ha. unfold ctx_arg, sys_enter_ctx.
  change (foff trace_event_raw_sys_enter ["args"]) with 16%nat.
  assert (Hs : slice (16 + 8 * i) 8 (replicate 8 0 ++ le_bytes 8 id ++ mjoin (le_bytes 8 <$> args)) =
    slice (8 * i) 8 (mjoin (le_bytes 8 <$> args))).
  { unfold slice. rewrite app_assoc, drop_app_ge by (len). f_equal. f_equal. len. }
  rewrite Hs, (mjoin_le_bytes_lookup _ _ a) by done. by apply le_val_le_bytes_id.
Qed.
