(* ===== verification/ExecveMonitor.v ===== *)
(** bpf/execve_monitor.bpf.c: the tracepoint that reports every execve. *)

From S2P Require Import Prelude CTypes Bpf TracepointDefs.

Definition execve_event : ctype := struct [
  mem __u32 "pid";
  mem __u32 "uid";
  mem __u32 "gid";
  mem (CArr 16 c_char) "comm";
  mem (CArr 256 c_char) "filename";
  mem __u64 "timestamp";
  mem __u64 "cgroup_id"].

(** The loader keeps this program's maps apart from those of the other monitors,
    so their kernel names carry the object they belong to. *)
Definition events : bpf_map :=
  BpfMap "execve_monitor/events" BPF_MAP_TYPE_RINGBUF (256 * 1024) 0 0.
Definition cgroup_filter : bpf_map :=
  BpfMap "execve_monitor/cgroup_filter" BPF_MAP_TYPE_HASH 1024 (sizeof __u64) (sizeof __u8).

Section ExecveMonitor.
Context {K : Type} `{BpfKernel K}.

(** The stores into the reserved record, in program order. *)
Definition fill_execve_event (ctx : list Z) (pid uid_gid cgid : Z) (k : K) (event : list Z) : list Z :=
  let event := st execve_event ["pid"] pid event in
  let event := st execve_event ["uid"] (to_u32 uid_gid) event in
  let event := st execve_event ["gid"] (Z.shiftr uid_gid 32) event in
  let event := st execve_event ["timestamp"] (bpf_ktime_get_ns k) event in
  let event := st execve_event ["cgroup_id"] cgid event in
  let event := stb execve_event ["comm"]
                 (bpf_get_current_comm k (fsize execve_event ["comm"])) event in
  let filename_ptr := ctx_arg ctx 0 in
  let event := stb execve_event ["filename"]
                 (bpf_probe_read_user_str k filename_ptr (ldb execve_event ["filename"] event)).2 event in
  event.

Definition tracepoint__syscalls__sys_enter_execve (ctx : list Z) (k : K) : Z * K :=
  let pid_tgid := bpf_get_current_pid_tgid k in
  let pid := Z.shiftr pid_tgid 32 in
  let uid_gid := bpf_get_current_uid_gid k in
  let cgid := bpf_get_current_cgroup_id k in
  let val := bpf_map_lookup_elem k cgroup_filter (le_bytes 8 cgid) in
  let sentinel_val := bpf_map_lookup_elem k cgroup_filter (le_bytes 8 0) in
  match val, sentinel_val with
  | None, Some _ => (0, k)
  | _, _ =>
      match ringbuf_reserve events (sizeof execve_event) k with
      | (None, k) => (0, k)
      | (Some event, k) =>
          (0, ringbuf_submit events (fill_execve_event ctx pid uid_gid cgid k event) k)
      end
  end.
End ExecveMonitor.
