(* ===== verification/OpenatMonitor.v ===== *)
(** bpf/openat_monitor.bpf.c: the tracepoint that reports every openat. *)

From S2P Require Import Prelude CTypes Bpf TracepointDefs.

Definition file_event : ctype := struct [
  mem __u32 "pid";
  mem __u32 "uid";
  mem __u32 "gid";
  mem (CArr 16 c_char) "comm";
  mem (CArr 256 c_char) "path";
  mem __u32 "flags";
  mem __u32 "mode";
  mem __u64 "timestamp";
  mem __u64 "cgroup_id"].

Definition file_events : bpf_map :=
  BpfMap "openat_monitor/file_events" BPF_MAP_TYPE_RINGBUF (256 * 1024) 0 0.
Definition cgroup_filter : bpf_map :=
  BpfMap "openat_monitor/cgroup_filter" BPF_MAP_TYPE_HASH 1024 (sizeof __u64) (sizeof __u8).

Section OpenatMonitor.
Context {K : Type} `{BpfKernel K}.

Definition fill_file_event (ctx : list Z) (cgid : Z) (k : K) (event : list Z) : list Z :=
  let pid_tgid := bpf_get_current_pid_tgid k in
  let event := st file_event ["pid"] (Z.shiftr pid_tgid 32) event in
  let uid_gid := bpf_get_current_uid_gid k in
  let event := st file_event ["uid"] (Z.land uid_gid 4294967295) event in
  let event := st file_event ["gid"] (Z.shiftr uid_gid 32) event in
  let event := stb file_event ["comm"]
                 (bpf_get_current_comm k (fsize file_event ["comm"])) event in
  let event := stb file_event ["path"]
                 (bpf_probe_read_user_str k (ctx_arg ctx 1) (ldb file_event ["path"] event)).2 event in
  let event := st file_event ["flags"] (to_u32 (ctx_arg ctx 2)) event in
  let event := st file_event ["mode"] (to_u32 (ctx_arg ctx 3)) event in
  let event := st file_event ["timestamp"] (bpf_ktime_get_ns k) event in
  let event := st file_event ["cgroup_id"] cgid event in
  event.

Definition tracepoint__syscalls__sys_enter_openat (ctx : list Z) (k : K) : Z * K :=
  let cgid := bpf_get_current_cgroup_id k in
  let val := bpf_map_lookup_elem k cgroup_filter (le_bytes 8 cgid) in
  let sentinel_val := bpf_map_lookup_elem k cgroup_filter (le_bytes 8 0) in
  match val, sentinel_val with
  | None, Some _ => (0, k)
  | _, _ =>
      match ringbuf_reserve file_events (sizeof file_event) k with
      | (None, k) => (0, k)
      | (Some event, k) => (0, ringbuf_submit file_events (fill_file_event ctx cgid k event) k)
      end
  end.
End OpenatMonitor.
