(* ===== verification/ConnectMonitor.v ===== *)
(** bpf/connect_monitor.bpf.c: the tracepoint that reports every connect. *)

From S2P Require Import Prelude CTypes Bpf TracepointDefs.

Definition AF_INET : Z := 2.
Definition AF_INET6 : Z := 10.

Definition sockaddr : ctype := struct [
  mem c_ushort "sa_family";
  mem (CArr 14 c_char) "sa_data"].

Definition in_addr : ctype := struct [mem __u32 "s_addr"].

Definition sockaddr_in : ctype := struct [
  mem c_ushort "sin_family";
  mem __u16 "sin_port";
  mem in_addr "sin_addr";
  mem (CArr 8 c_char) "sin_zero"].

Definition in6_addr : ctype := struct [mem (CArr 16 __u8) "s6_addr"].

Definition sockaddr_in6 : ctype := struct [
  mem c_ushort "sin6_family";
  mem __u16 "sin6_port";
  mem __u32 "sin6_flowinfo";
  mem in6_addr "sin6_addr";
  mem __u32 "sin6_scope_id"].

Definition network_event : ctype := struct [
  mem __u32 "pid";
  mem __u32 "uid";
  mem __u32 "gid";
  mem (CArr 16 c_char) "comm";
  mem __u16 "family";
  mem __u16 "remote_port";
  mem __u32 "remote_addr_v4";
  mem (CArr 16 __u8) "remote_addr_v6";
  mem __u64 "timestamp";
  mem __u64 "cgroup_id"].

Definition network_events : bpf_map :=
  BpfMap "connect_monitor/network_events" BPF_MAP_TYPE_RINGBUF (256 * 1024) 0 0.
Definition cgroup_filter : bpf_map :=
  BpfMap "connect_monitor/cgroup_filter" BPF_MAP_TYPE_HASH 1024 (sizeof __u64) (sizeof __u8).

Section ConnectMonitor.
Context {K : Type} `{BpfKernel K}.

(** [bpf_probe_read_user(&event->m, sizeof(event->m), src)]. *)
Definition read_user_into (k : K) (m : string) (src : Z) (event : list Z) : list Z :=
  stb network_event [m] (bpf_probe_read_user k src (ldb network_event [m] event)).2 event.

Definition fill_network_event (ctx : list Z) (cgid : Z) (k : K) (event : list Z) : list Z :=
  let pid_tgid := bpf_get_current_pid_tgid k in
  let event := st network_event ["pid"] (Z.shiftr pid_tgid 32) event in
  let uid_gid := bpf_get_current_uid_gid k in
  let event := st network_event ["uid"] (Z.land uid_gid 4294967295) event in
  let event := st network_event ["gid"] (Z.shiftr uid_gid 32) event in
  let event := stb network_event ["comm"]
                 (bpf_get_current_comm k (fsize network_event ["comm"])) event in
  let addr := ctx_arg ctx 1 in
  let family := le_val (bpf_probe_read_user k (addr + Z.of_nat (foff sockaddr ["sa_family"]))
                          (stack_object k 2)).2 in
  let event := st network_event ["family"] family event in
  let event :=
    if family =? AF_INET then
      let event := read_user_into k "remote_port"
                     (addr + Z.of_nat (foff sockaddr_in ["sin_port"])) event in
      read_user_into k "remote_addr_v4" (addr + Z.of_nat (foff sockaddr_in ["sin_addr"])) event
    else if family =? AF_INET6 then
      let event := read_user_into k "remote_port"
                     (addr + Z.of_nat (foff sockaddr_in6 ["sin6_port"])) event in
      read_user_into k "remote_addr_v6" (addr + Z.of_nat (foff sockaddr_in6 ["sin6_addr"])) event
    else event in
  let event := st network_event ["timestamp"] (bpf_ktime_get_ns k) event in
  let event := st network_event ["cgroup_id"] cgid event in
  event.

Definition tracepoint__syscalls__sys_enter_connect (ctx : list Z) (k : K) : Z * K :=
  let cgid := bpf_get_current_cgroup_id k in
  let val := bpf_map_lookup_elem k cgroup_filter (le_bytes 8 cgid) in
  let sentinel_val := bpf_map_lookup_elem k cgroup_filter (le_bytes 8 0) in
  match val, sentinel_val with
  | None, Some _ => (0, k)
  | _, _ =>
      match ringbuf_reserve network_events (sizeof network_event) k with
      | (None, k) => (0, k)
      | (Some event, k) => (0, ringbuf_submit network_events (fill_network_event ctx cgid k event) k)
      end
  end.
End ConnectMonitor.
