(* ===== verification/GoEvents.v ===== *)
(** internal/ebpf/events.go, and the event decoding of internal/ebpf/loader.go and
    lsm_loader.go: ring-buffer records to the daemon's [Event].

    [encoding/binary.Read] fills the fields of a Go struct one after the other
    with no padding, so the raw structs are packed structs here, with the blank
    fields the source declares for the C padding.  A Go string is its bytes;
    [net.IP.String] is modelled as the standard library formats addresses. *)

From S2P Require Import Prelude CTypes.
From Stdlib Require Import Ascii.

(** ** Formatting *)

Definition digit (d : Z) : Z := if d <? 10 then 48 + d else 87 + d.

(** Decimal of a byte, and hexadecimal of a 16-bit group without leading zeros. *)
Definition dec_byte (b : Z) : list Z :=
  if b <? 10 then [digit b]
  else if b <? 100 then [digit (b / 10); digit (b mod 10)]
  else [digit (b / 100); digit (b / 10 mod 10); digit (b mod 10)].

Definition hex_group (g : Z) : list Z :=
  if g <? 16 then [digit g]
  else if g <? 256 then [digit (g / 16); digit (g mod 16)]
  else if g <? 4096 then [digit (g / 256); digit (g / 16 mod 16); digit (g mod 16)]
  else [digit (g / 4096); digit (g / 256 mod 16); digit (g / 16 mod 16); digit (g mod 16)].

Definition dot : Z := 46.
Definition colon : Z := 58.

Definition dotted (a b c d : Z) : list Z :=
  dec_byte a ++ [dot] ++ dec_byte b ++ [dot] ++ dec_byte c ++ [dot] ++ dec_byte d.

(** The 16-bit groups of an IPv6 address. *)
Fixpoint groups (bs : list Z) : list Z :=
  match bs with
  | hi :: lo :: bs' => hi * 256 + lo :: groups bs'
  | _ => []
  end.

(** Length of the run of zero groups at the head. *)
Fixpoint zero_run (gs : list Z) : nat :=
  match gs with
  | g :: gs' => if g =? 0 then S (zero_run gs') else O
  | [] => O
  end.

(** First longest run of at least two zero groups: its start and length. *)
Fixpoint longest_zero_run (i : nat) (gs : list Z) (best : nat * nat) : nat * nat :=
  match gs with
  | [] => best
  | _ :: gs' =>
      let l := zero_run gs in
      longest_zero_run (S i) gs' (if (2 <=? l)%nat && (best.2 <? l)%nat then (i, l) else best)
  end.

Fixpoint join_groups (gs : list Z) : list Z :=
  match gs with
  | [] => []
  | [g] => hex_group g
  | g :: gs' => hex_group g ++ [colon] ++ join_groups gs'
  end.

Definition ipv6_string (bs : list Z) : list Z :=
  let gs := groups bs in
  let '(start, len) := longest_zero_run 0 gs (0, 0)%nat in
  if (len =? 0)%nat then join_groups gs
  else join_groups (take start gs) ++ [colon; colon] ++ join_groups (drop (start + len) gs).

Definition ipv4_string (ip : list Z) : list Z :=
  match ip with [a; b; c; d] => dotted a b c d | _ => [] end.

(** [net.IP.String] on a slice of 4 or 16 bytes; a v4-mapped address prints dotted. *)
Definition ip_string (ip : list Z) : list Z :=
  if (length ip =? 4)%nat then ipv4_string ip
  else if bool_decide (take 12 ip = replicate 10 0 ++ [255; 255]) then ipv4_string (drop 12 ip)
  else ipv6_string ip.

(** Decimal of a natural number, for [%d]. *)
Fixpoint dec_digits (fuel : nat) (n : Z) (acc : list Z) : list Z :=
  match fuel with
  | O => acc
  | S fuel' =>
      let acc := digit (n mod 10) :: acc in
      if n <? 10 then acc else dec_digits fuel' (n / 10) acc
  end.

(** ** events.go *)

Inductive EventKind : Type := EventKindProcess | EventKindFile | EventKindNetwork.

#[global] Instance EventKind_eq_dec : EqDecision EventKind.
Proof. solve_decision. Defined.

(** [Timestamp] is the wall-clock time in nanoseconds since the epoch. *)
Record Event : Type := MkEvent {
  Kind : EventKind;
  PID : Z;
  UID : Z;
  GID : Z;
  Comm : list Z;
  Filename : list Z;
  Flags : Z;
  Mode : Z;
  RemoteAddr : list Z;
  RemotePort : Z;
  Family : Z;
  Timestamp : Z;
  ECgroupID : Z;
}.

Definition ExecveEvent : ctype := struct_packed [
  mem __u32 "PID"; mem __u32 "UID"; mem __u32 "GID";
  mem (CArr 16 __u8) "Comm"; mem (CArr 256 __u8) "Filename"; mem (CArr 4 __u8) "_";
  mem __u64 "Timestamp"; mem __u64 "CgroupID"].

Definition OpenatEvent : ctype := struct_packed [
  mem __u32 "PID"; mem __u32 "UID"; mem __u32 "GID";
  mem (CArr 16 __u8) "Comm"; mem (CArr 256 __u8) "Path";
  mem __u32 "Flags"; mem __u32 "Mode"; mem (CArr 4 __u8) "_";
  mem __u64 "Timestamp"; mem __u64 "CgroupID"].

Definition ConnectEvent : ctype := struct_packed [
  mem __u32 "PID"; mem __u32 "UID"; mem __u32 "GID";
  mem (CArr 16 __u8) "Comm"; mem __u16 "Family"; mem __u16 "RemotePort";
  mem __u32 "RemoteAddrV4"; mem (CArr 16 __u8) "RemoteAddrV6"; mem (CArr 4 __u8) "_";
  mem __u64 "Timestamp"; mem __u64 "CgroupID"].

Definition LSMEvent : ctype := struct_packed [
  mem __u32 "PID"; mem __u32 "UID"; mem __u32 "GID";
  mem (CArr 16 __u8) "Comm"; mem (CArr 256 __u8) "Filename"; mem (CArr 4 __u8) "_";
  mem __u64 "Timestamp"; mem __u64 "CgroupID";
  mem __u8 "EventType"; mem __u8 "Decision"; mem __u16 "RemotePort";
  mem __u32 "RemoteAddrV4"; mem (CArr 16 __u8) "RemoteAddrV6"].

(** [binary.Read(reader, binary.LittleEndian, &raw)]: the bytes of the struct, or
    an unexpected end of the record. *)
Definition binary_Read (t : ctype) (record : list Z) : option (list Z) :=
  if (length record <? Z.to_nat (sizeof t))%nat then None
  else Some (take (Z.to_nat (sizeof t)) record).

Fixpoint nullTerminatedString (b : list Z) : list Z :=
  match b with
  | [] => []
  | c :: b' => if c =? 0 then [] else c :: nullTerminatedString b'
  end.

Definition ntohs (v : Z) : Z :=
  Z.lor (Z.land (Z.shiftr v 8) 255) (to_u16 (Z.shiftl (Z.land v 255) 8)).

Definition intToIPv4 (addr : Z) : list Z :=
  dotted (Z.land addr 255) (Z.land (Z.shiftr addr 8) 255)
         (Z.land (Z.shiftr addr 16) 255) (Z.land (Z.shiftr addr 24) 255).

Section ToEvent.
(** The package variable computed at start-up from the two clocks. *)
Variable bootTimeOffset : Z.

Definition bootTimeToWallClock (bootNs : Z) : Z := to_s 64 bootNs + bootTimeOffset.

Definition ExecveEvent_ToEvent (e : list Z) : Event := {|
  Kind := EventKindProcess;
  PID := ld ExecveEvent ["PID"] e;
  UID := ld ExecveEvent ["UID"] e;
  GID := ld ExecveEvent ["GID"] e;
  Comm := nullTerminatedString (ldb ExecveEvent ["Comm"] e);
  Filename := nullTerminatedString (ldb ExecveEvent ["Filename"] e);
  Flags := 0; Mode := 0; RemoteAddr := []; RemotePort := 0; Family := 0;
  Timestamp := bootTimeToWallClock (ld ExecveEvent ["Timestamp"] e);
  ECgroupID := ld ExecveEvent ["CgroupID"] e |}.

Definition OpenatEvent_ToEvent (e : list Z) : Event := {|
  Kind := EventKindFile;
  PID := ld OpenatEvent ["PID"] e;
  UID := ld OpenatEvent ["UID"] e;
  GID := ld OpenatEvent ["GID"] e;
  Comm := nullTerminatedString (ldb OpenatEvent ["Comm"] e);
  Filename := nullTerminatedString (ldb OpenatEvent ["Path"] e);
  Flags := ld OpenatEvent ["Flags"] e;
  Mode := ld OpenatEvent ["Mode"] e;
  RemoteAddr := []; RemotePort := 0; Family := 0;
  Timestamp := bootTimeToWallClock (ld OpenatEvent ["Timestamp"] e);
  ECgroupID := ld OpenatEvent ["CgroupID"] e |}.

Definition remoteAddrString (e : list Z) : list Z :=
  let family := ld ConnectEvent ["Family"] e in
  if family =? 2 then
    let ip := be_bytes 4 (ld ConnectEvent ["RemoteAddrV4"] e) in
    ip_string ip
  else if family =? 10 then ip_string (ldb ConnectEvent ["RemoteAddrV6"] e)
  else bstr "unknown-family-" ++ dec_digits 5 family [].

Definition ConnectEvent_ToEvent (e : list Z) : Event :=
  let addr := remoteAddrString e in {|
  Kind := EventKindNetwork;
  PID := ld ConnectEvent ["PID"] e;
  UID := ld ConnectEvent ["UID"] e;
  GID := ld ConnectEvent ["GID"] e;
  Comm := nullTerminatedString (ldb ConnectEvent ["Comm"] e);
  Filename := []; Flags := 0; Mode := 0;
  RemoteAddr := addr;
  RemotePort := ntohs (ld ConnectEvent ["RemotePort"] e);
  Family := ld ConnectEvent ["Family"] e;
  Timestamp := bootTimeToWallClock (ld ConnectEvent ["Timestamp"] e);
  ECgroupID := ld ConnectEvent ["CgroupID"] e |}.

(** What the switch over the event type of an LSM event sets: the kind (the zero
    value is a process event), port, address and family. *)
Definition lsm_event_class (e : list Z) : EventKind * Z * list Z * Z :=
  let event_type := ld LSMEvent ["EventType"] e in
  let port := ld LSMEvent ["RemotePort"] e in
  let v4 := ld LSMEvent ["RemoteAddrV4"] e in
  if event_type =? 0 then (EventKindProcess, 0, [], 0)
  else if event_type =? 1 then (EventKindFile, 0, [], 0)
  else if (event_type =? 2) || (event_type =? 3) then
    if negb (v4 =? 0) then (EventKindNetwork, port, intToIPv4 v4, 2)
    else (EventKindNetwork, port, ip_string (ldb LSMEvent ["RemoteAddrV6"] e), 10)
  else if event_type =? 4 then (EventKindNetwork, port, [], 0)
  else if event_type =? 5 then (EventKindProcess, 0, [], 0)
  else if event_type =? 6 then (EventKindFile, 0, [], 0)
  else (EventKindProcess, 0, [], 0).

Definition LSMEvent_ToEvent (e : list Z) : Event :=
  let '(kind, port, addr, family) := lsm_event_class e in {|
  Kind := kind;
  PID := ld LSMEvent ["PID"] e;
  UID := ld LSMEvent ["UID"] e;
  GID := ld LSMEvent ["GID"] e;
  Comm := nullTerminatedString (ldb LSMEvent ["Comm"] e);
  Filename := nullTerminatedString (ldb LSMEvent ["Filename"] e);
  Flags := 0; Mode := 0;
  RemoteAddr := addr;
  RemotePort := port;
  Family := family;
  Timestamp := bootTimeToWallClock (ld LSMEvent ["Timestamp"] e);
  ECgroupID := ld LSMEvent ["CgroupID"] e |}.

(** The decoding of a record read from a ring buffer. *)
Definition readEvent (kind : EventKind) (record : list Z) : option Event :=
  match kind with
  | EventKindProcess => ExecveEvent_ToEvent <$> binary_Read ExecveEvent record
  | EventKindFile => OpenatEvent_ToEvent <$> binary_Read OpenatEvent record
  | EventKindNetwork => ConnectEvent_ToEvent <$> binary_Read ConnectEvent record
  end.

Definition ReadLSMEvent (record : list Z) : option Event :=
  LSMEvent_ToEvent <$> binary_Read LSMEvent record.
End ToEvent.

(** ** Facts *)

Lemma nullTerminatedString_cstr b : nullTerminatedString b = cstr b.
Proof. induction b as [|c b IH]; simpl; [done|]. by rewrite IH. Qed.

(** Reading a record at least as long as the struct. *)
Lemma binary_Read_ok t record :
  (Z.to_nat (sizeof t) <= length record)%nat ->
  binary_Read t record = Some (take (Z.to_nat (sizeof t)) record).
Proof. intros. unfold binary_Read. by destruct (Nat.ltb_spec (length record) (Z.to_nat (sizeof t))); [lia|]. Qed.

Lemma lor_shift8 a b : is_byte a -> Z.lor a (Z.shiftl b 8) = a + 256 * b.
Proof. intros Ha. by apply lor_shiftl_add. Qed.

(** Two bytes in network order, read as a little-endian word and swapped. *)
Lemma ntohs_bytes hi lo : is_byte hi -> is_byte lo -> ntohs (le_val [hi; lo]) = 256 * hi + lo.
Proof.
  intros Hh Hl. pose proof Hh as Hh'. pose proof Hl as Hl'. unfold is_byte in Hh', Hl'.
  cbn [le_val]. unfold ntohs. change 255 with (Z.ones 8). rewrite !Z.land_ones by lia.
  rewrite Z.shiftr_div_pow2 by lia. change (2 ^ 8) with 256. rewrite Z.mul_0_r, Z.add_0_r.
  replace ((hi + 256 * lo) / 256) with lo by (rewrite Z.mul_comm, Z.div_add, Z.div_small; lia).
  replace ((hi + 256 * lo) mod 256) with hi
    by (rewrite Z.mul_comm, Z_mod_plus_full, Z.mod_small; lia).
  rewrite (Z.mod_small lo) by lia. rewrite to_u_id.
  - rewrite lor_shift8 by (auto || lia). lia.
  - rewrite Z.shiftl_mul_pow2 by lia. unfold is_u. lia.
Qed.
