(* ===== verification/LsmPolicy.v ===== *)
(** The policy decision of the LSM programs, stated once.

    The seven programs repeat the same decision code after extracting what they
    judge on.  This file gives the decision as an abstract specification
    ([judge], [spec_return], [spec_event] on [rule]s, without bytes, maps or
    ring buffers), the concrete code as one function ([lsm_tail]), and proves
    that the code refines the specification: return value, rule counters,
    emitted record and frame.  [LsmHooks.v] instantiates it for every hook. *)

From S2P Require Import Prelude CTypes Bpf WarmorLsm.

(** ** Abstract specification *)

Record rule : Type := Rule { r_action : Z; r_audit : bool; r_hits : Z }.

Inductive verdict : Type :=
  | Denied                    (* a deny rule applies *)
  | Allowed (audited : bool)  (* an allow rule applies *)
  | Unknown.                  (* no rule: userspace has to evaluate *)

(** The rule of the container wins over the global one. *)
Definition applicable {A} (specific global : option A) : option A :=
  match specific with Some r => Some r | None => global end.

Definition judge (r : option rule) : verdict :=
  match r with
  | None => Unknown
  | Some r => if r_action r =? ACTION_DENY then Denied else Allowed (r_audit r)
  end.

(** What the kernel sees, and the decision byte of the event sent, if any. *)
Definition spec_return (v : verdict) (enforcing : bool) : Z :=
  match v with Denied => if enforcing then -1 else 0 | _ => 0 end.
Definition spec_event (v : verdict) : option Z :=
  match v with
  | Denied => Some 1
  | Allowed audited => if audited then Some 0 else None
  | Unknown => Some 0
  end.

Definition bump (r : rule) : rule := Rule (r_action r) (r_audit r) (to_u32 (r_hits r + 1)).

(** ** The abstraction: rules as the map stores them *)

Definition rule_of (v : list Z) : rule :=
  Rule (ld policy_value ["action"] v) (truthy (ld policy_value ["audit"] v))
       (ld policy_value ["hit_count"] v).

Section Policy.
Context {K : Type} `{BpfKernel K}.

Definition rule_at (k : K) (key : list Z) : option rule := rule_of <$> map_contents k policy_map key.

Definition rule_for (k : K) (cgid hash et : Z) : option rule :=
  applicable (rule_at k (mk_policy_key cgid hash et)) (rule_at k (mk_policy_key 0 hash et)).

(** Key of the rule that applies. *)
Definition key_for (k : K) (cgid hash et : Z) : list Z :=
  match map_contents k policy_map (mk_policy_key cgid hash et) with
  | Some _ => mk_policy_key cgid hash et
  | None => mk_policy_key 0 hash et
  end.

Definition enforcing (k : K) : bool := truthy (is_enforce_enabled k).
Definition filtered_out (k : K) : bool :=
  truthy (should_skip_cgroup (bpf_get_current_cgroup_id k) k).

(** Well-formed policy maps hold values of the declared size. *)
Definition policy_wf (k : K) : Prop :=
  forall key v, map_contents k policy_map key = Some v -> obj policy_value v.

(** Two kernels with the same rules, up to the hit counters, the same filter
    and the same enforcement switch. *)
Definition same_policy (k k' : K) : Prop :=
  (forall key, (fun r => (r_action r, r_audit r)) <$> rule_at k key =
               (fun r => (r_action r, r_audit r)) <$> rule_at k' key) /\
  (forall key, map_contents k lsm_cgroup_filter key = map_contents k' lsm_cgroup_filter key) /\
  (forall key, map_contents k lsm_enforce key = map_contents k' lsm_enforce key).

(** ** The decision code of the programs *)

(** What a hook judges on and reports. *)
Record subject : Type := Subject {
  su_hash : Z;
  su_file : kptr;
  su_flen : Z;
  su_port : Z;
  su_v4 : Z;
  su_v6 : option (list Z);
}.

Definition report (et decision : Z) (s : subject) (k : K) : K :=
  emit_lsm_event et decision (su_file s) (su_flen s) (bpf_get_current_cgroup_id k)
    (su_port s) (su_v4 s) (su_v6 s) k.

Definition lsm_tail (et : Z) (s : subject) (k : K) : Z * K :=
  let cgid := bpf_get_current_cgroup_id k in
  let key := mk_policy_key cgid (su_hash s) et in
  let val := bpf_map_lookup_elem k policy_map key in
  let val :=
    match val with
    | Some _ => val
    | None => bpf_map_lookup_elem k policy_map (st policy_key ["cgroup_id"] 0 key)
    end in
  match val with
  | Some val =>
      let k := sync_fetch_and_add policy_value ["hit_count"] val 1 k in
      if ld policy_value ["action"] (vload k val) =? ACTION_DENY then
        let k := emit_lsm_event et 1 (su_file s) (su_flen s) cgid (su_port s) (su_v4 s) (su_v6 s) k in
        if truthy (is_enforce_enabled k) then (-1, k) else (0, k)
      else
        let k :=
          if truthy (ld policy_value ["audit"] (vload k val))
          then emit_lsm_event et 0 (su_file s) (su_flen s) cgid (su_port s) (su_v4 s) (su_v6 s) k
          else k in
        (0, k)
  | None =>
      (0, emit_lsm_event et 0 (su_file s) (su_flen s) cgid (su_port s) (su_v4 s) (su_v6 s) k)
  end.
End Policy.

(** ** Keys *)

Lemma mk_policy_key_bytes c h e :
  mk_policy_key c h e = le_bytes 8 c ++ le_bytes 4 h ++ le_bytes 1 e ++ [0; 0; 0].
Proof. reflexivity. Qed.

Lemma mk_policy_key_global c h e :
  st policy_key ["cgroup_id"] 0 (mk_policy_key c h e) = mk_policy_key 0 h e.
Proof. reflexivity. Qed.

Lemma mk_policy_key_inj c h e c' h' e' :
  is_u 64 c -> is_u 64 c' -> is_u 32 h -> is_u 32 h' -> is_u 8 e -> is_u 8 e' ->
  mk_policy_key c h e = mk_policy_key c' h' e' -> c = c' /\ h = h' /\ e = e'.
Proof.
  intros Hc Hc' Hh Hh' He He'. rewrite !mk_policy_key_bytes. intros Heq.
  apply app_inj_1 in Heq as [E1 Heq]; [|by rewrite !length_le_bytes].
  apply app_inj_1 in Heq as [E2 Heq]; [|by rewrite !length_le_bytes].
  apply app_inj_1 in Heq as [E3 _]; [|by rewrite !length_le_bytes].
  split_and!.
  - by apply (le_bytes_inj 8).
  - by apply (le_bytes_inj 4).
  - by apply (le_bytes_inj 1).
Qed.

Section PolicyFacts.
Context {K : Type} `{BpfKernelOk K}.
Implicit Types (k : K) (key : list Z).

(** ** Effect of the parts *)

Lemma emit_maps et d f fl c p a4 a6 k m key :
  map_contents (emit_lsm_event et d f fl c p a4 a6 k) m key = map_contents k m key.
Proof.
  unfold emit_lsm_event. pose proof (reserve_maps lsm_events (sizeof warmor_event) k m key) as Hr.
  destruct (ringbuf_reserve _ _ k) as [[rec|] k']; simpl in Hr; [by rewrite submit_maps|done].
Qed.

Lemma emit_env et d f fl c p a4 a6 k :
  kernel_env (emit_lsm_event et d f fl c p a4 a6 k) = kernel_env k.
Proof.
  unfold emit_lsm_event. pose proof (env_reserve lsm_events (sizeof warmor_event) k) as Hr.
  destruct (ringbuf_reserve _ _ k) as [[rec|] k']; simpl in Hr; [by rewrite env_submit|done].
Qed.

(** The record an emission sends, if the ring buffer has room for it. *)
Definition room k : option (list Z) :=
  (ringbuf_reserve lsm_events (sizeof warmor_event) k).1.

Lemma fill_env et d f fl c p a4 a6 k k' ev :
  kernel_env k' = kernel_env k ->
  fill_lsm_event et d f fl c p a4 a6 k' ev = fill_lsm_event et d f fl c p a4 a6 k ev.
Proof.
  intros He. unfold fill_lsm_event, bpf_get_current_pid_tgid, bpf_get_current_uid_gid,
    bpf_ktime_get_ns, bpf_get_current_comm, bpf_probe_read_kernel_str. by rewrite He.
Qed.

Definition emitted et d f fl c p a4 a6 k : list (list Z) :=
  match room k with
  | Some stale => [fill_lsm_event et d f fl c p a4 a6 k stale]
  | None => []
  end.

Lemma emit_ring et d f fl c p a4 a6 k :
  ring_records (emit_lsm_event et d f fl c p a4 a6 k) lsm_events =
  ring_records k lsm_events ++ emitted et d f fl c p a4 a6 k.
Proof.
  unfold emit_lsm_event, emitted, room.
  pose proof (reserve_ring lsm_events (sizeof warmor_event) k lsm_events) as Hr.
  pose proof (env_reserve lsm_events (sizeof warmor_event) k) as He.
  destruct (ringbuf_reserve _ _ k) as [[rec|] k']; simpl in *.
  - by rewrite submit_ring_same, Hr, (fill_env _ _ _ _ _ _ _ _ k).
  - by rewrite Hr, app_nil_r.
Qed.

Lemma emit_ring_other et d f fl c p a4 a6 k r :
  bm_name lsm_events <> bm_name r ->
  ring_records (emit_lsm_event et d f fl c p a4 a6 k) r = ring_records k r.
Proof.
  intros. unfold emit_lsm_event.
  pose proof (reserve_ring lsm_events (sizeof warmor_event) k r) as Hr.
  destruct (ringbuf_reserve _ _ k) as [[rec|] k']; simpl in Hr; [by rewrite submit_ring_other|done].
Qed.

Lemma enforcing_maps k k' :
  (forall key, map_contents k' lsm_enforce key = map_contents k lsm_enforce key) ->
  is_enforce_enabled k' = is_enforce_enabled k.
Proof.
  intros Heq. unfold is_enforce_enabled, bpf_map_lookup_elem, vload. rewrite !Heq.
  destruct (map_contents k lsm_enforce (le_bytes 4 0)) eqn:E; [|done]. simpl. by rewrite Heq.
Qed.

(** The counter increment touches one rule and only its counter. *)
Lemma rule_of_bump v :
  obj policy_value v ->
  rule_of (st policy_value ["hit_count"] (ld policy_value ["hit_count"] v + 1) v) = bump (rule_of v).
Proof.
  intros Hv. unfold rule_of, bump; simpl. by repeat field_step.
Qed.

Lemma bump_effect k key v :
  obj policy_value v -> map_contents k policy_map key = Some v ->
  let k' := sync_fetch_and_add policy_value ["hit_count"] (VPtr policy_map key) 1 k in
  map_contents k' policy_map key =
    Some (st policy_value ["hit_count"] (ld policy_value ["hit_count"] v + 1) v) /\
  (forall key', key <> key' -> map_contents k' policy_map key' = map_contents k policy_map key') /\
  (forall m key', bm_name m <> "policy_map" -> map_contents k' m key' = map_contents k m key') /\
  (forall r, ring_records k' r = ring_records k r) /\
  kernel_env k' = kernel_env k.
Proof.
  intros Hv Hk k'. subst k'. unfold sync_fetch_and_add, vstore, vload; simpl. rewrite Hk; simpl.
  split_and!.
  - eapply poke_same; [done|]. apply length_st. rewrite Hv. by apply fits_spec.
  - intros. apply poke_other. congruence.
  - intros m key' Hm. apply poke_other. intros [=]. by apply Hm.
  - intros. apply poke_ring.
  - apply env_poke.
Qed.

(** The counter increment changes neither the environment nor the room left, so
    the record emitted after it is the one emitted before it. *)
Lemma emitted_bump et d f fl c p a4 a6 k q t path n :
  emitted et d f fl c p a4 a6 (sync_fetch_and_add t path q n k) = emitted et d f fl c p a4 a6 k.
Proof.
  unfold emitted, room, sync_fetch_and_add, vstore. rewrite poke_room.
  destruct (ringbuf_reserve _ _ k).1; [|done]. by rewrite (fill_env _ _ _ _ _ _ _ _ k) by apply env_poke.
Qed.

(** ** Refinement *)

(** The records a run of the decision code adds to the ring buffer. *)
Definition reported (et : Z) (s : subject) k (d : option Z) : list (list Z) :=
  match d with
  | Some d => emitted et d (su_file s) (su_flen s) (bpf_get_current_cgroup_id k)
                (su_port s) (su_v4 s) (su_v6 s) k
  | None => []
  end.

(** What the decision code does, in terms of the abstract specification. *)
Record tail_spec (et : Z) (s : subject) k (r : Z) k' : Prop := {
  ts_return : r = spec_return (judge (rule_for k (bpf_get_current_cgroup_id k) (su_hash s) et))
                    (enforcing k);
  ts_rules : forall key, rule_at k' key =
    (if bool_decide (key = key_for k (bpf_get_current_cgroup_id k) (su_hash s) et)
     then bump else id) <$> rule_at k key;
  ts_ring : ring_records k' lsm_events = ring_records k lsm_events ++
    reported et s k (spec_event (judge (rule_for k (bpf_get_current_cgroup_id k) (su_hash s) et)));
  ts_other_rings : forall m, bm_name m <> "lsm_events" -> ring_records k' m = ring_records k m;
  ts_other_maps : forall m key, bm_name m <> "policy_map" ->
    map_contents k' m key = map_contents k m key;
  ts_wf : policy_wf k';
  ts_env : kernel_env k' = kernel_env k;
}.

Lemma rule_at_policy k k' key :
  map_contents k' policy_map key = map_contents k policy_map key ->
  rule_at k' key = rule_at k key.
Proof. unfold rule_at. by intros ->. Qed.

(** A kernel with one rule's counter incremented, seen through the rules. *)
Lemma bump_rules k key v :
  policy_wf k -> map_contents k policy_map key = Some v ->
  let k' := sync_fetch_and_add policy_value ["hit_count"] (VPtr policy_map key) 1 k in
  (forall key', rule_at k' key' = (if bool_decide (key' = key) then bump else id) <$> rule_at k key')
  /\ policy_wf k' /\ vload k' (VPtr policy_map key) =
       st policy_value ["hit_count"] (ld policy_value ["hit_count"] v + 1) v.
Proof.
  intros Hwf Hk k'. pose proof (Hwf _ _ Hk) as Hv.
  destruct (bump_effect k key v Hv Hk) as (Hs & Ho & _). fold k' in Hs, Ho. split_and!.
  - intros key'. case_bool_decide as Hkey; subst.
    + unfold rule_at. rewrite Hs, Hk; simpl. by rewrite rule_of_bump.
    + rewrite option_fmap_id. apply rule_at_policy, Ho. congruence.
  - intros key' v'. destruct (decide (key = key')) as [->|?].
    + rewrite Hs. intros [= <-]. apply obj_st; [by vm_compute|done].
    + rewrite Ho by done. apply Hwf.
  - unfold vload; simpl. by rewrite Hs.
Qed.

(** Which entry the code finds, and that it is the applicable rule. *)
Lemma lookup_effective k cgid hash et :
  (match bpf_map_lookup_elem k policy_map (mk_policy_key cgid hash et) with
   | Some _ => bpf_map_lookup_elem k policy_map (mk_policy_key cgid hash et)
   | None => bpf_map_lookup_elem k policy_map
               (st policy_key ["cgroup_id"] 0 (mk_policy_key cgid hash et))
   end) = bpf_map_lookup_elem k policy_map (key_for k cgid hash et) /\
  rule_for k cgid hash et = rule_at k (key_for k cgid hash et).
Proof.
  rewrite mk_policy_key_global. unfold bpf_map_lookup_elem, rule_for, key_for, rule_at.
  destruct (map_contents k policy_map (mk_policy_key cgid hash et)) eqn:E; simpl.
  - by rewrite E.
  - by destruct (map_contents k policy_map (mk_policy_key 0 hash et)).
Qed.

(** Emission preserves every rule and the environment. *)
Lemma emit_rules et d f fl c p a4 a6 k key :
  rule_at (emit_lsm_event et d f fl c p a4 a6 k) key = rule_at k key.
Proof. apply rule_at_policy, emit_maps. Qed.

Lemma emit_wf et d f fl c p a4 a6 k :
  policy_wf k -> policy_wf (emit_lsm_event et d f fl c p a4 a6 k).
Proof. intros Hwf key v. rewrite emit_maps. apply Hwf. Qed.

Lemma emit_enforce et d f fl c p a4 a6 k :
  is_enforce_enabled (emit_lsm_event et d f fl c p a4 a6 k) = is_enforce_enabled k.
Proof. apply enforcing_maps. intros. apply emit_maps. Qed.

(** The state after the counter increment and, if [d] is given, a report. *)
Definition after (et : Z) (s : subject) k (q : vptr) (d : option Z) : K :=
  let cgid := bpf_get_current_cgroup_id k in
  let k := sync_fetch_and_add policy_value ["hit_count"] q 1 k in
  match d with
  | Some d => emit_lsm_event et d (su_file s) (su_flen s) cgid (su_port s) (su_v4 s) (su_v6 s) k
  | None => k
  end.

Lemma after_hit et s k key v d :
  policy_wf k -> map_contents k policy_map key = Some v ->
  let k' := after et s k (VPtr policy_map key) d in
  (forall key', rule_at k' key' = (if bool_decide (key' = key) then bump else id) <$> rule_at k key')
  /\ ring_records k' lsm_events = ring_records k lsm_events ++ reported et s k d
  /\ (forall m, bm_name m <> "lsm_events" -> ring_records k' m = ring_records k m)
  /\ (forall m key', bm_name m <> "policy_map" -> map_contents k' m key' = map_contents k m key')
  /\ policy_wf k' /\ kernel_env k' = kernel_env k.
Proof.
  intros Hwf Hk k'. destruct (bump_rules k key v Hwf Hk) as (Hr & Hw & _).
  destruct (bump_effect k key v (Hwf _ _ Hk) Hk) as (_ & _ & Hm & Hring & He).
  subst k'. unfold after, reported. destruct d as [d|].
  - split_and!; intros; rewrite ?emit_rules, ?emit_maps, ?emit_env, ?emit_ring; auto.
    + by rewrite Hring, emitted_bump.
    + by rewrite emit_ring_other, Hring by done.
    + by apply emit_wf.
  - split_and!; auto. by rewrite app_nil_r.
Qed.

(** The decision code refines the abstract specification. *)
Lemma lsm_tail_refines et s k :
  policy_wf k -> tail_spec et s k (lsm_tail et s k).1 (lsm_tail et s k).2.
Proof.
  intros Hwf. set (cgid := bpf_get_current_cgroup_id k).
  destruct (lookup_effective k cgid (su_hash s) et) as [Hl Hr].
  set (key := key_for k cgid (su_hash s) et) in *.
  assert (Ht : lsm_tail et s k =
    match map_contents k policy_map key with
    | Some v =>
        let d := spec_event (judge (Some (rule_of v))) in
        (spec_return (judge (Some (rule_of v))) (enforcing k),
         after et s k (VPtr policy_map key) d)
    | None => (0, emit_lsm_event et 0 (su_file s) (su_flen s) cgid (su_port s) (su_v4 s) (su_v6 s) k)
    end).
  { unfold lsm_tail. fold cgid. cbv zeta. rewrite Hl. unfold bpf_map_lookup_elem.
    destruct (map_contents k policy_map key) as [v|] eqn:Hk; [|done].
    pose proof (Hwf _ _ Hk) as Hv. destruct (bump_rules k key v Hwf Hk) as (_ & _ & Hload).
    rewrite Hload. unfold after, judge, rule_of; cbn [r_action r_audit].
    rewrite !ld_st_ne by lay. rewrite emit_enforce.
    replace (is_enforce_enabled _) with (is_enforce_enabled k).
    2: { symmetry. apply enforcing_maps. intros. by apply (bump_effect k key v Hv Hk). }
    fold (enforcing k). destruct (_ =? ACTION_DENY); simpl.
    - by destruct (enforcing k).
    - by destruct (truthy _). }
  rewrite Ht. clear Ht Hl.
  assert (Hra : rule_at k key = rule_of <$> map_contents k policy_map key) by done.
  destruct (map_contents k policy_map key) as [v|] eqn:Hk; simpl in Hra; cbn [fst snd].
  - destruct (after_hit et s k key v (spec_event (judge (Some (rule_of v)))) Hwf Hk)
      as (?&?&?&?&?&?).
    constructor; fold cgid; rewrite ?Hr, ?Hra; fold key; auto.
  - constructor; fold cgid; rewrite ?Hr, ?Hra; fold key; simpl; intros;
      rewrite ?emit_rules, ?emit_maps, ?emit_ring, ?emit_env; auto.
    + case_bool_decide; subst; rewrite ?Hra, ?option_fmap_id; done.
    + by apply emit_ring_other.
    + by apply emit_wf.
Qed.
End PolicyFacts.
