(* ===== verification/Fnv.v ===== *)
(** The rule hashes against one reference.

    Every hash of the LSM programs is FNV-1a over a byte string: a bounded,
    NUL-terminated prefix for names, and the bytes of address and port for
    network endpoints.  [fnv1a] is the textbook definition; the lemmas here
    relate each routine of the source to it, and say which part of a name a rule
    hash can see. *)

From S2P Require Import Prelude CTypes Bpf WarmorLsm.
From S2P Require Import VmlinuxTypes LsmConnect LsmBind LsmListen.

(** FNV-1a over 32-bit words (bytes when every word is below 256). *)
Definition fnv1a (cs : list Z) : Z := foldl fnv_step FNV_OFFSET cs.

(** Sign extension of a [char] to [__u32]. *)
Definition sext8 (b : Z) : Z := to_u32 (to_s 8 b).

Lemma fnv_step_range h c : is_u 32 (fnv_step h c).
Proof. apply to_u_range. lia. Qed.

Lemma foldl_fnv_range cs h : is_u 32 h -> is_u 32 (foldl fnv_step h cs).
Proof. revert h. induction cs as [|c cs IH]; intros h Hh; simpl; auto using fnv_step_range. Qed.

Lemma fnv1a_range cs : is_u 32 (fnv1a cs).
Proof. apply foldl_fnv_range. unfold is_u, FNV_OFFSET. lia. Qed.

(** ** Names *)

(** The loop folds over the bytes before the first NUL among the next [n] ones. *)
Lemma fnv1a_loop_spec n i data len hash :
  fnv1a_loop n i data len hash =
  foldl fnv_step hash
    (sext8 <$> cstr (take (Nat.min n (Z.to_nat (len - Z.of_nat i))) (drop i data))).
Proof.
  revert i hash. induction n as [|n IH]; intros i hash; [done|].
  cbn [fnv1a_loop]. destruct (len <=? Z.of_nat i) eqn:Hl; zbool; cbn [orb].
  { replace (Z.to_nat (len - Z.of_nat i)) with 0%nat by lia. by rewrite Nat.min_0_r. }
  replace (Nat.min (S n) (Z.to_nat (len - Z.of_nat i)))
    with (S (Nat.min n (Z.to_nat (len - Z.of_nat (S i))))) by lia.
  destruct (data !! i) as [c|] eqn:Hc; simpl.
  - rewrite (drop_S data c i Hc). simpl. rewrite IH. by destruct (c =? 0).
  - apply lookup_ge_None in Hc. by rewrite drop_ge by lia.
Qed.

Lemma fnv1a_hash_spec data len :
  fnv1a_hash data len = fnv1a (sext8 <$> cstr (take (Nat.min 16 (Z.to_nat len)) data)).
Proof. unfold fnv1a_hash. rewrite fnv1a_loop_spec, drop_0. by rewrite Z.sub_0_r. Qed.

Lemma fnv1a_hash_range data len : is_u 32 (fnv1a_hash data len).
Proof. rewrite fnv1a_hash_spec. apply fnv1a_range. Qed.

(** Sign extension is invisible on 7-bit characters. *)
Lemma sext8_ascii b : 0 <= b < 128 -> sext8 b = b.
Proof.
  intros. unfold sext8, to_s, to_u. rewrite (Z.mod_small b) by (simpl; lia).
  destruct (Z.ltb_spec b (2 ^ (8 - 1))); [|simpl in *; lia]. apply Z.mod_small. lia.
Qed.

Lemma sext8_ascii_map s : Forall (fun b => 0 <= b < 128) s -> sext8 <$> s = s.
Proof. induction 1 as [|b s Hb _ IH]; csimpl; [done|]. by rewrite sext8_ascii, IH. Qed.

(** A name read into a buffer by a string probe read. *)
Lemma fnv1a_hash_cstring s tail n :
  Forall (fun b => b <> 0) s -> (n = length s + 1)%nat ->
  fnv1a_hash (s ++ 0 :: tail) (Z.of_nat n) = fnv1a (sext8 <$> take 16 s).
Proof.
  intros Hz ->. rewrite fnv1a_hash_spec. do 2 f_equal.
  replace (Z.to_nat (Z.of_nat (length s + 1))) with (length s + 1)%nat by lia.
  destruct (decide (length s < 16)%nat) as [Hl|Hl].
  - rewrite Nat.min_r by lia. rewrite take_app_ge by lia.
    replace (length s + 1 - length s)%nat with 1%nat by lia. simpl.
    rewrite cstr_nul by done. by rewrite take_ge by lia.
  - rewrite Nat.min_l by lia. rewrite take_app_le by lia. apply cstr_id, Forall_take, Hz.
Qed.

(** ** Endpoints *)

Lemma byte_of_shift x n : 0 <= n -> Z.land (Z.shiftr x n) 255 = x / 2 ^ n mod 256.
Proof.
  intros. change 255 with (Z.ones 8). rewrite Z.land_ones by lia.
  by rewrite Z.shiftr_div_pow2.
Qed.

Lemma le_bytes_S n z : le_bytes (S n) z = z mod 256 :: le_bytes n (z / 256).
Proof. done. Qed.

Lemma byte_of_land x : Z.land x 255 = x mod 256.
Proof. change 255 with (Z.ones 8). by rewrite Z.land_ones by lia. Qed.

Ltac endpoint_bytes :=
  rewrite ?byte_of_shift, ?byte_of_land by lia;
  rewrite ?le_bytes_S, ?Z.div_div by lia; unfold fnv1a; cbn [app foldl le_bytes];
  change (2 ^ 8) with 256; change (2 ^ 16) with (256 * 256);
  change (2 ^ 24) with (256 * 256 * 256); reflexivity.

Lemma hash_port_spec port : hash_port port = fnv1a (le_bytes 2 port).
Proof. unfold hash_port. endpoint_bytes. Qed.

Lemma connect_hash_ipv4_spec addr port :
  LsmConnect.hash_ipv4_endpoint addr port = fnv1a (le_bytes 4 addr ++ le_bytes 2 port).
Proof. unfold LsmConnect.hash_ipv4_endpoint. endpoint_bytes. Qed.

Lemma hash_ipv6_loop_spec n i addr hash :
  (i + n <= length addr)%nat ->
  LsmConnect.hash_ipv6_loop n i addr hash = foldl fnv_step hash (take n (drop i addr)).
Proof.
  revert i hash. induction n as [|n IH]; intros i hash Hl; [done|]. simpl.
  destruct (lookup_lt_is_Some_2 addr i ltac:(lia)) as [c Hc].
  rewrite Hc, IH by lia. by rewrite (drop_S addr c i Hc).
Qed.

Lemma connect_hash_ipv6_spec addr port :
  length addr = 16%nat ->
  LsmConnect.hash_ipv6_endpoint addr port = fnv1a (addr ++ le_bytes 2 port).
Proof.
  intros Hl. unfold LsmConnect.hash_ipv6_endpoint. rewrite hash_ipv6_loop_spec by lia.
  rewrite drop_0, take_ge by lia. unfold fnv1a. rewrite foldl_app. endpoint_bytes.
Qed.

(** The bind program's copies are the connect program's routines. *)
Lemma bind_hash_ipv4_same addr port :
  LsmBind.hash_ipv4_endpoint addr port = LsmConnect.hash_ipv4_endpoint addr port.
Proof. unfold LsmBind.hash_ipv4_endpoint, LsmConnect.hash_ipv4_endpoint. reflexivity. Qed.

Lemma bind_hash_ipv6_loop_same n i addr hash :
  LsmBind.hash_ipv6_loop n i addr hash = LsmConnect.hash_ipv6_loop n i addr hash.
Proof. revert i hash. induction n; intros; simpl; auto. Qed.

Lemma bind_hash_ipv6_same addr port :
  LsmBind.hash_ipv6_endpoint addr port = LsmConnect.hash_ipv6_endpoint addr port.
Proof.
  unfold LsmBind.hash_ipv6_endpoint, LsmConnect.hash_ipv6_endpoint.
  by rewrite bind_hash_ipv6_loop_same.
Qed.
