(* ===== verification/Demo.v ===== *)
(** A concrete machine state for the witnesses of the development: a container
    (cgroup 7) about to execute /usr/bin/nc, open a file named shadow, and connect
    to 169.254.10.1:80, with a policy map that denies each of them.  It is a
    state of the reference kernel of [SimKernel.v], given by data only. *)

From S2P Require Import Prelude CTypes Bpf SimKernel VmlinuxTypes WarmorLsm LsmPolicy Fnv.

(** ** Building memory and checking it *)

Fixpoint put_bytes (a : Z) (bs : list Z) (m : gmap Z Z) : gmap Z Z :=
  match bs with
  | [] => m
  | b :: bs' => <[a := b]> (put_bytes (a + 1) bs' m)
  end.

Definition mem_of (l : list (Z * list Z)) : gmap Z Z :=
  foldr (fun x m => put_bytes x.1 x.2 m) ∅ l.

(** Decides [bytes_at] by reading the bytes one by one. *)
Fixpoint reads (rd : nat -> option Z) (i : nat) (bs : list Z) : bool :=
  match bs with
  | [] => true
  | b :: bs' => bool_decide (rd i = Some b) && reads rd (S i) bs'
  end.

Lemma reads_bytes_at rd bs : reads rd 0 bs = true -> bytes_at rd bs.
Proof.
  cut (forall i, reads rd i bs = true -> forall j b, bs !! j = Some b -> rd (i + j)%nat = Some b).
  { intros Hc Hr j b Hj. by apply (Hc 0%nat Hr). }
  induction bs as [|c bs IH]; intros i Hr j b Hj; [done|]. simpl in Hr.
  apply andb_prop in Hr as [Hc%bool_decide_eq_true Hr]. destruct j as [|j]; simplify_eq/=.
  - by rewrite Nat.add_0_r.
  - rewrite Nat.add_succ_r. by apply (IH (S i)).
Qed.

Lemma reads_cstring rd s :
  forallb (fun b => (0 <? b) && (b <? 256)) s && reads rd 0 (s ++ [0]) = true -> cstring_at rd s.
Proof.
  rewrite andb_true_iff, forallb_forall. intros [Hs Hr].
  split_and!; [| |by apply reads_bytes_at]; apply Forall_forall; intros b Hb%list_elem_of_In%Hs;
    apply andb_prop in Hb as []; zbool; unfold is_byte; lia.
Qed.

(** The reference kernel's policy map is well formed when its values have the
    declared size. *)
Lemma sim_policy_wf (s : sim_kernel) :
  map_Forall (fun key v => key.1 = "policy_map" -> length v = 8%nat) (sk_maps s) -> policy_wf s.
Proof. intros Hm key v Hk. exact (Hm _ _ Hk eq_refl). Qed.

(** ** The state *)

Definition demo_path : list Z := bstr "/usr/bin/nc".
Definition demo_name : list Z := bstr "shadow".
Definition demo_bprm : Z := 4096.
Definition demo_file : Z := 12288.
Definition demo_sockaddr : Z := 65536.
Definition demo_sockaddr6 : Z := 69632.
Definition demo_addr6 : list Z := [32; 1; 13; 184; 0; 0; 0; 0; 0; 0; 0; 0; 0; 0; 0; 1].

Definition demo_child : Z := 131072.
Definition demo_comm : list Z := bstr "victim".
Definition demo_fstype : list Z := bstr "overlay".
Definition demo_socket : Z := 200704.

Definition demo_memory : gmap Z Z := mem_of [
  (demo_bprm + Z.of_nat (foff struct_linux_binprm ["filename"]), le_bytes 8 8192);
  (8192, demo_path ++ [0]);
  (demo_file + Z.of_nat (foff struct_file ["f_path"; "dentry"]), le_bytes 8 20480);
  (20480 + Z.of_nat (foff struct_dentry ["d_name"; "name"]), le_bytes 8 24576);
  (24576, demo_name ++ [0]);
  (demo_sockaddr, [2; 0; 0; 80; 169; 254; 10; 1]);
  (demo_sockaddr6, [10; 0; 0; 53; 0; 0; 0; 0] ++ demo_addr6);
  (demo_child + Z.of_nat (foff struct_task_struct ["comm"]), demo_comm ++ [0]);
  (196608, demo_fstype ++ [0]);
  (demo_socket + Z.of_nat (foff struct_socket ["sk"]), le_bytes 8 204800);
  (204800 + Z.of_nat (foff struct_sock ["__sk_common"; "skc_num"]), le_bytes 2 8080)].

(** Action 1, no audit flag, three hits so far. *)
Definition deny_value : list Z := [1; 0; 0; 0; 3; 0; 0; 0].
Definition demo_key : list Z := mk_policy_key 7 (fnv1a demo_path) EVENT_TYPE_EXEC.

Definition demo_maps (enforce : Z) : gmap (string * list Z) (list Z) :=
  <[("policy_map", demo_key) := deny_value]>
  (<[("policy_map", mk_policy_key 0 (fnv1a demo_name) EVENT_TYPE_FILE) := deny_value]>
  (<[("policy_map", mk_policy_key 0 (fnv1a [169; 254; 10; 1; 0; 80]) EVENT_TYPE_NETWORK) := deny_value]>
  (<[("lsm_enforce", le_bytes 4 0) := [enforce]]> ∅))).

Definition demo (enforce : Z) : sim_kernel :=
  SimK (1000 * 2 ^ 32 + 1001) (33 * 2 ^ 32 + 44) 7 123456789 (bstr "sh")
       demo_memory demo_memory (demo_maps enforce) 262144 [].

Lemma demo_wf enforce : policy_wf (demo enforce).
Proof.
  apply sim_policy_wf. unfold demo, demo_maps; cbn [sk_maps].
  repeat (apply map_Forall_insert_2; [done|]). apply map_Forall_empty.
Qed.
