(* ===== verification/LsmHooks.v ===== *)
(** The seven LSM hooks together.

    [hook_call] is an invocation of one of the hooks with its arguments and
    [run_hook] runs the program attached to it.  Each program is the extraction
    of a [subject] (what to decide on) followed by the decision code of
    [LsmPolicy.v]; from that the properties of the enforcement layer follow:
    refinement of the abstract decision, when an operation is denied, that
    audit-only mode and the container filter never deny, that running the
    programs changes no rule but its counter, and how counters add up over any
    interleaving of hook invocations. *)

From S2P Require Import Prelude CTypes Bpf SimKernel VmlinuxTypes WarmorLsm LsmPolicy Fnv.
From S2P Require Import LsmExec LsmFile LsmConnect LsmBind LsmListen LsmMount LsmPtrace Demo.

(** ** Invocations *)

Inductive hook_call : Type :=
  | CallExec (bprm ret : Z)
  | CallFile (file : Z)
  | CallConnect (sock address addrlen : Z)
  | CallBind (sock address addrlen : Z)
  | CallListen (sock backlog : Z)
  | CallPtrace (child mode : Z)
  | CallMount (dev_name path type flags data : Z).

Definition hook_type (c : hook_call) : Z :=
  match c with
  | CallExec _ _ => EVENT_TYPE_EXEC
  | CallFile _ => EVENT_TYPE_FILE
  | CallConnect _ _ _ => EVENT_TYPE_NETWORK
  | CallBind _ _ _ => EVENT_TYPE_BIND
  | CallListen _ _ => EVENT_TYPE_LISTEN
  | CallPtrace _ _ => EVENT_TYPE_PTRACE
  | CallMount _ _ _ _ _ => EVENT_TYPE_MOUNT
  end.

(** The verdict an earlier LSM already returned; only the exec hook is given one. *)
Definition prior (c : hook_call) : Z := match c with CallExec _ ret => ret | _ => 0 end.

Section Hooks.
Context {K : Type} `{BpfKernel K}.
Implicit Types (k : K).

Definition run_hook (c : hook_call) k : Z * K :=
  match c with
  | CallExec bprm ret => lsm_exec_check bprm ret k
  | CallFile file => lsm_file_check file k
  | CallConnect sock address addrlen => lsm_connect_check sock address addrlen k
  | CallBind sock address addrlen => lsm_bind_check sock address addrlen k
  | CallListen sock backlog => lsm_listen_check sock backlog k
  | CallPtrace child mode => lsm_ptrace_check child mode k
  | CallMount dev_name path type flags data => lsm_mount_check dev_name path type flags data k
  end.

(** ** What each hook decides on *)

(** A name copied by a string probe read into a 64-byte buffer. *)
Definition name_subject k (name : Z) : option subject :=
  let '(len, buf) := bpf_probe_read_kernel_str k (KAddr name) (stack_object k 64) in
  if len <=? 0 then None else Some (Subject (fnv1a_hash buf len) (KStack buf) len 0 0 None).

Definition sock_family k (address : Z) : Z :=
  le_val (bpf_probe_read_kernel k
    (KAddr (address + Z.of_nat (foff struct_sockaddr ["sa_family"]))) [0; 0]).2.

Definition endpoint_subject k (address : Z) : option subject :=
  if sock_family k address =? 2 then
    let sin := (bpf_probe_read_kernel k (KAddr address)
                  (stack_object k (Z.to_nat (sizeof LsmConnect.sockaddr_in)))).2 in
    let port := ld LsmConnect.sockaddr_in ["sin_port"] sin in
    let addr := ld LsmConnect.sockaddr_in ["sin_addr"] sin in
    Some (Subject (LsmConnect.hash_ipv4_endpoint addr port) NULL 0 port addr
            (Some (replicate 16 0)))
  else if sock_family k address =? 10 then
    let sin6 := (bpf_probe_read_kernel k (KAddr address)
                   (stack_object k (Z.to_nat (sizeof LsmConnect.sockaddr_in6)))).2 in
    let port := ld LsmConnect.sockaddr_in6 ["sin6_port"] sin6 in
    let addr := ldb LsmConnect.sockaddr_in6 ["sin6_addr"] sin6 in
    Some (Subject (LsmConnect.hash_ipv6_endpoint addr port) NULL 0 port 0 (Some addr))
  else None.

Definition hook_subject (c : hook_call) k : option subject :=
  match c with
  | CallExec bprm _ => name_subject k (core_read k struct_linux_binprm ["filename"] bprm)
  | CallFile file =>
      let dentry := core_read k struct_file ["f_path"; "dentry"] file in
      if dentry =? 0 then None else
      let name := core_read k struct_dentry ["d_name"; "name"] dentry in
      if name =? 0 then None else name_subject k name
  | CallConnect _ address _ | CallBind _ address _ => endpoint_subject k address
  | CallListen sock _ =>
      let port := core_read k struct_sock ["__sk_common"; "skc_num"]
                    (core_read k struct_socket ["sk"] sock) in
      if port =? 0 then None else Some (Subject (hash_port port) NULL 0 port 0 None)
  | CallPtrace child _ =>
      let buf := (bpf_probe_read_kernel_str k
                    (KAddr (child + Z.of_nat (foff struct_task_struct ["comm"])))
                    (stack_object k 16)).2 in
      Some (Subject (fnv1a_hash buf 16) (KStack buf) 16 0 0 None)
  | CallMount _ _ type _ _ => if type =? 0 then None else name_subject k type
  end.

(** An early return common to both sides; the two results of a probe read. *)
Ltac early :=
  match goal with |- context [if ?b then _ else _] => destruct b; [reflexivity|] end.
Ltac probe_name :=
  match goal with |- context [bpf_probe_read_kernel_str ?k ?p ?b] =>
    destruct (bpf_probe_read_kernel_str k p b) end.

Ltac same_tail :=
  cbv zeta; unfold lsm_tail; cbn [su_hash su_file su_flen su_port su_v4 su_v6]; reflexivity.

(** Every hook is: the verdict of an earlier LSM, the container filter, the
    extraction of the subject, and the shared decision code. *)
Lemma run_hook_eq c k :
  run_hook c k =
  if negb (prior c =? 0) then (prior c, k) else
  if filtered_out k then (0, k) else
  match hook_subject c k with
  | None => (0, k)
  | Some s => lsm_tail (hook_type c) s k
  end.
Proof.
  unfold filtered_out.
  destruct c; cbn [run_hook prior hook_subject hook_type]; rewrite ?Z.eqb_refl; cbn [negb].
  - unfold lsm_exec_check, name_subject. do 2 early. probe_name. early. same_tail.
  - unfold lsm_file_check, name_subject. do 3 early. probe_name. early. same_tail.
  - unfold lsm_connect_check, endpoint_subject, sock_family. early.
    destruct (_ =? 2); [same_tail|]. destruct (_ =? 10); [same_tail|reflexivity].
  - unfold lsm_bind_check, endpoint_subject, sock_family. early.
    change LsmBind.sockaddr_in with LsmConnect.sockaddr_in.
    change LsmBind.sockaddr_in6 with LsmConnect.sockaddr_in6.
    destruct (_ =? 2); [rewrite bind_hash_ipv4_same; same_tail|].
    destruct (_ =? 10); [rewrite bind_hash_ipv6_same; same_tail|reflexivity].
  - unfold lsm_listen_check. do 2 early. same_tail.
  - unfold lsm_ptrace_check. early. same_tail.
  - unfold lsm_mount_check, name_subject. do 2 early. probe_name. early. same_tail.
Qed.

(** ** Specification of a hook *)

Definition hook_spec (c : hook_call) k (r : Z) k' : Prop :=
  if negb (prior c =? 0) then r = prior c /\ k' = k
  else if filtered_out k then r = 0 /\ k' = k
  else match hook_subject c k with
       | None => r = 0 /\ k' = k
       | Some s => tail_spec (hook_type c) s k r k'
       end.

(** The rule that decides a call, if the call is decided by a rule at all. *)
Definition deciding_rule (c : hook_call) k : option rule :=
  if filtered_out k then None else
  match hook_subject c k with
  | None => None
  | Some s => rule_for k (bpf_get_current_cgroup_id k) (su_hash s) (hook_type c)
  end.

(** Key of the counter a call increments, if any. *)
Definition counted_key (c : hook_call) k : option (list Z) :=
  if negb (prior c =? 0) || filtered_out k then None else
  match hook_subject c k with
  | None => None
  | Some s => Some (key_for k (bpf_get_current_cgroup_id k) (su_hash s) (hook_type c))
  end.

(** ** Executions: hook invocations interleaved with scheduling

    Between two invocations another task becomes current: the environment
    changes arbitrarily while maps and ring buffers stay. *)

Definition same_storage k k' : Prop :=
  (forall m key, map_contents k' m key = map_contents k m key) /\
  (forall m, ring_records k' m = ring_records k m).

Inductive lsm_step : K -> K -> Prop :=
  | step_hook c k : lsm_step k (run_hook c k).2
  | step_switch k k' : same_storage k k' -> lsm_step k k'.

(** Executions counting the hits on the rule stored under [key]. *)
Inductive lsm_run (key : list Z) : nat -> K -> K -> Prop :=
  | run_refl k : lsm_run key 0 k k
  | run_call n k k1 c :
      lsm_run key n k k1 ->
      lsm_run key (if bool_decide (counted_key c k1 = Some key) then S n else n)
        k (run_hook c k1).2
  | run_switch n k k1 k2 :
      lsm_run key n k k1 -> same_storage k1 k2 -> lsm_run key n k k2.
End Hooks.

Section HookFacts.
Context {K : Type} `{BpfKernelOk K}.
Implicit Types (k : K).

Lemma run_hook_spec c k : policy_wf k -> hook_spec c k (run_hook c k).1 (run_hook c k).2.
Proof.
  intros Hwf. unfold hook_spec. rewrite run_hook_eq.
  destruct (negb _); [done|]. destruct (filtered_out k); [done|].
  destruct (hook_subject c k); [by apply lsm_tail_refines|done].
Qed.

(** C1: every LSM hook (exec, file open, connect, bind, listen, ptrace, mount)
    implements the abstract policy decision: an earlier LSM's verdict passes
    through, a filtered-out container and an unreadable subject are allowed with
    no effect, and otherwise the return value, the rule counters, the event
    record and everything left unchanged are those of the specification. *)
Theorem lsm_hook_refines c k :
  policy_wf k -> hook_spec c k (run_hook c k).1 (run_hook c k).2.
Proof. apply run_hook_spec. Qed.

(** The return value in terms of the deciding rule. *)
Lemma run_hook_return c k :
  policy_wf k -> prior c = 0 ->
  (run_hook c k).1 = spec_return (judge (deciding_rule c k)) (enforcing k).
Proof.
  intros Hwf Hp. rewrite run_hook_eq, Hp; cbn [negb Z.eqb]. unfold deciding_rule.
  destruct (filtered_out k); [done|]. destruct (hook_subject c k) as [s|]; [|done].
  apply (lsm_tail_refines _ s k Hwf).
Qed.

(** C5: a hook denies an operation no earlier LSM denied exactly when enforcement
    is on and the rule that decides the call, the container's own or else the
    global one, is a deny rule. *)
Theorem lsm_hook_denies_iff c k :
  policy_wf k -> prior c = 0 ->
  (run_hook c k).1 <> 0 <->
  enforcing k = true /\ exists r, deciding_rule c k = Some r /\ r_action r = ACTION_DENY.
Proof.
  intros Hwf Hp. rewrite run_hook_return by done.
  destruct (deciding_rule c k) as [r|]; simpl.
  - destruct (Z.eqb_spec (r_action r) ACTION_DENY), (enforcing k); simpl;
      (split; [try done; eauto|intros (? & ? & ? & ?); by simplify_eq]).
  - split; [done|]. by intros (? & ? & ? & ?).
Qed.

(** In audit-only mode no hook changes the outcome of an operation: it
    returns exactly what the previous LSM returned. *)
Lemma audit_only_never_denies c k :
  policy_wf k -> enforcing k = false -> (run_hook c k).1 = prior c.
Proof.
  intros Hwf He. destruct (Z.eq_dec (prior c) 0) as [Hp|Hp].
  - rewrite run_hook_return, He, Hp by done. by destruct (judge _).
  - rewrite run_hook_eq. destruct (Z.eqb_spec (prior c) 0); [done|]. done.
Qed.

(** The state after a hook, whichever way it returned. *)
Lemma run_hook_effect c k :
  policy_wf k ->
  let k' := (run_hook c k).2 in
  (forall key, rule_at k' key =
     (if bool_decide (counted_key c k = Some key) then bump else id) <$> rule_at k key) /\
  (forall m key, bm_name m <> "policy_map" -> map_contents k' m key = map_contents k m key) /\
  policy_wf k'.
Proof.
  intros Hwf k'. pose proof (run_hook_spec c k Hwf) as Hs. fold k' in Hs.
  unfold hook_spec, counted_key in *.
  destruct (negb (prior c =? 0)); [destruct Hs as [_ ->]; split_and!; auto; intros; by rewrite option_fmap_id|].
  destruct (filtered_out k); [destruct Hs as [_ ->]; split_and!; auto; intros; by rewrite option_fmap_id|].
  simpl. destruct (hook_subject c k) as [s|];
    [|destruct Hs as [_ ->]; split_and!; auto; intros; by rewrite option_fmap_id].
  destruct Hs as [_ Hr _ _ Hm Hw _]. split_and!; auto.
  intros key. rewrite Hr. do 2 case_bool_decide; congruence.
Qed.

Lemma same_storage_rules k k' key : same_storage k k' -> rule_at k' key = rule_at k key.
Proof. intros [Hm _]. apply rule_at_policy, Hm. Qed.

Lemma same_storage_wf k k' : same_storage k k' -> policy_wf k -> policy_wf k'.
Proof. intros [Hm _] Hwf key v. rewrite Hm. apply Hwf. Qed.

#[export] Instance same_policy_equiv : Equivalence (same_policy (K := K)).
Proof.
  split.
  - intros k. by split_and!.
  - intros k k' (?&?&?). split_and!; intros; symmetry; auto.
  - intros k1 k2 k3 (E1&E2&E3) (F1&F2&F3).
    split_and!; intros; [rewrite E1|rewrite E2|rewrite E3]; auto.
Qed.

Lemma step_same_policy k k' : policy_wf k -> lsm_step k k' -> policy_wf k' /\ same_policy k k'.
Proof.
  intros Hwf Hstep. revert Hwf. destruct Hstep as [c k|k k' Hs]; intros Hwf.
  - destruct (run_hook_effect c k Hwf) as (Hr & Hm & Hw). split; [done|]. split_and!.
    + intros key. rewrite Hr. destruct (rule_at k key); [|done]. by case_bool_decide.
    + intros. symmetry. by apply Hm.
    + intros. symmetry. by apply Hm.
  - split; [by eapply same_storage_wf|]. split_and!.
    + intros key. by rewrite (same_storage_rules k k' key Hs).
    + intros. symmetry. apply Hs.
    + intros. symmetry. apply Hs.
Qed.

(** C6: along every execution, hook invocations interleaved with any scheduling,
    the policy map stays well formed and no program changes the action or the
    audit flag of any rule, adds or removes a rule, or touches the container
    filter or the enforcement switch. *)
Theorem executions_preserve_policy k k' :
  policy_wf k -> rtc lsm_step k k' -> policy_wf k' /\ same_policy k k'.
Proof.
  intros Hwf Hrun. induction Hrun as [k|k k1 k' Hstep _ IH]; [done|].
  destruct (step_same_policy k k1 Hwf Hstep) as [Hw Hs].
  destruct (IH Hw) as [? ?]. split; [done|]. by etrans.
Qed.

(** C21: hit counters are exact: after an execution in which the rule stored under
    [key] decided [n] calls, its counter is the initial value plus [n] modulo
    2^32 and its action and audit flag are the initial ones. *)
Theorem hit_counter_exact key n k k' r :
  policy_wf k -> lsm_run key n k k' -> rule_at k key = Some r -> is_u 32 (r_hits r) ->
  rule_at k' key = Some (Rule (r_action r) (r_audit r) (to_u32 (r_hits r + Z.of_nat n))).
Proof.
  intros Hwf Hrun Hr Hh.
  cut (policy_wf k' /\
       rule_at k' key = Some (Rule (r_action r) (r_audit r) (to_u32 (r_hits r + Z.of_nat n)))).
  { by intros []. }
  induction Hrun as [k|n k k1 c _ IH|n k k1 k2 _ IH Hs].
  - split; [done|]. rewrite Z.add_0_r, to_u_id by done. by destruct r.
  - destruct (IH Hwf Hr) as [Hw Hk]. destruct (run_hook_effect c k1 Hw) as (Hb & _ & ?).
    split; [done|]. rewrite Hb, Hk. case_bool_decide; simpl; [|done].
    unfold bump; simpl. rewrite to_u_add_l. do 3 f_equal. lia.
  - destruct (IH Hwf Hr) as [Hw Hk]. split; [by eapply same_storage_wf|].
    by rewrite (same_storage_rules k1 k2).
Qed.

(** What a hook reads does not depend on the policy map. *)
Lemma hook_subject_env c k k' :
  kernel_env k' = kernel_env k -> hook_subject c k' = hook_subject c k.
Proof.
  intros He. destruct c; cbn [hook_subject];
    unfold name_subject, endpoint_subject, sock_family, core_read, bpf_probe_read_kernel,
      bpf_probe_read_kernel_str, stack_object; by rewrite !He.
Qed.

Lemma same_policy_filter k k' :
  same_policy k k' -> kernel_env k' = kernel_env k -> filtered_out k' = filtered_out k.
Proof.
  intros (_ & Hf & _) He. unfold filtered_out, should_skip_cgroup, bpf_map_lookup_elem,
    bpf_get_current_cgroup_id. by rewrite He, !Hf.
Qed.

Lemma same_policy_enforcing k k' : same_policy k k' -> enforcing k' = enforcing k.
Proof. intros (_ & _ & He). unfold enforcing. f_equal. apply enforcing_maps. intros. by rewrite He. Qed.

(** Only the action and the audit flag of a rule matter. *)
Lemma judge_ext r r' :
  (fun r => (r_action r, r_audit r)) <$> r = (fun r => (r_action r, r_audit r)) <$> r' ->
  judge r = judge r'.
Proof.
  destruct r, r'; intros; simplify_eq/=; [|done].
  match goal with E1 : r_action _ = _, E2 : r_audit _ = _ |- _ => by rewrite E1, E2 end.
Qed.

Lemma judge_same_policy k k' c :
  same_policy k k' -> kernel_env k' = kernel_env k ->
  judge (deciding_rule c k') = judge (deciding_rule c k).
Proof.
  intros Hs He. unfold deciding_rule. rewrite (same_policy_filter k k') by done.
  rewrite (hook_subject_env c k k') by done. destruct (filtered_out k); [done|].
  destruct (hook_subject c k) as [s|]; [|done]. unfold bpf_get_current_cgroup_id. rewrite He.
  destruct Hs as (Hr & _). unfold rule_for, applicable.
  set (k1 := mk_policy_key (cur_cgroup_id _) _ _). set (k2 := mk_policy_key 0 _ _).
  apply judge_ext. pose proof (Hr k1) as H1.
  destruct (rule_at k k1), (rule_at k' k1); by rewrite <- ?H1, <- ?Hr.
Qed.

(** Hit counters never influence a verdict: two kernels that agree on actions,
    audit flags, filter and switch (but not on counters) and on what the current
    task sees give every call the same return value. *)
Lemma verdict_ignores_counters c k k' :
  policy_wf k -> policy_wf k' -> same_policy k k' -> kernel_env k' = kernel_env k ->
  (run_hook c k').1 = (run_hook c k).1.
Proof.
  intros Hw Hw' Hs He. destruct (Z.eq_dec (prior c) 0) as [Hp|Hp].
  - rewrite !run_hook_return by done. rewrite (judge_same_policy k k') by done.
    by rewrite (same_policy_enforcing k k').
  - rewrite !run_hook_eq. destruct (Z.eqb_spec (prior c) 0); done.
Qed.

(** ** What the hooks decide on, in terms of kernel memory *)

(** A name in kernel memory is hashed over at most its first 16 bytes. *)
Lemma name_subject_cstring k name s :
  cstring_at (src_byte (kernel_env k) (KAddr name)) s ->
  exists buf len,
    name_subject k name = Some (Subject (fnv1a (sext8 <$> take 16 s)) (KStack buf) len 0 0 None)
    /\ 0 < len /\ cstr buf = take 63 s /\ length buf = 64%nat.
Proof.
  intros Hs. pose proof Hs as (Hz & _).
  destruct (probe_read_kernel_str_cstring k (KAddr name) (stack_object k 64) s Hs) as [tl Hp].
  { intros Heq. pose proof (length_stack_object k 64) as Hl. by rewrite Heq in Hl. }
  pose proof (length_probe_kernel_str k (KAddr name) (stack_object k 64)) as Hl.
  rewrite length_stack_object in *. unfold name_subject. rewrite Hp in *; cbn [snd] in Hl.
  set (n := Nat.min (S (length s)) 64) in *.
  assert (Hlt : length (take (n - 1) s) = (n - 1)%nat) by (rewrite length_take; lia).
  destruct (Z.leb_spec (Z.of_nat n) 0); [lia|].
  rewrite fnv1a_hash_cstring; [|by apply Forall_take|lia].
  rewrite take_take. replace (16 `min` (n - 1))%nat with (16 `min` length s)%nat by lia.
  rewrite take_min_length.
  eexists _, _. split; [reflexivity|]. split_and!; [lia| |done].
  rewrite cstr_nul by (by apply Forall_take).
  replace (n - 1)%nat with (63 `min` length s)%nat by lia. apply take_min_length.
Qed.

(** The exec hook decides on FNV-1a of the first 16 bytes (each sign-extended)
    of the path that [bprm->filename] points to, whatever the path's length, and
    reports at most its first 63 bytes. *)
Lemma exec_decides_on_path k bprm ret fp s :
  is_u 64 fp ->
  bytes_at (src_byte (kernel_env k)
              (KAddr (bprm + Z.of_nat (foff struct_linux_binprm ["filename"])))) (le_bytes 8 fp) ->
  cstring_at (src_byte (kernel_env k) (KAddr fp)) s ->
  exists sub buf, hook_subject (CallExec bprm ret) k = Some sub /\
    su_hash sub = fnv1a (sext8 <$> take 16 s) /\ su_file sub = KStack buf /\
    0 < su_flen sub /\ cstr buf = take 63 s.
Proof.
  intros Hfp Hm Hs. cbn [hook_subject].
  rewrite (core_read_value k _ _ _ fp) by done.
  destruct (name_subject_cstring k fp s Hs) as (buf & len & -> & ? & ? & _). by eexists _, buf.
Qed.

(** The file hook decides on the name of the last path component only, the
    [d_name] of the file's dentry, hashed over its first 16 bytes. *)
Lemma file_decides_on_basename k file d np s :
  0 < d < 2 ^ 64 -> 0 < np < 2 ^ 64 ->
  bytes_at (src_byte (kernel_env k)
              (KAddr (file + Z.of_nat (foff struct_file ["f_path"; "dentry"])))) (le_bytes 8 d) ->
  bytes_at (src_byte (kernel_env k)
              (KAddr (d + Z.of_nat (foff struct_dentry ["d_name"; "name"])))) (le_bytes 8 np) ->
  cstring_at (src_byte (kernel_env k) (KAddr np)) s ->
  exists sub, hook_subject (CallFile file) k = Some sub /\
    su_hash sub = fnv1a (sext8 <$> take 16 s).
Proof.
  intros Hd Hnp Hm1 Hm2 Hs. cbn [hook_subject].
  assert (is_u 64 d /\ is_u 64 np) as [??] by (unfold is_u; lia).
  rewrite (core_read_value k _ _ _ d) by done.
  destruct (Z.eqb_spec d 0); [lia|].
  rewrite (core_read_value k _ _ _ np) by done.
  destruct (Z.eqb_spec np 0); [lia|].
  destruct (name_subject_cstring k np s Hs) as (buf & len & -> & _). by eexists.
Qed.

(** The bytes of a [sockaddr_in] as the kernel hands it to the hook: family,
    port and address, the last two in network byte order. *)
Definition sockaddr_in_bytes (port addr : list Z) : list Z := le_bytes 2 2 ++ port ++ addr.

Lemma endpoint_ipv4 k address port addr :
  length port = 2%nat -> length addr = 4%nat -> Forall is_byte (port ++ addr) ->
  bytes_at (src_byte (kernel_env k) (KAddr address)) (sockaddr_in_bytes port addr) ->
  endpoint_subject k address =
    Some (Subject (fnv1a (addr ++ port)) NULL 0 (le_val port) (le_val addr)
            (Some (replicate 16 0))).
Proof.
  intros Hp Ha Hb Hm. unfold endpoint_subject.
  assert (Hf : sock_family k address = 2).
  { unfold sock_family. rewrite (probe_read_kernel_bytes k _ _ (le_bytes 2 2)); try done.
    - intros i b Hi. change (foff struct_sockaddr ["sa_family"]) with 0%nat. rewrite Z.add_0_r.
      apply Hm. unfold sockaddr_in_bytes. by apply lookup_app_l_Some.
    - apply le_bytes_is_byte. }
  rewrite Hf. change (2 =? 2) with true. cbv beta iota.
  rewrite (probe_read_kernel_bytes k _ _ (sockaddr_in_bytes port addr)); cbn [snd]; first last.
  { rewrite length_stack_object. unfold sockaddr_in_bytes. rewrite !length_app, Hp, Ha. done. }
  { apply Forall_app. split; [apply le_bytes_is_byte|done]. }
  { done. }
  destruct port as [|p0 [|p1 []]]; try done. destruct addr as [|a0 [|a1 [|a2 [|a3 []]]]]; try done.
  apply Forall_app in Hb as [Hbp Hba].
  unfold ld. change (ldb LsmConnect.sockaddr_in ["sin_port"] _) with [p0; p1].
  change (ldb LsmConnect.sockaddr_in ["sin_addr"] _) with [a0; a1; a2; a3].
  rewrite connect_hash_ipv4_spec.
  pose proof (le_bytes_le_val _ Hba) as Ea. pose proof (le_bytes_le_val _ Hbp) as Ep.
  cbn [length] in Ea, Ep. by rewrite Ea, Ep.
Qed.

(** The connect and bind hooks hash an IPv4 endpoint as FNV-1a over the four
    address bytes followed by the two port bytes, all in network byte order, and
    report the port as the little-endian reading of the network bytes. *)
Lemma endpoint_ipv4_subject k sock address len port addr :
  length port = 2%nat -> length addr = 4%nat -> Forall is_byte (port ++ addr) ->
  bytes_at (src_byte (kernel_env k) (KAddr address)) (sockaddr_in_bytes port addr) ->
  hook_subject (CallConnect sock address len) k =
    Some (Subject (fnv1a (addr ++ port)) NULL 0 (le_val port) (le_val addr)
            (Some (replicate 16 0))) /\
  hook_subject (CallBind sock address len) k = hook_subject (CallConnect sock address len) k.
Proof. intros. split; [|done]. by apply endpoint_ipv4. Qed.

(** The same for an IPv6 address. *)
Definition sockaddr_in6_bytes (port flow addr : list Z) : list Z :=
  le_bytes 2 10 ++ port ++ flow ++ addr.

(** Reading a member of the copied socket address. *)
Lemma sock_family_bytes k address f rest :
  is_u 16 f -> bytes_at (src_byte (kernel_env k) (KAddr address)) (le_bytes 2 f ++ rest) ->
  sock_family k address = f.
Proof.
  intros Hf Hm. unfold sock_family. rewrite (probe_read_kernel_bytes k _ _ (le_bytes 2 f)).
  - by apply le_val_le_bytes_id.
  - intros i b Hi. change (foff struct_sockaddr ["sa_family"]) with 0%nat. rewrite Z.add_0_r.
    apply Hm. by apply lookup_app_l_Some.
  - apply le_bytes_is_byte.
  - by rewrite length_le_bytes.
Qed.

(** The connect and bind hooks hash an IPv6 endpoint as FNV-1a over the sixteen
    address bytes followed by the two port bytes in network byte order, and report
    the address bytes in order. *)
Lemma endpoint_ipv6_subject k sock address len port flow addr :
  length port = 2%nat -> length flow = 4%nat -> length addr = 16%nat ->
  Forall is_byte (port ++ flow ++ addr) ->
  bytes_at (src_byte (kernel_env k) (KAddr address)) (sockaddr_in6_bytes port flow addr) ->
  hook_subject (CallConnect sock address len) k =
    Some (Subject (fnv1a (addr ++ port)) NULL 0 (le_val port) 0 (Some addr)) /\
  hook_subject (CallBind sock address len) k = hook_subject (CallConnect sock address len) k.
Proof.
  intros Hp Hfl Ha Hb Hm. split; [|done]. cbn [hook_subject]. unfold endpoint_subject.
  rewrite (sock_family_bytes k address 10 (port ++ flow ++ addr)) by (done || (unfold is_u; lia)).
  change (10 =? 2) with false. change (10 =? 10) with true. cbv iota.
  rewrite (probe_read_kernel_bytes k _ _ (sockaddr_in6_bytes port flow addr)); cbn [snd]; first last.
  { rewrite length_stack_object. unfold sockaddr_in6_bytes. by rewrite !length_app, Hp, Hfl, Ha. }
  { apply Forall_app. split; [apply le_bytes_is_byte|done]. }
  { done. }
  rewrite !Forall_app in Hb. destruct Hb as (Hbp & _).
  pose proof (le_bytes_le_val _ Hbp) as Ep. rewrite Hp in Ep.
  assert (E1 : ldb LsmConnect.sockaddr_in6 ["sin6_port"] (sockaddr_in6_bytes port flow addr) = port).
  { destruct port as [|p0 [|p1 []]]; done. }
  assert (E2 : ldb LsmConnect.sockaddr_in6 ["sin6_addr"] (sockaddr_in6_bytes port flow addr) = addr).
  { destruct port as [|p0 [|p1 []]]; try done. destruct flow as [|f0 [|f1 [|f2 [|f3 []]]]]; try done.
    apply (take_ge addr 16). lia. }
  unfold ld. rewrite E1, E2, connect_hash_ipv6_spec, Ep by done. done.
Qed.

(** The remaining hooks decide on what they name: ptrace on the command name of the
    traced task (at most 15 bytes), mount on the first 16 bytes of the filesystem
    type, and listen on the local port number in host order, least significant
    byte first. *)
Lemma local_hooks_subjects k child mode comm dev path type flags data tname sock backlog sk port :
  cstring_at (src_byte (kernel_env k)
    (KAddr (child + Z.of_nat (foff struct_task_struct ["comm"])))) comm ->
  type <> 0 -> cstring_at (src_byte (kernel_env k) (KAddr type)) tname ->
  is_u 64 sk -> 0 < port < 2 ^ 16 ->
  bytes_at (src_byte (kernel_env k)
    (KAddr (sock + Z.of_nat (foff struct_socket ["sk"])))) (le_bytes 8 sk) ->
  bytes_at (src_byte (kernel_env k)
    (KAddr (sk + Z.of_nat (foff struct_sock ["__sk_common"; "skc_num"])))) (le_bytes 2 port) ->
  (su_hash <$> hook_subject (CallPtrace child mode) k = Some (fnv1a (sext8 <$> take 15 comm))) /\
  (su_hash <$> hook_subject (CallMount dev path type flags data) k =
     Some (fnv1a (sext8 <$> take 16 tname))) /\
  hook_subject (CallListen sock backlog) k =
    Some (Subject (fnv1a (le_bytes 2 port)) NULL 0 port 0 None).
Proof.
  intros Hc Ht Hn Hsk Hp Hm1 Hm2. cbn [hook_subject]. split_and!.
  - pose proof Hc as (Hz & _). csimpl.
    destruct (probe_read_kernel_str_cstring k _ (stack_object k 16) comm Hc) as [tl ->].
    { intros Heq. pose proof (length_stack_object k 16) as Hl. by rewrite Heq in Hl. }
    rewrite length_stack_object. cbn [snd]. rewrite fnv1a_hash_spec. do 4 f_equal.
    set (n := (S (length comm) `min` 16 - 1)%nat).
    assert (Hln : length (take n comm) = n) by (rewrite length_take; lia).
    rewrite take_app_ge by lia. rewrite Hln.
    replace (16 `min` Z.to_nat 16 - n)%nat with (S (15 - n)) by (change (Z.to_nat 16) with 16%nat; lia).
    cbn [take]. rewrite cstr_nul by (by apply Forall_take).
    replace n with (15 `min` length comm)%nat by lia. apply take_min_length.
  - destruct (Z.eqb_spec type 0); [done|].
    destruct (name_subject_cstring k type tname Hn) as (buf & len & -> & _). done.
  - rewrite (core_read_value k struct_socket ["sk"] sock sk) by done.
    assert (is_u 16 port) by (unfold is_u; lia).
    rewrite (core_read_value k struct_sock _ sk port) by done.
    destruct (Z.eqb_spec port 0); [lia|]. by rewrite hash_port_spec.
Qed.
End HookFacts.

(** ** Witnesses: the hooks on the demo state *)

Definition demo_exec : hook_call := CallExec demo_bprm 0.

Lemma lsm_hook_refines_witness :
  policy_wf (demo 1) /\ hook_spec demo_exec (demo 1) (-1) (run_hook demo_exec (demo 1)).2.
Proof.
  split; [apply demo_wf|]. pose proof (lsm_hook_refines demo_exec (demo 1) (demo_wf 1)) as Hs.
  replace (run_hook demo_exec (demo 1)).1 with (-1) in Hs by (vm_compute; reflexivity). exact Hs.
Defined.

Lemma lsm_hook_denies_iff_witness :
  (run_hook demo_exec (demo 1)).1 <> 0 /\ enforcing (demo 1) = true.
Proof.
  assert ((run_hook demo_exec (demo 1)).1 <> 0) as Hd by (vm_compute; discriminate).
  split; [exact Hd|]. apply (proj1 (lsm_hook_denies_iff demo_exec (demo 1) (demo_wf 1) eq_refl) Hd).
Defined.

Lemma audit_only_never_denies_witness :
  enforcing (demo 0) = false /\ is_Some (deciding_rule demo_exec (demo 0)) /\
  (run_hook demo_exec (demo 0)).1 = 0.
Proof.
  assert (enforcing (demo 0) = false) as He by (vm_compute; reflexivity).
  split_and!; [exact He|vm_compute; eauto|].
  exact (audit_only_never_denies demo_exec (demo 0) (demo_wf 0) He).
Defined.

Lemma executions_preserve_policy_witness :
  same_policy (demo 1) (run_hook demo_exec (run_hook (CallFile demo_file) (demo 1)).2).2.
Proof.
  apply (executions_preserve_policy (demo 1)); [apply demo_wf|].
  eapply rtc_l; [apply step_hook|]. eapply rtc_l; [apply step_hook|]. apply rtc_refl.
Defined.

Lemma hit_counter_exact_witness :
  let k1 := (run_hook demo_exec (demo 1)).2 in
  let k2 := (run_hook (CallFile demo_file) k1).2 in
  rule_at (run_hook demo_exec k2).2 demo_key = Some (Rule 1 false 5).
Proof.
  intros k1 k2.
  assert (lsm_run demo_key 2 (demo 1) (run_hook demo_exec k2).2) as Hrun.
  { pose proof (run_call demo_key 0 (demo 1) (demo 1) demo_exec (run_refl demo_key (demo 1))) as H1.
    replace (bool_decide _) with true in H1 by (vm_compute; reflexivity).
    pose proof (run_call demo_key 1 (demo 1) k1 (CallFile demo_file) H1) as H2.
    replace (bool_decide _) with false in H2 by (vm_compute; reflexivity).
    pose proof (run_call demo_key 1 (demo 1) k2 demo_exec H2) as H3.
    replace (bool_decide _) with true in H3 by (vm_compute; reflexivity). exact H3. }
  apply (hit_counter_exact demo_key 2 (demo 1) _ (Rule 1 false 3) (demo_wf 1) Hrun).
  - vm_compute. reflexivity.
  - split; [discriminate|reflexivity].
Defined.

Lemma verdict_ignores_counters_witness :
  let k' := (run_hook demo_exec (demo 1)).2 in
  rule_at k' demo_key <> rule_at (demo 1) demo_key /\
  (run_hook demo_exec k').1 = (run_hook demo_exec (demo 1)).1.
Proof.
  split; [vm_compute; discriminate|].
  destruct (step_same_policy (demo 1) _ (demo_wf 1) (step_hook demo_exec (demo 1))) as [Hw Hs].
  apply (verdict_ignores_counters demo_exec (demo 1)); [apply demo_wf|exact Hw|exact Hs|].
  vm_compute. reflexivity.
Defined.

Lemma exec_decides_on_path_witness :
  exists sub buf, hook_subject demo_exec (demo 1) = Some sub /\
    su_hash sub = 2189914968 /\ su_file sub = KStack buf /\ 0 < su_flen sub /\
    cstr buf = demo_path.
Proof.
  apply (exec_decides_on_path (demo 1) demo_bprm 0 8192 demo_path).
  - split; [discriminate|reflexivity].
  - apply reads_bytes_at. vm_compute. reflexivity.
  - apply reads_cstring. vm_compute. reflexivity.
Defined.

Lemma file_decides_on_basename_witness :
  exists sub, hook_subject (CallFile demo_file) (demo 1) = Some sub /\
    su_hash sub = fnv1a (sext8 <$> take 16 demo_name).
Proof.
  apply (file_decides_on_basename (demo 1) demo_file 20480 24576 demo_name).
  - lia.
  - lia.
  - apply reads_bytes_at. vm_compute. reflexivity.
  - apply reads_bytes_at. vm_compute. reflexivity.
  - apply reads_cstring. vm_compute. reflexivity.
Defined.

Lemma endpoint_ipv4_subject_witness :
  hook_subject (CallConnect 0 demo_sockaddr 16) (demo 1) =
    Some (Subject (fnv1a [169; 254; 10; 1; 0; 80]) NULL 0 20480 (le_val [169; 254; 10; 1])
            (Some (replicate 16 0))).
Proof.
  destruct (endpoint_ipv4_subject (demo 1) 0 demo_sockaddr 16 [0; 80] [169; 254; 10; 1]) as [Hs _].
  - reflexivity.
  - reflexivity.
  - repeat constructor; unfold is_byte; lia.
  - apply reads_bytes_at. vm_compute. reflexivity.
  - rewrite Hs. reflexivity.
Defined.

Lemma endpoint_ipv6_subject_witness :
  hook_subject (CallBind 0 demo_sockaddr6 28) (demo 1) =
    Some (Subject (fnv1a (demo_addr6 ++ [0; 53])) NULL 0 13568 0 (Some demo_addr6)).
Proof.
  destruct (endpoint_ipv6_subject (demo 1) 0 demo_sockaddr6 28 [0; 53] [0; 0; 0; 0] demo_addr6) as [Hc Hb].
  - reflexivity.
  - reflexivity.
  - reflexivity.
  - repeat constructor; discriminate.
  - apply reads_bytes_at. vm_compute. reflexivity.
  - rewrite Hb, Hc. reflexivity.
Defined.

Lemma local_hooks_subjects_witness :
  su_hash <$> hook_subject (CallPtrace demo_child 1) (demo 1) = Some (fnv1a demo_comm) /\
  hook_subject (CallListen demo_socket 128) (demo 1) =
    Some (Subject (fnv1a [144; 31]) NULL 0 8080 0 None).
Proof.
  destruct (local_hooks_subjects (demo 1) demo_child 1 demo_comm 0 0 196608 0 0 demo_fstype
    demo_socket 128 204800 8080) as (Hp & _ & Hl).
  - apply reads_cstring. vm_compute. reflexivity.
  - discriminate.
  - apply reads_cstring. vm_compute. reflexivity.
  - split; [discriminate|reflexivity].
  - lia.
  - apply reads_bytes_at. vm_compute. reflexivity.
  - apply reads_bytes_at. vm_compute. reflexivity.
  - rewrite Hp, Hl. split; reflexivity.
Defined.
