(* ===== verification/GoPolicyMap.v ===== *)
(** internal/ebpf/policy_map.go: the userspace side of the policy map.

    The daemon writes the maps the LSM programs read: it hashes patterns, lays
    keys and values out as the C structs and puts them into the kernel maps.
    The map operations of the cilium library are the [map_update_elem] and
    [map_delete_elem] of the kernel interface; the keys an iteration yields are
    an argument ([visited]), since the library promises completeness only while
    no entry is deleted.  Go strings and byte slices are byte lists, an error is
    a non-zero code. *)

From S2P Require Import Prelude CTypes Bpf SimKernel WarmorLsm LsmPolicy Fnv.
From S2P Require Import LsmConnect LsmBind LsmListen Demo.

Definition EventTypeExec : Z := 0.
Definition EventTypeFile : Z := 1.
Definition EventTypeNetwork : Z := 2.
Definition EventTypeBind : Z := 3.
Definition EventTypeListen : Z := 4.
Definition EventTypePtrace : Z := 5.
Definition EventTypeMount : Z := 6.
Definition ActionAllow : Z := 0.
Definition ActionDeny : Z := 1.

(** ** Keys and values *)

Record PolicyKey : Type := MkPolicyKey {
  CgroupID : Z;
  RuleHash : Z;
  EventType : Z;
  Pad : list Z;
}.

(** A composite literal leaves the padding at its zero value. *)
Definition key_literal (cgroupID ruleHash eventType : Z) : PolicyKey :=
  MkPolicyKey cgroupID ruleHash eventType [0; 0; 0].

(** [binary.LittleEndian.PutUint64] and [PutUint32] into a buffer. *)
Definition PutUint64 (off : nat) (v : Z) (buf : list Z) : list Z := splice off (le_bytes 8 v) buf.
Definition PutUint32 (off : nat) (v : Z) (buf : list Z) : list Z := splice off (le_bytes 4 v) buf.
Definition PutByte (off : nat) (v : Z) (buf : list Z) : list Z := splice off (le_bytes 1 v) buf.

Definition MarshalBinary (k : PolicyKey) : list Z :=
  let buf := replicate 16 0 in
  let buf := PutUint64 0 (CgroupID k) buf in
  let buf := PutUint32 8 (RuleHash k) buf in
  let buf := PutByte 12 (EventType k) buf in
  let buf := PutByte 13 0 buf in
  let buf := PutByte 14 0 buf in
  let buf := PutByte 15 0 buf in
  buf.

(** The Go struct [PolicyValue], stored in memory by the layout rule. *)
Definition PolicyValue : ctype := struct [
  mem __u8 "Action"; mem __u8 "Audit"; mem __u16 "Pad"; mem __u32 "HitCount"].

Definition mk_PolicyValue (action : Z) (audit : bool) : list Z :=
  let auditByte := if audit then 1 else 0 in
  st PolicyValue ["Audit"] auditByte (st PolicyValue ["Action"] action (zeroed PolicyValue)).

Record CachedDecision : Type := MkCachedDecision {
  cd_CgroupID : Z;
  cd_EventType : Z;
  cd_Pattern : list Z;
  cd_Action : Z;
  cd_Audit : bool;
}.

(** ** Hashes *)

(** [hash/fnv.New32a]: FNV-1a over every byte of the pattern. *)
Definition HashPattern (pattern : list Z) : Z := foldl fnv_step FNV_OFFSET pattern.

Definition HashIPv4Endpoint (addr port : Z) : Z :=
  let hash := 2166136261 in
  let hash := Z.lxor hash (Z.land addr 255) in
  let hash := to_u32 (hash * 16777619) in
  let hash := Z.lxor hash (Z.land (Z.shiftr addr 8) 255) in
  let hash := to_u32 (hash * 16777619) in
  let hash := Z.lxor hash (Z.land (Z.shiftr addr 16) 255) in
  let hash := to_u32 (hash * 16777619) in
  let hash := Z.lxor hash (Z.land (Z.shiftr addr 24) 255) in
  let hash := to_u32 (hash * 16777619) in
  let hash := Z.lxor hash (Z.land port 255) in
  let hash := to_u32 (hash * 16777619) in
  let hash := Z.lxor hash (Z.land (Z.shiftr port 8) 255) in
  let hash := to_u32 (hash * 16777619) in
  hash.

Definition HashIPv6Endpoint (addr : list Z) (port : Z) : Z :=
  let hash := 2166136261 in
  let hash := foldl (fun hash b => to_u32 (Z.lxor hash b * 16777619)) hash (take 16 addr) in
  let hash := Z.lxor hash (Z.land port 255) in
  let hash := to_u32 (hash * 16777619) in
  let hash := Z.lxor hash (Z.land (Z.shiftr port 8) 255) in
  let hash := to_u32 (hash * 16777619) in
  hash.

Definition HashPort (port : Z) : Z :=
  let hash := 2166136261 in
  let hash := Z.lxor hash (Z.land port 255) in
  let hash := to_u32 (hash * 16777619) in
  let hash := Z.lxor hash (Z.land (Z.shiftr port 8) 255) in
  let hash := to_u32 (hash * 16777619) in
  hash.

(** ** Operations of the manager *)

Section Manager.
Context {K : Type} `{BpfKernel K}.
Implicit Types (k : K).

Definition SetRule (cgroupID eventType : Z) (pattern : list Z) (action : Z) (audit : bool) k : Z * K :=
  let key := key_literal cgroupID (HashPattern pattern) eventType in
  let val := mk_PolicyValue action audit in
  map_update_elem policy_map (MarshalBinary key) val k.

Definition SetNetworkRule (cgroupID addrHash action : Z) (audit : bool) k : Z * K :=
  let key := key_literal cgroupID addrHash EventTypeNetwork in
  let val := mk_PolicyValue action audit in
  map_update_elem policy_map (MarshalBinary key) val k.

Definition DeleteRule (cgroupID eventType : Z) (pattern : list Z) k : Z * K :=
  let key := key_literal cgroupID (HashPattern pattern) eventType in
  map_delete_elem policy_map (MarshalBinary key) k.

(** Deletes each visited key, ignoring errors. *)
Fixpoint delete_all (m : bpf_map) (keys : list (list Z)) k : K :=
  match keys with
  | [] => k
  | key :: keys' => delete_all m keys' (map_delete_elem m key k).2
  end.

Definition Clear (visited : list (list Z)) k : Z * K := (0, delete_all policy_map visited k).

Fixpoint SyncFromWASM (decisions : list CachedDecision) k : Z * K :=
  match decisions with
  | [] => (0, k)
  | d :: decisions' =>
      let key := key_literal (cd_CgroupID d) (HashPattern (cd_Pattern d)) (cd_EventType d) in
      let val := mk_PolicyValue (cd_Action d) (cd_Audit d) in
      let '(err, k) := map_update_elem policy_map (MarshalBinary key) val k in
      if negb (err =? 0) then (err, k) else SyncFromWASM decisions' k
  end.

Definition Stats (visited : list (list Z)) : Z := Z.of_nat (length visited).

Definition SetEnforce (enabled : bool) k : Z * K :=
  let val := if enabled then 1 else 0 in
  map_update_elem lsm_enforce (le_bytes 4 0) (le_bytes 1 val) k.

(** The puts of one id after the other, stopping at the first error. *)
Fixpoint put_ids (m : bpf_map) (ids : list Z) k : Z * K :=
  match ids with
  | [] => (0, k)
  | id :: ids' =>
      let '(err, k) := map_update_elem m (le_bytes 8 id) [1] k in
      if negb (err =? 0) then (err, k) else put_ids m ids' k
  end.

Definition SetLSMCgroupFilter (m : bpf_map) (visited : list (list Z)) (ids : list Z) k : Z * K :=
  let k := delete_all m visited k in
  match ids with
  | [] => (0, k)
  | _ =>
      let '(err, k) := map_update_elem m (le_bytes 8 0) [1] k in
      if negb (err =? 0) then (err, k) else put_ids m ids k
  end.
End Manager.

(** ** Layout agreement *)

Lemma MarshalBinary_key c h e pad :
  MarshalBinary (MkPolicyKey c h e pad) = mk_policy_key c h e.
Proof. reflexivity. Qed.

Lemma mk_PolicyValue_obj action audit : obj policy_value (mk_PolicyValue action audit).
Proof. reflexivity. Qed.

Lemma mk_PolicyValue_rule action audit :
  is_u 8 action -> rule_of (mk_PolicyValue action audit) = Rule action audit 0.
Proof.
  intros Ha. unfold rule_of. change (ld policy_value ["hit_count"] _) with 0. f_equal.
  - change (ld policy_value ["action"] _) with (le_val (le_bytes 1 action)).
    by apply le_val_le_bytes_id.
  - by destruct audit.
Qed.

(** Userspace and the BPF programs agree on the policy map's bytes: the Go key
    marshals to exactly the bytes of the C key struct, padding included, and the
    Go value struct, laid out by the compiler, reads back in C as the action and
    the audit flag with a zero counter. *)
Lemma go_and_c_agree_on_map_bytes c h e pad action audit :
  is_u 8 action ->
  MarshalBinary (MkPolicyKey c h e pad) = mk_policy_key c h e /\
  obj policy_value (mk_PolicyValue action audit) /\
  rule_of (mk_PolicyValue action audit) = Rule action audit 0.
Proof.
  auto using MarshalBinary_key, mk_PolicyValue_obj, mk_PolicyValue_rule.
Qed.

Lemma go_and_c_agree_on_map_bytes_witness :
  MarshalBinary (MkPolicyKey 72623859790382856 2864434397 0 [7; 7; 7]) =
    [8; 7; 6; 5; 4; 3; 2; 1; 221; 204; 187; 170; 0; 0; 0; 0] /\
  rule_of (mk_PolicyValue ActionDeny true) = Rule 1 true 0.
Proof.
  destruct (go_and_c_agree_on_map_bytes 72623859790382856 2864434397 0 [7; 7; 7] ActionDeny true)
    as (-> & _ & Hr); [done|]. split; [vm_compute; reflexivity|exact Hr].
Defined.

(** ** Hash agreement *)

(** For a pattern of at most 16 seven-bit characters without NUL, the hash
    userspace stores in the rule key is the one the BPF programs compute from the
    name they copied into their buffer, whatever follows the terminator. *)
Lemma hash_pattern_agrees s tail :
  (length s <= 16)%nat -> Forall (fun b => 0 < b < 128) s ->
  fnv1a_hash (s ++ 0 :: tail) (Z.of_nat (length s + 1)) = HashPattern s.
Proof.
  intros Hl Ha. rewrite fnv1a_hash_cstring; [|eapply Forall_impl; [done|]; simpl; lia|done].
  rewrite take_ge by lia. rewrite sext8_ascii_map; [done|].
  eapply Forall_impl; [done|]. simpl; lia.
Qed.

Lemma hash_pattern_agrees_witness :
  fnv1a_hash (bstr "/usr/bin/nc" ++ [0; 170; 170]) 12 = HashPattern (bstr "/usr/bin/nc") /\
  HashPattern (bstr "/usr/bin/nc") = 2189914968.
Proof.
  split; [|vm_compute; reflexivity]. apply (hash_pattern_agrees (bstr "/usr/bin/nc") [170; 170]).
  - vm_compute. lia.
  - vm_compute. repeat constructor.
Defined.

(** On names longer than 16 bytes, and on names with a byte of 128 or more,
    the two sides compute different hashes: the paths of the hash tests
    /usr/local/bin/kubectl and /var/run/secrets/... and the name caf\xc3\xa9 are
    instances, so a rule stored for such a pattern is not found by the kernel. *)
Lemma hash_pattern_diverges :
  Forall (fun s => fnv1a_hash (s ++ [0]) (Z.of_nat (length s + 1)) <> HashPattern s)
    [bstr "/usr/local/bin/kubectl";
     bstr "/var/run/secrets/kubernetes.io/serviceaccount/token";
     bstr "caf" ++ [195; 169]].
Proof. repeat constructor; vm_compute; discriminate. Qed.

Lemma HashIPv4Endpoint_connect addr port :
  HashIPv4Endpoint addr port = LsmConnect.hash_ipv4_endpoint addr port.
Proof.
  unfold HashIPv4Endpoint, LsmConnect.hash_ipv4_endpoint, fnv_step, FNV_OFFSET, FNV_PRIME.
  cbv zeta. reflexivity.
Qed.

(** From the words of an address and a port, the hash of their bytes. *)
Lemma HashIPv4Endpoint_bytes addr port :
  length addr = 4%nat -> length port = 2%nat -> Forall is_byte (addr ++ port) ->
  HashIPv4Endpoint (le_val addr) (le_val port) = fnv1a (addr ++ port).
Proof.
  intros Ha Hp [Hba Hbp]%Forall_app. rewrite HashIPv4Endpoint_connect, connect_hash_ipv4_spec.
  pose proof (le_bytes_le_val _ Hba) as Ea. pose proof (le_bytes_le_val _ Hbp) as Ep.
  rewrite Ha in Ea. rewrite Hp in Ep. by rewrite Ea, Ep.
Qed.

(** The endpoint hashes of userspace and of the connect, bind and listen
    programs are the same functions of address and port. *)
Lemma endpoint_hashes_agree addr port addr6 :
  length addr6 = 16%nat ->
  HashIPv4Endpoint addr port = LsmConnect.hash_ipv4_endpoint addr port /\
  HashIPv4Endpoint addr port = LsmBind.hash_ipv4_endpoint addr port /\
  HashIPv6Endpoint addr6 port = LsmConnect.hash_ipv6_endpoint addr6 port /\
  HashIPv6Endpoint addr6 port = LsmBind.hash_ipv6_endpoint addr6 port /\
  HashPort port = hash_port port.
Proof.
  intros Hl.
  pose proof (bind_hash_ipv4_same addr port) as Hb4.
  pose proof (bind_hash_ipv6_same addr6 port) as Hb6.
  assert (HashIPv6Endpoint addr6 port = LsmConnect.hash_ipv6_endpoint addr6 port).
  { unfold HashIPv6Endpoint, LsmConnect.hash_ipv6_endpoint.
    rewrite hash_ipv6_loop_spec, drop_0 by lia. unfold fnv_step, FNV_OFFSET, FNV_PRIME.
    cbv zeta. reflexivity. }
  pose proof (HashIPv4Endpoint_connect addr port) as H4.
  assert (HashPort port = hash_port port).
  { unfold HashPort, hash_port, fnv_step, FNV_OFFSET, FNV_PRIME. cbv zeta. reflexivity. }
  split_and!; congruence.
Qed.

Lemma endpoint_hashes_agree_witness :
  HashIPv4Endpoint 4272553641 80 = LsmConnect.hash_ipv4_endpoint 4272553641 80 /\
  HashIPv4Endpoint 4272553641 80 = 2381707833.
Proof.
  split; [|vm_compute; reflexivity].
  destruct (endpoint_hashes_agree 4272553641 80 (replicate 16 0) eq_refl) as (Hv4 & _).
  exact Hv4.
Defined.

(** ** Effect of the manager's operations *)

Section ManagerFacts.
Context {K : Type} `{BpfKernelOk K}.
Implicit Types (k : K) (key : list Z).

(** A successful put of a rule, seen by the programs. *)
Lemma put_rule_effect c h e action audit k :
  is_u 8 action ->
  let r := map_update_elem policy_map (MarshalBinary (key_literal c h e)) (mk_PolicyValue action audit) k in
  r.1 = 0 ->
  (forall key, rule_at r.2 key =
     if bool_decide (key = mk_policy_key c h e) then Some (Rule action audit 0) else rule_at k key) /\
  (forall m key, bm_name m <> "policy_map" -> map_contents r.2 m key = map_contents k m key) /\
  (policy_wf k -> policy_wf r.2) /\ kernel_env r.2 = kernel_env k.
Proof.
  intros Ha r. unfold r, key_literal. rewrite MarshalBinary_key. intros Hok.
  pose proof (update_same _ _ _ _ Hok) as Hs.
  assert (forall key, mk_policy_key c h e <> key ->
    map_contents (map_update_elem policy_map (mk_policy_key c h e) (mk_PolicyValue action audit) k).2
      policy_map key = map_contents k policy_map key) as Ho.
  { intros. apply update_other. congruence. }
  split_and!.
  - intros key. case_bool_decide as Hk; subst; unfold rule_at.
    + rewrite Hs; simpl. by rewrite mk_PolicyValue_rule.
    + by rewrite Ho by congruence.
  - intros. apply update_other. intros [=]. congruence.
  - intros Hwf key v. destruct (decide (mk_policy_key c h e = key)) as [<-|?].
    + rewrite Hs. intros [= <-]. apply mk_PolicyValue_obj.
    + rewrite Ho by done. apply Hwf.
  - apply env_update.
Qed.

(** The rule a list of decisions leaves under a key: that of the last decision
    written to it, or the one that was there. *)
Definition decision_key (d : CachedDecision) : list Z :=
  mk_policy_key (cd_CgroupID d) (HashPattern (cd_Pattern d)) (cd_EventType d).

Definition synced_rule (ds : list CachedDecision) key (old : option rule) : option rule :=
  foldl (fun r d => if bool_decide (key = decision_key d)
                    then Some (Rule (cd_Action d) (cd_Audit d) 0) else r) old ds.

Lemma sync_effect ds : forall k,
  Forall (fun d => is_u 8 (cd_Action d)) ds -> (SyncFromWASM ds k).1 = 0 ->
  (forall key, rule_at (SyncFromWASM ds k).2 key = synced_rule ds key (rule_at k key)) /\
  (forall m key, bm_name m <> "policy_map" ->
     map_contents (SyncFromWASM ds k).2 m key = map_contents k m key) /\
  (policy_wf k -> policy_wf (SyncFromWASM ds k).2).
Proof.
  induction ds as [|d ds IH]; intros k Hd; cbn [SyncFromWASM]; [by auto|].
  apply Forall_cons in Hd as [Ha Hd].
  pose proof (put_rule_effect (cd_CgroupID d) (HashPattern (cd_Pattern d)) (cd_EventType d)
    (cd_Action d) (cd_Audit d) k Ha) as He. cbv zeta in He.
  destruct (map_update_elem policy_map _ _ k) as [err k1]; cbn [fst snd] in He.
  destruct (Z.eqb_spec err 0) as [->|]; cbn [negb fst]; [|done]. intros Hok.
  destruct (He eq_refl) as (Hr & Hm & Hw & _). destruct (IH k1 Hd Hok) as (Hr' & Hm' & Hw').
  split_and!; [|intros; rewrite Hm'; auto|auto].
  intros key. rewrite Hr', Hr. done.
Qed.

(** A successful compilation of WASM decisions into the policy map leaves under
    every key the rule of the last decision for that cgroup, event type and pattern
    hash, with a zero counter, keeps all other rules, and touches neither the
    filter nor the enforcement switch. *)
Lemma sync_last_writer_wins ds k :
  Forall (fun d => is_u 8 (cd_Action d)) ds -> (SyncFromWASM ds k).1 = 0 -> policy_wf k ->
  policy_wf (SyncFromWASM ds k).2 /\
  (forall key, rule_at (SyncFromWASM ds k).2 key = synced_rule ds key (rule_at k key)) /\
  (forall m key, bm_name m <> "policy_map" ->
     map_contents (SyncFromWASM ds k).2 m key = map_contents k m key).
Proof. intros Hd Hok Hwf. destruct (sync_effect ds k Hd Hok) as (? & ? & ?). auto. Qed.

Lemma bool_decide_cons_ne (x y : list Z) l :
  x <> y -> bool_decide (x ∈ y :: l) = bool_decide (x ∈ l).
Proof. intros. apply bool_decide_ext. rewrite elem_of_cons. tauto. Qed.

(** Deleting keys of a hash map one by one. *)
Lemma delete_all_contents m keys : forall k,
  bm_type m = BPF_MAP_TYPE_HASH ->
  (forall key, map_contents (delete_all m keys k) m key =
     if bool_decide (key ∈ keys) then None else map_contents k m key) /\
  (forall m' key, bm_name m' <> bm_name m ->
     map_contents (delete_all m keys k) m' key = map_contents k m' key).
Proof.
  induction keys as [|key0 keys IH]; intros k Ht; cbn [delete_all]; [by auto|].
  destruct (IH (map_delete_elem m key0 k).2 Ht) as [Hs Ho]. split.
  - intros key. rewrite Hs. destruct (decide (key = key0)) as [->|Hne].
    + rewrite delete_same by done.
      rewrite (bool_decide_eq_true_2 (key0 ∈ key0 :: keys)) by apply list_elem_of_here.
      by case_bool_decide.
    + rewrite delete_other by congruence. by rewrite bool_decide_cons_ne.
  - intros m' key Hm. rewrite Ho by done. apply delete_other. intros [=]. congruence.
Qed.

(** Clearing the policy map with an iteration that visited every key leaves no
    rule at all, so every hook call that is not filtered is judged unknown. *)
Lemma clear_leaves_no_rule visited k :
  (forall key v, map_contents k policy_map key = Some v -> key ∈ visited) ->
  forall key, rule_at (Clear visited k).2 key = None.
Proof.
  intros Hv key. unfold Clear, rule_at; cbn [snd].
  destruct (delete_all_contents policy_map visited k eq_refl) as [-> _].
  case_bool_decide as Hk; [done|]. destruct (map_contents k policy_map key) eqn:E; [|done].
  by apply Hv in E.
Qed.

(** ** The container filter *)

Lemma put_ids_contents m ids : forall k,
  (put_ids m ids k).1 = 0 ->
  forall key, map_contents (put_ids m ids k).2 m key =
    if bool_decide (key ∈ (le_bytes 8 <$> ids)) then Some [1] else map_contents k m key.
Proof.
  induction ids as [|id ids IH]; intros k; cbn [put_ids]; [done|].
  pose proof (update_same m (le_bytes 8 id) [1] k) as Hs.
  pose proof (fun key => update_other m (le_bytes 8 id) [1] m key k) as Ho.
  destruct (map_update_elem m (le_bytes 8 id) [1] k) as [err k1]; cbn [fst snd] in *.
  destruct (Z.eqb_spec err 0) as [->|]; cbn [negb fst]; [|done].
  intros Hok key. rewrite IH by done. csimpl. destruct (decide (key = le_bytes 8 id)) as [->|Hne].
  - rewrite (bool_decide_eq_true_2 (le_bytes 8 id ∈ _ :: _)) by set_solver.
    rewrite Hs by done. by case_bool_decide.
  - rewrite Ho by congruence. by rewrite bool_decide_cons_ne.
Qed.

Lemma le_bytes8_elem id ids :
  is_u 64 id -> Forall (is_u 64) ids -> le_bytes 8 id ∈ (le_bytes 8 <$> ids) <-> id ∈ ids.
Proof.
  intros Hid Hids. rewrite list_elem_of_fmap. split; [|eauto].
  intros (id' & Heq & Hin). assert (id = id') as ->; [|done].
  rewrite Forall_forall in Hids. specialize (Hids _ Hin). by apply (le_bytes_inj 8).
Qed.

(** What a filter map holds after a successful update: the new entries, and the old ones
    that the iteration did not visit. *)
Lemma SetLSMCgroupFilter_entries m visited ids k :
  bm_type m = BPF_MAP_TYPE_HASH -> (SetLSMCgroupFilter m visited ids k).1 = 0 ->
  forall key, map_contents (SetLSMCgroupFilter m visited ids k).2 m key =
    if bool_decide (ids <> [] /\ key ∈ (le_bytes 8 <$> 0 :: ids)) then Some [1]
    else if bool_decide (key ∈ visited) then None else map_contents k m key.
Proof.
  intros Ht. unfold SetLSMCgroupFilter. destruct (delete_all_contents m visited k Ht) as [Hd _].
  set (k0 := delete_all _ _ k) in *. clearbody k0. destruct ids as [|id ids].
  { intros _ key. cbn [snd]. by rewrite bool_decide_eq_false_2 by naive_solver. }
  intros Hok key.
  assert (Heq : forall k, (let '(err, k) := map_update_elem m (le_bytes 8 0) [1] k in
    if negb (err =? 0) then (err, k) else put_ids m (id :: ids) k) =
    put_ids m (0 :: id :: ids) k) by done.
  rewrite Heq in *. rewrite put_ids_contents by done.
  rewrite Hd. rewrite (bool_decide_ext (_ /\ _) (key ∈ (le_bytes 8 <$> 0 :: id :: ids))) by naive_solver. done.
Qed.

(** After an iteration that visited everything, nothing but the new entries. *)
Lemma SetLSMCgroupFilter_contents m visited ids k :
  bm_type m = BPF_MAP_TYPE_HASH ->
  (forall key v, map_contents k m key = Some v -> key ∈ visited) ->
  (SetLSMCgroupFilter m visited ids k).1 = 0 ->
  forall key, map_contents (SetLSMCgroupFilter m visited ids k).2 m key =
    if bool_decide (ids <> [] /\ key ∈ (le_bytes 8 <$> 0 :: ids)) then Some [1] else None.
Proof.
  intros Ht Hv Hok key. rewrite SetLSMCgroupFilter_entries by done. case_bool_decide; [done|].
  case_bool_decide as Hk; [done|]. destruct (map_contents k m key) eqn:E; [|done]. by apply Hv in E.
Qed.

Lemma put_ids_other m ids m' key : forall k,
  bm_name m' <> bm_name m -> map_contents (put_ids m ids k).2 m' key = map_contents k m' key.
Proof.
  induction ids as [|id ids IH]; intros k Hm; cbn [put_ids]; [done|].
  pose proof (update_other m (le_bytes 8 id) [1] m' key k ltac:(congruence)) as Ho.
  destruct (map_update_elem m (le_bytes 8 id) [1] k) as [err k1]; cbn [snd] in Ho.
  destruct (negb (err =? 0)); [done|]. by rewrite IH.
Qed.

Lemma SetLSMCgroupFilter_other m visited ids k m' key :
  bm_type m = BPF_MAP_TYPE_HASH -> bm_name m' <> bm_name m ->
  map_contents (SetLSMCgroupFilter m visited ids k).2 m' key = map_contents k m' key.
Proof.
  intros Ht Hm. destruct (delete_all_contents m visited k Ht) as [_ Hd].
  unfold SetLSMCgroupFilter. destruct ids as [|id ids]; [by apply Hd|].
  rewrite <- (Hd m' key Hm). apply (put_ids_other m (0 :: id :: ids)). done.
Qed.

Lemma delete_all_env m keys : forall k, kernel_env (delete_all m keys k) = kernel_env k.
Proof. induction keys as [|key keys IH]; intros k; [done|]. simpl. by rewrite IH, env_delete. Qed.

Lemma put_ids_env m ids : forall k, kernel_env (put_ids m ids k).2 = kernel_env k.
Proof.
  induction ids as [|id ids IH]; intros k; cbn [put_ids]; [done|].
  pose proof (env_update m (le_bytes 8 id) [1] k) as He.
  destruct (map_update_elem m (le_bytes 8 id) [1] k) as [err k1]; cbn [snd] in He.
  destruct (negb (err =? 0)); [done|]. by rewrite IH.
Qed.

Lemma SetLSMCgroupFilter_env m visited ids k :
  kernel_env (SetLSMCgroupFilter m visited ids k).2 = kernel_env k.
Proof.
  unfold SetLSMCgroupFilter. destruct ids as [|id ids]; [by apply delete_all_env|].
  rewrite <- (delete_all_env m visited k). apply (put_ids_env m (0 :: id :: ids)).
Qed.

(** The two lookups of the filter code, on a filter that was installed. *)
Lemma filter_lookups m visited ids k cgid :
  bm_type m = BPF_MAP_TYPE_HASH ->
  (forall key v, map_contents k m key = Some v -> key ∈ visited) ->
  (SetLSMCgroupFilter m visited ids k).1 = 0 -> Forall (is_u 64) ids -> is_u 64 cgid ->
  let k' := (SetLSMCgroupFilter m visited ids k).2 in
  map_contents k' m (le_bytes 8 cgid) =
    (if bool_decide (ids <> [] /\ cgid ∈ 0 :: ids) then Some [1] else None) /\
  map_contents k' m (le_bytes 8 0) = if bool_decide (ids <> []) then Some [1] else None.
Proof.
  intros Ht Hv Hok Hids Hc k'. unfold k'.
  assert (Forall (is_u 64) (0 :: ids)) by (constructor; [unfold is_u; lia|done]).
  assert (is_u 64 0) by (unfold is_u; lia).
  rewrite !(SetLSMCgroupFilter_contents m visited ids k) by done.
  rewrite (bool_decide_ext _ (ids <> [] /\ cgid ∈ 0 :: ids)) by (by rewrite le_bytes8_elem).
  rewrite (bool_decide_ext (ids <> [] /\ le_bytes 8 0 ∈ _) (ids <> [])); [done|].
  rewrite le_bytes8_elem by done. rewrite elem_of_cons. tauto.
Qed.

(** An entry of the filter that the clearing pass did not visit. *)
Definition left_over (visited : list (list Z)) k (id : Z) : Prop :=
  is_Some (map_contents k lsm_cgroup_filter (le_bytes 8 id)) /\ le_bytes 8 id ∉ visited.

Lemma filter_entry visited ids k id :
  (SetLSMCgroupFilter lsm_cgroup_filter visited ids k).1 = 0 -> Forall (is_u 64) ids -> is_u 64 id ->
  is_Some (map_contents (SetLSMCgroupFilter lsm_cgroup_filter visited ids k).2 lsm_cgroup_filter (le_bytes 8 id)) <->
  ids <> [] /\ id ∈ 0 :: ids \/ left_over visited k id.
Proof.
  intros Hok Hids Hid. rewrite SetLSMCgroupFilter_entries by done.
  rewrite (bool_decide_ext _ (ids <> [] /\ id ∈ 0 :: ids)).
  2: { rewrite le_bytes8_elem; [done|done|]. constructor; [unfold is_u; lia|done]. }
  unfold left_over. repeat case_bool_decide; naive_solver.
Qed.

(** C34: the container filter userspace installs is the one the programs apply, up to the
    entries that its clearing pass missed.  The keys that deleting while iterating visits
    are arbitrary here.  After an update that returned no error, a task is skipped exactly
    when a filter is in force (the list is not empty, or the old sentinel was missed), its
    cgroup is neither 0 nor listed, and no old entry for it was missed.  So when every old
    entry was visited, a task is skipped exactly when the list is not empty and its cgroup is
    neither in it nor 0. *)
Theorem cgroup_filter_installed visited ids k cgid :
  (SetLSMCgroupFilter lsm_cgroup_filter visited ids k).1 = 0 ->
  Forall (is_u 64) ids -> is_u 64 cgid ->
  let skipped := should_skip_cgroup cgid (SetLSMCgroupFilter lsm_cgroup_filter visited ids k).2 in
  (skipped = 0 \/ skipped = 1) /\
  (skipped = 1 <-> (ids <> [] \/ left_over visited k 0) /\ cgid <> 0 /\ (cgid ∉ ids) /\ ~ left_over visited k cgid) /\
  ((forall key v, map_contents k lsm_cgroup_filter key = Some v -> key ∈ visited) ->
   skipped = if bool_decide (ids <> [] /\ cgid <> 0 /\ cgid ∉ ids) then 1 else 0).
Proof.
  intros Hok Hids Hc skipped.
  assert (Hs : (skipped = 0 \/ skipped = 1) /\ (skipped = 1 <->
    (ids <> [] \/ left_over visited k 0) /\ cgid <> 0 /\ (cgid ∉ ids) /\ ~ left_over visited k cgid)).
  { pose proof (filter_entry visited ids k cgid Hok Hids Hc) as He.
    pose proof (filter_entry visited ids k 0 Hok Hids ltac:(unfold is_u; lia)) as He0.
    subst skipped. unfold should_skip_cgroup, bpf_map_lookup_elem.
    rewrite elem_of_cons in He, He0. destruct (decide (cgid = 0)) as [->|Hne].
    - destruct (map_contents _ _ (le_bytes 8 0)); (split; [by left|]); split; [done|by intros (_ & ? & _)|done|by intros (_ & ? & _)].
    - destruct (map_contents _ _ (le_bytes 8 cgid)).
      { split; [by left|]. split; [done|]. intros (_ & _ & Hn & Hl).
        destruct (proj1 He ltac:(by eexists)) as [[_ [?|?]]|?]; done. }
      assert (Hn : ~ (ids <> [] /\ (cgid = 0 \/ cgid ∈ ids) \/ left_over visited k cgid)) by (by intros [? [=]]%He).
      destruct (map_contents _ _ (le_bytes 8 0)).
      + split; [by right|]. split; [intros _|done]. destruct (proj1 He0 ltac:(by eexists)) as [[Hi _]|Hl];
          (split_and!; [auto|done| |tauto]); intros Hin; apply Hn; left; (split; [by intros ->; apply elem_of_nil in Hin|auto]).
      + split; [by left|]. split; [done|]. intros ([Hi|Hl] & _); [|by destruct (proj2 He0 (or_intror Hl))].
        by destruct (proj2 He0 (or_introl (conj Hi (or_introl eq_refl)))). }
  destruct Hs as [H01 Hiff]. split_and!; [done|done|]. intros Hv.
  assert (Hl : forall id, ~ left_over visited k id) by (intros id [[v E] Hn]; by apply Hn, (Hv _ v)).
  case_bool_decide as Hb; [apply Hiff; destruct Hb as (? & ? & ?); by split_and!; [left|..]|].
  destruct H01 as [|(Hi & ? & ? & _)%Hiff]; [done|]. destruct Hb. destruct Hi as [|Hi%Hl]; [by split_and!|done].
Qed.

(** A successful write of the switch is what the programs read. *)
Lemma SetEnforce_effect enabled k :
  (SetEnforce enabled k).1 = 0 ->
  enforcing (SetEnforce enabled k).2 = enabled /\
  (forall m key, bm_name m <> "lsm_enforce" ->
     map_contents (SetEnforce enabled k).2 m key = map_contents k m key) /\
  kernel_env (SetEnforce enabled k).2 = kernel_env k.
Proof.
  unfold SetEnforce. intros Hok. split_and!.
  - unfold enforcing, is_enforce_enabled, bpf_map_lookup_elem, vload; cbn [vp_map vp_key].
    rewrite (update_same _ _ _ _ Hok); cbn [vp_map vp_key].
    rewrite (update_same _ _ _ _ Hok). by destruct enabled.
  - intros. apply update_other. intros [=]. congruence.
  - apply env_update.
Qed.
End ManagerFacts.

(** ** Witnesses *)

Definition demo_decisions : list CachedDecision := [
  MkCachedDecision 7 EventTypeExec demo_path ActionDeny true;
  MkCachedDecision 7 EventTypeExec (bstr "/bin/ls") ActionAllow false;
  MkCachedDecision 7 EventTypeExec demo_path ActionAllow true].

Lemma sync_last_writer_wins_witness :
  (SyncFromWASM demo_decisions (demo 1)).1 = 0 /\
  rule_at (SyncFromWASM demo_decisions (demo 1)).2 demo_key = Some (Rule 0 true 0).
Proof.
  assert ((SyncFromWASM demo_decisions (demo 1)).1 = 0) as Hok by (vm_compute; reflexivity).
  split; [exact Hok|].
  destruct (sync_last_writer_wins demo_decisions (demo 1)) as (_ & -> & _);
    [repeat constructor; discriminate|exact Hok|apply demo_wf|vm_compute; reflexivity].
Defined.

(** The keys an iteration over the demo map [name] yields. *)
Definition demo_keys (name : string) : list (list Z) :=
  (fun kv => kv.1.2) <$> filter (fun kv => kv.1.1 = name) (map_to_list (demo_maps 1)).

Lemma demo_keys_complete m key v :
  map_contents (demo 1) m key = Some v -> key ∈ demo_keys (bm_name m).
Proof.
  intros Hk. apply list_elem_of_fmap. exists ((bm_name m, key), v). split; [done|].
  apply list_elem_of_filter. split; [done|]. by apply elem_of_map_to_list.
Qed.

Lemma clear_leaves_no_rule_witness :
  is_Some (rule_at (demo 1) demo_key) /\
  rule_at (Clear (demo_keys "policy_map") (demo 1)).2 demo_key = None.
Proof.
  split; [vm_compute; eauto|]. apply (clear_leaves_no_rule (demo_keys "policy_map") (demo 1)).
  exact (demo_keys_complete policy_map).
Defined.

Lemma cgroup_filter_installed_witness :
  let k := (SetLSMCgroupFilter lsm_cgroup_filter [] [7; 9] (demo 1)).2 in
  should_skip_cgroup 7 k = 0 /\ should_skip_cgroup 8 k = 1 /\
  should_skip_cgroup 7 (SetLSMCgroupFilter lsm_cgroup_filter [le_bytes 8 0; le_bytes 8 9] [11] k).2 = 0 /\
  should_skip_cgroup 9 (SetLSMCgroupFilter lsm_cgroup_filter [le_bytes 8 0; le_bytes 8 9] [11] k).2 = 1.
Proof.
  intros k.
  assert (Hv : forall key v, map_contents (demo 1) lsm_cgroup_filter key = Some v -> key ∈ ([] : list (list Z))).
  { exact (demo_keys_complete lsm_cgroup_filter). }
  assert (Hok : (SetLSMCgroupFilter lsm_cgroup_filter [] [7; 9] (demo 1)).1 = 0) by (vm_compute; reflexivity).
  assert (Hids : Forall (is_u 64) [7; 9]) by (repeat constructor; discriminate).
  assert (Hid : forall i, 0 <= i < 100 -> is_u 64 i) by (intros i Hi; unfold is_u; lia).
  destruct (cgroup_filter_installed [] [7; 9] (demo 1) 7 Hok Hids (Hid 7 ltac:(lia))) as (_ & _ & H7).
  destruct (cgroup_filter_installed [] [7; 9] (demo 1) 8 Hok Hids (Hid 8 ltac:(lia))) as (_ & _ & H8).
  split; [exact (H7 Hv)|]. split; [exact (H8 Hv)|]. split; vm_compute; reflexivity.
Defined.
