(* ===== verification/EndToEnd.v ===== *)
(** From the daemon's rule to the kernel's verdict.

    A rule set through policy_map.go and the switch set through SetEnforce meet
    the exec and connect programs: the theorems here compose the userspace model
    of [GoPolicyMap.v] with the hooks of [LsmHooks.v] across the map interface,
    and state for which paths and endpoints a deny rule denies. *)

From S2P Require Import Prelude CTypes Bpf SimKernel VmlinuxTypes WarmorLsm LsmPolicy Fnv.
From S2P Require Import LsmConnect LsmBind LsmListen Demo LsmHooks GoPolicyMap.

Section EndToEnd.
Context {K : Type} `{BpfKernelOk K}.
Implicit Types (k : K).

(** The daemon installs one deny rule and turns enforcement on. *)
Definition deny_and_enforce (cgroupID eventType : Z) (pattern : list Z) k : Z * K :=
  let '(err, k) := SetRule cgroupID eventType pattern ActionDeny false k in
  if negb (err =? 0) then (err, k) else SetEnforce true k.

(** The same for a network endpoint given by its hash. *)
Definition deny_endpoint_and_enforce (cgroupID addrHash : Z) k : Z * K :=
  let '(err, k) := SetNetworkRule cgroupID addrHash ActionDeny false k in
  if negb (err =? 0) then (err, k) else SetEnforce true k.

(** A path in memory, as [bprm->filename] gives it. *)
Definition exec_path_at k (bprm : Z) (s : list Z) : Prop :=
  exists fp, is_u 64 fp /\
    bytes_at (src_byte (kernel_env k)
      (KAddr (bprm + Z.of_nat (foff struct_linux_binprm ["filename"])))) (le_bytes 8 fp) /\
    cstring_at (src_byte (kernel_env k) (KAddr fp)) s.

Lemma exec_subject_at k bprm ret s :
  exec_path_at k bprm s ->
  exists sub, hook_subject (CallExec bprm ret) k = Some sub /\
    su_hash sub = fnv1a (sext8 <$> take 16 s).
Proof.
  intros (fp & Hfp & Hm & Hs). cbn [hook_subject]. rewrite (core_read_value k _ _ _ fp) by done.
  destruct (name_subject_cstring k fp s Hs) as (buf & len & -> & _). by eexists.
Qed.

(** What the kernel looks like after a rule and the switch were set. *)
Lemma install_effect c h e k :
  let p := map_update_elem policy_map (MarshalBinary (key_literal c h e)) (mk_PolicyValue ActionDeny false) k in
  policy_wf k -> p.1 = 0 -> (SetEnforce true p.2).1 = 0 ->
  let k' := (SetEnforce true p.2).2 in
  policy_wf k' /\ enforcing k' = true /\ kernel_env k' = kernel_env k /\
  (forall key, rule_at k' key =
     if bool_decide (key = mk_policy_key c h e) then Some (Rule ActionDeny false 0) else rule_at k key) /\
  (forall key, map_contents k' lsm_cgroup_filter key = map_contents k lsm_cgroup_filter key).
Proof.
  intros p Hwf Hp Hs k'.
  destruct (put_rule_effect c h e ActionDeny false k) as (Hr & Hm & Hw & He); [done|done|].
  fold p in Hr, Hm, Hw, He. destruct (SetEnforce_effect true p.2 Hs) as (Hon & Hm' & He').
  fold k' in Hon, Hm', He'. split_and!.
  - intros key v. rewrite Hm' by done. by apply Hw.
  - done.
  - by rewrite He'.
  - intros key. rewrite <- Hr. apply rule_at_policy. by apply Hm'.
  - intros. rewrite Hm' by done. by apply Hm.
Qed.

(** The kernel after [deny_and_enforce], when it succeeded. *)
Lemma deny_and_enforce_effect c e pat k :
  policy_wf k -> (deny_and_enforce c e pat k).1 = 0 ->
  let k' := (deny_and_enforce c e pat k).2 in
  policy_wf k' /\ enforcing k' = true /\ kernel_env k' = kernel_env k /\
  (forall key, rule_at k' key =
     if bool_decide (key = mk_policy_key c (HashPattern pat) e)
     then Some (Rule ActionDeny false 0) else rule_at k key) /\
  (forall key, map_contents k' lsm_cgroup_filter key = map_contents k lsm_cgroup_filter key).
Proof.
  intros Hwf. pose proof (install_effect c (HashPattern pat) e k) as Hi. cbv zeta in Hi.
  unfold deny_and_enforce, SetRule.
  destruct (map_update_elem policy_map _ _ k) as [err k1]; cbn [fst snd] in Hi.
  destruct (Z.eqb_spec err 0) as [->|]; cbn [negb]; [|done]. intros Hok. by apply Hi.
Qed.

Lemma deny_endpoint_effect c h k :
  policy_wf k -> (deny_endpoint_and_enforce c h k).1 = 0 ->
  let k' := (deny_endpoint_and_enforce c h k).2 in
  policy_wf k' /\ enforcing k' = true /\ kernel_env k' = kernel_env k /\
  (forall key, rule_at k' key =
     if bool_decide (key = mk_policy_key c h EventTypeNetwork)
     then Some (Rule ActionDeny false 0) else rule_at k key) /\
  (forall key, map_contents k' lsm_cgroup_filter key = map_contents k lsm_cgroup_filter key).
Proof.
  intros Hwf. pose proof (install_effect c h EventTypeNetwork k) as Hi. cbv zeta in Hi.
  unfold deny_endpoint_and_enforce, SetNetworkRule.
  destruct (map_update_elem policy_map _ _ k) as [err k1]; cbn [fst snd] in Hi.
  destruct (Z.eqb_spec err 0) as [->|]; cbn [negb]; [|done]. intros Hok. by apply Hi.
Qed.

Lemma filtered_out_ext k k' :
  kernel_env k' = kernel_env k ->
  (forall key, map_contents k' lsm_cgroup_filter key = map_contents k lsm_cgroup_filter key) ->
  filtered_out k' = filtered_out k.
Proof.
  intros He Hf. unfold filtered_out, should_skip_cgroup, bpf_map_lookup_elem,
    bpf_get_current_cgroup_id. by rewrite He, !Hf.
Qed.

(** A call whose subject's own key holds a deny rule is denied when enforcing. *)
Lemma denied_by_own_rule c k s r :
  policy_wf k -> prior c = 0 -> filtered_out k = false -> enforcing k = true ->
  hook_subject c k = Some s ->
  rule_at k (mk_policy_key (bpf_get_current_cgroup_id k) (su_hash s) (hook_type c)) = Some r ->
  r_action r = ACTION_DENY -> (run_hook c k).1 = -1.
Proof.
  intros Hwf Hp Hf He Hs Hr Ha. rewrite run_hook_return by done.
  unfold deciding_rule. rewrite Hf, Hs. unfold rule_for. rewrite Hr; simpl.
  rewrite Ha, He. done.
Qed.

(** A deny rule set for an executable path of at most 16 seven-bit characters
    makes the exec hook return -1 for a task of that container executing that
    path, whatever rules were there before. *)
Lemma exec_deny_end_to_end s bprm k :
  policy_wf k -> exec_path_at k bprm s -> filtered_out k = false ->
  (length s <= 16)%nat -> Forall (fun b => 0 < b < 128) s ->
  (deny_and_enforce (bpf_get_current_cgroup_id k) EventTypeExec s k).1 = 0 ->
  (run_hook (CallExec bprm 0)
     (deny_and_enforce (bpf_get_current_cgroup_id k) EventTypeExec s k).2).1 = -1.
Proof.
  intros Hwf Hp Hf Hl Ha Hok.
  destruct (deny_and_enforce_effect _ _ _ k Hwf Hok) as (Hw & Hon & He & Hr & Hm).
  set (k' := (deny_and_enforce _ _ _ k).2) in *.
  destruct (exec_subject_at k bprm 0 s Hp) as (sub & Hs & Hh).
  assert (Hhash : su_hash sub = HashPattern s).
  { rewrite Hh, take_ge by lia. rewrite sext8_ascii_map; [done|].
    eapply Forall_impl; [done|]. simpl; lia. }
  apply (denied_by_own_rule _ k' sub (Rule ActionDeny false 0)); auto.
  - by rewrite (filtered_out_ext k).
  - by rewrite (hook_subject_env _ k).
  - unfold bpf_get_current_cgroup_id. rewrite He, Hr, Hhash. by rewrite bool_decide_eq_true_2.
Qed.

(** A rule for a path whose full hash differs from the hash of its sign-extended
    16-byte prefix, the case of every path over 16 bytes outside a hash collision,
    is dead: after setting it and turning enforcement on, executing that very path
    gets the verdict the rules present before give it, as if the rule were absent. *)
Lemma exec_rule_on_long_path_is_dead s bprm k :
  policy_wf k -> exec_path_at k bprm s ->
  HashPattern s <> fnv1a (sext8 <$> take 16 s) ->
  (deny_and_enforce (bpf_get_current_cgroup_id k) EventTypeExec s k).1 = 0 ->
  (run_hook (CallExec bprm 0)
     (deny_and_enforce (bpf_get_current_cgroup_id k) EventTypeExec s k).2).1 =
  spec_return (judge (deciding_rule (CallExec bprm 0) k)) true.
Proof.
  intros Hwf Hp Hne Hok.
  destruct (deny_and_enforce_effect _ _ _ k Hwf Hok) as (Hw & Hon & He & Hr & Hm).
  set (k' := (deny_and_enforce _ _ _ k).2) in *.
  destruct (exec_subject_at k bprm 0 s Hp) as (sub & Hs & Hh).
  rewrite run_hook_return, Hon by done. f_equal.
  unfold deciding_rule. rewrite (filtered_out_ext k) by done.
  rewrite (hook_subject_env _ k) by done. rewrite Hs. destruct (filtered_out k); [done|].
  unfold rule_for, bpf_get_current_cgroup_id. rewrite He, !Hr.
  pose proof (fnv1a_range s) as Hu. pose proof (fnv1a_range (sext8 <$> take 16 s)) as Hu'.
  pose proof (ok_cgroup_id _ (env_ok k)) as Hc. change (fnv1a s) with (HashPattern s) in Hu.
  assert (is_u 64 0 /\ is_u 8 EventTypeExec) as [??] by (split; unfold is_u, EventTypeExec; lia).
  rewrite !bool_decide_eq_false_2; [done| |];
    rewrite Hh; intros (_ & Hhash & _)%mk_policy_key_inj; auto.
Qed.

(** A network deny rule whose hash userspace computes from the address and port
    words the way the kernel holds them denies connecting to that endpoint. *)
Lemma connect_deny_end_to_end port addr sock address len k :
  policy_wf k -> filtered_out k = false ->
  length port = 2%nat -> length addr = 4%nat -> Forall is_byte (port ++ addr) ->
  bytes_at (src_byte (kernel_env k) (KAddr address)) (sockaddr_in_bytes port addr) ->
  (deny_endpoint_and_enforce (bpf_get_current_cgroup_id k)
     (HashIPv4Endpoint (le_val addr) (le_val port)) k).1 = 0 ->
  (run_hook (CallConnect sock address len)
     (deny_endpoint_and_enforce (bpf_get_current_cgroup_id k)
        (HashIPv4Endpoint (le_val addr) (le_val port)) k).2).1 = -1.
Proof.
  intros Hwf Hf Hp Ha Hb Hm Hok.
  destruct (deny_endpoint_effect _ _ k Hwf Hok) as (Hw & Hon & He & Hr & Hfl).
  set (k' := (deny_endpoint_and_enforce _ _ k).2) in *.
  pose proof (endpoint_ipv4 k address port addr Hp Ha Hb Hm) as Hs.
  eapply (denied_by_own_rule (CallConnect sock address len) k' _ (Rule ActionDeny false 0)); auto.
  - by rewrite (filtered_out_ext k).
  - rewrite (hook_subject_env _ k) by done. exact Hs.
  - unfold bpf_get_current_cgroup_id. rewrite He, Hr. cbn [su_hash hook_type].
    rewrite bool_decide_eq_true_2; [done|]. f_equal. symmetry. apply HashIPv4Endpoint_bytes; auto.
    rewrite Forall_app in *. naive_solver.
Qed.
End EndToEnd.

(** ** Witnesses and the endpoint of the integration test *)

Lemma demo_exec_path : exec_path_at (demo 0) demo_bprm demo_path.
Proof.
  exists 8192. split_and!.
  - split; [discriminate|reflexivity].
  - apply reads_bytes_at. vm_compute. reflexivity.
  - apply reads_cstring. vm_compute. reflexivity.
Qed.

Lemma exec_deny_end_to_end_witness :
  (run_hook (CallExec demo_bprm 0) (deny_and_enforce (bpf_get_current_cgroup_id (demo 0)) EventTypeExec demo_path (demo 0)).2).1 = -1.
Proof.
  apply (exec_deny_end_to_end demo_path demo_bprm (demo 0)).
  - apply demo_wf.
  - exact demo_exec_path.
  - vm_compute. reflexivity.
  - vm_compute. lia.
  - vm_compute. repeat constructor.
  - vm_compute. reflexivity.
Defined.

(** The demo machine with a 22-byte path at [bprm->filename]. *)
Definition long_path : list Z := bstr "/usr/local/bin/kubectl".
Definition demo_long : sim_kernel :=
  SimK (1000 * 2 ^ 32 + 1001) (33 * 2 ^ 32 + 44) 7 123456789 (bstr "sh")
    (mem_of [(demo_bprm + Z.of_nat (foff struct_linux_binprm ["filename"]), le_bytes 8 8192);
             (8192, long_path ++ [0])]) ∅ ∅ 262144 [].

Lemma exec_rule_on_long_path_is_dead_witness :
  (deny_and_enforce (bpf_get_current_cgroup_id demo_long) EventTypeExec long_path demo_long).1 = 0 /\
  (run_hook (CallExec demo_bprm 0) (deny_and_enforce (bpf_get_current_cgroup_id demo_long) EventTypeExec long_path demo_long).2).1 = 0.
Proof.
  assert (Hok : (deny_and_enforce (bpf_get_current_cgroup_id demo_long) EventTypeExec long_path demo_long).1 = 0) by (vm_compute; reflexivity).
  split; [exact Hok|].
  etrans; [apply (exec_rule_on_long_path_is_dead long_path demo_bprm demo_long)|].
  - apply sim_policy_wf. apply map_Forall_empty.
  - exists 8192. split_and!.
    + split; [discriminate|reflexivity].
    + apply reads_bytes_at. vm_compute. reflexivity.
    + apply reads_cstring. vm_compute. reflexivity.
  - vm_compute. discriminate.
  - exact Hok.
  - vm_compute. reflexivity.
Defined.

Lemma connect_deny_end_to_end_witness :
  (run_hook (CallConnect 0 demo_sockaddr 16)
     (deny_endpoint_and_enforce (bpf_get_current_cgroup_id (demo 0))
        (HashIPv4Endpoint (le_val [169; 254; 10; 1]) (le_val [0; 80]))
        (demo 0)).2).1 = -1.
Proof.
  apply (connect_deny_end_to_end [0; 80] [169; 254; 10; 1] 0 demo_sockaddr 16 (demo 0)).
  - apply demo_wf.
  - vm_compute. reflexivity.
  - reflexivity.
  - reflexivity.
  - repeat constructor; unfold is_byte; lia.
  - apply reads_bytes_at. vm_compute. reflexivity.
  - vm_compute. reflexivity.
Defined.

(** The endpoint 169.254.10.1:80 in a state with no network rule. *)
Definition demo_open : sim_kernel :=
  SimK (1000 * 2 ^ 32 + 1001) (33 * 2 ^ 32 + 44) 7 123456789 (bstr "sh") demo_memory ∅ ∅ 262144 [].

(** The rule of the connect integration test, hashed from the port number 80 in
    host order, does not deny a connection to port 80: the kernel hashes the port
    bytes in network order.  The same rule hashed from the swapped port does. *)
Lemma connect_rule_needs_network_order :
  (run_hook (CallConnect 0 demo_sockaddr 16)
     (deny_endpoint_and_enforce 7 (HashIPv4Endpoint (le_val [169; 254; 10; 1]) 80)
        demo_open).2).1 = 0 /\
  (run_hook (CallConnect 0 demo_sockaddr 16)
     (deny_endpoint_and_enforce 7 (HashIPv4Endpoint (le_val [169; 254; 10; 1]) 20480)
        demo_open).2).1 = -1.
Proof. split; vm_compute; reflexivity. Qed.
