(* ===== verification/Monitors.v ===== *)
(** The three tracepoint monitors together, and what the daemon decodes from them.

    Each monitor is the container filter followed by one record; [monitor] states
    that shape once and each program is an instance of it.  The theorems say that
    monitors only observe, which tasks they report, and that the record a monitor
    submits is decoded by the Go structs to the values the system call had. *)

From S2P Require Import Prelude CTypes Bpf SimKernel VmlinuxTypes TracepointDefs.
From S2P Require Import ExecveMonitor OpenatMonitor ConnectMonitor WarmorLsm Demo.
From S2P Require Import GoEvents GoPolicyMap.

(** ** The common shape *)

Section Monitor.
Context {K : Type} `{BpfKernel K}.
Implicit Types (k : K).

(** The filter drops a task that is not listed while the sentinel is present. *)
Definition dropped (filter : bpf_map) k : bool :=
  match bpf_map_lookup_elem k filter (le_bytes 8 (bpf_get_current_cgroup_id k)),
        bpf_map_lookup_elem k filter (le_bytes 8 0) with
  | None, Some _ => true
  | _, _ => false
  end.

Definition monitor (filter ring : bpf_map) (size : Z) (fill : K -> list Z -> list Z) k : Z * K :=
  if dropped filter k then (0, k)
  else match ringbuf_reserve ring size k with
       | (None, k) => (0, k)
       | (Some event, k) => (0, ringbuf_submit ring (fill k event) k)
       end.

(** The record a monitor sends, if any. *)
Definition monitored (filter ring : bpf_map) (size : Z) (fill : K -> list Z -> list Z) k : list (list Z) :=
  if dropped filter k then []
  else match (ringbuf_reserve ring size k).1 with
       | None => []
       | Some event => [fill k event]
       end.

Inductive monitor_call : Type := MonExecve | MonOpenat | MonConnect.

Definition run_monitor (c : monitor_call) (ctx : list Z) k : Z * K :=
  match c with
  | MonExecve => tracepoint__syscalls__sys_enter_execve ctx k
  | MonOpenat => tracepoint__syscalls__sys_enter_openat ctx k
  | MonConnect => tracepoint__syscalls__sys_enter_connect ctx k
  end.

Definition mon_filter (c : monitor_call) : bpf_map :=
  match c with
  | MonExecve => ExecveMonitor.cgroup_filter
  | MonOpenat => OpenatMonitor.cgroup_filter
  | MonConnect => ConnectMonitor.cgroup_filter
  end.
Definition mon_ring (c : monitor_call) : bpf_map :=
  match c with MonExecve => events | MonOpenat => file_events | MonConnect => network_events end.
Definition mon_event (c : monitor_call) : ctype :=
  match c with MonExecve => execve_event | MonOpenat => file_event | MonConnect => network_event end.
Definition mon_kind (c : monitor_call) : EventKind :=
  match c with
  | MonExecve => EventKindProcess | MonOpenat => EventKindFile | MonConnect => EventKindNetwork
  end.

Definition mon_fill (c : monitor_call) (ctx : list Z) k : list Z -> list Z :=
  let cgid := bpf_get_current_cgroup_id k in
  match c with
  | MonExecve => fill_execve_event ctx (Z.shiftr (bpf_get_current_pid_tgid k) 32)
                   (bpf_get_current_uid_gid k) cgid k
  | MonOpenat => fill_file_event ctx cgid k
  | MonConnect => fill_network_event ctx cgid k
  end.

(** Loader.SetCgroupFilter: the filter of every monitor in turn. *)
Fixpoint set_filters (visited : bpf_map -> list (list Z)) (ids : list Z) (maps : list bpf_map) k : Z * K :=
  match maps with
  | [] => (0, k)
  | m :: maps' =>
      let k := delete_all m (visited m) k in
      match ids with
      | [] => set_filters visited ids maps' k
      | _ =>
          let '(err, k) := map_update_elem m (le_bytes 8 0) [1] k in
          if negb (err =? 0) then (err, k) else
          let '(err, k) := put_ids m ids k in
          if negb (err =? 0) then (err, k) else set_filters visited ids maps' k
      end
  end.

Definition SetCgroupFilter (visited : bpf_map -> list (list Z)) (ids : list Z) k : Z * K :=
  set_filters visited ids
    [ExecveMonitor.cgroup_filter; OpenatMonitor.cgroup_filter; ConnectMonitor.cgroup_filter] k.
End Monitor.

Section MonitorFacts.
Context {K : Type} `{BpfKernelOk K}.
Implicit Types (k : K).

Ltac use_env He :=
  unfold bpf_ktime_get_ns, bpf_get_current_comm, bpf_probe_read_user_str, bpf_get_current_pid_tgid,
    bpf_get_current_uid_gid, bpf_get_current_cgroup_id, bpf_probe_read_user, stack_object; by rewrite He.

Lemma mon_fill_env c ctx k k' ev :
  kernel_env k' = kernel_env k -> mon_fill c ctx k' ev = mon_fill c ctx k ev.
Proof.
  intros He. unfold mon_fill. destruct c;
    unfold fill_execve_event, fill_file_event, fill_network_event, read_user_into; use_env He.
Qed.

(** The programs are instances of [monitor]; the reservation does not change
    what they read. *)
Lemma run_monitor_eq c ctx k :
  run_monitor c ctx k =
  monitor (mon_filter c) (mon_ring c) (sizeof (mon_event c)) (fun _ => mon_fill c ctx k) k.
Proof.
  assert (Hm : run_monitor c ctx k = monitor (mon_filter c) (mon_ring c) (sizeof (mon_event c))
    (fun k' => match c with
       | MonExecve => fill_execve_event ctx (Z.shiftr (bpf_get_current_pid_tgid k) 32)
                        (bpf_get_current_uid_gid k) (bpf_get_current_cgroup_id k) k'
       | MonOpenat => fill_file_event ctx (bpf_get_current_cgroup_id k) k'
       | MonConnect => fill_network_event ctx (bpf_get_current_cgroup_id k) k' end) k).
  { unfold monitor, dropped. destruct c; cbn [run_monitor mon_filter mon_ring mon_event];
      unfold tracepoint__syscalls__sys_enter_execve, tracepoint__syscalls__sys_enter_openat,
        tracepoint__syscalls__sys_enter_connect; cbv zeta;
      repeat match goal with |- context [bpf_map_lookup_elem ?a ?b ?d] =>
        destruct (bpf_map_lookup_elem a b d) end; done. }
  rewrite Hm. unfold monitor. destruct (dropped _ k); [done|].
  pose proof (env_reserve (mon_ring c) (sizeof (mon_event c)) k) as He.
  destruct (ringbuf_reserve _ _ k) as [[ev|] k1]; cbn [snd] in He; [|done].
  do 2 f_equal. unfold mon_fill.
  destruct c; unfold fill_execve_event, fill_file_event, fill_network_event, read_user_into; use_env He.
Qed.

Lemma monitor_effect filter ring size fill k :
  let r := monitor filter ring size (fun _ => fill) k in
  r.1 = 0 /\
  ring_records r.2 ring = ring_records k ring ++ monitored filter ring size (fun _ => fill) k /\
  (forall m, bm_name ring <> bm_name m -> ring_records r.2 m = ring_records k m) /\
  (forall m key, map_contents r.2 m key = map_contents k m key) /\
  kernel_env r.2 = kernel_env k.
Proof.
  unfold monitor, monitored. destruct (dropped filter k); [by rewrite app_nil_r|].
  pose proof (env_reserve ring size k) as He.
  pose proof (fun r => reserve_ring ring size k r) as Hr.
  pose proof (fun m key => reserve_maps ring size k m key) as Hm.
  destruct (ringbuf_reserve ring size k) as [[ev|] k1]; cbn [fst snd] in *.
  - split_and!; intros; rewrite ?submit_ring_same, ?submit_maps, ?env_submit, ?Hr; auto.
    by rewrite submit_ring_other, Hr.
  - split_and!; intros; rewrite ?Hr, ?app_nil_r; auto.
Qed.

(** C37: the tracepoint monitors only observe: whatever the system call's arguments,
    a monitor returns 0, changes no map, writes no ring buffer but its own, and
    appends at most one record there, none when the container filter drops the
    task. *)
Theorem monitors_only_observe c ctx k :
  (run_monitor c ctx k).1 = 0 /\
  (forall m key, map_contents (run_monitor c ctx k).2 m key = map_contents k m key) /\
  (forall m, bm_name (mon_ring c) <> bm_name m ->
     ring_records (run_monitor c ctx k).2 m = ring_records k m) /\
  exists sent, ring_records (run_monitor c ctx k).2 (mon_ring c) =
      ring_records k (mon_ring c) ++ sent /\
    (length sent <= 1)%nat /\ (dropped (mon_filter c) k = true -> sent = []).
Proof.
  rewrite run_monitor_eq.
  destruct (monitor_effect (mon_filter c) (mon_ring c) (sizeof (mon_event c)) (mon_fill c ctx k) k)
    as (? & ? & ? & ? & _).
  split_and!; auto. eexists; split; [done|]. unfold monitored.
  destruct (dropped _ k); [simpl; auto with lia|].
  destruct (ringbuf_reserve _ _ k).1; simpl; split; [lia|done|lia|done].
Qed.

(** ** Installing the filter *)

Lemma set_filters_step visited ids m maps k :
  set_filters visited ids (m :: maps) k =
  let '(err, k) := SetLSMCgroupFilter m (visited m) ids k in
  if negb (err =? 0) then (err, k) else set_filters visited ids maps k.
Proof.
  cbn [set_filters]. unfold SetLSMCgroupFilter. destruct ids as [|id ids]; [done|].
  destruct (map_update_elem _ _ _ _) as [err k1]. by destruct (negb (err =? 0)) eqn:E; rewrite ?E.
Qed.

Lemma set_filters_env visited ids maps : forall k,
  kernel_env (set_filters visited ids maps k).2 = kernel_env k.
Proof.
  induction maps as [|m maps IH]; intros k; [done|]. rewrite set_filters_step.
  pose proof (SetLSMCgroupFilter_env m (visited m) ids k) as He.
  destruct (SetLSMCgroupFilter m (visited m) ids k) as [err k1]; cbn [snd] in He.
  destruct (negb (err =? 0)); [done|]. by rewrite IH.
Qed.

Lemma set_filters_other visited ids maps m' key : forall k,
  Forall (fun m => bm_type m = BPF_MAP_TYPE_HASH) maps -> bm_name m' ∉ (bm_name <$> maps) ->
  map_contents (set_filters visited ids maps k).2 m' key = map_contents k m' key.
Proof.
  induction maps as [|m maps IH]; intros k Ht Hm; [done|]. rewrite set_filters_step.
  apply Forall_cons in Ht as [Htm Ht]. rewrite fmap_cons, not_elem_of_cons in Hm. destruct Hm as [Hn Hm].
  pose proof (SetLSMCgroupFilter_other m (visited m) ids k m' key Htm Hn) as Ho.
  destruct (SetLSMCgroupFilter m (visited m) ids k) as [err k1]; cbn [snd] in Ho.
  destruct (negb (err =? 0)); [done|]. by rewrite IH.
Qed.

Lemma set_filters_lookups visited ids cgid maps : forall k,
  NoDup (bm_name <$> maps) -> Forall (fun m => bm_type m = BPF_MAP_TYPE_HASH) maps ->
  (forall m key v, m ∈ maps -> map_contents k m key = Some v -> key ∈ visited m) ->
  (set_filters visited ids maps k).1 = 0 -> Forall (is_u 64) ids -> is_u 64 cgid ->
  (forall m, m ∈ maps ->
     map_contents (set_filters visited ids maps k).2 m (le_bytes 8 cgid) =
       (if bool_decide (ids <> [] /\ cgid ∈ 0 :: ids) then Some [1] else None) /\
     map_contents (set_filters visited ids maps k).2 m (le_bytes 8 0) =
       if bool_decide (ids <> []) then Some [1] else None) /\
  (forall m key, bm_name m ∉ (bm_name <$> maps) ->
     map_contents (set_filters visited ids maps k).2 m key = map_contents k m key).
Proof.
  induction maps as [|m maps IH]; intros k Hnd Ht Hv Hok Hids Hc.
  { split; [intros m Hm; by apply elem_of_nil in Hm|done]. }
  rewrite set_filters_step in *. rewrite fmap_cons, NoDup_cons in Hnd. destruct Hnd as [Hn Hnd].
  apply Forall_cons in Ht as [Hm Ht].
  pose proof (filter_lookups m (visited m) ids k cgid Hm (fun key v => Hv m key v (list_elem_of_here _ _))) as Hl.
  pose proof (fun m' key => SetLSMCgroupFilter_other m (visited m) ids k m' key Hm) as Ho.
  cbv zeta in Hl. destruct (SetLSMCgroupFilter m (visited m) ids k) as [err k1]; cbn [fst snd] in *.
  destruct (Z.eqb_spec err 0) as [->|]; cbn [negb fst snd] in *; [|done].
  destruct (IH k1 Hnd Ht) as [Hs Ho']; auto.
  { intros m' key v Hm'. rewrite Ho; [apply Hv, list_elem_of_further, Hm'|].
    intros Heq. apply Hn. rewrite <- Heq. by apply list_elem_of_fmap_2. }
  split.
  - intros m' Hm'. apply elem_of_cons in Hm' as [->|Hm']; [|by apply Hs].
    rewrite !Ho' by done. by apply Hl.
  - intros m' key Hm'. rewrite fmap_cons, not_elem_of_cons in Hm'. destruct Hm' as [? ?].
    rewrite Ho' by done. by apply Ho.
Qed.

(** Loader.SetCgroupFilter installs the same filter in all three monitors:
    after a successful call whose clearing pass visited every entry, each monitor
    drops exactly the tasks whose cgroup is neither listed nor 0, and drops
    nothing when the list is empty. *)
Lemma monitor_filter_installed visited ids c k :
  (forall c key v, map_contents k (mon_filter c) key = Some v -> key ∈ visited (mon_filter c)) ->
  (SetCgroupFilter visited ids k).1 = 0 -> Forall (is_u 64) ids ->
  dropped (mon_filter c) (SetCgroupFilter visited ids k).2 =
    bool_decide (ids <> [] /\ bpf_get_current_cgroup_id k <> 0 /\ bpf_get_current_cgroup_id k ∉ ids).
Proof.
  intros Hv Hok Hids. unfold SetCgroupFilter in *. set (maps := [_; _; _]) in *.
  assert (Hin : mon_filter c ∈ maps) by (subst maps; destruct c; set_solver).
  assert (Hmaps : forall m, m ∈ maps -> exists c, m = mon_filter c).
  { intros m. subst maps. rewrite !elem_of_cons, elem_of_nil.
    intros [->|[->|[->|[]]]]; [by exists MonExecve|by exists MonOpenat|by exists MonConnect]. }
  destruct (set_filters_lookups visited ids (bpf_get_current_cgroup_id k) maps k) as [Hl _]; auto.
  - subst maps. apply (bool_decide_unpack _). vm_compute. done.
  - subst maps. by repeat constructor.
  - intros m key v Hm. destruct (Hmaps m Hm) as [c' ->]. apply Hv.
  - apply (ok_cgroup_id _ (env_ok k)).
  - destruct (Hl _ Hin) as [H1 H2]. unfold dropped, bpf_map_lookup_elem.
    unfold bpf_get_current_cgroup_id in *. rewrite set_filters_env, H1, H2.
    repeat case_bool_decide; try done; exfalso; set_solver.
Qed.

(** ** What the daemon decodes *)

(** A record of the struct's size is read whole. *)
Lemma binary_Read_whole t rec : length rec = Z.to_nat (sizeof t) -> binary_Read t rec = Some rec.
Proof. intros Hl. rewrite binary_Read_ok by lia. by rewrite take_ge by lia. Qed.

Lemma readEvent_execve off rec :
  obj execve_event rec ->
  readEvent off EventKindProcess rec = Some {|
    Kind := EventKindProcess;
    PID := ld execve_event ["pid"] rec;
    UID := ld execve_event ["uid"] rec;
    GID := ld execve_event ["gid"] rec;
    Comm := cstr (ldb execve_event ["comm"] rec);
    Filename := cstr (ldb execve_event ["filename"] rec);
    Flags := 0; Mode := 0; RemoteAddr := []; RemotePort := 0; Family := 0;
    Timestamp := bootTimeToWallClock off (ld execve_event ["timestamp"] rec);
    ECgroupID := ld execve_event ["cgroup_id"] rec |}.
Proof.
  intros Ho. cbn [readEvent]. rewrite binary_Read_whole by exact Ho. reflexivity.
Qed.

Lemma readEvent_openat off rec :
  obj file_event rec ->
  readEvent off EventKindFile rec = Some {|
    Kind := EventKindFile;
    PID := ld file_event ["pid"] rec;
    UID := ld file_event ["uid"] rec;
    GID := ld file_event ["gid"] rec;
    Comm := cstr (ldb file_event ["comm"] rec);
    Filename := cstr (ldb file_event ["path"] rec);
    Flags := ld file_event ["flags"] rec;
    Mode := ld file_event ["mode"] rec;
    RemoteAddr := []; RemotePort := 0; Family := 0;
    Timestamp := bootTimeToWallClock off (ld file_event ["timestamp"] rec);
    ECgroupID := ld file_event ["cgroup_id"] rec |}.
Proof.
  intros Ho. cbn [readEvent]. rewrite binary_Read_whole by exact Ho. reflexivity.
Qed.

(** The address a connect record shows, read from the C members. *)
Definition shown_addr (rec : list Z) : list Z :=
  let family := ld network_event ["family"] rec in
  if family =? 2 then ip_string (be_bytes 4 (ld network_event ["remote_addr_v4"] rec))
  else if family =? 10 then ip_string (ldb network_event ["remote_addr_v6"] rec)
  else bstr "unknown-family-" ++ dec_digits 5 family [].

Lemma readEvent_connect off rec :
  obj network_event rec ->
  readEvent off EventKindNetwork rec = Some {|
    Kind := EventKindNetwork;
    PID := ld network_event ["pid"] rec;
    UID := ld network_event ["uid"] rec;
    GID := ld network_event ["gid"] rec;
    Comm := cstr (ldb network_event ["comm"] rec);
    Filename := []; Flags := 0; Mode := 0;
    RemoteAddr := shown_addr rec;
    RemotePort := ntohs (ld network_event ["remote_port"] rec);
    Family := ld network_event ["family"] rec;
    Timestamp := bootTimeToWallClock off (ld network_event ["timestamp"] rec);
    ECgroupID := ld network_event ["cgroup_id"] rec |}.
Proof.
  intros Ho. cbn [readEvent]. rewrite binary_Read_whole by exact Ho. reflexivity.
Qed.

(** What a monitor sends when it is not filtered and the ring buffer has room. *)
Lemma run_monitor_sent c ctx k stale :
  dropped (mon_filter c) k = false ->
  (ringbuf_reserve (mon_ring c) (sizeof (mon_event c)) k).1 = Some stale ->
  ring_records (run_monitor c ctx k).2 (mon_ring c) =
    ring_records k (mon_ring c) ++ [mon_fill c ctx k stale] /\ obj (mon_event c) stale.
Proof.
  intros Hd Hr. rewrite run_monitor_eq.
  destruct (monitor_effect (mon_filter c) (mon_ring c) (sizeof (mon_event c)) (mon_fill c ctx k) k)
    as (_ & -> & _).
  unfold monitored. rewrite Hd, Hr. split; [done|]. by apply reserve_len in Hr as [? _].
Qed.

(** The string a user-space string read leaves in a member. *)
Lemma user_str_cstr k a dst s n :
  cstring_at (usr_byte (kernel_env k) a) s -> length dst = S n ->
  cstr (bpf_probe_read_user_str k a dst).2 = take n s.
Proof.
  intros Hs Hd. pose proof Hs as (Hz & _).
  destruct (probe_read_user_str_cstring k a dst s Hs) as [tl ->].
  { intros ->. done. }
  cbn [snd]. rewrite cstr_nul by (by apply Forall_take). rewrite Hd.
  replace (S (length s) `min` S n - 1)%nat with (n `min` length s)%nat by lia.
  apply take_min_length.
Qed.

(** Who the current task is, in the words the records carry. *)
Definition task_pid k : Z := Z.shiftr (bpf_get_current_pid_tgid k) 32.
Definition task_uid k : Z := to_u32 (bpf_get_current_uid_gid k).
Definition task_gid k : Z := Z.shiftr (bpf_get_current_uid_gid k) 32.
Definition task_comm k : list Z := cstr (bpf_get_current_comm k 16).

Lemma task_ranges k :
  is_u 32 (task_pid k) /\ is_u 32 (task_uid k) /\ is_u 32 (task_gid k) /\
  is_u 64 (bpf_get_current_cgroup_id k) /\ is_u 64 (bpf_ktime_get_ns k).
Proof.
  destruct (env_ok k). unfold task_pid, task_uid, task_gid.
  split_and!; auto using shiftr32_range. apply to_u_range. lia.
Qed.

Lemma land_mask32 z : Z.land z 4294967295 = to_u32 z.
Proof. change 4294967295 with (Z.ones 32). apply Z.land_ones. lia. Qed.

Lemma fill_execve_fields ctx k stale :
  obj execve_event stale ->
  let rec := mon_fill MonExecve ctx k stale in
  obj execve_event rec /\
  ld execve_event ["pid"] rec = task_pid k /\
  ld execve_event ["uid"] rec = task_uid k /\
  ld execve_event ["gid"] rec = task_gid k /\
  ldb execve_event ["comm"] rec = bpf_get_current_comm k 16 /\
  (exists dst, length dst = 256%nat /\
     ldb execve_event ["filename"] rec = (bpf_probe_read_user_str k (ctx_arg ctx 0) dst).2) /\
  ld execve_event ["timestamp"] rec = bpf_ktime_get_ns k /\
  ld execve_event ["cgroup_id"] rec = bpf_get_current_cgroup_id k.
Proof.
  intros Ho rec. destruct (task_ranges k) as (H1 & H2 & H3 & H4 & H5).
  unfold rec, mon_fill, fill_execve_event. cbv zeta.
  fold (task_pid k) (task_uid k) (task_gid k).
  split_and!; [lay|stored|stored|stored|by repeat field_step| |stored|stored].
  eexists. split; [|repeat field_step; reflexivity]. rewrite length_ldb by lay. reflexivity.
Qed.

(** A reported execve is decoded to what happened: the record the execve monitor
    submits, read with the Go struct of the daemon, gives the task's pid, uid, gid,
    name, cgroup and time, and the path of the system call cut to 255 bytes. *)
Lemma execve_event_roundtrip off ctx k stale s :
  dropped ExecveMonitor.cgroup_filter k = false ->
  (ringbuf_reserve events (sizeof execve_event) k).1 = Some stale ->
  cstring_at (usr_byte (kernel_env k) (ctx_arg ctx 0)) s ->
  exists rec,
    ring_records (tracepoint__syscalls__sys_enter_execve ctx k).2 events =
      ring_records k events ++ [rec] /\
    readEvent off EventKindProcess rec = Some {|
      Kind := EventKindProcess;
      PID := task_pid k; UID := task_uid k; GID := task_gid k;
      Comm := task_comm k; Filename := take 255 s;
      Flags := 0; Mode := 0; RemoteAddr := []; RemotePort := 0; Family := 0;
      Timestamp := bootTimeToWallClock off (bpf_ktime_get_ns k);
      ECgroupID := bpf_get_current_cgroup_id k |}.
Proof.
  intros Hd Hr Hs. destruct (run_monitor_sent MonExecve ctx k stale Hd Hr) as [Hring Ho].
  eexists; split; [exact Hring|].
  destruct (fill_execve_fields ctx k stale Ho) as (Ho' & E1 & E2 & E3 & E4 & (dst & Hl & E5) & E6 & E7).
  rewrite readEvent_execve by done. rewrite E1, E2, E3, E4, E5, E6, E7.
  by rewrite (user_str_cstr k _ dst s 255).
Qed.

Lemma fill_openat_fields ctx k stale :
  obj file_event stale ->
  let rec := mon_fill MonOpenat ctx k stale in
  obj file_event rec /\
  ld file_event ["pid"] rec = task_pid k /\
  ld file_event ["uid"] rec = task_uid k /\
  ld file_event ["gid"] rec = task_gid k /\
  ldb file_event ["comm"] rec = bpf_get_current_comm k 16 /\
  (exists dst, length dst = 256%nat /\
     ldb file_event ["path"] rec = (bpf_probe_read_user_str k (ctx_arg ctx 1) dst).2) /\
  ld file_event ["flags"] rec = to_u32 (ctx_arg ctx 2) /\
  ld file_event ["mode"] rec = to_u32 (ctx_arg ctx 3) /\
  ld file_event ["timestamp"] rec = bpf_ktime_get_ns k /\
  ld file_event ["cgroup_id"] rec = bpf_get_current_cgroup_id k.
Proof.
  intros Ho rec. destruct (task_ranges k) as (H1 & H2 & H3 & H4 & H5).
  unfold rec, mon_fill, fill_file_event. cbv zeta. rewrite land_mask32.
  assert (F2 : is_u 32 (to_u32 (ctx_arg ctx 2))) by (apply to_u_range; lia).
  assert (F3 : is_u 32 (to_u32 (ctx_arg ctx 3))) by (apply to_u_range; lia).
  fold (task_pid k) (task_uid k) (task_gid k).
  split_and!; [lay|stored|stored|stored|by repeat field_step| |stored|stored|stored|stored].
  eexists. split; [|repeat field_step; reflexivity]. rewrite length_ldb by lay. reflexivity.
Qed.

(** A reported openat is decoded to what happened: task identity, the path cut
    to 255 bytes, and the low 32 bits of the flags and the mode. *)
Lemma openat_event_roundtrip off ctx k stale s :
  dropped OpenatMonitor.cgroup_filter k = false ->
  (ringbuf_reserve file_events (sizeof file_event) k).1 = Some stale ->
  cstring_at (usr_byte (kernel_env k) (ctx_arg ctx 1)) s ->
  exists rec,
    ring_records (tracepoint__syscalls__sys_enter_openat ctx k).2 file_events =
      ring_records k file_events ++ [rec] /\
    readEvent off EventKindFile rec = Some {|
      Kind := EventKindFile;
      PID := task_pid k; UID := task_uid k; GID := task_gid k;
      Comm := task_comm k; Filename := take 255 s;
      Flags := to_u32 (ctx_arg ctx 2); Mode := to_u32 (ctx_arg ctx 3);
      RemoteAddr := []; RemotePort := 0; Family := 0;
      Timestamp := bootTimeToWallClock off (bpf_ktime_get_ns k);
      ECgroupID := bpf_get_current_cgroup_id k |}.
Proof.
  intros Hd Hr Hs. destruct (run_monitor_sent MonOpenat ctx k stale Hd Hr) as [Hring Ho].
  eexists; split; [exact Hring|].
  destruct (fill_openat_fields ctx k stale Ho)
    as (Ho' & E1 & E2 & E3 & E4 & (dst & Hl & E5) & E6 & E7 & E8 & E9).
  rewrite readEvent_openat by done. rewrite E1, E2, E3, E4, E5, E6, E7, E8, E9.
  by rewrite (user_str_cstr k _ dst s 255).
Qed.

(** User memory that holds the bytes of a socket address, seen at an offset. *)
Lemma usr_bytes_app k a pre bs post :
  bytes_at (usr_byte (kernel_env k) a) (pre ++ bs ++ post) ->
  bytes_at (usr_byte (kernel_env k) (a + Z.of_nat (length pre))) bs.
Proof.
  intros Hm i b Hi. unfold usr_byte in *.
  specialize (Hm (length pre + i)%nat b). rewrite lookup_app_r in Hm by lia.
  rewrite <- Hm; [f_equal; lia|].
  replace (length pre + i - length pre)%nat with i by lia. by apply lookup_app_l_Some.
Qed.

Lemma read_user_into_bytes k m src bs ev :
  fits network_event [m] = true -> obj network_event ev ->
  bytes_at (usr_byte (kernel_env k) src) bs -> Forall is_byte bs ->
  length bs = fsize network_event [m] ->
  read_user_into k m src ev = stb network_event [m] bs ev.
Proof.
  intros Hf Ho Hm Hb Hl. unfold read_user_into.
  by rewrite (probe_read_user_bytes k _ _ bs) by (rewrite ?length_ldb; done).
Qed.

(** The family the monitor reads from a socket address that starts with it. *)
Lemma connect_family k a f rest :
  is_u 16 f -> bytes_at (usr_byte (kernel_env k) a) (le_bytes 2 f ++ rest) ->
  le_val (bpf_probe_read_user k (a + Z.of_nat (foff sockaddr ["sa_family"])) (stack_object k 2)).2 = f.
Proof.
  intros Hf Hm. rewrite (probe_read_user_bytes k _ _ (le_bytes 2 f)).
  - by apply le_val_le_bytes_id.
  - apply (usr_bytes_app k a [] (le_bytes 2 f) rest Hm).
  - apply le_bytes_is_byte.
  - by rewrite length_le_bytes, length_stack_object.
Qed.

(** The stores of one address family: the port and one of the two addresses. *)
Definition endpoint_part (m : string) (port addr ev : list Z) : list Z :=
  stb network_event [m] addr (stb network_event ["remote_port"] port ev).

(** The record of a connect, as a function of the part the family selects. *)
Definition connect_record k (family : Z) (addr_part : list Z -> list Z) (stale : list Z) : list Z :=
  let ev := st network_event ["pid"] (task_pid k) stale in
  let ev := st network_event ["uid"] (task_uid k) ev in
  let ev := st network_event ["gid"] (task_gid k) ev in
  let ev := stb network_event ["comm"] (bpf_get_current_comm k (fsize network_event ["comm"])) ev in
  let ev := st network_event ["family"] family ev in
  let ev := addr_part ev in
  let ev := st network_event ["timestamp"] (bpf_ktime_get_ns k) ev in
  st network_event ["cgroup_id"] (bpf_get_current_cgroup_id k) ev.

Lemma fill_connect_v4 ctx k stale port addr rest :
  length port = 2%nat -> length addr = 4%nat -> Forall is_byte port -> Forall is_byte addr ->
  bytes_at (usr_byte (kernel_env k) (ctx_arg ctx 1)) (le_bytes 2 2 ++ port ++ addr ++ rest) ->
  obj network_event stale ->
  mon_fill MonConnect ctx k stale =
  connect_record k 2 (endpoint_part "remote_addr_v4" port addr) stale.
Proof.
  intros Hp Ha Hbp Hba Hm Ho. unfold mon_fill, fill_network_event. cbv zeta.
  rewrite (connect_family k _ 2 (port ++ addr ++ rest)) by (done || (unfold is_u; lia)).
  rewrite land_mask32. fold (task_pid k) (task_uid k) (task_gid k).
  change (2 =? AF_INET) with true. cbv iota. unfold connect_record.
  assert (M1 : bytes_at (usr_byte (kernel_env k) (ctx_arg ctx 1 + Z.of_nat (foff sockaddr_in ["sin_port"]))) port)
    by apply (usr_bytes_app k _ (le_bytes 2 2) port (addr ++ rest) Hm).
  assert (M2 : bytes_at (usr_byte (kernel_env k) (ctx_arg ctx 1 + Z.of_nat (foff sockaddr_in ["sin_addr"]))) addr).
  { rewrite app_assoc in Hm. pose proof (usr_bytes_app k _ _ _ _ Hm) as Hm2.
    rewrite length_app, length_le_bytes, Hp in Hm2. exact Hm2. }
  rewrite (read_user_into_bytes k "remote_port" _ port) by (done || lay).
  rewrite (read_user_into_bytes k "remote_addr_v4" _ addr); [done|done| |done|done|done].
  apply obj_stb; [done|by rewrite Hp|lay].
Qed.

Lemma fill_connect_v6 ctx k stale port flow addr rest :
  length port = 2%nat -> length flow = 4%nat -> length addr = 16%nat ->
  Forall is_byte port -> Forall is_byte addr ->
  bytes_at (usr_byte (kernel_env k) (ctx_arg ctx 1)) (le_bytes 2 10 ++ port ++ flow ++ addr ++ rest) ->
  obj network_event stale ->
  mon_fill MonConnect ctx k stale =
  connect_record k 10 (endpoint_part "remote_addr_v6" port addr) stale.
Proof.
  intros Hp Hfl Ha Hbp Hba Hm Ho. unfold mon_fill, fill_network_event. cbv zeta.
  rewrite (connect_family k _ 10 (port ++ flow ++ addr ++ rest)) by (done || (unfold is_u; lia)).
  rewrite land_mask32. fold (task_pid k) (task_uid k) (task_gid k).
  change (10 =? AF_INET) with false. change (10 =? AF_INET6) with true. cbv iota.
  unfold connect_record.
  assert (M1 : bytes_at (usr_byte (kernel_env k) (ctx_arg ctx 1 + Z.of_nat (foff sockaddr_in6 ["sin6_port"]))) port)
    by apply (usr_bytes_app k _ (le_bytes 2 10) port (flow ++ addr ++ rest) Hm).
  assert (M2 : bytes_at (usr_byte (kernel_env k) (ctx_arg ctx 1 + Z.of_nat (foff sockaddr_in6 ["sin6_addr"]))) addr).
  { replace (le_bytes 2 10 ++ port ++ flow ++ addr ++ rest)
      with ((le_bytes 2 10 ++ port ++ flow) ++ addr ++ rest) in Hm by (by rewrite <- !app_assoc).
    pose proof (usr_bytes_app k _ _ _ _ Hm) as Hm2.
    rewrite !length_app, length_le_bytes, Hp, Hfl in Hm2. exact Hm2. }
  rewrite (read_user_into_bytes k "remote_port" _ port) by (done || lay).
  rewrite (read_user_into_bytes k "remote_addr_v6" _ addr); [done|done| |done|done|done].
  apply obj_stb; [done|by rewrite Hp|lay].
Qed.

(** The members such stores leave alone, and the ones they set. *)
Lemma endpoint_part_frame m port addr ev :
  m ∈ ["remote_addr_v4"; "remote_addr_v6"] ->
  length port = 2%nat -> length addr = fsize network_event [m] -> obj network_event ev ->
  obj network_event (endpoint_part m port addr ev) /\
  (forall m', m' ∈ ["pid"; "uid"; "gid"; "comm"; "family"] ->
     ldb network_event [m'] (endpoint_part m port addr ev) = ldb network_event [m'] ev) /\
  ldb network_event ["remote_port"] (endpoint_part m port addr ev) = port /\
  ldb network_event [m] (endpoint_part m port addr ev) = addr.
Proof.
  intros Hm Hp Ha Ho.
  assert (Hp' : length port = fsize network_event ["remote_port"]) by done.
  unfold endpoint_part. rewrite !elem_of_cons, elem_of_nil in Hm.
  split_and!.
  - destruct Hm as [->|[->|[]]]; lay.
  - intros m' Hm'. rewrite !elem_of_cons, elem_of_nil in Hm'.
    destruct Hm as [->|[->|[]]]; destruct Hm' as [->|[->|[->|[->|[->|[]]]]]];
      by rewrite !ldb_stb_ne by lay.
  - destruct Hm as [->|[->|[]]]; by repeat field_step.
  - destruct Hm as [->|[->|[]]]; by repeat field_step.
Qed.

(** All members of a connect record. *)
Lemma connect_record_fields k family m port addr stale :
  m ∈ ["remote_addr_v4"; "remote_addr_v6"] ->
  length port = 2%nat -> length addr = fsize network_event [m] ->
  is_u 16 family -> obj network_event stale ->
  let rec := connect_record k family (endpoint_part m port addr) stale in
  obj network_event rec /\
  ld network_event ["pid"] rec = task_pid k /\
  ld network_event ["uid"] rec = task_uid k /\
  ld network_event ["gid"] rec = task_gid k /\
  ldb network_event ["comm"] rec = bpf_get_current_comm k 16 /\
  ld network_event ["family"] rec = family /\
  ld network_event ["timestamp"] rec = bpf_ktime_get_ns k /\
  ld network_event ["cgroup_id"] rec = bpf_get_current_cgroup_id k /\
  ldb network_event ["remote_port"] rec = port /\
  ldb network_event [m] rec = addr.
Proof.
  intros Hm Hp Ha Hf Ho rec. destruct (task_ranges k) as (H1 & H2 & H3 & H4 & H5).
  unfold rec, connect_record. cbv zeta. set (ev := st network_event ["family"] family _).
  assert (Hev : obj network_event ev) by (subst ev; lay).
  destruct (endpoint_part_frame m port addr ev Hm Hp Ha Hev) as (Hpo & Hpl & Hpp & Hpa).
  assert (Hl : forall m', m' ∈ ["pid"; "uid"; "gid"; "comm"; "family"] ->
    ld network_event [m'] (endpoint_part m port addr ev) = ld network_event [m'] ev).
  { intros. unfold ld. by rewrite Hpl. }
  rewrite !elem_of_cons, elem_of_nil in Hm.
  split_and!; [lay|..].
  1-3: rewrite !ld_st_ne by lay; rewrite Hl by listed; subst ev; stored.
  - rewrite !ldb_st_ne by lay. rewrite Hpl by listed. subst ev. by repeat field_step.
  - rewrite !ld_st_ne by lay. rewrite Hl by listed. subst ev. stored.
  - stored.
  - stored.
  - by rewrite !ldb_st_ne by lay.
  - destruct Hm as [->|[->|[]]]; by rewrite !ldb_st_ne by lay.
Qed.

(** A reported IPv4 connect is decoded with the right task, family and port, but
    its address octets come out reversed: for an address a.b.c.d in the sockaddr
    the daemon's event says d.c.b.a. *)
Lemma connect_event_ipv4_reversed off ctx k stale p0 p1 a b c d rest :
  dropped ConnectMonitor.cgroup_filter k = false ->
  (ringbuf_reserve network_events (sizeof network_event) k).1 = Some stale ->
  Forall is_byte [p0; p1; a; b; c; d] ->
  bytes_at (usr_byte (kernel_env k) (ctx_arg ctx 1)) (le_bytes 2 2 ++ [p0; p1] ++ [a; b; c; d] ++ rest) ->
  exists rec,
    ring_records (tracepoint__syscalls__sys_enter_connect ctx k).2 network_events =
      ring_records k network_events ++ [rec] /\
    readEvent off EventKindNetwork rec = Some {|
      Kind := EventKindNetwork;
      PID := task_pid k; UID := task_uid k; GID := task_gid k;
      Comm := task_comm k; Filename := []; Flags := 0; Mode := 0;
      RemoteAddr := dotted d c b a;
      RemotePort := 256 * p0 + p1; Family := 2;
      Timestamp := bootTimeToWallClock off (bpf_ktime_get_ns k);
      ECgroupID := bpf_get_current_cgroup_id k |}.
Proof.
  intros Hd Hr Hb Hm. destruct (run_monitor_sent MonConnect ctx k stale Hd Hr) as [Hring Ho].
  eexists; split; [exact Hring|]. cbn [mon_event] in Ho.
  assert (Forall is_byte [p0; p1] /\ Forall is_byte [a; b; c; d]) as [Hbp Hba]
    by (rewrite !Forall_cons in *; tauto).
  rewrite (fill_connect_v4 ctx k stale [p0; p1] [a; b; c; d] rest) by done.
  destruct (connect_record_fields k 2 "remote_addr_v4" [p0; p1] [a; b; c; d] stale)
    as (Ho' & E1 & E2 & E3 & E4 & E5 & E6 & E7 & E8 & E9);
    [listed|done|done|unfold is_u; lia|done|].
  rewrite readEvent_connect by done. unfold shown_addr. rewrite E1, E2, E3, E4, E5, E6, E7.
  change (2 =? 2) with true. cbv iota. unfold ld. rewrite E8, E9.
  rewrite !Forall_cons in Hbp. destruct Hbp as (? & ? & _). rewrite ntohs_bytes by done.
  unfold be_bytes. pose proof (le_bytes_le_val _ Hba) as Ea. cbn [length] in Ea. by rewrite Ea.
Qed.

(** A reported IPv6 connect is decoded to what happened: task, family, the port
    in host order and the sixteen address bytes in order. *)
Lemma connect_event_ipv6_roundtrip off ctx k stale p0 p1 flow addr rest :
  dropped ConnectMonitor.cgroup_filter k = false ->
  (ringbuf_reserve network_events (sizeof network_event) k).1 = Some stale ->
  Forall is_byte [p0; p1] -> Forall is_byte addr -> length flow = 4%nat -> length addr = 16%nat ->
  bytes_at (usr_byte (kernel_env k) (ctx_arg ctx 1)) (le_bytes 2 10 ++ [p0; p1] ++ flow ++ addr ++ rest) ->
  exists rec,
    ring_records (tracepoint__syscalls__sys_enter_connect ctx k).2 network_events =
      ring_records k network_events ++ [rec] /\
    readEvent off EventKindNetwork rec = Some {|
      Kind := EventKindNetwork;
      PID := task_pid k; UID := task_uid k; GID := task_gid k;
      Comm := task_comm k; Filename := []; Flags := 0; Mode := 0;
      RemoteAddr := ip_string addr;
      RemotePort := 256 * p0 + p1; Family := 10;
      Timestamp := bootTimeToWallClock off (bpf_ktime_get_ns k);
      ECgroupID := bpf_get_current_cgroup_id k |}.
Proof.
  intros Hd Hr Hbp Hba Hfl Ha Hm.
  destruct (run_monitor_sent MonConnect ctx k stale Hd Hr) as [Hring Ho].
  eexists; split; [exact Hring|]. cbn [mon_event] in Ho.
  rewrite (fill_connect_v6 ctx k stale [p0; p1] flow addr rest) by done.
  destruct (connect_record_fields k 10 "remote_addr_v6" [p0; p1] addr stale)
    as (Ho' & E1 & E2 & E3 & E4 & E5 & E6 & E7 & E8 & E9);
    [listed|done|by rewrite Ha|unfold is_u; lia|done|].
  rewrite readEvent_connect by done. unfold shown_addr. rewrite E1, E2, E3, E4, E5, E6, E7.
  change (10 =? 2) with false. change (10 =? 10) with true. cbv iota. unfold ld. rewrite E8, E9.
  rewrite !Forall_cons in Hbp. destruct Hbp as (? & ? & _). by rewrite ntohs_bytes by done.
Qed.
End MonitorFacts.

(** ** Witnesses *)

Lemma monitors_only_observe_witness :
  (run_monitor MonExecve (sys_enter_ctx 59 [8192; 0; 0; 0; 0; 0]) (demo 1)).1 = 0.
Proof. apply (monitors_only_observe MonExecve (sys_enter_ctx 59 [8192; 0; 0; 0; 0; 0]) (demo 1)). Defined.

Lemma monitor_filter_installed_witness :
  dropped (mon_filter MonOpenat) (SetCgroupFilter (fun _ => []) [9; 10] (demo 1)).2 = true.
Proof.
  rewrite (monitor_filter_installed (fun _ => []) [9; 10] MonOpenat (demo 1)).
  - vm_compute. reflexivity.
  - intros c key v Hk. apply demo_keys_complete in Hk. destruct c; exact Hk.
  - vm_compute. reflexivity.
  - repeat constructor; discriminate.
Defined.

(** The demo task's system calls. *)
Definition demo_execve : list Z := sys_enter_ctx 59 [8192; 0; 0; 0; 0; 0].
Definition demo_openat : list Z := sys_enter_ctx 257 [2 ^ 64 - 100; 24576; 577; 438; 0; 0].
Definition demo_connect : list Z := sys_enter_ctx 42 [3; demo_sockaddr; 16; 0; 0; 0].
Definition demo_connect6 : list Z := sys_enter_ctx 42 [3; demo_sockaddr6; 28; 0; 0; 0].

Lemma execve_event_roundtrip_witness :
  exists rec, ring_records (tracepoint__syscalls__sys_enter_execve demo_execve (demo 1)).2 events = [rec] /\
    (fun e => (PID e, UID e, GID e, Comm e, Filename e)) <$> readEvent 0 EventKindProcess rec =
      Some (1000, 44, 33, bstr "sh", bstr "/usr/bin/nc").
Proof.
  destruct (execve_event_roundtrip 0 demo_execve (demo 1) (replicate 304 stale_byte) demo_path)
    as (rec & Hring & Hread).
  - vm_compute. reflexivity.
  - vm_compute. reflexivity.
  - apply reads_cstring. vm_compute. reflexivity.
  - exists rec. split; [exact Hring|]. rewrite Hread. vm_compute. reflexivity.
Defined.

Lemma openat_event_roundtrip_witness :
  exists rec, ring_records (tracepoint__syscalls__sys_enter_openat demo_openat (demo 1)).2 file_events = [rec] /\
    (fun e => (Filename e, Flags e, Mode e)) <$> readEvent 0 EventKindFile rec =
      Some (bstr "shadow", 577, 438).
Proof.
  destruct (openat_event_roundtrip 0 demo_openat (demo 1) (replicate 312 stale_byte) demo_name)
    as (rec & Hring & Hread).
  - vm_compute. reflexivity.
  - vm_compute. reflexivity.
  - apply reads_cstring. vm_compute. reflexivity.
  - exists rec. split; [exact Hring|]. rewrite Hread. vm_compute. reflexivity.
Defined.

Lemma connect_event_ipv4_reversed_witness :
  exists rec, ring_records (tracepoint__syscalls__sys_enter_connect demo_connect (demo 1)).2 network_events = [rec] /\
    (fun e => (RemoteAddr e, RemotePort e, Family e)) <$> readEvent 0 EventKindNetwork rec =
      Some (bstr "1.10.254.169", 80, 2).
Proof.
  destruct (connect_event_ipv4_reversed 0 demo_connect (demo 1) (replicate 72 stale_byte)
    0 80 169 254 10 1 []) as (rec & Hring & Hread).
  - vm_compute. reflexivity.
  - vm_compute. reflexivity.
  - repeat constructor; discriminate.
  - apply reads_bytes_at. vm_compute. reflexivity.
  - exists rec. split; [exact Hring|]. rewrite Hread. vm_compute. reflexivity.
Defined.

Lemma connect_event_ipv6_roundtrip_witness :
  exists rec, ring_records (tracepoint__syscalls__sys_enter_connect demo_connect6 (demo 1)).2 network_events = [rec] /\
    (fun e => (RemoteAddr e, RemotePort e, Family e)) <$> readEvent 0 EventKindNetwork rec =
      Some (bstr "2001:db8::1", 53, 10).
Proof.
  destruct (connect_event_ipv6_roundtrip 0 demo_connect6 (demo 1) (replicate 72 stale_byte)
    0 53 [0; 0; 0; 0] demo_addr6 []) as (rec & Hring & Hread).
  - vm_compute. reflexivity.
  - vm_compute. reflexivity.
  - repeat constructor; discriminate.
  - repeat constructor; discriminate.
  - reflexivity.
  - reflexivity.
  - apply reads_bytes_at. vm_compute. reflexivity.
  - exists rec. split; [exact Hring|]. rewrite Hread. vm_compute. reflexivity.
Defined.
