(* ===== verification/LsmEvents.v ===== *)
(** The events of the LSM programs, from the hook to the daemon.

    [emit_lsm_event] fills a [warmor_event] record and lsm_loader.go decodes it.
    The theorems give the decoded [Event] of an exec decision and of an endpoint
    decision in terms of the task, the path and the socket address the hook saw. *)

From S2P Require Import Prelude CTypes Bpf SimKernel VmlinuxTypes WarmorLsm LsmPolicy Fnv.
From S2P Require Import Demo LsmHooks GoEvents Monitors EndToEnd.

Section LsmEvents.
Context {K : Type} `{BpfKernelOk K}.
Implicit Types (k : K).

(** ** The record *)

(** What the filename member holds, as a C string. *)
Definition shown_name (f : kptr) (flen : Z) (s : list Z) : list Z :=
  if negb (is_null f) && (0 <? flen) then s else [].

Definition lsm_addr6 (a6 : option (list Z)) : list Z := default (replicate 16 0) a6.

(** The record before the two members that depend on a branch. *)
Definition lsm_record_base (et d c p a4 : Z) k (ev : list Z) : list Z :=
  let ev := st warmor_event ["pid"] (task_pid k) ev in
  let ev := st warmor_event ["uid"] (task_uid k) ev in
  let ev := st warmor_event ["gid"] (task_gid k) ev in
  let ev := st warmor_event ["timestamp"] (bpf_ktime_get_ns k) ev in
  let ev := st warmor_event ["cgroup_id"] c ev in
  let ev := st warmor_event ["event_type"] et ev in
  let ev := st warmor_event ["decision"] d ev in
  let ev := st warmor_event ["remote_port"] p ev in
  let ev := st warmor_event ["remote_addr_v4"] a4 ev in
  stb warmor_event ["comm"] (bpf_get_current_comm k (fsize warmor_event ["comm"])) ev.

Lemma lsm_record_base_fields et d c p a4 k stale :
  obj warmor_event stale ->
  is_u 8 et -> is_u 8 d -> is_u 64 c -> is_u 16 p -> is_u 32 a4 ->
  let ev := lsm_record_base et d c p a4 k stale in
  obj warmor_event ev /\
  ld warmor_event ["pid"] ev = task_pid k /\
  ld warmor_event ["uid"] ev = task_uid k /\
  ld warmor_event ["gid"] ev = task_gid k /\
  ldb warmor_event ["comm"] ev = bpf_get_current_comm k 16 /\
  ld warmor_event ["timestamp"] ev = bpf_ktime_get_ns k /\
  ld warmor_event ["cgroup_id"] ev = c /\
  ld warmor_event ["event_type"] ev = et /\
  ld warmor_event ["decision"] ev = d /\
  ld warmor_event ["remote_port"] ev = p /\
  ld warmor_event ["remote_addr_v4"] ev = a4.
Proof.
  intros Ho He Hd Hc Hp Ha ev. destruct (task_ranges k) as (H1 & H2 & H3 & H4 & H5).
  unfold ev, lsm_record_base. cbv zeta.
  split_and!; [lay|stored|stored|stored|by repeat field_step|stored|stored|stored|stored|stored|stored].
Qed.

(** The filename and the IPv6 address are written last. *)
Definition lsm_record_end (name a6 ev : list Z) : list Z :=
  stb warmor_event ["remote_addr_v6"] a6 (stb warmor_event ["filename"] name ev).

Lemma fill_lsm_event_split et d f fl c p a4 a6 k stale :
  (forall a, a6 = Some a -> length a = 16%nat) ->
  let base := lsm_record_base et d c p a4 k stale in
  fill_lsm_event et d f fl c p a4 a6 k stale =
  lsm_record_end
    (if negb (is_null f) && (0 <? fl)
     then (bpf_probe_read_kernel_str k f (ldb warmor_event ["filename"] base)).2 else [0])
    (lsm_addr6 a6) base.
Proof.
  intros Ha base. unfold fill_lsm_event. cbv zeta. fold (task_pid k) (task_uid k) (task_gid k).
  fold (lsm_record_base et d c p a4 k stale). fold base. unfold lsm_record_end, lsm_addr6.
  destruct a6 as [a|]; simpl; [rewrite take_ge by (rewrite (Ha a); done)|]; by case_match.
Qed.

Lemma lsm_record_end_fields name a6 ev :
  (0 < length name <= fsize warmor_event ["filename"])%nat -> length a6 = 16%nat ->
  obj warmor_event ev ->
  let rec := lsm_record_end name a6 ev in
  obj warmor_event rec /\
  (forall m, m ∈ ["pid"; "uid"; "gid"; "timestamp"; "cgroup_id"; "event_type"; "decision";
                  "remote_port"; "remote_addr_v4"] -> ld warmor_event [m] rec = ld warmor_event [m] ev) /\
  ldb warmor_event ["comm"] rec = ldb warmor_event ["comm"] ev /\
  ldb warmor_event ["remote_addr_v6"] rec = a6 /\
  take (length name) (ldb warmor_event ["filename"] rec) = name.
Proof.
  intros [Hn0 Hn] Ha Ho rec. unfold rec, lsm_record_end.
  assert (Ha' : length a6 = fsize warmor_event ["remote_addr_v6"]) by done.
  assert (Ho' : obj warmor_event (stb warmor_event ["filename"] name ev)) by (by apply obj_stb).
  split_and!; [lay| | | |].
  - intros m. rewrite !elem_of_cons, elem_of_nil.
    intros [->|[->|[->|[->|[->|[->|[->|[->|[->|[]]]]]]]]]]; by rewrite !ld_stb_ne by (lay || done).
  - by rewrite !ldb_stb_ne by (lay || done).
  - by apply ldb_stb_eq.
  - rewrite ldb_stb_ne by (lay || done). unfold ldb, stb, slice. rewrite take_take, Nat.min_l by done.
    apply slice_splice_same. unfold obj in Ho. rewrite Ho.
    pose proof (foff_fsize_fits warmor_event ["filename"] eq_refl). lia.
Qed.

(** ** Decoding *)

(** The switch of [ToEvent] on the members of the C record. *)
Definition lsm_class (et port v4 : Z) (v6 : list Z) : EventKind * Z * list Z * Z :=
  if et =? EVENT_TYPE_EXEC then (EventKindProcess, 0, [], 0)
  else if et =? EVENT_TYPE_FILE then (EventKindFile, 0, [], 0)
  else if (et =? EVENT_TYPE_NETWORK) || (et =? EVENT_TYPE_BIND) then
    if negb (v4 =? 0) then (EventKindNetwork, port, intToIPv4 v4, 2)
    else (EventKindNetwork, port, ip_string v6, 10)
  else if et =? EVENT_TYPE_LISTEN then (EventKindNetwork, port, [], 0)
  else if et =? EVENT_TYPE_PTRACE then (EventKindProcess, 0, [], 0)
  else if et =? EVENT_TYPE_MOUNT then (EventKindFile, 0, [], 0)
  else (EventKindProcess, 0, [], 0).

Lemma ReadLSMEvent_fields off rec :
  obj warmor_event rec ->
  ReadLSMEvent off rec =
  Some (let '(kind, port, addr, family) :=
          lsm_class (ld warmor_event ["event_type"] rec) (ld warmor_event ["remote_port"] rec)
            (ld warmor_event ["remote_addr_v4"] rec) (ldb warmor_event ["remote_addr_v6"] rec) in {|
    Kind := kind;
    PID := ld warmor_event ["pid"] rec;
    UID := ld warmor_event ["uid"] rec;
    GID := ld warmor_event ["gid"] rec;
    Comm := cstr (ldb warmor_event ["comm"] rec);
    Filename := cstr (ldb warmor_event ["filename"] rec);
    Flags := 0; Mode := 0; RemoteAddr := addr; RemotePort := port; Family := family;
    Timestamp := bootTimeToWallClock off (ld warmor_event ["timestamp"] rec);
    ECgroupID := ld warmor_event ["cgroup_id"] rec |}).
Proof. intros Ho. unfold ReadLSMEvent. rewrite binary_Read_whole by exact Ho. reflexivity. Qed.

(** The event userspace sees for a record [emit_lsm_event] filled, whose filename
    member is the C string [s]. *)
Definition lsm_event_of (off et c p a4 : Z) (a6 s : list Z) k : Event :=
  let '(kind, port, addr, family) := lsm_class et p a4 a6 in {|
    Kind := kind;
    PID := task_pid k; UID := task_uid k; GID := task_gid k;
    Comm := task_comm k; Filename := s;
    Flags := 0; Mode := 0; RemoteAddr := addr; RemotePort := port; Family := family;
    Timestamp := bootTimeToWallClock off (bpf_ktime_get_ns k);
    ECgroupID := c |}.

(** A C string that starts a member is what the member shows. *)
Lemma cstr_take_nul n bs s :
  Forall (fun b => b <> 0) s -> take n bs = s ++ [0] -> cstr bs = s.
Proof.
  intros Hs Ht. rewrite <- (take_drop n bs), Ht, <- app_assoc. by apply cstr_nul.
Qed.

Lemma fill_lsm_event_decoded off et d f fl c p a4 a6 k stale s :
  obj warmor_event stale ->
  is_u 8 et -> is_u 8 d -> is_u 64 c -> is_u 16 p -> is_u 32 a4 ->
  (forall a, a6 = Some a -> length a = 16%nat) ->
  (if negb (is_null f) && (0 <? fl) then cstring_at (src_byte (kernel_env k) f) s else s = []) ->
  (length s < 256)%nat ->
  let rec := fill_lsm_event et d f fl c p a4 a6 k stale in
  ld warmor_event ["decision"] rec = d /\
  ReadLSMEvent off rec = Some (lsm_event_of off et c p a4 (lsm_addr6 a6) s k).
Proof.
  intros Ho He Hd Hc Hp Ha Ha6 Hs Hls rec. unfold rec. rewrite fill_lsm_event_split by done.
  destruct (lsm_record_base_fields et d c p a4 k stale) as (Hb & E1 & E2 & E3 & E4 & E5 & E6 & E7 & E8 & E9 & E10);
    auto. set (base := lsm_record_base et d c p a4 k stale) in *.
  match goal with |- context [lsm_record_end ?n _ _] => set (name := n) end.
  assert (Forall (fun b => b <> 0) s /\ exists tl, name = s ++ 0 :: tl) as (Hz & tl & Hname).
  { subst name. case_match; [|subst s; split; [constructor|by exists []]].
    split; [by destruct Hs|].
    destruct (probe_read_kernel_str_cstring k f (ldb warmor_event ["filename"] base) s Hs) as [tl ->].
    { intros E. pose proof (length_ldb warmor_event ["filename"] base eq_refl Hb) as Hl.
      rewrite E in Hl. discriminate Hl. }
    exists tl. rewrite (length_ldb warmor_event) by (done || lay).
    change (fsize warmor_event ["filename"]) with 256%nat. cbn [snd].
    by rewrite take_ge by lia. }
  assert (Hlen : (0 < length name <= fsize warmor_event ["filename"])%nat).
  { split; [rewrite Hname, length_app; simpl; lia|]. subst name. case_match; [|vm_compute; lia].
    by rewrite fills_kernel_str by (done || lay). }
  assert (Hl6 : length (lsm_addr6 a6) = 16%nat) by (destruct a6; [by apply Ha6|done]).
  destruct (lsm_record_end_fields name (lsm_addr6 a6) base Hlen Hl6 Hb) as (Hr & Hm & Hco & H6 & Hf).
  split; [rewrite Hm by listed; exact E8|].
  rewrite ReadLSMEvent_fields by done. rewrite !Hm by listed. rewrite Hco, H6.
  rewrite E1, E2, E3, E4, E5, E6, E7, E9, E10.
  assert (Hcs : cstr (ldb warmor_event ["filename"] (lsm_record_end name (lsm_addr6 a6) base)) = s).
  { rewrite <- (take_drop (length name) (ldb _ _ _)), Hf, Hname, <- app_assoc. by apply cstr_nul. }
  rewrite Hcs. unfold lsm_event_of, task_comm. reflexivity.
Qed.

(** The four octets of an address word. *)
Lemma intToIPv4_octets a b x y :
  Forall is_byte [a; b; x; y] -> intToIPv4 (le_val [a; b; x; y]) = dotted a b x y.
Proof.
  intros Hb. pose proof (le_bytes_le_val _ Hb) as E. cbn [length] in E.
  unfold intToIPv4. set (z := le_val [a; b; x; y]) in *.
  rewrite !byte_of_shift, byte_of_land by lia.
  change (2 ^ 8) with 256. change (2 ^ 16) with (256 * 256). change (2 ^ 24) with (256 * 256 * 256).
  rewrite <- !Z.div_div by lia. cbn [le_bytes] in E. injection E as -> -> -> ->. done.
Qed.

Lemma endpoint_class off et c p0 p1 a b x y k :
  et = EVENT_TYPE_NETWORK \/ et = EVENT_TYPE_BIND -> Forall is_byte [a; b; x; y] ->
  let ev := lsm_event_of off et c (le_val [p0; p1]) (le_val [a; b; x; y]) (replicate 16 0) [] k in
  RemotePort ev = p0 + 256 * p1 /\
  (RemoteAddr ev, Family ev) =
    if bool_decide ([a; b; x; y] = [0; 0; 0; 0]) then (bstr "::", 10) else (dotted a b x y, 2).
Proof.
  intros Het Hb ev. unfold ev, lsm_event_of, lsm_class.
  assert ((et =? EVENT_TYPE_EXEC) = false /\ (et =? EVENT_TYPE_FILE) = false /\
          (et =? EVENT_TYPE_NETWORK) || (et =? EVENT_TYPE_BIND) = true) as (-> & -> & ->)
    by (destruct Het as [-> | ->]; done).
  rewrite intToIPv4_octets by done.
  rewrite !Forall_cons in Hb. unfold is_byte in Hb. destruct Hb as (? & ? & ? & ? & _).
  destruct (Z.eqb_spec (le_val [a; b; x; y]) 0) as [Hz|Hz]; cbn [negb RemotePort RemoteAddr Family].
  - cbn [le_val] in Hz. assert (a = 0 /\ b = 0 /\ x = 0 /\ y = 0) as (-> & -> & -> & ->) by lia.
    split; [cbn [le_val]; lia|]. done.
  - split; [cbn [le_val]; lia|]. rewrite bool_decide_eq_false_2; [done|].
    intros E. by simplify_eq.
Qed.

(** The record of a decided call. *)
Lemma run_hook_reports c k s stale d :
  policy_wf k -> prior c = 0 -> filtered_out k = false -> hook_subject c k = Some s ->
  room k = Some stale -> spec_event (judge (deciding_rule c k)) = Some d ->
  ring_records (run_hook c k).2 lsm_events =
    ring_records k lsm_events ++
    [fill_lsm_event (hook_type c) d (su_file s) (su_flen s) (bpf_get_current_cgroup_id k)
       (su_port s) (su_v4 s) (su_v6 s) k stale].
Proof.
  intros Hwf Hp Hf Hs Hr. pose proof (run_hook_spec c k Hwf) as Hspec.
  unfold hook_spec, deciding_rule in *. rewrite Hp, Hf, Hs in *. cbn [negb Z.eqb] in Hspec.
  destruct Hspec as [_ _ Hring _ _ _ _]. intros Hd. rewrite Hd in Hring. simpl in Hring.
  unfold emitted in Hring. by rewrite Hr in Hring.
Qed.

Lemma spec_event_range v d : spec_event v = Some d -> is_u 8 d.
Proof. destruct v as [|[]|]; intros; simplify_eq/=; unfold is_u; lia. Qed.

Lemma room_obj k stale : room k = Some stale -> obj warmor_event stale.
Proof. unfold room. by intros [? _]%reserve_len. Qed.

(** The stack buffer a hook copied a name into, as the source of the event's name. *)
Lemma stack_cstring k buf s :
  cstr buf = s -> (length s < length buf)%nat -> Forall is_byte s ->
  cstring_at (src_byte (kernel_env k) (KStack buf)) s.
Proof.
  intros Hc Hl Hb. destruct (cstr_split buf) as [tl Htl]; [by rewrite Hc|]. rewrite Hc in Htl.
  split_and!; [rewrite <- Hc; apply cstr_nonzero|done|].
  intros i b Hi. cbn [src_byte]. rewrite Htl.
  replace (s ++ 0 :: tl) with ((s ++ [0]) ++ tl) by (by rewrite <- app_assoc).
  by apply lookup_app_l_Some.
Qed.

(** C16: the event of a decided exec is decoded to what happened: when the exec hook
    judges a path and the ring buffer has room, it appends one record whose
    decision byte is that of the verdict and which the daemon decodes to the task,
    the first 63 bytes of the path, the cgroup and the time. *)
Theorem exec_event_roundtrip off bprm s k stale d :
  policy_wf k -> filtered_out k = false -> exec_path_at k bprm s -> room k = Some stale ->
  spec_event (judge (deciding_rule (CallExec bprm 0) k)) = Some d ->
  exists rec,
    ring_records (run_hook (CallExec bprm 0) k).2 lsm_events = ring_records k lsm_events ++ [rec] /\
    ld warmor_event ["decision"] rec = d /\
    ReadLSMEvent off rec = Some {|
      Kind := EventKindProcess;
      PID := task_pid k; UID := task_uid k; GID := task_gid k;
      Comm := task_comm k; Filename := take 63 s;
      Flags := 0; Mode := 0; RemoteAddr := []; RemotePort := 0; Family := 0;
      Timestamp := bootTimeToWallClock off (bpf_ktime_get_ns k);
      ECgroupID := bpf_get_current_cgroup_id k |}.
Proof.
  intros Hwf Hf (fp & Hfp & Hm & Hs) Hr Hd. pose proof Hs as (_ & Hsb & _).
  destruct (name_subject_cstring k fp s Hs) as (buf & len & Hn & Hl & Hc & Hlb).
  assert (Hsub : hook_subject (CallExec bprm 0) k =
    Some (Subject (fnv1a (sext8 <$> take 16 s)) (KStack buf) len 0 0 None)).
  { cbn [hook_subject]. by rewrite (core_read_value k _ _ _ fp). }
  eexists. split; [by eapply run_hook_reports|]. cbn [su_file su_flen su_port su_v4 su_v6].
  destruct (task_ranges k) as (_ & _ & _ & Hcg & _). pose proof (room_obj k stale Hr) as Hobj.
  apply (fill_lsm_event_decoded off EVENT_TYPE_EXEC d (KStack buf) len
    (bpf_get_current_cgroup_id k) 0 0 None k stale (take 63 s));
    try (unfold is_u, EVENT_TYPE_EXEC; lia); auto; try done.
  - by eapply spec_event_range.
  - cbn [is_null negb andb]. destruct (Z.ltb_spec 0 len); [|lia].
    apply stack_cstring; [done|rewrite length_take; lia|by apply Forall_take].
  - rewrite length_take. lia.
Qed.

(** The event of a decided IPv4 connect or bind shows the address in the right
    order, but the port with its bytes swapped (port 80 is reported as 20480), and
    the address 0.0.0.0 as the IPv6 address of family 10. *)
Lemma endpoint_event_port_swapped off (c : hook_call) address p0 p1 a b x y k stale d :
  (exists sock len, c = CallConnect sock address len \/ c = CallBind sock address len) ->
  policy_wf k -> filtered_out k = false -> room k = Some stale ->
  Forall is_byte [p0; p1; a; b; x; y] ->
  bytes_at (src_byte (kernel_env k) (KAddr address)) (sockaddr_in_bytes [p0; p1] [a; b; x; y]) ->
  spec_event (judge (deciding_rule c k)) = Some d ->
  exists rec ev,
    ring_records (run_hook c k).2 lsm_events = ring_records k lsm_events ++ [rec] /\
    ld warmor_event ["decision"] rec = d /\
    ReadLSMEvent off rec = Some ev /\
    RemotePort ev = p0 + 256 * p1 /\
    (RemoteAddr ev, Family ev) =
      if bool_decide ([a; b; x; y] = [0; 0; 0; 0]) then (bstr "::", 10) else (dotted a b x y, 2).
Proof.
  intros (sock & len & Hcall) Hwf Hf Hr Hb Hm Hd.
  assert (Hba : Forall is_byte [a; b; x; y]) by (rewrite !Forall_cons in *; tauto).
  assert (Hbp : Forall is_byte [p0; p1]) by (rewrite !Forall_cons in *; tauto).
  assert (hook_subject c k = Some (Subject (fnv1a ([a; b; x; y] ++ [p0; p1])) NULL 0
      (le_val [p0; p1]) (le_val [a; b; x; y]) (Some (replicate 16 0))) /\ prior c = 0 /\
      (hook_type c = EVENT_TYPE_NETWORK \/ hook_type c = EVENT_TYPE_BIND)) as (Hsub & Hp & Het).
  { pose proof (endpoint_ipv4 k address [p0; p1] [a; b; x; y] eq_refl eq_refl
      ltac:(rewrite !Forall_app, !Forall_cons in *; tauto) Hm) as Hep.
    destruct Hcall as [->| ->]; auto. }
  destruct (task_ranges k) as (_ & _ & _ & Hcg & _). pose proof (room_obj k stale Hr) as Hobj.
  assert (is_u 8 (hook_type c)) as Ht8.
  { destruct Het as [-> | ->]; unfold is_u, EVENT_TYPE_NETWORK, EVENT_TYPE_BIND; lia. }
  pose proof (spec_event_range _ _ Hd) as Hd8.
  assert (is_u 16 (le_val [p0; p1])) as Hp16 by exact (le_val_range _ Hbp).
  assert (is_u 32 (le_val [a; b; x; y])) as Ha32 by exact (le_val_range _ Hba).
  assert (forall v, Some (replicate 16 0) = Some v -> length v = 16%nat) as H6
    by (intros v [= <-]; reflexivity).
  destruct (fill_lsm_event_decoded off (hook_type c) d NULL 0 (bpf_get_current_cgroup_id k)
    (le_val [p0; p1]) (le_val [a; b; x; y]) (Some (replicate 16 0)) k stale []
    Hobj Ht8 Hd8 Hcg Hp16 Ha32 H6 eq_refl) as [Hdec Hev]; [vm_compute; lia|].
  eexists _, _. split; [by eapply run_hook_reports|]. split; [exact Hdec|].
  split; [exact Hev|]. apply endpoint_class; auto.
Qed.
End LsmEvents.

(** ** Witnesses *)

Lemma exec_event_roundtrip_witness :
  exists rec, ring_records (run_hook (CallExec demo_bprm 0) (demo 0)).2 lsm_events = [rec] /\
    ld warmor_event ["decision"] rec = 1 /\
    (fun e => (PID e, UID e, GID e, Comm e, Filename e, ECgroupID e)) <$> ReadLSMEvent 0 rec =
      Some (1000, 44, 33, bstr "sh", bstr "/usr/bin/nc", 7).
Proof.
  destruct (exec_event_roundtrip 0 demo_bprm demo_path (demo 0) (replicate 328 stale_byte) 1)
    as (rec & Hring & Hdec & Hread).
  - apply demo_wf.
  - vm_compute. reflexivity.
  - exact demo_exec_path.
  - vm_compute. reflexivity.
  - vm_compute. reflexivity.
  - exists rec. split; [exact Hring|]. split; [exact Hdec|]. rewrite Hread. vm_compute. reflexivity.
Defined.

Lemma endpoint_event_port_swapped_witness :
  exists rec ev, ring_records (run_hook (CallConnect 0 demo_sockaddr 16) (demo 1)).2 lsm_events = [rec] /\
    ReadLSMEvent 0 rec = Some ev /\ RemotePort ev = 20480 /\ RemoteAddr ev = bstr "169.254.10.1".
Proof.
  destruct (endpoint_event_port_swapped 0 (CallConnect 0 demo_sockaddr 16) demo_sockaddr
    0 80 169 254 10 1 (demo 1) (replicate 328 stale_byte) 1)
    as (rec & ev & Hring & _ & Hread & Hport & Haddr).
  - exists 0, 16. left. reflexivity.
  - apply demo_wf.
  - vm_compute. reflexivity.
  - vm_compute. reflexivity.
  - repeat constructor; discriminate.
  - apply reads_bytes_at. vm_compute. reflexivity.
  - vm_compute. reflexivity.
  - exists rec, ev. split; [exact Hring|]. split; [exact Hread|]. split; [exact Hport|].
    injection Haddr as Ha _. rewrite Ha. vm_compute. reflexivity.
Defined.
