(* ===== verification/WinCommon.v ===== *)
(** internal/platform/etw/programs/warmor_common.h: the event structs, maps and
    inline helpers of the eBPF-for-Windows programs.  The helpers are those of
    the kernel interface of [Bpf.v]. *)

From S2P Require Import Prelude CTypes Bpf.

(** ** Constants *)

Definition BPF_MAP_TYPE_HASH : Z := 1.
Definition BPF_MAP_TYPE_RINGBUF : Z := 27.

Definition BPF_FUNC_map_lookup_elem : Z := 1.
Definition BPF_FUNC_map_update_elem : Z := 2.
Definition BPF_FUNC_map_delete_elem : Z := 3.
Definition BPF_FUNC_ktime_get_ns : Z := 5.
Definition BPF_FUNC_get_current_pid_tgid : Z := 14.
Definition BPF_FUNC_get_current_comm : Z := 16.
Definition BPF_FUNC_ringbuf_reserve : Z := 131.
Definition BPF_FUNC_ringbuf_submit : Z := 132.
Definition BPF_FUNC_ringbuf_discard : Z := 133.

(** The helper each stub variable is initialised to. *)
Definition helper_stubs : list (string * Z) := [
  ("bpf_map_lookup_elem", BPF_FUNC_map_lookup_elem);
  ("bpf_map_update_elem", BPF_FUNC_map_update_elem);
  ("bpf_ktime_get_ns", BPF_FUNC_ktime_get_ns);
  ("bpf_get_current_pid_tgid", BPF_FUNC_get_current_pid_tgid);
  ("bpf_get_current_comm", BPF_FUNC_get_current_comm);
  ("bpf_ringbuf_reserve", BPF_FUNC_ringbuf_reserve);
  ("bpf_ringbuf_submit", BPF_FUNC_ringbuf_submit);
  ("bpf_ringbuf_discard", BPF_FUNC_ringbuf_discard)].

Definition EVENT_PROCESS : Z := 1.
Definition EVENT_FILE : Z := 2.
Definition EVENT_NETWORK : Z := 3.

Definition ACTION_ALLOW : Z := 0.
Definition ACTION_DENY : Z := 1.

(** ** Event structures *)

Definition event_header : ctype := struct_packed [
  mem __u32 "event_type";
  mem __u32 "pid";
  mem __u32 "tid";
  mem __u64 "timestamp"].

Definition process_event : ctype := struct_packed [
  mem event_header "hdr";
  mem __u32 "parent_pid";
  mem __s32 "exit_code";
  mem (CArr 256 c_char) "image_name";
  mem (CArr 512 c_char) "cmd_line"].

Definition file_event : ctype := struct_packed [
  mem event_header "hdr";
  mem __u32 "operation";
  mem __u32 "flags";
  mem (CArr 512 c_char) "file_path"].

Definition network_event : ctype := struct_packed [
  mem event_header "hdr";
  mem __u32 "protocol";
  mem __u32 "operation";
  mem (CArr 16 __u8) "local_addr";
  mem (CArr 16 __u8) "remote_addr";
  mem __u16 "local_port";
  mem __u16 "remote_port";
  mem __u16 "addr_family";
  mem __u16 "_pad"].

(** The compile-time assertions of the header. *)
Definition static_asserts : bool :=
  (sizeof event_header =? 20) && (sizeof process_event =? 796) &&
  (sizeof file_event =? 540) && (sizeof network_event =? 68).

(** ** Maps *)

Definition events : bpf_map :=
  BpfMap "windows/events" BPF_MAP_TYPE_RINGBUF (256 * 1024) 0 0.
Definition policy_map : bpf_map :=
  BpfMap "windows/policy_map" BPF_MAP_TYPE_HASH 4096 (sizeof __u32) (sizeof __u8).

(** ** Inline helpers *)

Section WinCommon.
Context {K : Type} `{BpfKernel K}.

Definition fill_header (hdr : list Z) (event_type : Z) (k : K) : list Z :=
  let pid_tgid := bpf_get_current_pid_tgid k in
  let hdr := st event_header ["event_type"] event_type hdr in
  let hdr := st event_header ["pid"] (to_u32 (Z.shiftr pid_tgid 32)) hdr in
  let hdr := st event_header ["tid"] (to_u32 pid_tgid) hdr in
  st event_header ["timestamp"] (bpf_ktime_get_ns k) hdr.

Definition check_policy (pid : Z) (k : K) : Z :=
  match bpf_map_lookup_elem k policy_map (le_bytes 4 pid) with
  | Some action => if le_val (vload k action) =? ACTION_DENY then 1 else 0
  | None => 0
  end.
End WinCommon.
