(* ===== verification/WinProcess.v ===== *)
(** internal/platform/etw/programs/process_monitor.c *)

From S2P Require Import Prelude CTypes Bpf WinCommon.

Section WinProcess.
Context {K : Type} `{BpfKernel K}.

(** The stores into the reserved record, in program order. *)
Definition fill_process_event (k : K) (evt : list Z) : list Z :=
  let evt := stb process_event ["hdr"]
               (fill_header (ldb process_event ["hdr"] evt) EVENT_PROCESS k) evt in
  let evt := st process_event ["parent_pid"] 0 evt in
  let evt := st process_event ["exit_code"] 0 evt in
  let evt := stb process_event ["image_name"]
               (bpf_get_current_comm k (fsize process_event ["image_name"])) evt in
  stb process_event ["cmd_line"] (replicate (fsize process_event ["cmd_line"]) 0) evt.

Definition process_monitor (k : K) : Z * K :=
  let pid_tgid := bpf_get_current_pid_tgid k in
  let pid := to_u32 (Z.shiftr pid_tgid 32) in
  if truthy (check_policy pid k) then (0, k) else
  match ringbuf_reserve events (sizeof process_event) k with
  | (None, k) => (1, k)
  | (Some evt, k) => (1, ringbuf_submit events (fill_process_event k evt) k)
  end.
End WinProcess.
