(* ===== verification/WinFile.v ===== *)
(** internal/platform/etw/programs/file_monitor.c *)

From S2P Require Import Prelude CTypes Bpf WinCommon.

Definition FILE_OP_OPEN : Z := 0.
Definition FILE_OP_READ : Z := 1.
Definition FILE_OP_WRITE : Z := 2.
Definition FILE_OP_CREATE : Z := 3.
Definition FILE_OP_DELETE : Z := 4.

Section WinFile.
Context {K : Type} `{BpfKernel K}.

Definition fill_file_event (k : K) (evt : list Z) : list Z :=
  let evt := stb file_event ["hdr"]
               (fill_header (ldb file_event ["hdr"] evt) EVENT_FILE k) evt in
  let evt := st file_event ["operation"] FILE_OP_OPEN evt in
  let evt := st file_event ["flags"] 0 evt in
  stb file_event ["file_path"] (replicate (fsize file_event ["file_path"]) 0) evt.

Definition file_monitor (k : K) : Z * K :=
  let pid_tgid := bpf_get_current_pid_tgid k in
  let pid := to_u32 (Z.shiftr pid_tgid 32) in
  if truthy (check_policy pid k) then (0, k) else
  match ringbuf_reserve events (sizeof file_event) k with
  | (None, k) => (1, k)
  | (Some evt, k) => (1, ringbuf_submit events (fill_file_event k evt) k)
  end.
End WinFile.
