(* ===== verification/WinNetwork.v ===== *)
(** internal/platform/etw/programs/network_monitor.c *)

From S2P Require Import Prelude CTypes Bpf WinCommon.

Definition NET_OP_CONNECT : Z := 0.
Definition NET_OP_ACCEPT : Z := 1.
Definition NET_OP_SEND : Z := 2.
Definition NET_OP_RECV : Z := 3.
Definition NET_OP_CLOSE : Z := 4.

Definition PROTO_TCP : Z := 6.
Definition PROTO_UDP : Z := 17.

Definition AF_INET : Z := 2.
Definition AF_INET6 : Z := 23.

Definition bpf_sock_ops : ctype := struct [
  mem __u32 "op";
  mem __u32 "family";
  mem __u32 "remote_ip4";
  mem __u32 "local_ip4";
  mem (CArr 4 __u32) "remote_ip6";
  mem (CArr 4 __u32) "local_ip6";
  mem __u32 "remote_port";
  mem __u32 "local_port";
  mem __u32 "protocol";
  mem __s32 "reply"].

(** The switch over the sock_ops code. *)
Definition operation_of (op : Z) : Z :=
  if op =? 0 then NET_OP_CONNECT
  else if op =? 1 then NET_OP_ACCEPT
  else if op =? 2 then NET_OP_ACCEPT
  else NET_OP_CONNECT.

Section WinNetwork.
Context {K : Type} `{BpfKernel K}.

Definition fill_network_event (skops : list Z) (k : K) (evt : list Z) : list Z :=
  let evt := stb network_event ["hdr"]
               (fill_header (ldb network_event ["hdr"] evt) EVENT_NETWORK k) evt in
  let evt := st network_event ["protocol"] (ld bpf_sock_ops ["protocol"] skops) evt in
  let evt := st network_event ["operation"] (operation_of (ld bpf_sock_ops ["op"] skops)) evt in
  let evt := st network_event ["addr_family"] (to_u16 (ld bpf_sock_ops ["family"] skops)) evt in
  let evt := st network_event ["_pad"] 0 evt in
  let evt := stb network_event ["local_addr"] (replicate 16 0) evt in
  let evt := stb network_event ["remote_addr"] (replicate 16 0) evt in
  let evt :=
    if ld bpf_sock_ops ["family"] skops =? AF_INET then
      (* a 32-bit store at the start of each address field *)
      let evt := stb network_event ["local_addr"]
                   (le_bytes 4 (ld bpf_sock_ops ["local_ip4"] skops)) evt in
      stb network_event ["remote_addr"] (le_bytes 4 (ld bpf_sock_ops ["remote_ip4"] skops)) evt
    else if ld bpf_sock_ops ["family"] skops =? AF_INET6 then
      let evt := stb network_event ["local_addr"] (ldb bpf_sock_ops ["local_ip6"] skops) evt in
      stb network_event ["remote_addr"] (ldb bpf_sock_ops ["remote_ip6"] skops) evt
    else evt in
  let evt := st network_event ["local_port"] (to_u16 (ld bpf_sock_ops ["local_port"] skops)) evt in
  st network_event ["remote_port"]
     (to_u16 (Z.shiftr (ld bpf_sock_ops ["remote_port"] skops) 16)) evt.

(** The context is writable: a denied operation gets the reply -1. *)
Definition network_monitor (skops : list Z) (k : K) : Z * list Z * K :=
  let pid_tgid := bpf_get_current_pid_tgid k in
  let pid := to_u32 (Z.shiftr pid_tgid 32) in
  if truthy (check_policy pid k) then (0, st bpf_sock_ops ["reply"] (-1) skops, k) else
  match ringbuf_reserve events (sizeof network_event) k with
  | (None, k) => (1, skops, k)
  | (Some evt, k) => (1, skops, ringbuf_submit events (fill_network_event skops k evt) k)
  end.
End WinNetwork.
