(* ===== verification/BpfWindows.v ===== *)
(** bpf-windows: the older monitors for Windows (process_monitor.bpf.c, file_monitor.bpf.c,
    network_monitor.bpf.c), one module per program.  Their event structs are laid out with
    natural alignment, and each file declares its own header and ring buffer. *)

From S2P Require Import Prelude CTypes Bpf.

(** ** process_monitor.bpf.c *)

Module BpfWinProcess.

Definition EVENT_TYPE_PROCESS : Z := 1.

Definition event_header : ctype := struct [
  mem __u32 "event_type";
  mem __u32 "pid";
  mem __u32 "tid";
  mem __u64 "timestamp"].

Definition process_event : ctype := struct [
  mem event_header "hdr";
  mem __u32 "parent_pid";
  mem __s32 "exit_code";
  mem (CArr 256 c_char) "image_name";
  mem (CArr 512 c_char) "cmd_line"].

Definition events : bpf_map :=
  BpfMap "bpf-windows/process/events" BPF_MAP_TYPE_RINGBUF (256 * 1024) 0 0.

Section Program.
Context {K : Type} `{BpfKernel K}.

Definition fill_process_event (k : K) (event : list Z) : list Z :=
  let event := st process_event ["hdr"; "event_type"] EVENT_TYPE_PROCESS event in
  let event := st process_event ["hdr"; "pid"] (Z.shiftr (bpf_get_current_pid_tgid k) 32) event in
  let event := st process_event ["hdr"; "tid"] (to_u32 (bpf_get_current_pid_tgid k)) event in
  let event := st process_event ["hdr"; "timestamp"] (bpf_ktime_get_ns k) event in
  let event := st process_event ["parent_pid"] 0 event in
  let event := st process_event ["exit_code"] 0 event in
  let event := stb process_event ["image_name"]
                 (bpf_get_current_comm k (fsize process_event ["image_name"])) event in
  stb process_event ["cmd_line"] (replicate (fsize process_event ["cmd_line"]) 0) event.

Definition process_monitor (k : K) : Z * K :=
  match ringbuf_reserve events (sizeof process_event) k with
  | (None, k) => (0, k)
  | (Some event, k) => (0, ringbuf_submit events (fill_process_event k event) k)
  end.
End Program.

End BpfWinProcess.

(** ** file_monitor.bpf.c *)

Module BpfWinFile.

Definition EVENT_TYPE_FILE : Z := 2.

Definition event_header : ctype := struct [
  mem __u32 "event_type";
  mem __u32 "pid";
  mem __u32 "tid";
  mem __u64 "timestamp"].

Definition file_event : ctype := struct [
  mem event_header "hdr";
  mem __u32 "operation";
  mem __u32 "flags";
  mem (CArr 512 c_char) "file_path"].

Definition events : bpf_map :=
  BpfMap "bpf-windows/file/events" BPF_MAP_TYPE_RINGBUF (256 * 1024) 0 0.

Section Program.
Context {K : Type} `{BpfKernel K}.

Definition fill_file_event (k : K) (event : list Z) : list Z :=
  let event := st file_event ["hdr"; "event_type"] EVENT_TYPE_FILE event in
  let event := st file_event ["hdr"; "pid"] (Z.shiftr (bpf_get_current_pid_tgid k) 32) event in
  let event := st file_event ["hdr"; "tid"] (to_u32 (bpf_get_current_pid_tgid k)) event in
  let event := st file_event ["hdr"; "timestamp"] (bpf_ktime_get_ns k) event in
  let event := st file_event ["operation"] 0 event in
  let event := st file_event ["flags"] 0 event in
  stb file_event ["file_path"] (replicate (fsize file_event ["file_path"]) 0) event.

Definition file_monitor (k : K) : Z * K :=
  match ringbuf_reserve events (sizeof file_event) k with
  | (None, k) => (0, k)
  | (Some event, k) => (0, ringbuf_submit events (fill_file_event k event) k)
  end.
End Program.

End BpfWinFile.

(** ** network_monitor.bpf.c *)

Module BpfWinNetwork.

Definition EVENT_TYPE_NETWORK : Z := 3.

Definition event_header : ctype := struct [
  mem __u32 "event_type";
  mem __u32 "pid";
  mem __u32 "tid";
  mem __u64 "timestamp"].

Definition network_event : ctype := struct [
  mem event_header "hdr";
  mem __u32 "protocol";
  mem __u32 "operation";
  mem (CArr 16 __u8) "local_addr";
  mem (CArr 16 __u8) "remote_addr";
  mem __u16 "local_port";
  mem __u16 "remote_port";
  mem __u16 "addr_family";
  mem __u16 "_pad"].

Definition events : bpf_map :=
  BpfMap "bpf-windows/network/events" BPF_MAP_TYPE_RINGBUF (256 * 1024) 0 0.

Section Program.
Context {K : Type} `{BpfKernel K}.

Definition fill_network_event (k : K) (event : list Z) : list Z :=
  let event := st network_event ["hdr"; "event_type"] EVENT_TYPE_NETWORK event in
  let event := st network_event ["hdr"; "pid"] (Z.shiftr (bpf_get_current_pid_tgid k) 32) event in
  let event := st network_event ["hdr"; "tid"] (to_u32 (bpf_get_current_pid_tgid k)) event in
  let event := st network_event ["hdr"; "timestamp"] (bpf_ktime_get_ns k) event in
  let event := st network_event ["protocol"] 6 event in
  let event := st network_event ["operation"] 0 event in
  let event := stb network_event ["local_addr"] (replicate (fsize network_event ["local_addr"]) 0) event in
  let event := stb network_event ["remote_addr"] (replicate (fsize network_event ["remote_addr"]) 0) event in
  let event := st network_event ["local_port"] 0 event in
  let event := st network_event ["remote_port"] 0 event in
  let event := st network_event ["addr_family"] 2 event in
  st network_event ["_pad"] 0 event.

Definition network_monitor (k : K) : Z * K :=
  match ringbuf_reserve events (sizeof network_event) k with
  | (None, k) => (0, k)
  | (Some event, k) => (0, ringbuf_submit events (fill_network_event k event) k)
  end.
End Program.

End BpfWinNetwork.
