(* ===== verification/GoApi.v ===== *)
(** pkg/api/types.go: the events, decisions and statistics the packages of the
    daemon exchange, and the control flow of Go that the models of the daemon
    share (errors as values, panics).

    An [EventType] is one of the three constants of the source; an [Action] is an
    int32, since a policy module can return any value.  Times and durations are
    nanoseconds; a pointer that may be nil is an [option]. *)

From S2P Require Import Prelude.

(** ** Events *)

Inductive ApiEventType : Type := EventTypeProcess | EventTypeFile | EventTypeNetwork.

Record BaseEvent : Type := {
  be_Type : ApiEventType;
  be_PID : Z;
  be_UID : Z;
  be_GID : Z;
  be_Comm : list Z;
  be_Timestamp : Z;
  be_CgroupID : Z;
}.

Record ProcessEvent : Type := {
  pe_Base : BaseEvent;
  pe_Filename : list Z;
  pe_Args : list (list Z);
}.

Record FileEvent : Type := {
  fe_Base : BaseEvent;
  fe_Operation : list Z;
  fe_Path : list Z;
  fe_Flags : Z;
  fe_Mode : Z;
}.

Record NetworkEvent : Type := {
  ne_Base : BaseEvent;
  ne_Operation : list Z;
  ne_Protocol : list Z;
  ne_RemoteAddr : list Z;
  ne_RemotePort : Z;
  ne_LocalAddr : list Z;
  ne_LocalPort : Z;
  ne_DataSize : Z;
}.

Record ApiEvent : Type := {
  ae_PID : Z;
  ae_UID : Z;
  ae_GID : Z;
  ae_Comm : list Z;
  ae_Filename : list Z;
  ae_Timestamp : Z;
  ae_Type : ApiEventType;
  ae_CgroupID : Z;
  ae_Process : option ProcessEvent;
  ae_File : option FileEvent;
  ae_Network : option NetworkEvent;
  ae_LSMEvent : bool;
}.

#[global] Instance ApiEventType_eq_dec : EqDecision ApiEventType.
Proof. solve_decision. Defined.

Definition EventType_String (t : ApiEventType) : list Z :=
  match t with
  | EventTypeProcess => bstr "PROCESS"
  | EventTypeFile => bstr "FILE"
  | EventTypeNetwork => bstr "NETWORK"
  end.

(** The value 0 of [Type] is [EventTypeProcess]. *)
Definition GetType (e : ApiEvent) : ApiEventType :=
  if negb (bool_decide (ae_Type e = EventTypeProcess)) then ae_Type e
  else match ae_Process e with
  | Some p => be_Type (pe_Base p)
  | None =>
      match ae_File e with
      | Some f => be_Type (fe_Base f)
      | None =>
          match ae_Network e with
          | Some n => be_Type (ne_Base n)
          | None => EventTypeProcess
          end
      end
  end.

Definition ToProcessEvent (e : ApiEvent) : ProcessEvent :=
  match ae_Process e with
  | Some p => p
  | None => {|
      pe_Base := {| be_Type := EventTypeProcess; be_PID := ae_PID e; be_UID := ae_UID e;
                    be_GID := ae_GID e; be_Comm := ae_Comm e; be_Timestamp := ae_Timestamp e;
                    be_CgroupID := 0 |};
      pe_Filename := ae_Filename e;
      pe_Args := [] |}
  end.

(** ** Messages *)

(** A formatted string is its format and its arguments: the texts of errors and
    reasons are only logged, never parsed. *)
Inductive message : Type := Sprintf (format : string) (args : list argument)
with argument : Type := AStr (s : list Z) | ANum (n : Z) | AErr (m : message).

Abbreviation Text s := (Sprintf s []).

(** ** Decisions *)

Module api.
Definition ActionAllow : Z := 0.
Definition ActionDeny : Z := 1.
Definition ActionLog : Z := 2.
End api.

Definition Action_String (a : Z) : list Z :=
  if a =? api.ActionAllow then bstr "ALLOW"
  else if a =? api.ActionDeny then bstr "DENY"
  else if a =? api.ActionLog then bstr "LOG"
  else bstr "UNKNOWN".

Record ActionResult : Type := MkResult {
  Action : Z;
  Reason : message;
  RTimestamp : Z;
  Cached : bool;
  Latency : Z;
  Audit : bool;
}.

Definition with_Cached (b : bool) (r : ActionResult) : ActionResult :=
  MkResult (Action r) (Reason r) (RTimestamp r) b (Latency r) (Audit r).
Definition with_Audit (b : bool) (r : ActionResult) : ActionResult :=
  MkResult (Action r) (Reason r) (RTimestamp r) (Cached r) (Latency r) b.

Record EnforcementStats : Type := MkStats {
  Allowed : Z;
  Denied : Z;
  Logged : Z;
  AuditDenied : Z;
  CacheHits : Z;
  CacheMisses : Z;
  TotalLatency : Z;
}.

(** ** Control flow *)

(** What a Go call does: it returns a value, it returns an error, it panics, or it
    waits for a channel that nobody serves. *)
Inductive go (A : Type) : Type :=
  | Ret (a : A)
  | Fail (err : message)
  | Panic (why : string)
  | Block.
Arguments Ret {A} a.
Arguments Fail {A} err.
Arguments Panic {A} why.
Arguments Block {A}.

Definition go_bind {A B} (m : go A) (f : A -> go B) : go B :=
  match m with
  | Ret a => f a
  | Fail err => Fail err
  | Panic why => Panic why
  | Block => Block
  end.

Declare Scope go_scope.
Delimit Scope go_scope with go.
Notation "'let!' x := m 'in' f" := (go_bind m (fun x => f))
  (at level 10, x pattern, f at level 200) : go_scope.
#[global] Open Scope go_scope.

(** [fmt.Errorf(format, err)] around a failed call. *)
Definition wrap {A} (format : string) (m : go A) : go A :=
  match m with Fail err => Fail (Sprintf format [AErr err]) | m => m end.

Definition panics {A} (m : go A) : bool := match m with Panic _ => true | _ => false end.

(** ** Facts *)

Lemma GetType_nonzero e : ae_Type e <> EventTypeProcess -> GetType e = ae_Type e.
Proof. intros. unfold GetType. by rewrite bool_decide_eq_false_2. Qed.
