(* ===== verification/WinLoader.v ===== *)
(** internal/platform/etw/ebpf_loader.go (event parsing) and ebpf_policy_map.go:
    the userspace side of the eBPF-for-Windows programs.

    Records come in as byte slices and are parsed at fixed offsets; the length
    tests use [unsafe.Sizeof] of Go structs, which Go lays out with natural
    alignment.  Strings are byte lists, times are nanoseconds since 1970. *)

From S2P Require Import Prelude CTypes Bpf WinCommon GoEvents GoPolicyMap GoApi.

(** ** Raw structs *)

Definition EBPFEventHeader : ctype := struct [
  mem __u32 "EventType"; mem __u32 "PID"; mem __u32 "TID"; mem __u64 "Timestamp"].

Definition EBPFProcessEvent : ctype := struct [
  mem EBPFEventHeader "";
  mem __u32 "ParentPID"; mem __s32 "ExitCode";
  mem (CArr 256 __u8) "ImageName"; mem (CArr 512 __u8) "CmdLine"].

Definition EBPFFileEvent : ctype := struct [
  mem EBPFEventHeader "";
  mem __u32 "Operation"; mem __u32 "Flags"; mem (CArr 512 __u8) "FilePath"].

Definition EBPFNetworkEvent : ctype := struct [
  mem EBPFEventHeader "";
  mem __u32 "Protocol"; mem __u32 "Operation";
  mem (CArr 16 __u8) "LocalAddr"; mem (CArr 16 __u8) "RemoteAddr";
  mem __u16 "LocalPort"; mem __u16 "RemotePort"; mem __u16 "AddrFamily"; mem __u16 "_"].

Definition ebpfEventProcess : Z := 1.
Definition ebpfEventFile : Z := 2.
Definition ebpfEventNetwork : Z := 3.

(** ** Parsed events *)

(** Composite literals: the fields the parser does not name are zero. *)
Definition MkBase (ty : ApiEventType) (pid ts : Z) : BaseEvent := {|
  be_Type := ty; be_PID := pid; be_UID := 0; be_GID := 0; be_Comm := [];
  be_Timestamp := ts; be_CgroupID := 0 |}.

Definition MkProcess (base : BaseEvent) (filename : list Z) : ProcessEvent :=
  {| pe_Base := base; pe_Filename := filename; pe_Args := [] |}.

Definition MkFile (base : BaseEvent) (operation : list Z) (flags : Z) (path : list Z) : FileEvent :=
  {| fe_Base := base; fe_Operation := operation; fe_Path := path; fe_Flags := flags; fe_Mode := 0 |}.

Definition MkNetwork (base : BaseEvent) (protocol operation : list Z) (localPort remotePort : Z)
    (local remote : list Z) : NetworkEvent := {|
  ne_Base := base; ne_Operation := operation; ne_Protocol := protocol;
  ne_RemoteAddr := remote; ne_RemotePort := remotePort;
  ne_LocalAddr := local; ne_LocalPort := localPort; ne_DataSize := 0 |}.

Definition MkApiEvent (base : BaseEvent) (comm filename : list Z) (p : option ProcessEvent)
    (f : option FileEvent) (n : option NetworkEvent) : ApiEvent := {|
  ae_PID := be_PID base; ae_UID := 0; ae_GID := 0; ae_Comm := comm; ae_Filename := filename;
  ae_Timestamp := be_Timestamp base; ae_Type := be_Type base; ae_CgroupID := 0;
  ae_Process := p; ae_File := f; ae_Network := n; ae_LSMEvent := false |}.

(** ** Helpers *)

(** [binary.LittleEndian.UintN(data[lo:hi])], [BigEndian] for the IPv6 groups. *)
Definition le_at (data : list Z) (lo hi : nat) : Z := le_val (slice lo (hi - lo) data).
Definition be_at (data : list Z) (lo hi : nat) : Z := be_val (slice lo (hi - lo) data).
Definition byte_at (data : list Z) (i : nat) : Z := default 0 (data !! i).

Definition cStringFromBytes (b : list Z) : list Z := nullTerminatedString b.

Definition epochDelta : Z := 116444736000000000.

(** [now] is what [time.Now] returns; the arithmetic is on int64. *)
Definition windowsTimestampToTime (now ts : Z) : Z :=
  if ts =? 0 then now else to_s 64 (to_s 64 (to_s 64 ts - epochDelta) * 100).

Definition len_ok (data : list Z) (t : ctype) : bool := (Z.to_nat (sizeof t) <=? length data)%nat.

(** ** Parsing *)

Definition parseProcessEvent (data : list Z) (base : BaseEvent) : ApiEvent :=
  if len_ok data EBPFProcessEvent then
    let imageName := cStringFromBytes (slice 28 256 data) in
    MkApiEvent base imageName imageName (Some (MkProcess base imageName)) None None
  else MkApiEvent base [] [] None None None.

Definition file_operation (op : Z) : list Z :=
  if op =? 0 then bstr "open"
  else if op =? 1 then bstr "read"
  else if op =? 2 then bstr "write"
  else if op =? 3 then bstr "create"
  else if op =? 4 then bstr "delete"
  else bstr "unknown(" ++ dec_digits 10 op [] ++ bstr ")".

Definition parseFileEvent (data : list Z) (base : BaseEvent) : ApiEvent :=
  let fileEvent :=
    if len_ok data EBPFFileEvent then
      let op := le_at data 20 24 in
      let flags := le_at data 24 28 in
      let filePath := cStringFromBytes (slice 28 512 data) in
      MkFile base (file_operation op) flags filePath
    else MkFile base [] 0 [] in
  MkApiEvent base [] [] None (Some fileEvent) None.

Definition net_protocol (protocol : Z) : list Z :=
  if protocol =? 6 then bstr "tcp"
  else if protocol =? 17 then bstr "udp"
  else bstr "proto(" ++ dec_digits 10 protocol [] ++ bstr ")".

Definition net_operation (operation : Z) : list Z :=
  if operation =? 0 then bstr "connect"
  else if operation =? 1 then bstr "accept"
  else if operation =? 2 then bstr "send"
  else if operation =? 3 then bstr "recv"
  else if operation =? 4 then bstr "close"
  else bstr "op(" ++ dec_digits 10 operation [] ++ bstr ")".

(** [%x:%x:...] over the eight groups at [lo]. *)
Definition hex_addr (data : list Z) (lo : nat) : list Z :=
  join_groups ((fun i => be_at data (lo + 2 * i) (lo + 2 * i + 2)) <$> seq 0 8).
Definition dotted_at (data : list Z) (lo : nat) : list Z :=
  dotted (byte_at data lo) (byte_at data (lo + 1)) (byte_at data (lo + 2)) (byte_at data (lo + 3)).

Definition parseNetworkEvent (data : list Z) (base : BaseEvent) : ApiEvent :=
  let netEvent :=
    if len_ok data EBPFNetworkEvent then
      let protocol := le_at data 20 24 in
      let operation := le_at data 24 28 in
      let localPort := le_at data 60 62 in
      let remotePort := le_at data 62 64 in
      let addrFamily := le_at data 64 66 in
      let '(local, remote) :=
        if addrFamily =? 2 then (dotted_at data 28, dotted_at data 44)
        else if addrFamily =? 23 then (hex_addr data 28, hex_addr data 44)
        else ([], []) in
      MkNetwork base (net_protocol protocol) (net_operation operation) localPort remotePort local remote
    else MkNetwork base [] [] 0 0 [] [] in
  MkApiEvent base [] [] None None (Some netEvent).

Definition parseEBPFEvent (now : Z) (data : list Z) : option ApiEvent :=
  if negb (len_ok data EBPFEventHeader) then None else
  let event_type := le_at data 0 4 in
  let pid := le_at data 4 8 in
  let timestamp := le_at data 12 20 in
  let ts := windowsTimestampToTime now timestamp in
  if event_type =? ebpfEventProcess then Some (parseProcessEvent data (MkBase EventTypeProcess pid ts))
  else if event_type =? ebpfEventFile then Some (parseFileEvent data (MkBase EventTypeFile pid ts))
  else if event_type =? ebpfEventNetwork then Some (parseNetworkEvent data (MkBase EventTypeNetwork pid ts))
  else None.

(** ** The policy map of the Windows programs *)

Section WinPolicyMap.
Context {K : Type} `{BpfKernel K}.

(** What the process environment decides: whether the loader has the map, which
    functions the API library exports, and which error codes mean "not found". *)
Record WinApi : Type := MkWinApi {
  has_policy_map : bool;
  has_update : bool;
  has_delete : bool;
  is_not_found : Z -> bool;
}.

Inductive error : Type :=
  | ErrNoMap | ErrUnknownEventType | ErrNoUpdate | ErrCall (code : Z).

Definition hashPattern (pattern : list Z) : Z := HashPattern pattern.

Definition updateMapEntry (api : WinApi) (key value : Z) (k : K) : option error * K :=
  if negb (has_update api) then (Some ErrNoUpdate, k) else
  let '(ret, k) := map_update_elem policy_map (le_bytes 4 key) (le_bytes 1 value) k in
  if ret <? 0 then (Some (ErrCall ret), k) else (None, k).

Definition deleteMapEntry (api : WinApi) (key : Z) (k : K) : option error * K :=
  if negb (has_delete api) then (None, k) else
  let '(ret, k) := map_delete_elem policy_map (le_bytes 4 key) k in
  if ret <? 0 then (if is_not_found api ret then (None, k) else (Some (ErrCall ret), k))
  else (None, k).

Definition SetRule (api : WinApi) (cgroupID eventType : Z) (pattern : list Z) (action : Z)
    (audit : bool) (k : K) : option error * K :=
  if negb (has_policy_map api) then (Some ErrNoMap, k) else
  if audit then (None, k) else
  let key :=
    if eventType =? 0 then Some (to_u32 cgroupID)
    else if eventType =? 1 then Some (hashPattern pattern)
    else if eventType =? 2 then Some (to_u32 cgroupID)
    else None in
  match key with
  | None => (Some ErrUnknownEventType, k)
  | Some key =>
      if action =? 0 then deleteMapEntry api key k
      else updateMapEntry api key action k
  end.
End WinPolicyMap.
