(* ===== verification/WinFacts.v ===== *)
(** The eBPF-for-Windows programs: layout, enforcement, and what the daemon's parser
    makes of their records. *)

From S2P Require Import Prelude CTypes Bpf SimKernel VmlinuxEnums WinCommon WinProcess WinFile WinNetwork.
From S2P Require Import BpfWindows Fnv Demo Monitors GoEvents GoPolicyMap GoApi WinLoader.

(** ** Layout *)

(** The byte ranges the comments of warmor_common.h give. *)
Definition documented_offsets : list (ctype * list string * nat * nat) := [
  (WinCommon.event_header, ["event_type"], 0, 4);
  (WinCommon.event_header, ["pid"], 4, 8);
  (WinCommon.event_header, ["tid"], 8, 12);
  (WinCommon.event_header, ["timestamp"], 12, 20);
  (WinCommon.process_event, ["hdr"], 0, 20);
  (WinCommon.process_event, ["parent_pid"], 20, 24);
  (WinCommon.process_event, ["exit_code"], 24, 28);
  (WinCommon.process_event, ["image_name"], 28, 284);
  (WinCommon.process_event, ["cmd_line"], 284, 796);
  (WinCommon.file_event, ["hdr"], 0, 20);
  (WinCommon.file_event, ["operation"], 20, 24);
  (WinCommon.file_event, ["flags"], 24, 28);
  (WinCommon.file_event, ["file_path"], 28, 540);
  (WinCommon.network_event, ["hdr"], 0, 20);
  (WinCommon.network_event, ["protocol"], 20, 24);
  (WinCommon.network_event, ["operation"], 24, 28);
  (WinCommon.network_event, ["local_addr"], 28, 44);
  (WinCommon.network_event, ["remote_addr"], 44, 60);
  (WinCommon.network_event, ["local_port"], 60, 62);
  (WinCommon.network_event, ["remote_port"], 62, 64);
  (WinCommon.network_event, ["addr_family"], 64, 66);
  (WinCommon.network_event, ["_pad"], 66, 68)]%nat.

(** The packed event structs of warmor_common.h have the sizes its static
    assertions state, every member occupies exactly the byte range its comment
    gives, and the helper and map-type numbers are those of the kernel's own
    enumerations in vmlinux.h. *)
Lemma windows_layout_documented :
  static_asserts = true /\
  Forall (fun '(t, p, lo, hi) => foff t p = lo /\ (lo + fsize t p)%nat = hi) documented_offsets /\
  Forall (fun '(name, id) => (String.append "BPF_FUNC_" name, id) ∈ enum_bpf_func_id)
    [("map_lookup_elem", BPF_FUNC_map_lookup_elem); ("map_update_elem", BPF_FUNC_map_update_elem);
     ("map_delete_elem", BPF_FUNC_map_delete_elem); ("ktime_get_ns", BPF_FUNC_ktime_get_ns);
     ("get_current_pid_tgid", BPF_FUNC_get_current_pid_tgid);
     ("get_current_comm", BPF_FUNC_get_current_comm);
     ("ringbuf_reserve", BPF_FUNC_ringbuf_reserve); ("ringbuf_submit", BPF_FUNC_ringbuf_submit);
     ("ringbuf_discard", BPF_FUNC_ringbuf_discard)] /\
  ("BPF_MAP_TYPE_HASH", WinCommon.BPF_MAP_TYPE_HASH) ∈ enum_bpf_map_type /\
  ("BPF_MAP_TYPE_RINGBUF", WinCommon.BPF_MAP_TYPE_RINGBUF) ∈ enum_bpf_map_type.
Proof. split_and!; listed. Qed.

(** ** Enforcement *)

Inductive win_call : Type := WinProcessHook | WinFileHook | WinNetworkHook (skops : list Z).

Section WinHooks.
Context {K : Type} `{BpfKernel K}.
Implicit Types (k : K).

(** The context of a call that the program may write: that of the network program. *)
Definition win_ctx (c : win_call) : list Z :=
  match c with WinNetworkHook skops => skops | _ => [] end.

(** A program's verdict, its context and the state after it. *)
Definition run_win (c : win_call) k : Z * list Z * K :=
  match c with
  | WinProcessHook => let '(r, k) := WinProcess.process_monitor k in (r, [], k)
  | WinFileHook => let '(r, k) := WinFile.file_monitor k in (r, [], k)
  | WinNetworkHook skops => WinNetwork.network_monitor skops k
  end.

Definition win_event (c : win_call) : ctype :=
  match c with
  | WinProcessHook => WinCommon.process_event
  | WinFileHook => WinCommon.file_event
  | WinNetworkHook _ => WinCommon.network_event
  end.

Definition win_fill (c : win_call) k : list Z -> list Z :=
  match c with
  | WinProcessHook => WinProcess.fill_process_event k
  | WinFileHook => WinFile.fill_file_event k
  | WinNetworkHook skops => WinNetwork.fill_network_event skops k
  end.

(** The process is on the deny list. *)
Definition win_denied k : bool :=
  truthy (check_policy (to_u32 (Z.shiftr (bpf_get_current_pid_tgid k) 32)) k).

(** The context with which a blocked call ends. *)
Definition win_rejected (c : win_call) : list Z :=
  match c with WinNetworkHook skops => st bpf_sock_ops ["reply"] (-1) skops | _ => [] end.

(** Policy check, then a report. *)
Definition win_hook (c : win_call) k : Z * list Z * K :=
  if win_denied k then (0, win_rejected c, k) else
  match ringbuf_reserve WinCommon.events (sizeof (win_event c)) k with
  | (None, k) => (1, win_ctx c, k)
  | (Some evt, k) => (1, win_ctx c, ringbuf_submit WinCommon.events (win_fill c k evt) k)
  end.

Lemma run_win_eq c k : run_win c k = win_hook c k.
Proof.
  unfold win_hook, win_denied. destruct c; cbn [run_win win_event win_ctx win_rejected];
    unfold WinProcess.process_monitor, WinFile.file_monitor, WinNetwork.network_monitor; cbv zeta;
    destruct (truthy _); try done; by destruct (ringbuf_reserve _ _ k) as [[]].
Qed.
End WinHooks.

Section WinFacts.
Context {K : Type} `{BpfKernelOk K}.
Implicit Types (k : K).

Lemma win_fill_env c k k' ev :
  kernel_env k' = kernel_env k -> win_fill c k' ev = win_fill c k ev.
Proof.
  intros He. destruct c; cbn [win_fill];
    unfold WinProcess.fill_process_event, WinFile.fill_file_event, WinNetwork.fill_network_event,
      fill_header, bpf_get_current_pid_tgid, bpf_ktime_get_ns, bpf_get_current_comm; by rewrite He.
Qed.

Lemma win_denied_iff k :
  win_denied k = true <->
  exists v, map_contents k WinCommon.policy_map (le_bytes 4 (task_pid k)) = Some v /\
            le_val v = WinCommon.ACTION_DENY.
Proof.
  destruct (task_ranges k) as (Hp & _). unfold win_denied. fold (task_pid k). rewrite to_u_id by done.
  unfold check_policy, bpf_map_lookup_elem, vload, default.
  destruct (map_contents k WinCommon.policy_map (le_bytes 4 (task_pid k))) as [v|] eqn:E;
    cbn [vp_map vp_key]; rewrite ?E; cbn [from_option id]; [|split; [done|by intros (? & ? & ?)]].
  destruct (Z.eqb_spec (le_val v) WinCommon.ACTION_DENY) as [Hv|Hv]; split; [eauto|done|done|].
  intros (v' & Hv' & Ha). congruence.
Qed.

(** The reply is the last word of the context. *)
Lemma win_rejected_bytes skops :
  obj bpf_sock_ops skops -> win_rejected (WinNetworkHook skops) = take 60 skops ++ [255; 255; 255; 255].
Proof.
  unfold obj. change (Z.to_nat (sizeof bpf_sock_ops)) with 64%nat. intros Ho. cbn [win_rejected]. unfold st, stb, splice.
  change (foff bpf_sock_ops ["reply"]) with 60%nat.
  change (le_bytes (fsize bpf_sock_ops ["reply"]) (-1)) with [255; 255; 255; 255].
  cbn [length]. by rewrite (drop_ge skops) by lia.
Qed.

(** C38: a Windows program blocks an operation (returns 0) exactly when the policy map
    holds the deny action for the process id.  A blocked operation leaves no trace in
    maps or ring buffer; a blocked network operation also has the reply of its context
    set to -1, the last four of its 64 bytes, and nothing else of it changed.  An allowed
    operation returns 1, leaves its context and every map alone, and its record is
    appended to the ring buffer if the buffer has room; without room it is allowed and
    not reported. *)
Theorem windows_blocks_iff c k :
  let '(verdict, ctx, k') := run_win c k in
  (verdict = 0 <->
   exists v, map_contents k WinCommon.policy_map (le_bytes 4 (task_pid k)) = Some v /\
             le_val v = WinCommon.ACTION_DENY) /\
  (verdict = 0 -> k' = k /\
     forall skops, c = WinNetworkHook skops -> length skops = 64%nat -> ctx = take 60 skops ++ [255; 255; 255; 255]) /\
  (verdict <> 0 -> verdict = 1 /\ ctx = win_ctx c /\
     (forall m key, map_contents k' m key = map_contents k m key) /\
     ring_records k' WinCommon.events = ring_records k WinCommon.events ++
       match (ringbuf_reserve WinCommon.events (sizeof (win_event c)) k).1 with
       | Some stale => [win_fill c k stale]
       | None => []
       end).
Proof.
  rewrite run_win_eq. unfold win_hook. pose proof (win_denied_iff k) as Hd. destruct (win_denied k).
  { rewrite <- Hd. split_and!; [done| |done]. intros _. split; [done|]. intros skops -> Hl. by apply win_rejected_bytes. }
  pose proof (env_reserve WinCommon.events (sizeof (win_event c)) k) as He.
  pose proof (fun r => reserve_ring WinCommon.events (sizeof (win_event c)) k r) as Hr.
  pose proof (fun m key => reserve_maps WinCommon.events (sizeof (win_event c)) k m key) as Hm.
  destruct (ringbuf_reserve _ _ k) as [[ev|] k1]; cbn [fst snd] in *;
    (split_and!; [by rewrite <- Hd|done|intros _; split_and!; [done|done|..]]); intros;
    rewrite ?submit_maps, ?submit_ring_same, ?Hr, ?app_nil_r; auto.
  by rewrite (win_fill_env c k k1).
Qed.

(** ** What the parser makes of a record *)

Lemma obj_event_header_fill hdr et k :
  obj WinCommon.event_header hdr -> obj WinCommon.event_header (fill_header hdr et k).
Proof. intros. unfold fill_header. cbv zeta. lay. Qed.

Lemma fill_header_fields hdr et k :
  obj WinCommon.event_header hdr -> is_u 32 et ->
  ld WinCommon.event_header ["event_type"] (fill_header hdr et k) = et /\
  ld WinCommon.event_header ["pid"] (fill_header hdr et k) = task_pid k /\
  ld WinCommon.event_header ["timestamp"] (fill_header hdr et k) = bpf_ktime_get_ns k.
Proof.
  intros Ho He. destruct (task_ranges k) as (Hp & _ & _ & _ & Ht). unfold fill_header. cbv zeta.
  fold (task_pid k). rewrite (to_u_id 32 (task_pid k)) by done. split_and!; stored.
Qed.

(** Every packed record starts with the header its program filled. *)
Definition win_type (c : win_call) : Z :=
  match c with
  | WinProcessHook => EVENT_PROCESS
  | WinFileHook => EVENT_FILE
  | WinNetworkHook _ => EVENT_NETWORK
  end.

Lemma ldb_hdr c bs new m :
  m ∈ ["event_type"; "pid"; "tid"; "timestamp"] ->
  obj (win_event c) bs -> obj WinCommon.event_header new ->
  ldb (win_event c) ["hdr"; m] (stb (win_event c) ["hdr"] new bs) = ldb WinCommon.event_header [m] new.
Proof.
  intros Hm Ho Hn. rewrite !elem_of_cons, elem_of_nil in Hm.
  apply (ldb_stb_sub (win_event c) ["hdr"] [m] WinCommon.event_header); [|by destruct c|done|].
  - destruct c; destruct Hm as [->|[->|[->|[->|[]]]]]; vm_compute; reflexivity.
  - unfold obj in Hn. rewrite Hn. by destruct c.
Qed.

(** The length of a filled header, for the store of the whole header. *)
Lemma fill_header_fits c ev et k :
  obj (win_event c) ev ->
  obj WinCommon.event_header (ldb (win_event c) ["hdr"] ev) /\
  obj WinCommon.event_header (fill_header (ldb (win_event c) ["hdr"] ev) et k) /\
  obj (win_event c) (stb (win_event c) ["hdr"] (fill_header (ldb (win_event c) ["hdr"] ev) et k) ev).
Proof.
  intros Ho. assert (Hh : obj WinCommon.event_header (ldb (win_event c) ["hdr"] ev)).
  { unfold obj. rewrite length_ldb by (done || by destruct c). by destruct c. }
  pose proof (obj_event_header_fill _ et k Hh) as Hf. split_and!; auto.
  apply obj_stb; [by destruct c| |done]. unfold obj in Hf. rewrite Hf. by destruct c.
Qed.

(** The programs' later stores leave the header as it was filled. *)
Lemma win_fill_frame c k ev m :
  m ∈ ["event_type"; "pid"; "timestamp"] -> obj (win_event c) ev ->
  let hdr := fill_header (ldb (win_event c) ["hdr"] ev) (win_type c) k in
  obj (win_event c) (win_fill c k ev) /\
  ldb (win_event c) ["hdr"; m] (win_fill c k ev) =
  ldb (win_event c) ["hdr"; m] (stb (win_event c) ["hdr"] hdr ev).
Proof.
  intros Hm Ho hdr. destruct (fill_header_fits c ev (win_type c) k Ho) as (_ & _ & H1). fold hdr in H1.
  rewrite !elem_of_cons, elem_of_nil in Hm. subst hdr.
  destruct c; cbn [win_event win_fill win_type] in *;
    unfold WinProcess.fill_process_event, WinFile.fill_file_event, WinNetwork.fill_network_event;
    cbv zeta; set (ev1 := stb _ ["hdr"] _ ev) in *; clearbody ev1; clear Ho ev.
  - split; [lay|]. by destruct Hm as [->|[->|[->|[]]]]; repeat field_step.
  - split; [lay|]. by destruct Hm as [->|[->|[->|[]]]]; repeat field_step.
  - destruct (_ =? AF_INET); [|destruct (_ =? AF_INET6)]; (split; [lay|]);
      by destruct Hm as [->|[->|[->|[]]]]; repeat field_step.
Qed.

Lemma win_fill_header c k ev :
  obj (win_event c) ev ->
  let rec := win_fill c k ev in
  length rec = Z.to_nat (sizeof (win_event c)) /\
  le_at rec 0 4 = win_type c /\ le_at rec 4 8 = task_pid k /\ le_at rec 12 20 = bpf_ktime_get_ns k.
Proof.
  intros Ho rec. destruct (fill_header_fits c ev (win_type c) k Ho) as (Hh & Hf & _).
  destruct (fill_header_fields _ (win_type c) k Hh) as (E1 & E2 & E3).
  { destruct c; unfold is_u, win_type, EVENT_PROCESS, EVENT_FILE, EVENT_NETWORK; lia. }
  assert (Hm : forall m, m ∈ ["event_type"; "pid"; "timestamp"] ->
    ld (win_event c) ["hdr"; m] rec = ld WinCommon.event_header [m]
      (fill_header (ldb (win_event c) ["hdr"] ev) (win_type c) k)).
  { intros m Hm. unfold ld, rec. destruct (win_fill_frame c k ev m Hm Ho) as [_ ->].
    rewrite ldb_hdr; [done| |done|done]. rewrite !elem_of_cons in *. tauto. }
  split_and!; [by destruct (win_fill_frame c k ev "pid" ltac:(listed) Ho)|..].
  - rewrite <- E1, <- Hm by listed. by destruct c.
  - rewrite <- E2, <- Hm by listed. by destruct c.
  - rewrite <- E3, <- Hm by listed. by destruct c.
Qed.

(** The daemon recognises every record of the packed Windows programs and reads
    its type, process id and time, but drops the payload: the records are shorter
    than the naturally aligned Go structs the parser compares them with (796, 540
    and 68 bytes against 800, 544 and 72), so image name, file path, protocol,
    ports and addresses are always empty. *)
Lemma windows_payload_dropped now c k stale :
  obj (win_event c) stale ->
  let base ty := MkBase ty (task_pid k) (windowsTimestampToTime now (bpf_ktime_get_ns k)) in
  parseEBPFEvent now (win_fill c k stale) = Some
    match c with
    | WinProcessHook => MkApiEvent (base EventTypeProcess) [] [] None None None
    | WinFileHook => MkApiEvent (base EventTypeFile) [] [] None
                       (Some (MkFile (base EventTypeFile) [] 0 [])) None
    | WinNetworkHook _ => MkApiEvent (base EventTypeNetwork) [] [] None None
                       (Some (MkNetwork (base EventTypeNetwork) [] [] 0 0 [] []))
    end.
Proof.
  intros Ho base. destruct (win_fill_header c k stale Ho) as (Hl & E1 & E2 & E3).
  unfold parseEBPFEvent, len_ok. rewrite Hl, E1, E2, E3.
  destruct c; cbn [win_type]; unfold parseProcessEvent, parseFileEvent, parseNetworkEvent, len_ok;
    rewrite Hl; reflexivity.
Qed.

(** ** The naturally aligned programs *)

Lemma cstr_zero_head n bs rest : take n bs = 0 :: rest -> cstr bs = [].
Proof. destruct n, bs; simpl; intros; simplify_eq; done. Qed.

(** An event of the unpacked process monitor of bpf-windows is recognised, with
    the right process id, but its image name is always decoded as empty: the parser
    reads it at byte 28, where the unpacked struct has the zero exit code. *)
Lemma bpf_windows_image_name_lost now k stale :
  obj BpfWinProcess.process_event stale ->
  exists ts, parseEBPFEvent now (BpfWinProcess.fill_process_event k stale) = Some
    (let base := MkBase EventTypeProcess (task_pid k) ts in
     MkApiEvent base [] [] (Some (MkProcess base [])) None None).
Proof.
  intros Ho. destruct (task_ranges k) as (Hp & _). set (rec := BpfWinProcess.fill_process_event k stale).
  assert (Hr : obj BpfWinProcess.process_event rec).
  { unfold rec, BpfWinProcess.fill_process_event. cbv zeta. lay. }
  assert (E1 : ld BpfWinProcess.process_event ["hdr"; "event_type"] rec = 1).
  { unfold rec, BpfWinProcess.fill_process_event. cbv zeta. by repeat field_step. }
  assert (E2 : ld BpfWinProcess.process_event ["hdr"; "pid"] rec = task_pid k).
  { unfold rec, BpfWinProcess.fill_process_event. cbv zeta. fold (task_pid k). stored. }
  assert (E3 : ldb BpfWinProcess.process_event ["exit_code"] rec = [0; 0; 0; 0]).
  { unfold rec, BpfWinProcess.fill_process_event. cbv zeta.
    rewrite !ldb_stb_ne by lay. unfold st. apply ldb_stb_eq; [done|lay|done]. }
  exists (windowsTimestampToTime now (le_at rec 12 20)).
  assert (Hl : length rec = 800%nat) by exact Hr.
  change (le_at rec 0 4 = 1) in E1. change (le_at rec 4 8 = task_pid k) in E2.
  unfold parseEBPFEvent, len_ok. rewrite Hl, E1, E2. cbn [negb].
  unfold parseProcessEvent, len_ok. rewrite Hl. unfold cStringFromBytes.
  rewrite nullTerminatedString_cstr.
  assert (Hc : cstr (slice 28 256 rec) = []).
  { apply (cstr_zero_head 4 _ [0; 0; 0]). rewrite <- E3. unfold ldb, slice.
    rewrite take_take. reflexivity. }
  rewrite Hc. reflexivity.
Qed.

(** The high half of a 64-bit word in its bytes. *)
Lemma high_word z : is_u 64 z -> le_val (slice 4 4 (le_bytes 8 z)) = Z.shiftr z 32.
Proof.
  unfold is_u. intros Hz. rewrite Z.shiftr_div_pow2 by lia.
  change (slice 4 4 (le_bytes 8 z)) with (le_bytes 4 (z / 256 / 256 / 256 / 256)).
  rewrite !Z.div_div by lia. change (256 * 256 * 256 * 256) with (2 ^ 32).
  apply le_val_le_bytes_id. split; [apply Z.div_pos; lia|apply Z.div_lt_upper_bound; lia].
Qed.

Lemma slice_slice a b n m (bs : list Z) :
  (a + n <= m)%nat -> slice a n (slice b m bs) = slice (b + a) n bs.
Proof.
  intros. unfold slice. rewrite skipn_firstn_comm, drop_drop, take_take. f_equal. lia.
Qed.

(** The word the parser reads at byte 20 is the clock's high half in a record whose
    timestamp is at byte 16. *)
Lemma clock_at_20 rec z : is_u 64 z -> slice 16 8 rec = le_bytes 8 z -> le_at rec 20 24 = Z.shiftr z 32.
Proof.
  intros Hz Hs. rewrite <- (high_word z Hz), <- Hs.
  by rewrite slice_slice by lia.
Qed.

(** The words the parser reads, in the records of the unpacked programs. *)
Lemma bpf_windows_file_words k stale :
  obj BpfWinFile.file_event stale ->
  let rec := BpfWinFile.fill_file_event k stale in
  length rec = 544%nat /\ le_at rec 0 4 = 2 /\ le_at rec 20 24 = Z.shiftr (bpf_ktime_get_ns k) 32.
Proof.
  intros Hf rec. destruct (task_ranges k) as (_ & _ & _ & _ & Ht).
  unfold rec, BpfWinFile.fill_file_event. cbv zeta. split_and!.
  - match goal with |- length ?r = _ => change (obj BpfWinFile.file_event r) end. lay.
  - match goal with |- le_at ?r _ _ = _ =>
      change (ld BpfWinFile.file_event ["hdr"; "event_type"] r = 2) end. by repeat field_step.
  - apply clock_at_20; [done|]. match goal with |- slice _ _ ?r = ?x =>
      change (ldb BpfWinFile.file_event ["hdr"; "timestamp"] r = x) end.
    rewrite ldb_stb_ne, !ldb_st_ne by lay.
    unfold st. apply ldb_stb_eq; [done|lay|by rewrite length_le_bytes].
Qed.

Lemma bpf_windows_network_words k stale :
  obj BpfWinNetwork.network_event stale ->
  let rec := BpfWinNetwork.fill_network_event k stale in
  length rec = 72%nat /\ le_at rec 0 4 = 3 /\
  le_at rec 20 24 = Z.shiftr (bpf_ktime_get_ns k) 32 /\ le_at rec 24 28 = 6.
Proof.
  intros Hf rec. destruct (task_ranges k) as (_ & _ & _ & _ & Ht).
  unfold rec, BpfWinNetwork.fill_network_event. cbv zeta. split_and!.
  - match goal with |- length ?r = _ => change (obj BpfWinNetwork.network_event r) end. lay.
  - match goal with |- le_at ?r _ _ = _ =>
      change (ld BpfWinNetwork.network_event ["hdr"; "event_type"] r = 3) end. by repeat field_step.
  - apply clock_at_20; [done|]. match goal with |- slice _ _ ?r = ?x =>
      change (ldb BpfWinNetwork.network_event ["hdr"; "timestamp"] r = x) end.
    repeat first [rewrite ldb_st_ne by lay|rewrite ldb_stb_ne by lay].
    unfold st. apply ldb_stb_eq; [done|lay|by rewrite length_le_bytes].
  - match goal with |- le_at ?r _ _ = _ =>
      change (ld BpfWinNetwork.network_event ["protocol"] r = 6) end. by repeat field_step.
Qed.

(** The unpacked file and network monitors of bpf-windows are misparsed: the file
    operation and the network protocol the daemon shows are named after the high
    half of the boot clock (so a file open is shown as read, write, ... as the
    uptime grows), and the network operation shown is the protocol number, op(6). *)
Lemma bpf_windows_payload_misread now k fstale nstale :
  obj BpfWinFile.file_event fstale -> obj BpfWinNetwork.network_event nstale ->
  let clock := Z.shiftr (bpf_ktime_get_ns k) 32 in
  (exists ev fe, parseEBPFEvent now (BpfWinFile.fill_file_event k fstale) = Some ev /\
     ae_File ev = Some fe /\ fe_Operation fe = file_operation clock) /\
  (exists ev ne, parseEBPFEvent now (BpfWinNetwork.fill_network_event k nstale) = Some ev /\
     ae_Network ev = Some ne /\ ne_Protocol ne = net_protocol clock /\
     ne_Operation ne = bstr "op(6)").
Proof.
  intros Hf Hn clock. split.
  - destruct (bpf_windows_file_words k fstale Hf) as (Hl & E1 & E2).
    eexists _, _. unfold parseEBPFEvent, parseFileEvent, len_ok. rewrite Hl, E1.
    split_and!; [reflexivity|reflexivity|]. cbn [fe_Operation]. by rewrite E2.
  - destruct (bpf_windows_network_words k nstale Hn) as (Hl & E1 & E2 & E3).
    unfold parseEBPFEvent, parseNetworkEvent, len_ok. rewrite Hl, E1, E2, E3.
    cbn [negb]. set (addrs := if _ =? 2 then _ else _). destruct addrs as [local remote].
    eexists _, _. split_and!; reflexivity.
Qed.

(** Times are wrong: the programs send nanoseconds since boot, which the parser
    takes for 100 ns ticks since 1601 with an overflowing int64 product; for any
    uptime below 280 days every event is dated in the years 2185 to 2262. *)
Lemma windows_timestamp_misread now c k stale :
  obj (win_event c) stale -> 0 < bpf_ktime_get_ns k < 24211015631452241 ->
  exists ev, parseEBPFEvent now (win_fill c k stale) = Some ev /\
    ae_Timestamp ev = 6802270473709551616 + 100 * bpf_ktime_get_ns k.
Proof.
  intros Ho Ht. destruct (win_fill_header c k stale Ho) as (Hl & E1 & E2 & E3).
  assert (Hts : windowsTimestampToTime now (bpf_ktime_get_ns k) = 6802270473709551616 + 100 * bpf_ktime_get_ns k).
  { unfold windowsTimestampToTime, epochDelta. destruct (Z.eqb_spec (bpf_ktime_get_ns k) 0); [lia|].
    assert (Hid : forall z, - 2 ^ 63 <= z < 2 ^ 63 -> to_s 64 z = z).
    { intros z Hz. unfold to_s. destruct (Z.le_gt_cases 0 z).
      - rewrite Z.mod_small by lia. by destruct (Z.ltb_spec z (2 ^ (64 - 1))); [|lia].
      - rewrite <- (Z.mod_unique z (2 ^ 64) (-1) (z + 2 ^ 64)) by lia.
        by destruct (Z.ltb_spec (z + 2 ^ 64) (2 ^ (64 - 1))); lia. }
    rewrite (Hid (bpf_ktime_get_ns k)), (Hid (_ - _)) by lia. unfold to_s.
    rewrite <- (Z.mod_unique ((bpf_ktime_get_ns k - 116444736000000000) * 100) (2 ^ 64) (-1)
      (6802270473709551616 + 100 * bpf_ktime_get_ns k)) by lia.
    destruct (Z.ltb_spec (6802270473709551616 + 100 * bpf_ktime_get_ns k) (2 ^ (64 - 1))); lia. }
  unfold parseEBPFEvent, len_ok. rewrite Hl, E1, E2, E3, Hts.
  destruct c; eexists; (split; [reflexivity|]); unfold parseProcessEvent, parseFileEvent, parseNetworkEvent;
    try case_match; reflexivity.
Qed.

(** ** Rules of the daemon *)

Lemma check_policy_at pid k :
  check_policy pid k = match map_contents k WinCommon.policy_map (le_bytes 4 pid) with
                       | Some v => if le_val v =? WinCommon.ACTION_DENY then 1 else 0
                       | None => 0
                       end.
Proof.
  unfold check_policy, bpf_map_lookup_elem, vload, default.
  destruct (map_contents k WinCommon.policy_map (le_bytes 4 pid)) eqn:E; cbn [vp_map vp_key];
    by rewrite ?E.
Qed.

(** The key a rule is stored under. *)
Definition rule_key (cgroupID eventType : Z) (pattern : list Z) : Z :=
  if eventType =? 1 then hashPattern pattern else to_u32 cgroupID.

Lemma set_deny_effect api cgroupID et pat k k' :
  0 <= et <= 2 -> WinLoader.SetRule api cgroupID et pat ActionDeny false k = (None, k') ->
  map_contents k' WinCommon.policy_map (le_bytes 4 (rule_key cgroupID et pat)) = Some [1] /\
  (forall key, key <> le_bytes 4 (rule_key cgroupID et pat) ->
     map_contents k' WinCommon.policy_map key = map_contents k WinCommon.policy_map key) /\
  kernel_env k' = kernel_env k.
Proof.
  intros Het. unfold WinLoader.SetRule. destruct (has_policy_map api); cbn [negb]; [|done].
  assert (Hk : (if et =? 0 then Some (to_u32 cgroupID) else if et =? 1 then Some (hashPattern pat)
    else if et =? 2 then Some (to_u32 cgroupID) else None) = Some (rule_key cgroupID et pat)).
  { unfold rule_key. destruct (Z.eqb_spec et 0); [by subst|].
    destruct (Z.eqb_spec et 1); [done|]. destruct (Z.eqb_spec et 2); [done|lia]. }
  rewrite Hk. change (ActionDeny =? 0) with false. cbv iota. unfold updateMapEntry.
  destruct (has_update api); cbn [negb]; [|done]. set (key := rule_key cgroupID et pat).
  pose proof (update_same WinCommon.policy_map (le_bytes 4 key) (le_bytes 1 ActionDeny) k) as Hs.
  pose proof (update_code WinCommon.policy_map (le_bytes 4 key) (le_bytes 1 ActionDeny) k) as Hc.
  pose proof (env_update WinCommon.policy_map (le_bytes 4 key) (le_bytes 1 ActionDeny) k) as He.
  pose proof (fun key' => update_other WinCommon.policy_map (le_bytes 4 key) (le_bytes 1 ActionDeny)
    WinCommon.policy_map key' k) as Hu.
  destruct (map_update_elem _ _ _ k) as [ret k1]; cbn [fst snd] in *.
  destruct (Z.ltb_spec ret 0); [done|]. intros [= <-].
  split_and!; [apply Hs; lia| |done]. intros key' Hne. apply Hu. congruence.
Qed.

(** A deny rule the daemon sets for a process or network event blocks that
    process: after a successful SetRule for a process id, every Windows program
    run by that process returns 0, and no other process is affected. *)
Lemma windows_rule_blocks_process api pid et pat c k k' :
  et = 0 \/ et = 2 -> is_u 32 pid ->
  WinLoader.SetRule api pid et pat ActionDeny false k = (None, k') ->
  (task_pid k' = pid -> (run_win c k').1.1 = 0) /\
  (forall p, is_u 32 p -> p <> pid -> check_policy p k' = check_policy p k).
Proof.
  intros Het Hp Hs. destruct (set_deny_effect api pid et pat k k' ltac:(lia) Hs) as (Hk & Ho & He).
  assert (Hr : rule_key pid et pat = pid).
  { unfold rule_key. destruct (Z.eqb_spec et 1); [lia|]. by apply to_u_id. }
  rewrite Hr in *. split.
  - intros Ht. rewrite run_win_eq. unfold win_hook, win_denied. fold (task_pid k').
    rewrite Ht, to_u_id, check_policy_at, Hk by done. done.
  - intros p Hu Hne. rewrite !check_policy_at, Ho; [done|].
    intros E. apply Hne. by apply (le_bytes_inj 4).
Qed.

(** A deny rule for a file pattern does not deny the file: it is stored under the
    hash of the pattern, which the programs compare with process ids, so it blocks
    the process whose id equals the hash and changes nothing for any other. *)
Lemma windows_file_rule_keys_a_pid api cgroupID pat k k' :
  WinLoader.SetRule api cgroupID 1 pat ActionDeny false k = (None, k') ->
  check_policy (hashPattern pat) k' = 1 /\
  (forall p, is_u 32 p -> p <> hashPattern pat -> check_policy p k' = check_policy p k).
Proof.
  intros Hs. destruct (set_deny_effect api cgroupID 1 pat k k' ltac:(lia) Hs) as (Hk & Ho & He).
  change (rule_key cgroupID 1 pat) with (hashPattern pat) in *. split.
  - by rewrite check_policy_at, Hk.
  - intros p Hu Hne. rewrite !check_policy_at, Ho; [done|]. intros E. apply Hne.
    apply (le_bytes_inj 4); [done| |done]. apply (Fnv.fnv1a_range pat).
Qed.
End WinFacts.

(** ** Witnesses *)

Definition demo_api : WinApi := MkWinApi true true true (fun code => code =? ENOENT).
Definition demo_sockops : list Z :=
  le_bytes 4 0 ++ le_bytes 4 2 ++ [10; 0; 0; 1] ++ [10; 0; 0; 2] ++ replicate 32 0 ++
  le_bytes 4 (443 * 2 ^ 16) ++ le_bytes 4 50000 ++ le_bytes 4 6 ++ le_bytes 4 0.

Lemma windows_blocks_iff_witness :
  let k := (WinLoader.SetRule demo_api 1000 0 [] ActionDeny false (demo 1)).2 in
  (run_win (WinNetworkHook demo_sockops) k).1 = (0, take 60 demo_sockops ++ [255; 255; 255; 255]) /\
  (run_win WinFileHook (demo 1)).1.1 = 1.
Proof.
  intros k. pose proof (windows_blocks_iff (WinNetworkHook demo_sockops) k) as Hb.
  pose proof (windows_blocks_iff WinFileHook (demo 1)) as Ha.
  destruct (run_win (WinNetworkHook demo_sockops) k) as [[v ctx] k'] eqn:E1, (run_win WinFileHook (demo 1)) as [[v2 ctx2] k2] eqn:E2.
  split.
  - destruct Hb as ([_ Hv] & Hctx & _). assert (v = 0) as -> by (apply Hv; exists [1]; split; vm_compute; reflexivity).
    destruct (Hctx eq_refl) as [_ Hc]. by rewrite (Hc demo_sockops eq_refl eq_refl).
  - destruct Ha as ([Hv _] & _ & Hal). apply Hal. intros ->. destruct (Hv eq_refl) as (w & Hw & _). vm_compute in Hw. discriminate Hw.
Defined.

Lemma windows_payload_dropped_witness :
  parseEBPFEvent 0 (win_fill (WinNetworkHook demo_sockops) (demo 1) (replicate 68 stale_byte)) =
    let base := MkBase EventTypeNetwork 1000 (windowsTimestampToTime 0 123456789) in
    Some (MkApiEvent base [] [] None None (Some (MkNetwork base [] [] 0 0 [] []))).
Proof.
  rewrite (windows_payload_dropped 0 (WinNetworkHook demo_sockops) (demo 1) (replicate 68 stale_byte) eq_refl).
  vm_compute. reflexivity.
Defined.

Lemma bpf_windows_image_name_lost_witness :
  ldb BpfWinProcess.process_event ["image_name"]
    (BpfWinProcess.fill_process_event (demo 1) (replicate 800 stale_byte)) <> replicate 256 0 /\
  exists ts, parseEBPFEvent 0 (BpfWinProcess.fill_process_event (demo 1) (replicate 800 stale_byte)) =
    Some (let base := MkBase EventTypeProcess (task_pid (demo 1)) ts in
          MkApiEvent base [] [] (Some (MkProcess base [])) None None).
Proof.
  split; [vm_compute; discriminate|].
  apply (bpf_windows_image_name_lost 0 (demo 1) (replicate 800 stale_byte)). reflexivity.
Defined.

Lemma windows_timestamp_misread_witness :
  exists ev, parseEBPFEvent 0 (win_fill WinFileHook (demo 1) (replicate 540 stale_byte)) = Some ev /\
    ae_Timestamp ev = 6802270486055230516.
Proof.
  destruct (windows_timestamp_misread 0 WinFileHook (demo 1) (replicate 540 stale_byte)) as (ev & He & Ht).
  - reflexivity.
  - vm_compute. split; reflexivity.
  - exists ev. split; [exact He|]. rewrite Ht. vm_compute. reflexivity.
Defined.

Lemma windows_rule_blocks_process_witness :
  (run_win WinProcessHook
     (WinLoader.SetRule demo_api 1000 0 [] ActionDeny false (demo 1)).2).1.1 = 0.
Proof.
  destruct (windows_rule_blocks_process demo_api 1000 0 [] WinProcessHook (demo 1)
    (WinLoader.SetRule demo_api 1000 0 [] ActionDeny false (demo 1)).2) as [Hb _].
  - left. reflexivity.
  - split; [discriminate|reflexivity].
  - vm_compute. reflexivity.
  - apply Hb. vm_compute. reflexivity.
Defined.

Lemma windows_file_rule_keys_a_pid_witness :
  let k' := (WinLoader.SetRule demo_api 0 1 (bstr "C:\secret.txt") ActionDeny false (demo 1)).2 in
  check_policy (hashPattern (bstr "C:\secret.txt")) k' = 1 /\ check_policy 1000 k' = 0.
Proof.
  intros k'.
  destruct (windows_file_rule_keys_a_pid demo_api 0 (bstr "C:\secret.txt") (demo 1) k') as [Hh Ho].
  - vm_compute. reflexivity.
  - split; [exact Hh|]. rewrite Ho; [vm_compute; reflexivity| |vm_compute; discriminate].
    split; [discriminate|reflexivity].
Defined.

Lemma bpf_windows_payload_misread_witness :
  exists ev fe, parseEBPFEvent 0 (BpfWinFile.fill_file_event (demo 1) (replicate 544 stale_byte)) = Some ev /\
    ae_File ev = Some fe /\ fe_Operation fe = bstr "open".
Proof.
  destruct (bpf_windows_payload_misread 0 (demo 1) (replicate 544 stale_byte) (replicate 72 stale_byte))
    as [(ev & fe & H1 & H2 & H3) _].
  - reflexivity.
  - reflexivity.
  - exists ev, fe. split; [exact H1|]. split; [exact H2|]. rewrite H3. vm_compute. reflexivity.
Defined.
