(* ===== verification/EsfBridge.v ===== *)
(** internal/platform/esf/bridge.c: the C bridge between Apple's Endpoint Security
    and the Go daemon on macOS.

    Endpoint Security and the exported Go function are code outside the
    repository's C: [EsApi] is their interface, over an abstract state [E] that
    holds the system's and the daemon's side.  The bridge itself keeps one static
    variable, [global_client]. *)

From S2P Require Import Prelude.

(** ** Interface *)

Inductive es_return_t : Type := ES_RETURN_SUCCESS | ES_RETURN_ERROR.
Inductive es_new_client_result_t : Type :=
  | ES_NEW_CLIENT_RESULT_SUCCESS | ES_NEW_CLIENT_RESULT_ERR (code : Z).
Inductive es_respond_result_t : Type :=
  | ES_RESPOND_RESULT_SUCCESS | ES_RESPOND_RESULT_ERR_INVALID_ARGUMENT
  | ES_RESPOND_RESULT_ERR (code : Z).

(** Pointers are addresses, NULL is 0.  [es_new_client] takes the old value of the
    client variable and gives its value after the call. *)
Class EsApi (E : Type) := {
  es_new_client : Z -> E -> es_new_client_result_t * Z * E;
  es_delete_client : Z -> E -> es_return_t * E;
  es_subscribe : Z -> Z -> Z -> E -> es_return_t * E;
  es_unsubscribe : Z -> Z -> Z -> E -> es_return_t * E;
  es_respond_auth_result : Z -> Z -> Z -> bool -> E -> es_respond_result_t * E;
  goEventHandler : Z -> E -> E;
  audit_token_to_pid : list Z -> Z;
  audit_token_to_euid : list Z -> Z;
  audit_token_to_egid : list Z -> Z;
}.

(** The members of the message structs the bridge reads; a pointer to a struct is
    an option, a string's data an address. *)
Record es_file_t : Type := EsFile { path_data : Z }.
Record es_process_t : Type := EsProcess { executable : option es_file_t }.
Record es_event_open_t : Type := EsOpen { open_file : option es_file_t }.
Record es_event_create_t : Type := EsCreate { new_path_dir : option es_file_t }.

(** ** The bridge *)

Record bridge (E : Type) : Type := Bridge { global_client : Z; es_state : E }.
Arguments Bridge {E}.
Arguments global_client {E}.
Arguments es_state {E}.

Section Esf.
Context {E : Type} `{EsApi E}.
Implicit Types (b : bridge E).

Definition event_handler (client message : Z) b : bridge E :=
  if message =? 0 then b
  else Bridge (global_client b) (goEventHandler message (es_state b)).

Definition create_esf_client (client : Z) b : es_new_client_result_t * Z * bridge E :=
  let '(result, client, e) := es_new_client client (es_state b) in
  match result with
  | ES_NEW_CLIENT_RESULT_SUCCESS => (result, client, Bridge client e)
  | _ => (result, client, Bridge (global_client b) e)
  end.

Definition delete_esf_client (client : Z) b : es_return_t * bridge E :=
  if negb (client =? 0)
  then (ES_RETURN_SUCCESS, Bridge 0 (es_delete_client client (es_state b)).2)
  else (ES_RETURN_SUCCESS, b).

Definition subscribe_events (client events count : Z) b : es_return_t * bridge E :=
  if (client =? 0) || (events =? 0) || (count =? 0) then (ES_RETURN_ERROR, b)
  else let '(r, e) := es_subscribe client events count (es_state b) in
       (r, Bridge (global_client b) e).

Definition unsubscribe_events (client events count : Z) b : es_return_t * bridge E :=
  if (client =? 0) || (events =? 0) || (count =? 0) then (ES_RETURN_ERROR, b)
  else let '(r, e) := es_unsubscribe client events count (es_state b) in
       (r, Bridge (global_client b) e).

Definition respond_auth (client message result : Z) (cache : bool) b : es_respond_result_t * bridge E :=
  if (client =? 0) || (message =? 0) then (ES_RESPOND_RESULT_ERR_INVALID_ARGUMENT, b)
  else let '(r, e) := es_respond_auth_result client message result cache (es_state b) in
       (r, Bridge (global_client b) e).

(** The path helpers; the result NULL is 0. *)
Definition get_process_path (process : option es_process_t) : Z :=
  match process with
  | None => 0
  | Some p =>
      match executable p with
      | None => 0
      | Some f => if path_data f =? 0 then 0 else path_data f
      end
  end.

Definition get_open_file_path (event : option es_event_open_t) : Z :=
  match event with
  | None => 0
  | Some e =>
      match open_file e with
      | None => 0
      | Some f => if path_data f =? 0 then 0 else path_data f
      end
  end.

Definition get_create_file_path (event : option es_event_create_t) : Z :=
  match event with
  | None => 0
  | Some e => match new_path_dir e with None => 0 | Some _ => 0 end
  end.

Definition get_pid_from_token (token : list Z) : Z := audit_token_to_pid token.
Definition get_uid_from_token (token : list Z) : Z := audit_token_to_euid token.
Definition get_gid_from_token (token : list Z) : Z := audit_token_to_egid token.

(** ** The life of clients *)

(** What the daemon and the system can do to the bridge; [live] are the clients
    created and not yet deleted. *)
Inductive bridge_step : bridge E * list Z -> bridge E * list Z -> Prop :=
  | step_create_ok cell c e' b live :
      es_new_client cell (es_state b) = (ES_NEW_CLIENT_RESULT_SUCCESS, c, e') ->
      bridge_step (b, live) ((create_esf_client cell b).2, c :: live)
  | step_create_err cell code c e' b live :
      es_new_client cell (es_state b) = (ES_NEW_CLIENT_RESULT_ERR code, c, e') ->
      bridge_step (b, live) ((create_esf_client cell b).2, live)
  | step_delete c b live :
      bridge_step (b, live) ((delete_esf_client c b).2, filter (fun c' => c' <> c) live)
  | step_subscribe c ev n b live :
      bridge_step (b, live) ((subscribe_events c ev n b).2, live)
  | step_unsubscribe c ev n b live :
      bridge_step (b, live) ((unsubscribe_events c ev n b).2, live)
  | step_respond c m r cache b live :
      bridge_step (b, live) ((respond_auth c m r cache b).2, live)
  | step_event c m b live :
      bridge_step (b, live) (event_handler c m b, live).

(** The global client is never a deleted one. *)
Definition bridge_inv (s : bridge E * list Z) : Prop :=
  global_client s.1 = 0 \/ global_client s.1 ∈ s.2.

Lemma bridge_step_inv s s' : bridge_inv s -> bridge_step s s' -> bridge_inv s'.
Proof.
  unfold bridge_inv. intros Hi Hs. destruct Hs; cbn [fst snd] in *.
  - unfold create_esf_client. rewrite H0. simpl. right. apply list_elem_of_here.
  - unfold create_esf_client. by rewrite H0.
  - unfold delete_esf_client. destruct (Z.eqb_spec c 0) as [->|]; simpl; [|by left].
    destruct (Z.eq_dec (global_client b) 0); [by left|right].
    apply list_elem_of_filter. destruct Hi; [done|]. auto.
  - unfold subscribe_events. case_match; [done|]. by destruct (es_subscribe _ _ _ _).
  - unfold unsubscribe_events. case_match; [done|]. by destruct (es_unsubscribe _ _ _ _).
  - unfold respond_auth. case_match; [done|]. by destruct (es_respond_auth_result _ _ _ _ _).
  - unfold event_handler. by case_match.
Qed.

(** C39: in every state reachable from start-up, through any order of creating,
    deleting, subscribing, answering and event delivery, the bridge's global
    client is NULL or a client that was created and not deleted since.  The calls do
    not overlap: inside a call that deletes the client, between the two statements of
    [delete_esf_client], the variable still holds it. *)
Theorem esf_global_client_live e0 s :
  rtc bridge_step (Bridge 0 e0, []) s -> bridge_inv s.
Proof.
  intros Hr. assert (Hi : bridge_inv (Bridge 0 e0, [])) by (by left). revert Hi.
  induction Hr as [s|s1 s2 s3 Hs _ IH]; [done|]. intros Hi. apply IH. by eapply bridge_step_inv.
Qed.

(** The guards of the bridge: calls with a NULL client, message or event list, or
    with a zero count, are rejected with the invalid-argument result of their
    function and reach neither Endpoint Security nor the daemon; every other call
    is passed on unchanged and its result returned, and deleting a client always
    reports success. *)
Lemma esf_guards client message events count result cache b :
  (if bool_decide (client <> 0 /\ events <> 0 /\ count <> 0)
   then (subscribe_events client events count b).1 = (es_subscribe client events count (es_state b)).1 /\
        es_state (subscribe_events client events count b).2 =
          (es_subscribe client events count (es_state b)).2 /\
        (unsubscribe_events client events count b).1 =
          (es_unsubscribe client events count (es_state b)).1
   else subscribe_events client events count b = (ES_RETURN_ERROR, b) /\
        unsubscribe_events client events count b = (ES_RETURN_ERROR, b)) /\
  (if bool_decide (client <> 0 /\ message <> 0)
   then (respond_auth client message result cache b).1 =
          (es_respond_auth_result client message result cache (es_state b)).1
   else respond_auth client message result cache b = (ES_RESPOND_RESULT_ERR_INVALID_ARGUMENT, b)) /\
  event_handler client message b =
    (if bool_decide (message <> 0)
     then Bridge (global_client b) (goEventHandler message (es_state b)) else b) /\
  (delete_esf_client client b).1 = ES_RETURN_SUCCESS.
Proof.
  unfold subscribe_events, unsubscribe_events, respond_auth, event_handler, delete_esf_client.
  split_and!.
  - destruct (Z.eqb_spec client 0), (Z.eqb_spec events 0), (Z.eqb_spec count 0); simpl;
      case_bool_decide; try tauto.
    destruct (es_subscribe _ _ _ _), (es_unsubscribe _ _ _ _); done.
  - destruct (Z.eqb_spec client 0), (Z.eqb_spec message 0); simpl; case_bool_decide; try tauto.
    by destruct (es_respond_auth_result _ _ _ _ _).
  - destruct (Z.eqb_spec message 0); by case_bool_decide.
  - by destruct (negb _).
Qed.

(** The path helpers follow exactly the pointers that are there: a process or an
    open event yields its path when every pointer on the way is set and NULL
    otherwise, while a create event never yields a path. *)
Lemma esf_paths p o c :
  get_process_path p = default 0 (path_data <$> (p ≫= executable)) /\
  get_open_file_path o = default 0 (path_data <$> (o ≫= open_file)) /\
  get_create_file_path c = 0.
Proof.
  split_and!.
  - destruct p as [[[f|]]|]; simpl; try done. by destruct (Z.eqb_spec (path_data f) 0).
  - destruct o as [[[f|]]|]; simpl; try done. by destruct (Z.eqb_spec (path_data f) 0).
  - by destruct c as [[[f|]]|].
Qed.
End Esf.

(** ** Witness: a system that hands out client addresses in order *)

#[export] Instance CountingEs : EsApi Z := {
  es_new_client _ n := (ES_NEW_CLIENT_RESULT_SUCCESS, 4096 + 16 * n, n + 1);
  es_delete_client _ n := (ES_RETURN_SUCCESS, n);
  es_subscribe _ _ _ n := (ES_RETURN_SUCCESS, n);
  es_unsubscribe _ _ _ n := (ES_RETURN_SUCCESS, n);
  es_respond_auth_result _ _ _ _ n := (ES_RESPOND_RESULT_SUCCESS, n);
  goEventHandler _ n := n;
  audit_token_to_pid token := le_val (slice 20 4 token);
  audit_token_to_euid token := le_val (slice 4 4 token);
  audit_token_to_egid token := le_val (slice 8 4 token);
}.

Lemma esf_global_client_live_witness :
  let b := (create_esf_client 0 (Bridge 0 0)).2 in
  global_client b = 4096 /\ bridge_inv (b, [4096]).
Proof.
  split; [reflexivity|]. apply (esf_global_client_live 0).
  eapply rtc_l; [eapply (step_create_ok 0); reflexivity|]. apply rtc_refl.
Defined.
