(* ===== verification/Layout.v ===== *)
(** Layout of every struct the programs share with the kernel or with userspace.

    The soundness of the layout rule of [CTypes.v], instantiated at the kernel
    types of vmlinux.h and at the structs the warmor sources declare; and that the
    two declarations of a shared struct, in C and in Go or in the programs and in the
    kernel, read the same bytes. *)

From S2P Require Import Prelude CTypes VmlinuxTypes WarmorLsm LsmConnect LsmBind TracepointDefs.
From S2P Require Import ExecveMonitor OpenatMonitor ConnectMonitor GoPolicyMap GoEvents.
From S2P Require Import WinCommon WinNetwork BpfWindows WinLoader.

(** What a sound layout of a struct or union is: members inside the object,
    struct members in order without overlap, naturally aligned members unless
    packed, and a size that keeps an array of the type aligned. *)
Definition layout_ok (t : ctype) : Prop :=
  match t with
  | CRec is_union packed al fs =>
      let sl := placed is_union packed fs 0 in
      (forall x, x ∈ sl -> 0 <= sl_off x <= sl_end x /\ sl_end x <= 8 * sizeof t) /\
      (is_union = false -> forall i j x y, (i < j)%nat -> sl !! i = Some x -> sl !! j = Some y ->
         sl_end x <= sl_off y) /\
      (packed = false -> forall x, x ∈ sl -> sl_bits x = None ->
         sl_off x mod (8 * alignof (sl_type x)) = 0) /\
      sizeof t mod alignof t = 0
  | _ => False
  end.

(** Members of a struct are placed in order. *)
Lemma placed_ordered fs p pos i j x y :
  wf_fields fs = true -> 0 <= pos -> (i < j)%nat ->
  placed false p fs pos !! i = Some x -> placed false p fs pos !! j = Some y ->
  sl_end x <= sl_off y.
Proof.
  revert pos i j. induction fs as [|nm b t r IH]; intros pos i j Hwf Hpos Hij Hi Hj; [done|].
  pose proof Hwf as (Ht & Hr & Hb)%wf_fields_cons.
  pose proof (member_bounds p b t pos Ht Hb) as [H1 H2]. cbn [placed] in Hi, Hj.
  set (off := place _ _ _ _ _) in *.
  destruct j as [|j]; [lia|]. simpl in Hj. destruct i as [|i]; simpl in Hi.
  - simplify_eq. unfold sl_end; simpl. apply list_elem_of_lookup_2 in Hj.
    apply placed_bounds in Hj as [Hlo _]; [exact Hlo|done|lia].
  - apply (IH (off + bit_width b (sizeof t)) i j); auto; lia.
Qed.

Lemma placed_aligned fs u pos x :
  wf_fields fs = true -> x ∈ placed u false fs pos -> sl_bits x = None ->
  sl_off x mod (8 * alignof (sl_type x)) = 0.
Proof.
  revert pos. induction fs as [|nm b t r IH]; intros pos Hwf; [by rewrite elem_of_nil|].
  apply wf_fields_cons in Hwf as (Ht & Hr & _). cbn [placed]. rewrite elem_of_cons.
  intros [->|Hx]; [|by eapply IH]. simpl. intros ->.
  apply (place_None_aligned false). by apply alignof_pos.
Qed.

Lemma wf_layout_ok u p al fs : wf_ctype (CRec u p al fs) = true -> layout_ok (CRec u p al fs).
Proof.
  intros Hwf. pose proof (rec_end_le u p al fs Hwf) as He. pose proof (alignof_pos _ Hwf) as Ha.
  assert (Hfs : wf_fields fs = true) by (simpl in Hwf; by apply andb_prop in Hwf as []).
  split_and!.
  - intros x Hx. apply placed_bounds in Hx as [Hlo Hhi]; [|done|lia].
    split; [destruct u; lia|]. lia.
  - intros -> i j x y. by apply placed_ordered.
  - intros -> x. by apply placed_aligned.
  - simpl in Ha |- *. by apply align_up_mod.
Qed.

(** The structs the warmor sources declare. *)
Definition warmor_structs : list ctype := [
  policy_key; policy_value; warmor_event;
  LsmConnect.sockaddr_in; LsmConnect.sockaddr_in6; LsmBind.sockaddr_in; LsmBind.sockaddr_in6;
  trace_event_raw_sys_enter; trace_event_raw_sys_exit;
  execve_event; OpenatMonitor.file_event; ConnectMonitor.network_event;
  ConnectMonitor.sockaddr; ConnectMonitor.sockaddr_in; ConnectMonitor.sockaddr_in6;
  WinCommon.event_header; WinCommon.process_event; WinCommon.file_event; WinCommon.network_event;
  bpf_sock_ops; BpfWinProcess.process_event; BpfWinFile.file_event; BpfWinNetwork.network_event].

Definition is_record (t : ctype) : bool := match t with CRec _ _ _ _ => true | _ => false end.

Lemma layout_ok_check ts :
  forallb (fun t => is_record t && wf_ctype t) ts = true -> Forall layout_ok ts.
Proof.
  rewrite forallb_forall, Forall_forall. intros Hc t Ht%list_elem_of_In.
  specialize (Hc t Ht). apply andb_prop in Hc as [Hr Hw]. destruct t; try done. by apply wf_layout_ok.
Qed.

(** Every struct of the programs and every kernel type has a sound layout. *)
Lemma struct_layouts_sound : Forall layout_ok (kernel_types ++ warmor_structs).
Proof. apply layout_ok_check. vm_compute. reflexivity. Qed.

(** ** Both sides of a struct *)

(** A struct of a program, the struct that the other side reads or writes at the same
    bytes, and which members correspond. *)
Record shared : Type := MkShared {
  sh_c : ctype;
  sh_other : ctype;
  sh_members : list (list string * list string);
}.

Definition at_top (l : list (string * string)) : list (list string * list string) :=
  (fun '(a, b) => ([a], [b])) <$> l.

(** What the daemon decodes from ring buffers and stores into the policy map. *)
Definition go_structs : list shared := [
  MkShared execve_event ExecveEvent (at_top
    [("pid", "PID"); ("uid", "UID"); ("gid", "GID"); ("comm", "Comm"); ("filename", "Filename");
     ("timestamp", "Timestamp"); ("cgroup_id", "CgroupID")]);
  MkShared OpenatMonitor.file_event OpenatEvent (at_top
    [("pid", "PID"); ("uid", "UID"); ("gid", "GID"); ("comm", "Comm"); ("path", "Path"); ("flags", "Flags");
     ("mode", "Mode"); ("timestamp", "Timestamp"); ("cgroup_id", "CgroupID")]);
  MkShared ConnectMonitor.network_event ConnectEvent (at_top
    [("pid", "PID"); ("uid", "UID"); ("gid", "GID"); ("comm", "Comm"); ("family", "Family");
     ("remote_port", "RemotePort"); ("remote_addr_v4", "RemoteAddrV4"); ("remote_addr_v6", "RemoteAddrV6");
     ("timestamp", "Timestamp"); ("cgroup_id", "CgroupID")]);
  MkShared warmor_event LSMEvent (at_top
    [("pid", "PID"); ("uid", "UID"); ("gid", "GID"); ("comm", "Comm"); ("filename", "Filename");
     ("timestamp", "Timestamp"); ("cgroup_id", "CgroupID"); ("event_type", "EventType"); ("decision", "Decision");
     ("remote_port", "RemotePort"); ("remote_addr_v4", "RemoteAddrV4"); ("remote_addr_v6", "RemoteAddrV6")]);
  MkShared policy_value PolicyValue (at_top
    [("action", "Action"); ("audit", "Audit"); ("pad", "Pad"); ("hit_count", "HitCount")])].

(** What the programs declare themselves instead of including the kernel's declaration, and
    the three declarations of the socket addresses. *)
Definition kernel_structs : list shared := [
  MkShared trace_event_raw_sys_enter struct_trace_event_raw_sys_enter (at_top [("id", "id"); ("args", "args")]);
  MkShared trace_event_raw_sys_exit struct_trace_event_raw_sys_exit (at_top [("id", "id"); ("ret", "ret")]);
  MkShared ConnectMonitor.sockaddr struct_sockaddr (at_top [("sa_family", "sa_family"); ("sa_data", "sa_data")]);
  MkShared ConnectMonitor.sockaddr_in LsmConnect.sockaddr_in
    [(["sin_family"], ["sin_family"]); (["sin_port"], ["sin_port"]); (["sin_addr"; "s_addr"], ["sin_addr"])];
  MkShared ConnectMonitor.sockaddr_in6 LsmConnect.sockaddr_in6
    [(["sin6_family"], ["sin6_family"]); (["sin6_port"], ["sin6_port"]); (["sin6_flowinfo"], ["sin6_flowinfo"]);
     (["sin6_addr"; "s6_addr"], ["sin6_addr"])];
  MkShared LsmConnect.sockaddr_in LsmBind.sockaddr_in (at_top
    [("sin_family", "sin_family"); ("sin_port", "sin_port"); ("sin_addr", "sin_addr")]);
  MkShared LsmConnect.sockaddr_in6 LsmBind.sockaddr_in6 (at_top
    [("sin6_family", "sin6_family"); ("sin6_port", "sin6_port"); ("sin6_flowinfo", "sin6_flowinfo");
     ("sin6_addr", "sin6_addr")])].

(** The named members of a struct; Go writes the blank identifier for padding. *)
Definition member_names (t : ctype) : list string :=
  match t with
  | CRec u p _ fs => filter (fun n => n <> "_") (sl_name <$> placed u p fs 0)
  | _ => []
  end.

(** The other side, reading its own struct from the first bytes of an object, finds in each
    of its members the bytes of the corresponding one. *)
Definition reads_alike (x : shared) (bytes : list Z) : Prop :=
  exists e, binary_Read (sh_other x) bytes = Some e /\
    Forall (fun '(p, q) => ldb (sh_other x) q e = ldb (sh_c x) p bytes) (sh_members x).

Definition check_alike (x : shared) : bool :=
  (sizeof (sh_other x) <=? sizeof (sh_c x)) &&
  forallb (fun '(p, q) => same_member (sh_other x) q (sh_c x) p && fits (sh_other x) q) (sh_members x).

Lemma ldb_prefix t p bs : fits t p = true -> ldb t p (take (Z.to_nat (sizeof t)) bs) = ldb t p bs.
Proof.
  intros Hf%fits_spec. unfold ldb, slice. rewrite !take_drop_commute, take_take. do 2 f_equal. lia.
Qed.

Lemma check_alike_reads x bytes : check_alike x = true -> obj (sh_c x) bytes -> reads_alike x bytes.
Proof.
  intros [Hs%Z.leb_le Hm]%andb_prop Ho. unfold obj in Ho.
  exists (take (Z.to_nat (sizeof (sh_other x))) bytes). split; [apply binary_Read_ok; lia|].
  rewrite forallb_forall in Hm. apply Forall_forall. intros [p q] Hin%list_elem_of_In. specialize (Hm _ Hin).
  apply andb_prop in Hm as [Hm Hf]. by rewrite ldb_prefix, (ldb_same _ q (sh_c x) p).
Qed.

Lemma checked_read_alike xs x bytes :
  forallb check_alike xs = true -> x ∈ xs -> obj (sh_c x) bytes -> reads_alike x bytes.
Proof. rewrite forallb_forall. intros Hc Hx%list_elem_of_In. by apply check_alike_reads, Hc. Qed.

(** C40: the two sides of every struct that programs and daemon share mean the same bytes.
    Whatever bytes an object of a C struct has, the daemon's struct for it (a Go struct
    filled by binary.Read without padding, or laid out by the Go compiler for the map value)
    reads from them in each of its members exactly the bytes of the member of that name on
    the C side, and the correspondence leaves out no named member of either side; the bytes
    to which the daemon marshals a key are those of the C key with these members.  Likewise
    the structs that the programs declare on their own read what the kernel's declarations
    in vmlinux.h, and the other programs' declarations, have at those bytes: number,
    arguments and result of a system call, family, port and address of a socket address. *)
Theorem shared_structs_agree x bytes :
  x ∈ go_structs ++ kernel_structs -> obj (sh_c x) bytes ->
  reads_alike x bytes /\
  (x ∈ go_structs -> (sh_members x).*1 = (fun n => [n]) <$> member_names (sh_c x) /\
     (sh_members x).*2 = (fun n => [n]) <$> member_names (sh_other x)) /\
  (forall cgroup hash type pad, is_u 64 cgroup -> is_u 32 hash -> is_u 8 type ->
     let key := MarshalBinary (MkPolicyKey cgroup hash type pad) in
     obj policy_key key /\ ld policy_key ["cgroup_id"] key = cgroup /\ ld policy_key ["rule_hash"] key = hash /\
     ld policy_key ["event_type"] key = type /\ ldb policy_key ["pad"] key = [0; 0; 0]).
Proof.
  intros Hx Ho. split_and!.
  - apply (checked_read_alike (go_structs ++ kernel_structs)); [vm_compute; reflexivity|done|done].
  - clear Hx Ho. revert x. apply Forall_forall. repeat constructor; vm_compute; reflexivity.
  - intros cgroup hash type pad Hc Hh Ht key. subst key. rewrite MarshalBinary_key. unfold mk_policy_key.
    split_and!; [lay|stored..|]. rewrite !ldb_st_ne by reflexivity. reflexivity.
Qed.

(** A record of the exec monitor whose bytes count up. *)
Definition demo_record : list Z := (fun n => Z.of_nat n mod 256) <$> seq 0 304.

Lemma shared_structs_agree_witness :
  exists e, binary_Read ExecveEvent demo_record = Some e /\ ldb ExecveEvent ["CgroupID"] e = [40; 41; 42; 43; 44; 45; 46; 47].
Proof.
  destruct (shared_structs_agree
    (MkShared execve_event ExecveEvent (at_top
      [("pid", "PID"); ("uid", "UID"); ("gid", "GID"); ("comm", "Comm"); ("filename", "Filename");
       ("timestamp", "Timestamp"); ("cgroup_id", "CgroupID")])) demo_record) as ((e & He & Hm) & _).
  - left.
  - vm_compute. reflexivity.
  - exists e. split; [exact He|]. do 6 (apply Forall_cons in Hm as [_ Hm]).
    apply Forall_cons in Hm as [Hk _]. cbn beta iota in Hk. etransitivity; [exact Hk|].
    vm_compute. reflexivity.
Defined.
