(* ===== verification/Sha256.v ===== *)
(** crypto/sha256 and encoding/hex of the Go standard library, as the decision
    cache uses them: SHA-256 of a byte string (FIPS 180-4), on [Z] words of 32
    bits, and lower-case hexadecimal. *)

From S2P Require Import Prelude GoEvents.

Module Sha256.
Definition rotr (n x : Z) : Z := Z.lor (Z.shiftr x n) (to_u32 (Z.shiftl x (32 - n))).
Definition not32 (x : Z) : Z := Z.lxor x 4294967295.

Definition ch (x y z : Z) : Z := Z.lxor (Z.land x y) (Z.land (not32 x) z).
Definition maj (x y z : Z) : Z := Z.lxor (Z.lxor (Z.land x y) (Z.land x z)) (Z.land y z).
Definition big0 (x : Z) : Z := Z.lxor (Z.lxor (rotr 2 x) (rotr 13 x)) (rotr 22 x).
Definition big1 (x : Z) : Z := Z.lxor (Z.lxor (rotr 6 x) (rotr 11 x)) (rotr 25 x).
Definition small0 (x : Z) : Z := Z.lxor (Z.lxor (rotr 7 x) (rotr 18 x)) (Z.shiftr x 3).
Definition small1 (x : Z) : Z := Z.lxor (Z.lxor (rotr 17 x) (rotr 19 x)) (Z.shiftr x 10).

Definition round_constants : list Z := [
  1116352408; 1899447441; 3049323471; 3921009573; 961987163; 1508970993; 2453635748; 2870763221;
  3624381080; 310598401; 607225278; 1426881987; 1925078388; 2162078206; 2614888103; 3248222580;
  3835390401; 4022224774; 264347078; 604807628; 770255983; 1249150122; 1555081692; 1996064986;
  2554220882; 2821834349; 2952996808; 3210313671; 3336571891; 3584528711; 113926993; 338241895;
  666307205; 773529912; 1294757372; 1396182291; 1695183700; 1986661051; 2177026350; 2456956037;
  2730485921; 2820302411; 3259730800; 3345764771; 3516065817; 3600352804; 4094571909; 275423344;
  430227734; 506948616; 659060556; 883997877; 958139571; 1322822218; 1537002063; 1747873779;
  1955562222; 2024104815; 2227730452; 2361852424; 2428436474; 2756734187; 3204031479; 3329325298].

Definition initial : list Z :=
  [1779033703; 3144134277; 1013904242; 2773480762; 1359893119; 2600822924; 528734635; 1541459225].

(** The padded message: a one bit, zeros up to 56 modulo 64 bytes, the length in bits. *)
Definition padded (msg : list Z) : list Z :=
  let zeros := Z.to_nat ((55 - Z.of_nat (length msg)) mod 64) in
  msg ++ [128] ++ replicate zeros 0 ++ be_bytes 8 (8 * Z.of_nat (length msg)).

Fixpoint words (n : nat) (bs : list Z) : list Z :=
  match n with O => [] | S n' => be_val (take 4 bs) :: words n' (drop 4 bs) end.

(** The message schedule, most recent word first. *)
Fixpoint schedule (n : nat) (w : list Z) : list Z :=
  match n with
  | O => w
  | S n' =>
      let nth i := List.nth i w 0 in
      schedule n' (to_u32 (small1 (nth 1%nat) + nth 6%nat + small0 (nth 14%nat) + nth 15%nat) :: w)
  end.

Definition compress (s : list Z) (kw : Z * Z) : list Z :=
  match s with
  | [a; b; c; d; e; f; g; h] =>
      let t1 := h + big1 e + ch e f g + kw.1 + kw.2 in
      let t2 := big0 a + maj a b c in
      [to_u32 (t1 + t2); a; b; c; to_u32 (d + t1); e; f; g]
  | _ => s
  end.

Definition block (h : list Z) (bs : list Z) : list Z :=
  let w := rev (schedule 48 (rev (words 16 bs))) in
  zip_with (fun x y => to_u32 (x + y)) h (foldl compress h (zip round_constants w)).

(** [n] is the number of blocks. *)
Fixpoint blocks (n : nat) (h : list Z) (bs : list Z) : list Z :=
  match n with O => h | S n' => blocks n' (block h (take 64 bs)) (drop 64 bs) end.

Definition Sum (msg : list Z) : list Z :=
  let bs := padded msg in
  flat_map (be_bytes 4) (blocks (length bs / 64) initial bs).
End Sha256.

(** [hex.EncodeToString]. *)
Definition hex_EncodeToString (bs : list Z) : list Z :=
  flat_map (fun b => [digit (b / 16); digit (b mod 16)]) bs.

(** The test vectors of FIPS 180-4: the empty message, "abc" and a two-block one. *)
Example sha256_empty : hex_EncodeToString (Sha256.Sum []) =
  bstr "e3b0c44298fc1c149afbf4c8996fb92427ae41e4649b934ca495991b7852b855".
Proof. vm_compute. reflexivity. Qed.

Example sha256_abc : hex_EncodeToString (Sha256.Sum (bstr "abc")) =
  bstr "ba7816bf8f01cfea414140de5dae2223b00361a396177a9cb410ff61f20015ad".
Proof. vm_compute. reflexivity. Qed.

Example sha256_two_blocks :
  hex_EncodeToString (Sha256.Sum (bstr "abcdbcdecdefdefgefghfghighijhijkijkljklmklmnlmnomnopnopq")) =
  bstr "248d6a61d20638b8e5c026930c3e6039a33ce45964ff2167f6ecedd419db06c1".
Proof. vm_compute. reflexivity. Qed.
