(* ===== verification/GoCache.v ===== *)
(** internal/cache/cache.go: the cache of policy decisions.

    The cache maps a key made of the event's type, process, user and a truncated
    digest of its subject to a pointer to a decision with an expiry time.  The
    decisions live in a heap the caller shares (the enforcer changes a decision
    after storing it), so an entry holds a pointer and [Get] copies what it points
    to.  The clock is an argument; the order in which an iteration visits the
    keys of the Go map is an argument of the eviction. *)

From S2P Require Import Prelude GoEvents GoApi Sha256.

(** ** State *)

(** Decisions by address; a pointer is [None] when nil. *)
Abbreviation pointer := (option Z).
Abbreviation heap := (gmap Z ActionResult).

Definition deref (h : heap) (p : pointer) : go ActionResult :=
  match p ≫= (fun a => h !! a) with
  | Some r => Ret r
  | None => Panic "nil pointer dereference"
  end.

Record CacheEntry : Type := MkCacheEntry {
  Result : pointer;
  ExpiresAt : Z;
  HitCount : Z;
}.

Record DecisionCache : Type := MkDecisionCache {
  entries : gmap (list Z) CacheEntry;
  maxSize : Z;
  ttl : Z;
}.

Record CacheStats : Type := MkCacheStats {
  Size : Z;
  MaxSize : Z;
  TotalHits : Z;
}.

Definition with_entries (m : gmap (list Z) CacheEntry) (c : DecisionCache) : DecisionCache :=
  MkDecisionCache m (maxSize c) (ttl c).

(** ** Operations *)

Definition NewDecisionCache (maxSize ttl : Z) : DecisionCache := MkDecisionCache ∅ maxSize ttl.

(** [%d] of a 32-bit value. *)
Definition dec32 (n : Z) : list Z := dec_digits 10 n [].

(** What the digest of the key covers. *)
Definition key_subject (event : ApiEvent) : list Z :=
  match GetType event with
  | EventTypeFile =>
      match ae_File event with
      | Some f => fe_Path f
      | None => ae_Filename event
      end
  | EventTypeNetwork =>
      match ae_Network event with
      | Some n => ne_RemoteAddr n ++ [colon] ++ dec32 (ne_RemotePort n)
      | None => []
      end
  | EventTypeProcess => ae_Filename event
  end.

Definition makeKey (event : ApiEvent) : list Z :=
  let hash := take 16 (hex_EncodeToString (Sha256.Sum (key_subject event))) in
  EventType_String (GetType event) ++ [colon] ++ dec32 (ae_PID event) ++ [colon]
    ++ dec32 (ae_UID event) ++ [colon] ++ hash.

(** [time.Now().After(t)]. *)
Definition after (now t : Z) : bool := t <? now.

Definition Get (now : Z) (h : heap) (event : ApiEvent) (c : DecisionCache)
    : go (option ActionResult * DecisionCache) :=
  let key := makeKey event in
  match entries c !! key with
  | None => Ret (None, c)
  | Some entry =>
      if after now (ExpiresAt entry) then Ret (None, c)
      else
        let entry := MkCacheEntry (Result entry) (ExpiresAt entry) (to_u64 (HitCount entry + 1)) in
        let! result := deref h (Result entry) in
        Ret (Some (with_Cached true result), with_entries (<[key := entry]> (entries c)) c)
  end.

(** The loop over the entries; the empty string stands for no candidate yet. *)
Fixpoint oldest (m : gmap (list Z) CacheEntry) (visited : list (list Z))
    (oldestKey : list Z) (oldestTime : Z) : list Z :=
  match visited with
  | [] => oldestKey
  | key :: visited' =>
      match m !! key with
      | None => oldest m visited' oldestKey oldestTime
      | Some entry =>
          if bool_decide (oldestKey = []) || (ExpiresAt entry <? oldestTime)
          then oldest m visited' key (ExpiresAt entry)
          else oldest m visited' oldestKey oldestTime
      end
  end.

Definition evictOldest (visited : list (list Z)) (c : DecisionCache) : DecisionCache :=
  let oldestKey := oldest (entries c) visited [] 0 in
  if negb (bool_decide (oldestKey = [])) then with_entries (delete oldestKey (entries c)) c else c.

Definition Put (now : Z) (visited : list (list Z)) (event : ApiEvent) (result : pointer)
    (c : DecisionCache) : DecisionCache :=
  let c := if maxSize c <=? Z.of_nat (size (entries c)) then evictOldest visited c else c in
  let key := makeKey event in
  with_entries (<[key := MkCacheEntry result (now + ttl c) 0]> (entries c)) c.

Definition Clear (c : DecisionCache) : DecisionCache := with_entries ∅ c.

Definition Stats (c : DecisionCache) : CacheStats := {|
  Size := Z.of_nat (size (entries c));
  MaxSize := maxSize c;
  TotalHits := map_fold (fun _ entry totalHits => to_u64 (totalHits + HitCount entry)) 0 (entries c) |}.

(** ** Eviction *)

(** An iteration over an unchanged map visits every key once. *)
Definition visits (visited : list (list Z)) (c : DecisionCache) : Prop :=
  NoDup visited /\ forall key, key ∈ visited <-> is_Some (entries c !! key).

Definition keys_nonempty (c : DecisionCache) : Prop := entries c !! [] = None.

Lemma oldest_spec m visited key0 t0 :
  (forall key, key ∈ visited -> is_Some (m !! key)) -> m !! [] = None ->
  (key0 <> [] -> exists e0, m !! key0 = Some e0 /\ ExpiresAt e0 = t0) ->
  let k := oldest m visited key0 t0 in
  (k = [] -> visited = [] /\ key0 = []) /\
  (k <> [] -> exists e, m !! k = Some e /\ (key0 <> [] -> ExpiresAt e <= t0) /\
     forall key e', key ∈ visited -> m !! key = Some e' -> ExpiresAt e <= ExpiresAt e').
Proof.
  revert key0 t0. induction visited as [|key visited IH]; intros key0 t0 Hin Hne H0 k; subst k.
  { simpl. split; [done|]. intros Hk. destruct (H0 Hk) as (e0 & He0 & <-).
    exists e0. split_and!; [done|done|]. by intros ? ? ?%elem_of_nil. }
  simpl. destruct (Hin key) as [e He]; [by left|]. rewrite He.
  assert (Hkey : key <> []) by (intros ->; congruence).
  assert (Hin' : forall key, key ∈ visited -> is_Some (m !! key)) by (intros; apply Hin; by right).
  case_bool_decide as Hb0; cbn [orb]; [|destruct (Z.ltb_spec (ExpiresAt e) t0) as [Hb|Hb]].
  - destruct (IH key (ExpiresAt e) Hin' Hne) as [Hn Hs]; [by eexists|].
    split; [by intros [_ ?]%Hn|]. intros Hk. destruct (Hs Hk) as (e1 & He1 & Hle & Hall).
    exists e1. split_and!; [done|by intros|].
    intros key1 e' [->|Hi]%elem_of_cons Hm; [|by eapply Hall]. simplify_eq. by apply Hle.
  - destruct (IH key (ExpiresAt e) Hin' Hne) as [Hn Hs]; [by eexists|].
    split; [by intros [_ ?]%Hn|]. intros Hk. destruct (Hs Hk) as (e1 & He1 & Hle & Hall).
    exists e1. specialize (Hle Hkey). split_and!; [done|lia|].
    intros key1 e' [->|Hi]%elem_of_cons Hm; [|by eapply Hall]. by simplify_eq.
  - destruct (IH key0 t0 Hin' Hne H0) as [Hn Hs].
    split; [by intros [_ ?]%Hn|]. intros Hk. destruct (Hs Hk) as (e1 & He1 & Hle & Hall).
    exists e1. specialize (Hle Hb0). split_and!; [done|lia|].
    intros key1 e' [->|Hi]%elem_of_cons Hm; [|by eapply Hall]. simplify_eq. lia.
Qed.

(** An eviction from a non-empty cache removes one entry, of the earliest expiry. *)
Lemma evictOldest_spec visited c :
  visits visited c -> keys_nonempty c -> entries c <> ∅ ->
  exists key e, entries c !! key = Some e /\
    evictOldest visited c = with_entries (delete key (entries c)) c /\
    forall key' e', entries c !! key' = Some e' -> ExpiresAt e <= ExpiresAt e'.
Proof.
  intros [_ Hv] Hne Hnz. unfold evictOldest.
  destruct (oldest_spec (entries c) visited [] 0) as [Hn Hs];
    [by intros key ?%Hv|done|done|].
  case_bool_decide as Hk; cbn [negb].
  - exfalso. destruct (Hn Hk) as [-> _].
    destruct (map_choose _ Hnz) as (key & e & He). apply (not_elem_of_nil key), Hv. eauto.
  - destruct (Hs Hk) as (e & He & _ & Hall). eexists _, e. split_and!; [done|done|].
    intros key' e' He'. eapply Hall; [apply Hv|]; eauto.
Qed.

Lemma evictOldest_empty visited c : entries c = ∅ -> evictOldest visited c = c.
Proof.
  intros He. unfold evictOldest. rewrite He.
  assert (oldest ∅ visited [] 0 = []) as ->; [|done].
  induction visited as [|key visited IH]; simpl; [done|]. by rewrite lookup_empty.
Qed.

Lemma makeKey_nonempty e : makeKey e <> [].
Proof. unfold makeKey. by destruct (GetType e). Qed.

(** ** Executions *)

Inductive cache_op : Type :=
  | OGet (now : Z) (h : heap) (event : ApiEvent)
  | OPut (now : Z) (visited : list (list Z)) (event : ApiEvent) (result : pointer)
  | OClear.

Definition cache_step (op : cache_op) (c : DecisionCache) : DecisionCache :=
  match op with
  | OGet now h event => match Get now h event c with Ret (_, c') => c' | _ => c end
  | OPut now visited event result => Put now visited event result c
  | OClear => Clear c
  end.

Definition op_ok (op : cache_op) (c : DecisionCache) : Prop :=
  match op with OPut _ visited _ _ => visits visited c | _ => True end.

(** [cache_exec n d ops c]: a cache of [n] entries and lifetime [d] is in state [c]
    after the operations [ops], the latest first. *)
Inductive cache_exec (n d : Z) : list cache_op -> DecisionCache -> Prop :=
  | exec_new : cache_exec n d [] (NewDecisionCache n d)
  | exec_op op ops c : cache_exec n d ops c -> op_ok op c ->
      cache_exec n d (op :: ops) (cache_step op c).

(** The decision stored last under a key since the cache was cleared, and when. *)
Fixpoint latest (ops : list cache_op) (key : list Z) : option (pointer * Z) :=
  match ops with
  | [] => None
  | OPut now _ event result :: ops' =>
      if bool_decide (makeKey event = key) then Some (result, now) else latest ops' key
  | OClear :: _ => None
  | OGet _ _ _ :: ops' => latest ops' key
  end.

(** ** The invariant *)

Record cache_inv (n d : Z) (ops : list cache_op) (c : DecisionCache) : Prop := {
  inv_params : maxSize c = n /\ ttl c = d;
  inv_keys : keys_nonempty c;
  inv_size : Z.of_nat (size (entries c)) <= Z.max 1 n;
  inv_latest : forall key e, entries c !! key = Some e ->
    exists t0, latest ops key = Some (Result e, t0) /\ ExpiresAt e = t0 + d;
}.

Lemma Get_cases now h event c :
  (exists e r, entries c !! makeKey event = Some e /\ now <= ExpiresAt e /\
     deref h (Result e) = Ret r /\
     Get now h event c = Ret (Some (with_Cached true r),
       with_entries (<[makeKey event :=
         MkCacheEntry (Result e) (ExpiresAt e) (to_u64 (HitCount e + 1))]> (entries c)) c)) \/
  (exists e why, entries c !! makeKey event = Some e /\ deref h (Result e) = Panic why /\
     Get now h event c = Panic why) \/
  Get now h event c = Ret (None, c).
Proof.
  unfold Get. destruct (entries c !! makeKey event) as [e|] eqn:He; [|by right; right].
  unfold after. destruct (Z.ltb_spec (ExpiresAt e) now) as [|Hnow]; [by right; right|].
  cbn [Result ExpiresAt HitCount]. destruct (deref h (Result e)) as [r| |why|] eqn:Hr.
  - left. by exists e, r.
  - by (unfold deref in Hr; case_match).
  - right; left. by exists e, why.
  - by (unfold deref in Hr; case_match).
Qed.

(** Evicting, when the cache is full, makes room and keeps a part of the entries. *)
Lemma make_room n d ops visited c :
  cache_inv n d ops c -> visits visited c ->
  let c' := if maxSize c <=? Z.of_nat (size (entries c)) then evictOldest visited c else c in
  (exists m, c' = with_entries m c) /\ entries c' ⊆ entries c /\
  Z.of_nat (size (entries c')) + 1 <= Z.max 1 n.
Proof.
  intros [[Hn Hd] Hk Hs _] Hv c'. subst c'. rewrite Hn.
  destruct (Z.leb_spec n (Z.of_nat (size (entries c)))) as [Hle|Hlt].
  - destruct (decide (entries c = ∅)) as [He|He].
    + rewrite evictOldest_empty by done. rewrite He, map_size_empty in *.
      split_and!; [exists (entries c); by destruct c|done|lia].
    + destruct (evictOldest_spec visited c Hv Hk He) as (key & e & Hl & -> & _).
      split_and!; [by eexists|simpl; apply delete_subseteq|]. cbn [entries with_entries].
      rewrite map_size_delete_Some by (by eexists).
      assert (size (entries c) <> 0%nat) by (by intros ?%map_size_empty_inv). lia.
  - split_and!; [exists (entries c); by destruct c|done|lia].
Qed.

Lemma cache_exec_inv n d ops c : cache_exec n d ops c -> cache_inv n d ops c.
Proof.
  induction 1 as [|op ops c Hrun IH Hok].
  { split; [done|apply lookup_empty| |]; simpl; [rewrite map_size_empty; lia|].
    intros key e He. by rewrite lookup_empty in He. }
  pose proof IH as [[Hn Hd] Hk Hs Hl]. destruct op as [now h event|now visited event result|].
  - destruct (Get_cases now h event c) as [(e & r & He & _ & _ & Hg)|[(e & why & _ & _ & Hg)|Hg]];
      simpl; rewrite Hg; [|by split..].
    split; cbn [entries with_entries maxSize ttl]; [done| | |].
    + unfold keys_nonempty. cbn [entries with_entries].
      by rewrite lookup_insert_ne by apply makeKey_nonempty.
    + rewrite map_size_insert_Some by (by eexists). done.
    + intros key e' [[<- <-]|[Hne He']]%lookup_insert_Some; [|by apply Hl].
      by apply (Hl _ _ He).
  - destruct (make_room n d ops visited c IH Hok) as ((m & Hm) & Hsub & Hsize). simpl in *.
    unfold Put. rewrite Hm in *. cbn [entries with_entries maxSize ttl] in *.
    split; cbn [entries with_entries maxSize ttl]; [done| | |].
    + unfold keys_nonempty. cbn [entries with_entries].
      rewrite lookup_insert_ne by apply makeKey_nonempty. by eapply lookup_weaken_None.
    + rewrite map_size_insert. destruct (m !! makeKey event); simpl; lia.
    + intros key e [[<- <-]|[Hne He]]%lookup_insert_Some.
      * cbn [latest]. rewrite bool_decide_eq_true_2 by done. cbn. rewrite Hd. by eexists.
      * cbn [latest]. rewrite bool_decide_eq_false_2 by done. apply Hl. by eapply lookup_weaken.
  - split; simpl; [done|apply lookup_empty|rewrite map_size_empty; lia|].
    intros key e He. by rewrite lookup_empty in He.
Qed.

(** C10: the cache only returns what was decided: in every execution, a hit is a
    copy, marked as cached, of the decision stored last under the event's key since
    the cache was last cleared, and its lifetime has not passed. *)
Theorem cache_hit_sound n d ops c now h event r c' :
  cache_exec n d ops c -> Get now h event c = Ret (Some r, c') ->
  exists result t0 r0, latest ops (makeKey event) = Some (result, t0) /\
    now <= t0 + d /\ deref h result = Ret r0 /\ r = with_Cached true r0.
Proof.
  intros Hrun Hget. destruct (cache_exec_inv n d ops c Hrun) as [_ _ _ Hl].
  destruct (Get_cases now h event c) as [(e & r0 & He & Hnow & Hr & Hg)|[(e & why & _ & _ & Hg)|Hg]];
    rewrite Hg in Hget; simplify_eq. destruct (Hl _ _ He) as (t0 & Ht & Hexp).
  exists (Result e), t0, r0. split_and!; [done|lia|done|done].
Qed.

(** The cache is bounded: in every execution it holds at most its configured
    number of entries (one, when configured with none). *)
Lemma cache_bounded n d ops c :
  cache_exec n d ops c -> Size (Stats c) <= Z.max 1 n /\ MaxSize (Stats c) = n.
Proof. intros Hrun. destruct (cache_exec_inv n d ops c Hrun) as [[<- _] _ Hs _]. done. Qed.

(** A decision just stored is found until its lifetime passes. *)
Lemma Put_Get now visited event result c now' h r event' :
  makeKey event' = makeKey event -> now' <= now + ttl c -> deref h result = Ret r ->
  exists c', Get now' h event' (Put now visited event result c) = Ret (Some (with_Cached true r), c').
Proof.
  intros Hkey Ht Hr. unfold Get, Put. cbn [entries with_entries].
  assert (Httl : ttl (if maxSize c <=? Z.of_nat (size (entries c)) then evictOldest visited c else c)
                 = ttl c).
  { unfold evictOldest. by repeat case_match. }
  rewrite Hkey, lookup_insert_eq, Httl. cbn [ExpiresAt Result].
  unfold after. rewrite (proj2 (Z.ltb_ge _ _)) by lia. rewrite Hr. by eexists.
Qed.

(** ** What the key tells apart *)

Lemma dec_digits_app fuel n acc : dec_digits fuel n acc = dec_digits fuel n [] ++ acc.
Proof.
  revert n acc. induction fuel as [|fuel IH]; intros n acc; simpl; [done|].
  destruct (n <? 10); [done|]. rewrite IH, (IH _ [_]), <- app_assoc. done.
Qed.

Lemma digit_dec d : 0 <= d < 10 -> digit d = 48 + d.
Proof. intros. unfold digit. by rewrite (proj2 (Z.ltb_lt _ _)) by lia. Qed.

Lemma dec_digits_digits fuel n : 0 <= n ->
  Forall (fun c => 48 <= c < 58) (dec_digits fuel n []).
Proof.
  revert n. induction fuel as [|fuel IH]; intros n Hn; simpl; [done|].
  pose proof (Z.mod_pos_bound n 10). rewrite digit_dec by lia.
  destruct (n <? 10); [repeat constructor; lia|]. rewrite dec_digits_app, Forall_app.
  split; [apply IH, Z.div_pos; lia|repeat constructor; lia].
Qed.

(** Printing is injective on the numbers the fuel covers. *)
Lemma dec_digits_inj fuel n m :
  0 <= n < 10 ^ Z.of_nat fuel -> 0 <= m < 10 ^ Z.of_nat fuel ->
  dec_digits fuel n [] = dec_digits fuel m [] -> n = m.
Proof.
  revert n m. induction fuel as [|fuel IH]; intros n m Hn Hm; [simpl in *; lia|].
  assert (Hp : 10 ^ Z.of_nat (S fuel) = 10 * 10 ^ Z.of_nat fuel)
    by (rewrite <- Z.pow_succ_r by lia; f_equal; lia).
  assert (Hdiv : forall a, 0 <= a < 10 ^ Z.of_nat (S fuel) -> 0 <= a / 10 < 10 ^ Z.of_nat fuel).
  { intros a Ha. split; [apply Z.div_pos; lia|]. apply Z.div_lt_upper_bound; lia. }
  assert (Hlen : forall a, 0 <= a < 10 ^ Z.of_nat (S fuel) -> 10 <= a ->
    dec_digits fuel (a / 10) [] <> []).
  { intros a Ha Hge. destruct fuel; [specialize (Hdiv a Ha); simpl in Hdiv;
      pose proof (Z.div_le_lower_bound a 10 1); lia|]. simpl. case_match; [done|].
    rewrite dec_digits_app. by intros [_ ?]%app_eq_nil. }
  simpl. rewrite !digit_dec by (apply Z.mod_pos_bound; lia).
  pose proof (Z.mod_pos_bound n 10). pose proof (Z.mod_pos_bound m 10).
  pose proof (Z.div_mod n 10). pose proof (Z.div_mod m 10).
  destruct (Z.ltb_spec n 10), (Z.ltb_spec m 10); intros He.
  - rewrite !Z.mod_small in He by lia. simplify_eq. lia.
  - rewrite dec_digits_app in He. exfalso. apply (Hlen m); auto.
    change [48 + n mod 10] with ([] ++ [48 + n mod 10]) in He.
    by apply app_inj_tail in He as [? _].
  - rewrite dec_digits_app in He. exfalso. apply (Hlen n); auto.
    change [48 + m mod 10] with ([] ++ [48 + m mod 10]) in He.
    by apply app_inj_tail in He as [? _].
  - rewrite (dec_digits_app fuel (n / 10) [_]), (dec_digits_app fuel (m / 10) [_]) in He. apply app_inj_tail in He as [Hd Hc].
    apply (IH (n / 10) (m / 10)) in Hd; [|by apply Hdiv..]. lia.
Qed.

(** A field without the separator can be split off. *)
Lemma split_field (sep : Z) a b x y :
  sep ∉ a -> sep ∉ b -> a ++ [sep] ++ x = b ++ [sep] ++ y -> a = b /\ x = y.
Proof.
  revert b. induction a as [|c a IH]; intros [|c' b] Ha Hb Heq; simplify_eq/=; [done| | |].
  - exfalso. apply Hb. left.
  - exfalso. apply Ha. left.
  - destruct (IH b) as [-> ->]; [| |done|done]; intros ?; [apply Ha|apply Hb]; by right.
Qed.

Lemma colon_not_digit fuel n : 0 <= n -> colon ∉ dec_digits fuel n [].
Proof.
  intros Hn Hin. pose proof (dec_digits_digits fuel n Hn) as Hall.
  rewrite Forall_forall in Hall. specialize (Hall _ Hin). unfold colon in Hall. lia.
Qed.

Lemma EventType_String_inj t t' : EventType_String t = EventType_String t' -> t = t'.
Proof. by destruct t, t'. Qed.

Lemma dec32_inj n m : is_u 32 n -> is_u 32 m -> dec32 n = dec32 m -> n = m.
Proof. unfold is_u. intros Hn Hm. apply dec_digits_inj; simpl; lia. Qed.

(** Two events share a cache key exactly when they have the same type, process
    id, user id and truncated digest of their subject (the path; the remote address
    and port; the top-level file name of a process event). *)
Lemma cache_key_identifies e e' :
  is_u 32 (ae_PID e) -> is_u 32 (ae_UID e) -> is_u 32 (ae_PID e') -> is_u 32 (ae_UID e') ->
  makeKey e = makeKey e' <->
  GetType e = GetType e' /\ ae_PID e = ae_PID e' /\ ae_UID e = ae_UID e' /\
  take 16 (hex_EncodeToString (Sha256.Sum (key_subject e))) =
  take 16 (hex_EncodeToString (Sha256.Sum (key_subject e'))).
Proof.
  intros Hp Hu Hp' Hu'. unfold makeKey. split; [|by intros (-> & -> & -> & ->)].
  assert (forall n, is_u 32 n -> colon ∉ dec32 n) as Hc
    by (intros n [? _]; by apply colon_not_digit).
  assert (forall t, colon ∉ EventType_String t) as Ht by (intros []; vm_compute; set_solver).
  intros [Hty [Hpid [Huid Hh]%split_field]%split_field]%split_field; auto.
  split_and!; auto using EventType_String_inj, dec32_inj.
Qed.

(** ** Witnesses *)

(** An openat event as the Linux platform builds it. *)
Definition open_event (pid uid flags : Z) (path : list Z) : ApiEvent :=
  let base := {| be_Type := EventTypeFile; be_PID := pid; be_UID := uid; be_GID := uid;
                 be_Comm := bstr "sh"; be_Timestamp := 0; be_CgroupID := 7 |} in {|
  ae_PID := pid; ae_UID := uid; ae_GID := uid; ae_Comm := bstr "sh"; ae_Filename := path;
  ae_Timestamp := 0; ae_Type := EventTypeFile; ae_CgroupID := 7; ae_Process := None;
  ae_File := Some {| fe_Base := base; fe_Operation := bstr "open"; fe_Path := path;
                     fe_Flags := flags; fe_Mode := 0 |};
  ae_Network := None; ae_LSMEvent := false |}.

Definition demo_open_event : ApiEvent := open_event 4242 1000 0 (bstr "/etc/shadow").
Definition demo_denial : ActionResult := MkResult api.ActionDeny (Text "no") 5 false 0 false.
Definition demo_cache : DecisionCache :=
  Put 10 [] demo_open_event (Some 1) (NewDecisionCache 10000 300).

Lemma visits_new n d : visits [] (NewDecisionCache n d).
Proof.
  split; [apply NoDup_nil_2|]. intros key. simpl. rewrite lookup_empty.
  split; [by intros ?%elem_of_nil|by intros []].
Qed.

Lemma demo_cache_exec : cache_exec 10000 300 [OPut 10 [] demo_open_event (Some 1)] demo_cache.
Proof. apply (exec_op 10000 300 (OPut 10 [] demo_open_event (Some 1))); [constructor|apply visits_new]. Qed.

Lemma cache_hit_sound_witness :
  exists result t0 r0,
    latest [OPut 10 [] demo_open_event (Some 1)] (makeKey demo_open_event) = Some (result, t0) /\
    200 <= t0 + 300 /\ deref {[1 := demo_denial]} result = Ret r0 /\
    with_Cached true demo_denial = with_Cached true r0.
Proof.
  eapply (cache_hit_sound 10000 300 _ demo_cache 200 {[1 := demo_denial]} demo_open_event).
  - exact demo_cache_exec.
  - vm_compute. reflexivity.
Defined.

Lemma cache_bounded_witness : Size (Stats demo_cache) <= 10000.
Proof. apply (cache_bounded 10000 300 _ demo_cache demo_cache_exec). Defined.

Lemma cache_key_identifies_witness :
  makeKey demo_open_event = makeKey (open_event 4242 1000 577 (bstr "/etc/shadow")).
Proof.
  apply cache_key_identifies; [split; vm_compute; congruence..|].
  split_and!; vm_compute; reflexivity.
Defined.
