(* ===== verification/GoLineage.v ===== *)
(** internal/lineage/tracker.go: the process tree built from exec events.

    [processes] maps a process id to what its last exec recorded.  The clock and
    the order in which an iteration visits the map are arguments. *)

From S2P Require Import Prelude.

Record ProcessInfo : Type := MkProcessInfo {
  pi_PID : Z;
  pi_PPID : Z;
  pi_Comm : list Z;
  pi_Filename : list Z;
  pi_UID : Z;
  pi_GID : Z;
  StartTime : Z;
}.

Record Tracker : Type := MkTracker {
  processes : gmap Z ProcessInfo;
  maxDepth : Z;
  tr_maxSize : Z;
}.

Record TrackerConfig : Type := MkTrackerConfig { MaxDepth : Z; tc_MaxSize : Z }.

Definition NewTracker (cfg : TrackerConfig) : Tracker := {|
  processes := ∅;
  maxDepth := if MaxDepth cfg <=? 0 then 16 else MaxDepth cfg;
  tr_maxSize := if tc_MaxSize cfg <=? 0 then 100000 else tc_MaxSize cfg |}.

Definition with_processes (m : gmap Z ProcessInfo) (t : Tracker) : Tracker :=
  MkTracker m (maxDepth t) (tr_maxSize t).

(** The loop of [evictOldest]: [None] while [first] holds. *)
Fixpoint oldest_process (m : gmap Z ProcessInfo) (visited : list Z) (best : option (Z * Z)) : option (Z * Z) :=
  match visited with
  | [] => best
  | pid :: visited' =>
      match m !! pid with
      | None => oldest_process m visited' best
      | Some info =>
          let better := match best with None => true | Some (_, t) => StartTime info <? t end in
          oldest_process m visited' (if better then Some (pid, StartTime info) else best)
      end
  end.

Definition tracker_evictOldest (visited : list Z) (t : Tracker) : Tracker :=
  match oldest_process (processes t) visited None with
  | Some (pid, _) => with_processes (delete pid (processes t)) t
  | None => t
  end.

Definition RecordExec (now : Z) (visited : list Z) (pid ppid uid gid : Z) (comm filename : list Z)
    (t : Tracker) : Tracker :=
  let t := if tr_maxSize t <=? Z.of_nat (size (processes t)) then tracker_evictOldest visited t else t in
  with_processes (<[pid := MkProcessInfo pid ppid comm filename uid gid now]> (processes t)) t.

Definition RecordExit (pid : Z) (t : Tracker) : Tracker :=
  with_processes (delete pid (processes t)) t.

(** The loop of [GetAncestors], with [n] iterations left. *)
Fixpoint ancestors (n : nat) (m : gmap Z ProcessInfo) (seen : gset Z) (current : Z) : list ProcessInfo :=
  match n with
  | O => []
  | S n' =>
      match m !! current with
      | None => []
      | Some info =>
          if (pi_PPID info =? 0) || (pi_PPID info =? current) then []
          else if bool_decide (pi_PPID info ∈ seen) then []
          else match m !! pi_PPID info with
          | None => []
          | Some parent => parent :: ancestors n' m ({[current]} ∪ seen) (pi_PPID info)
          end
      end
  end.

Definition GetAncestors (pid : Z) (t : Tracker) : list ProcessInfo :=
  ancestors (Z.to_nat (maxDepth t)) (processes t) ∅ pid.

Definition GetProcess (pid : Z) (t : Tracker) : option ProcessInfo := processes t !! pid.

Definition HasAncestor (pid : Z) (comm : list Z) (t : Tracker) : bool :=
  existsb (fun a => bool_decide (pi_Comm a = comm)) (GetAncestors pid t).

Definition tracker_Size (t : Tracker) : Z := Z.of_nat (size (processes t)).

(** ** The ancestor chain *)

(** Every process is stored under its own id. *)
Definition tracker_wf (t : Tracker) : Prop :=
  map_Forall (fun pid info => pi_PID info = pid) (processes t).

(** [chain m p l]: each element of [l] is the parent of the one before it, the first
    one of [p]. *)
Inductive chain (m : gmap Z ProcessInfo) : Z -> list ProcessInfo -> Prop :=
  | chain_nil p : chain m p []
  | chain_cons p info parent l :
      m !! p = Some info -> m !! pi_PPID info = Some parent -> pi_PPID info <> 0 ->
      chain m (pi_PPID info) l -> chain m p (parent :: l).

Lemma ancestors_chain n m seen p : chain m p (ancestors n m seen p).
Proof.
  revert seen p. induction n as [|n IH]; intros seen p; simpl; [constructor|].
  destruct (m !! p) as [info|] eqn:Hp; [|constructor].
  destruct (Z.eqb_spec (pi_PPID info) 0); [constructor|]. cbn [orb].
  destruct (pi_PPID info =? p); [constructor|]. case_bool_decide; [constructor|].
  destruct (m !! pi_PPID info) as [parent|] eqn:Hq; [|constructor].
  by apply (chain_cons m p info parent).
Qed.

Lemma ancestors_fresh n m seen p :
  map_Forall (fun pid info => pi_PID info = pid) m ->
  NoDup (pi_PID <$> ancestors n m seen p) /\
  forall q, q ∈ (pi_PID <$> ancestors n m seen p) -> (q ∉ seen) /\ q <> p.
Proof.
  intros Hwf. revert seen p. induction n as [|n IH]; intros seen p.
  { split; [apply NoDup_nil_2|by intros q ?%elem_of_nil]. }
  simpl. assert (Hnil : NoDup (pi_PID <$> []) /\
    forall q, q ∈ (pi_PID <$> []) -> (q ∉ seen) /\ q <> p).
  { split; [apply NoDup_nil_2|by intros q ?%elem_of_nil]. }
  destruct (m !! p) as [info|] eqn:Hp; [|done].
  destruct (pi_PPID info =? 0); [done|]. cbn [orb].
  destruct (Z.eqb_spec (pi_PPID info) p) as [|Hpp]; [done|]. case_bool_decide as Hs; [done|].
  destruct (m !! pi_PPID info) as [parent|] eqn:Hq; [|done].
  destruct (IH ({[p]} ∪ seen) (pi_PPID info)) as [Hnd Hfr].
  pose proof (Hwf _ _ Hq) as Hid. simpl in Hid. rewrite fmap_cons, Hid. split.
  - apply NoDup_cons. split; [|done]. intros [_ ?]%Hfr. done.
  - intros q [->|Hin]%elem_of_cons; [done|]. destruct (Hfr q Hin) as [Hns _].
    rewrite elem_of_union, elem_of_singleton in Hns. tauto.
Qed.

Lemma length_ancestors n m seen p : (length (ancestors n m seen p) <= n)%nat.
Proof.
  revert seen p. induction n as [|n IH]; intros seen p; simpl; [done|].
  repeat case_match; simpl; try lia. specialize (IH ({[p]} ∪ seen) (pi_PPID p0)). lia.
Qed.

Lemma ancestors_S n m seen p :
  ancestors (S n) m seen p =
  match m !! p with
  | None => []
  | Some info =>
      if (pi_PPID info =? 0) || (pi_PPID info =? p) then []
      else if bool_decide (pi_PPID info ∈ seen) then []
      else match m !! pi_PPID info with
      | None => []
      | Some parent => parent :: ancestors n m ({[p]} ∪ seen) (pi_PPID info)
      end
  end.
Proof. done. Qed.

(** The walk ends by itself: with as many iterations as there are unseen processes,
    more iterations change nothing, whatever cycles the recorded parents form. *)
Lemma ancestors_enough n m seen p :
  p ∉ seen -> (size (dom m ∖ seen) <= n)%nat -> ancestors (S n) m seen p = ancestors n m seen p.
Proof.
  revert seen p. induction n as [|n IH]; intros seen p Hp Hn.
  - simpl. destruct (m !! p) as [info|] eqn:Hm; [|done]. exfalso.
    assert (size (dom m ∖ seen) = 0%nat) as He%size_empty_inv by lia.
    apply (not_elem_of_empty (C := gset Z) p), (He p), elem_of_difference.
    split; [|done]. by apply elem_of_dom.
  - rewrite (ancestors_S (S n)), (ancestors_S n).
    destruct (m !! p) as [info|] eqn:Hm; [|done].
    destruct (pi_PPID info =? 0); [done|]. cbn [orb].
    destruct (Z.eqb_spec (pi_PPID info) p) as [|Hne]; [done|]. case_bool_decide as Hs; [done|].
    destruct (m !! pi_PPID info) as [parent|]; [|done]. f_equal.
    apply (IH ({[p]} ∪ seen) (pi_PPID info)); [set_solver|].
    assert (Hsub : dom m ∖ ({[p]} ∪ seen) ⊂ dom m ∖ seen).
    { split; [set_solver|]. intros Hc. apply elem_of_dom_2 in Hm. specialize (Hc p). set_solver. }
    apply subset_size in Hsub. lia.
Qed.

Lemma ancestors_stable n m p :
  (size m <= n)%nat -> ancestors n m ∅ p = ancestors (size m) m ∅ p.
Proof.
  induction 1 as [|n Hle IH]; [done|]. rewrite <- IH. apply ancestors_enough; [set_solver|].
  by rewrite difference_empty_L, size_dom.
Qed.

(** C35: ancestry lookup terminates with a proper chain: on any recorded parents,
    cyclic ones included, the result is a chain of parents without repetition that
    does not contain the process itself, of at most [maxDepth] elements, and a depth
    limit beyond the number of tracked processes is never what ends the walk. *)
Theorem ancestors_terminate pid t :
  tracker_wf t ->
  chain (processes t) pid (GetAncestors pid t) /\
  NoDup (pid :: (pi_PID <$> GetAncestors pid t)) /\
  (length (GetAncestors pid t) <= Z.to_nat (maxDepth t))%nat /\
  (tracker_Size t <= maxDepth t ->
     GetAncestors pid t = ancestors (size (processes t)) (processes t) ∅ pid).
Proof.
  intros Hwf. destruct (ancestors_fresh (Z.to_nat (maxDepth t)) (processes t) ∅ pid Hwf) as [Hnd Hfr].
  split_and!.
  - apply ancestors_chain.
  - apply NoDup_cons. split; [|done]. by intros [_ ?]%Hfr.
  - apply length_ancestors.
  - intros Hd. unfold tracker_Size in Hd. apply ancestors_stable. lia.
Qed.

(** ** Recording *)

Lemma evict_subset visited t : processes (tracker_evictOldest visited t) ⊆ processes t.
Proof.
  unfold tracker_evictOldest. destruct (oldest_process _ _ _) as [[pid ?]|]; [|done].
  apply delete_subseteq.
Qed.

(** What [RecordExec] keeps of the tracker: entries of the old one and the new one. *)
Lemma RecordExec_entries now visited pid ppid uid gid comm filename t q info :
  processes (RecordExec now visited pid ppid uid gid comm filename t) !! q = Some info ->
  (q = pid /\ info = MkProcessInfo pid ppid comm filename uid gid now) \/
  (q <> pid /\ processes t !! q = Some info).
Proof.
  unfold RecordExec. cbn [processes with_processes].
  intros [[<- <-]|[Hne Hl]]%lookup_insert_Some; [by left|right]. split; [done|].
  eapply lookup_weaken; [exact Hl|]. destruct (tr_maxSize t <=? _); [apply evict_subset|done].
Qed.

Lemma RecordExec_wf now visited pid ppid uid gid comm filename t :
  tracker_wf t -> tracker_wf (RecordExec now visited pid ppid uid gid comm filename t).
Proof. intros Hwf q info [[-> ->]|[_ Hl]]%RecordExec_entries; [done|]. by apply Hwf. Qed.

Lemma RecordExit_wf pid t : tracker_wf t -> tracker_wf (RecordExit pid t).
Proof. intros Hwf. by apply map_Forall_delete. Qed.

(** Processes recorded without a parent have no ancestors. *)
Definition rootless (t : Tracker) : Prop :=
  map_Forall (fun _ info => pi_PPID info = 0) (processes t).

Lemma rootless_no_ancestors pid t : rootless t -> GetAncestors pid t = [].
Proof.
  intros Hr. unfold GetAncestors. destruct (Z.to_nat (maxDepth t)); simpl; [done|].
  destruct (processes t !! pid) as [info|] eqn:Hp; [|done]. by rewrite (Hr _ _ Hp).
Qed.

Lemma RecordExec_rootless now visited pid uid gid comm filename t :
  rootless t -> rootless (RecordExec now visited pid 0 uid gid comm filename t).
Proof. intros Hr q info [[-> ->]|[_ Hl]]%RecordExec_entries; [done|]. by apply (Hr q). Qed.

Lemma NewTracker_wf cfg : tracker_wf (NewTracker cfg) /\ rootless (NewTracker cfg).
Proof. split; apply map_Forall_empty. Qed.

(** A cycle of two processes below a third one. *)
Definition demo_tracker : Tracker :=
  RecordExec 3 [] 30 20 0 0 (bstr "nc") (bstr "/bin/nc")
    (RecordExec 2 [] 20 10 0 0 (bstr "sh") (bstr "/bin/sh")
      (RecordExec 1 [] 10 20 0 0 (bstr "init") (bstr "/sbin/init")
        (NewTracker (MkTrackerConfig 0 0)))).

Lemma ancestors_terminate_witness :
  NoDup [30; 20; 10] /\
  chain (processes demo_tracker) 30
    [MkProcessInfo 20 10 (bstr "sh") (bstr "/bin/sh") 0 0 2;
     MkProcessInfo 10 20 (bstr "init") (bstr "/sbin/init") 0 0 1].
Proof.
  destruct (ancestors_terminate 30 demo_tracker) as (Hc & Hn & _).
  { repeat apply RecordExec_wf. apply NewTracker_wf. }
  split; [exact Hn|exact Hc].
Defined.
