(* ===== verification/GoNet.v ===== *)
(** The part of Go's net package that the network filter uses: parsing of
    addresses, prefixes and host-port pairs, masks, containment and printing.

    An address is a list of 4 or 16 bytes; a nil address is [None].  [ip_string]
    of [GoEvents.v] is [net.IP.String]. *)

From S2P Require Import Prelude GoEvents Sha256.

(** ** Addresses *)

Definition v4InV6Prefix : list Z := replicate 10 0 ++ [255; 255].

Definition To4 (ip : list Z) : option (list Z) :=
  if (length ip =? 4)%nat then Some ip
  else if (length ip =? 16)%nat && bool_decide (take 12 ip = v4InV6Prefix) then Some (drop 12 ip)
  else None.

Definition As16 (ip : list Z) : list Z :=
  if (length ip =? 4)%nat then v4InV6Prefix ++ ip else ip.

Definition is_digit (c : Z) : bool := (48 <=? c) && (c <=? 57).

(** Dotted decimal: [val] and [digLen] describe the current field, [fields] the
    earlier ones, latest first. *)
Fixpoint parse_v4 (s : list Z) (val digLen : Z) (fields : list Z) : option (list Z) :=
  match s with
  | [] => if (length fields <? 3)%nat then None else Some (rev (val :: fields))
  | c :: s' =>
      if is_digit c then
        if (digLen =? 1) && (val =? 0) then None
        else
          let val := val * 10 + (c - 48) in
          if 255 <? val then None else parse_v4 s' val (digLen + 1) fields
      else if c =? dot then
        if (digLen =? 0) || bool_decide (s' = []) || (length fields =? 3)%nat then None
        else parse_v4 s' 0 0 (val :: fields)
      else None
  end.

Definition hex_digit (c : Z) : option Z :=
  if is_digit c then Some (c - 48)
  else if (97 <=? c) && (c <=? 102) then Some (c - 87)
  else if (65 <=? c) && (c <=? 70) then Some (c - 55)
  else None.

(** A group of at most four hexadecimal digits: its value, length and the rest. *)
Fixpoint hex_field (s : list Z) (acc : Z) (off : nat) : option (Z * nat * list Z) :=
  match s with
  | [] => Some (acc, off, [])
  | c :: s' =>
      match hex_digit c with
      | None => Some (acc, off, s)
      | Some d => if (3 <? off)%nat then None else hex_field s' (acc * 16 + d) (S off)
      end
  end.

(** The groups of an IPv6 address: the bytes so far, where the ellipsis was, and
    what is left of the string. *)
Fixpoint v6_groups (fuel : nat) (s ip : list Z) (ellipsis : option nat)
    : option (list Z * option nat * list Z) :=
  match fuel with
  | O => Some (ip, ellipsis, s)
  | S fuel' =>
      match hex_field s 0 0 with
      | None => None
      | Some (acc, off, rest) =>
          if (off =? 0)%nat then None
          else
            let ip' := ip ++ [acc / 256; acc mod 256] in
            match rest with
            | [] => Some (ip', ellipsis, [])
            | c :: rest' =>
                if c =? dot then
                  if (bool_decide (ellipsis = None) && negb (length ip =? 12)%nat)
                     || (16 <? length ip + 4)%nat then None
                  else (fun f => (ip ++ f, ellipsis, [])) <$> parse_v4 s 0 0 []
                else if negb (c =? colon) then None
                else match rest' with
                | [] => None
                | c' :: rest'' =>
                    if c' =? colon then
                      match ellipsis with
                      | Some _ => None
                      | None =>
                          match rest'' with
                          | [] => Some (ip', Some (length ip'), [])
                          | _ => v6_groups fuel' rest'' ip' (Some (length ip'))
                          end
                      end
                    else v6_groups fuel' rest' ip' ellipsis
                end
            end
      end
  end.

(** A zone makes the callers reject the address. *)
Definition parse_v6 (s : list Z) : option (list Z) :=
  if bool_decide (37 ∈ s) then None
  else
    let '(s, ellipsis, only) :=
      match s with
      | a :: b :: s' =>
          if (a =? colon) && (b =? colon) then (s', Some O, bool_decide (s' = []))
          else (s, None, false)
      | _ => (s, None, false)
      end in
    if only then Some (replicate 16 0)
    else match v6_groups 8 s [] ellipsis with
    | Some (ip, ellipsis, []) =>
        if (length ip <? 16)%nat then
          (fun e => take e ip ++ replicate (16 - length ip) 0 ++ drop e ip) <$> ellipsis
        else if bool_decide (ellipsis = None) then Some ip else None
    | _ => None
    end.

(** The first dot, colon or percent sign decides the family. *)
Fixpoint parse_addr_from (all s : list Z) : option (list Z) :=
  match s with
  | [] => None
  | c :: s' =>
      if c =? dot then parse_v4 all 0 0 []
      else if c =? colon then parse_v6 all
      else if c =? 37 then None
      else parse_addr_from all s'
  end.

(** [netip.ParseAddr], without zones: 4 or 16 bytes. *)
Definition ParseAddr (s : list Z) : option (list Z) := parse_addr_from s s.

Definition ParseIP (s : list Z) : option (list Z) := As16 <$> ParseAddr s.

(** ** Prefixes *)

Record IPNet : Type := MkIPNet { net_IP : list Z; net_Mask : list Z }.

(** [CIDRMask(n, 8*len)]. *)
Fixpoint mask_bytes (len : nat) (n : Z) : list Z :=
  match len with
  | O => []
  | S len' =>
      if 8 <=? n then 255 :: mask_bytes len' (n - 8)
      else (255 - Z.shiftr 255 n) :: mask_bytes len' 0
  end.

Definition and_bytes (a b : list Z) : list Z := zip_with Z.land a b.

(** [IP.Mask] on the addresses of [ParseCIDR]: 16 bytes, and a mask of 4 or 16. *)
Definition IP_Mask (ip mask : list Z) : list Z :=
  if (length mask =? 4)%nat && bool_decide (take 12 ip = v4InV6Prefix)
  then and_bytes (drop 12 ip) mask else and_bytes ip mask.

Definition slash : Z := 47.

(** [dtoi]: a decimal number below 0xFFFFFF that takes the whole string. *)
Fixpoint dtoi (s : list Z) (n : Z) : option Z :=
  match s with
  | [] => Some n
  | c :: s' =>
      if is_digit c then
        let n := n * 10 + (c - 48) in if 16777215 <=? n then None else dtoi s' n
      else None
  end.

(** The string before and after the first separator. *)
Fixpoint cut (sep : Z) (s : list Z) : option (list Z * list Z) :=
  match s with
  | [] => None
  | c :: s' =>
      if c =? sep then Some ([], s') else (fun p => (c :: p.1, p.2)) <$> cut sep s'
  end.

(** Address and prefix length of "addr/len". *)
Definition parse_prefix (s : list Z) : option (list Z * Z) :=
  p ← cut slash s;
  addr ← ParseAddr p.1;
  n ← (if bool_decide (p.2 = []) then None else dtoi p.2 0);
  if 8 * Z.of_nat (length addr) <? n then None else Some (addr, n).

Definition prefix_net (addr : list Z) (n : Z) : IPNet :=
  let m := mask_bytes (length addr) n in MkIPNet (IP_Mask (As16 addr) m) m.

Definition ParseCIDR (s : list Z) : option IPNet :=
  (fun p => prefix_net p.1 p.2) <$> parse_prefix s.

(** The network number in its shortest form with the mask of the same length. *)
Definition networkNumberAndMask (n : IPNet) : option (list Z * list Z) :=
  let ip := match To4 (net_IP n) with
            | Some ip => Some ip
            | None => if (length (net_IP n) =? 16)%nat then Some (net_IP n) else None
            end in
  match ip with
  | None => None
  | Some ip =>
      let m := net_Mask n in
      if (length m =? 4)%nat then if (length ip =? 4)%nat then Some (ip, m) else None
      else if (length m =? 16)%nat then
        Some (ip, if (length ip =? 4)%nat then drop 12 m else m)
      else None
  end.

Definition Contains (n : IPNet) (ip : list Z) : bool :=
  let ip := match To4 ip with Some x => x | None => ip end in
  match networkNumberAndMask n with
  | None => (length ip =? 0)%nat
  | Some (nn, m) =>
      (length ip =? length nn)%nat && bool_decide (and_bytes nn m = and_bytes ip m)
  end.

(** Length of a mask of ones followed by zeros. *)
Definition simpleMaskLength (m : list Z) : option Z :=
  let n := be_val m in
  let bits := 8 * Z.of_nat (length m) in
  (fun i => bits - Z.of_nat i) <$>
    find (fun i => n =? 2 ^ bits - 2 ^ Z.of_nat i) (List.seq 0 (S (Z.to_nat bits))).

Definition IPNet_String (n : IPNet) : list Z :=
  match networkNumberAndMask n with
  | None => bstr "<nil>"
  | Some (nn, m) =>
      match simpleMaskLength m with
      | None => ip_string nn ++ [slash] ++ hex_EncodeToString m
      | Some l => ip_string nn ++ [slash] ++ dec_digits 3 l []
      end
  end.

(** ** Host and port *)

Fixpoint last_index (c : Z) (s : list Z) : option nat :=
  match s with
  | [] => None
  | x :: s' =>
      match last_index c s' with
      | Some i => Some (S i)
      | None => if x =? c then Some O else None
      end
  end.

Fixpoint index (c : Z) (s : list Z) : option nat :=
  match s with
  | [] => None
  | x :: s' => if x =? c then Some O else S <$> index c s'
  end.

Definition SplitHostPort (hostport : list Z) : option (list Z * list Z) :=
  i ← last_index colon hostport;
  h ← (if bool_decide (hostport !! O = Some 91) then
         e ← index 93 hostport;
         if (e + 1 =? length hostport)%nat then None
         else if (e + 1 =? i)%nat then Some (take (e - 1) (drop 1 hostport), 1%nat, (e + 1)%nat)
         else None
       else
         let host := take i hostport in
         if bool_decide (colon ∈ host) then None else Some (host, O, O));
  let '(host, j, k) := h in
  if bool_decide (91 ∈ drop j hostport) || bool_decide (93 ∈ drop k hostport) then None
  else Some (host, drop (i + 1) hostport).

Example parse_v6_examples :
  ParseIP (bstr "2001:db8::1") = Some [32; 1; 13; 184; 0; 0; 0; 0; 0; 0; 0; 0; 0; 0; 0; 1] /\
  ParseIP (bstr "::") = Some (replicate 16 0) /\
  ParseIP (bstr "::ffff:10.1.2.3") = ParseIP (bstr "10.1.2.3") /\
  ParseIP (bstr "1:2:3:4:5:6:7:8:9") = None /\ ParseIP (bstr "1::2::3") = None /\
  ParseIP (bstr "fe80::1%eth0") = None /\ ParseIP (bstr "010.1.2.3") = None /\
  ParseIP (bstr "1:2:3:4:5:6:7::") = Some [0; 1; 0; 2; 0; 3; 0; 4; 0; 5; 0; 6; 0; 7; 0; 0] /\
  SplitHostPort (bstr "[::1]:443") = Some (bstr "::1", bstr "443") /\
  SplitHostPort (bstr "10.0.0.1:80") = Some (bstr "10.0.0.1", bstr "80") /\
  SplitHostPort (bstr "10.0.0.1") = None /\ SplitHostPort (bstr "::1:443") = None.
Proof. by vm_compute. Qed.

Example cidr_examples :
  IPNet_String <$> ParseCIDR (bstr "10.1.2.3/8") = Some (bstr "10.0.0.0/8") /\
  IPNet_String <$> ParseCIDR (bstr "2001:db8::/32") = Some (bstr "2001:db8::/32") /\
  ParseCIDR (bstr "10.0.0.0/33") = None /\ ParseCIDR (bstr "10.0.0.0") = None /\
  (n ← ParseCIDR (bstr "10.0.0.0/8"); ip ← ParseIP (bstr "10.200.3.4"); Some (Contains n ip)) = Some true /\
  (n ← ParseCIDR (bstr "10.0.0.0/8"); ip ← ParseIP (bstr "11.0.0.0"); Some (Contains n ip)) = Some false.
Proof. by vm_compute. Qed.

(** ** Printing and parsing dotted addresses *)

Lemma is_digit_dec d : 0 <= d < 10 -> is_digit (48 + d) = true.
Proof. intros. unfold is_digit. apply andb_true_intro. split; apply Z.leb_le; lia. Qed.

(** One digit of a field. *)
Lemma parse_v4_digit d s val digLen fields :
  0 <= d < 10 -> ~ (digLen = 1 /\ val = 0) -> val * 10 + d <= 255 ->
  parse_v4 (48 + d :: s) val digLen fields = parse_v4 s (val * 10 + d) (digLen + 1) fields.
Proof.
  intros Hd Hz Hv. cbn [parse_v4]. rewrite is_digit_dec by done.
  destruct (Z.eqb_spec digLen 1), (Z.eqb_spec val 0); cbn [andb]; try tauto;
    replace (48 + d - 48) with d by lia; by rewrite (proj2 (Z.ltb_ge _ _)) by lia.
Qed.

(** The field of a byte is read back whatever follows. *)
Lemma parse_v4_byte b s fields :
  is_byte b ->
  exists len, 0 < len /\ parse_v4 (dec_byte b ++ s) 0 0 fields = parse_v4 s b len fields.
Proof.
  unfold is_byte. intros Hb. unfold dec_byte.
  destruct (Z.ltb_spec b 10); [|destruct (Z.ltb_spec b 100)].
  - exists 1. split; [lia|]. unfold digit. rewrite (proj2 (Z.ltb_lt _ _)) by lia. cbn [app].
    rewrite parse_v4_digit by lia. f_equal; lia.
  - exists 2. split; [lia|]. pose proof (Z.mod_pos_bound b 10). pose proof (Z.div_mod b 10).
    assert (1 <= b / 10 < 10) by (split; [apply Z.div_le_lower_bound|apply Z.div_lt_upper_bound]; lia).
    unfold digit. rewrite !(proj2 (Z.ltb_lt _ _)) by lia. cbn [app].
    rewrite !parse_v4_digit by lia. f_equal; lia.
  - exists 3. split; [lia|]. pose proof (Z.mod_pos_bound b 10). pose proof (Z.div_mod b 10).
    pose proof (Z.mod_pos_bound (b / 10) 10). pose proof (Z.div_mod (b / 10) 10).
    assert (Hd : b / 100 = b / 10 / 10) by (rewrite Z.div_div by lia; done).
    assert (1 <= b / 100 < 10) by (split; [apply Z.div_le_lower_bound|apply Z.div_lt_upper_bound]; lia).
    unfold digit. rewrite !(proj2 (Z.ltb_lt _ _)) by lia. cbn [app].
    rewrite !parse_v4_digit by lia. f_equal; lia.
Qed.

Lemma parse_v4_dot s val len fields :
  0 < len -> s <> [] -> (length fields < 3)%nat ->
  parse_v4 (dot :: s) val len fields = parse_v4 s 0 0 (val :: fields).
Proof.
  intros Hl Hs Hf. cbn [parse_v4]. change (is_digit dot) with false. cbn iota.
  rewrite Z.eqb_refl, (proj2 (Z.eqb_neq _ _)) by lia. rewrite bool_decide_eq_false_2 by done.
  by rewrite (proj2 (Nat.eqb_neq _ _)) by lia.
Qed.

Lemma dec_byte_nonempty b s : dec_byte b ++ s <> [].
Proof. unfold dec_byte. by repeat case_match. Qed.

Lemma parse_addr_dotted b all s : is_byte b ->
  parse_addr_from all (dec_byte b ++ dot :: s) = parse_v4 all 0 0 [].
Proof.
  unfold is_byte. intros Hb.
  assert (Hskip : forall d t, 0 <= d < 10 ->
    parse_addr_from all (digit d :: t) = parse_addr_from all t).
  { intros d t Hd. simpl. unfold digit. rewrite (proj2 (Z.ltb_lt d 10)) by lia.
    unfold dot, colon. by rewrite !(proj2 (Z.eqb_neq (48 + d) _)) by lia. }
  pose proof (Z.mod_pos_bound b 10). pose proof (Z.mod_pos_bound (b / 10) 10).
  pose proof (Z.div_pos b 10). pose proof (Z.div_pos b 100).
  unfold dec_byte. destruct (Z.ltb_spec b 10); [|destruct (Z.ltb_spec b 100)]; cbn [app].
  - by rewrite Hskip by lia.
  - assert (b / 10 < 10) by (apply Z.div_lt_upper_bound; lia). by rewrite !Hskip by lia.
  - assert (b / 100 < 10) by (apply Z.div_lt_upper_bound; lia). by rewrite !Hskip by lia.
Qed.

(** Every printed IPv4 address parses back to itself. *)
Lemma ParseAddr_dotted a b c d :
  Forall is_byte [a; b; c; d] -> ParseAddr (dotted a b c d) = Some [a; b; c; d].
Proof.
  intros Hall. rewrite !Forall_cons in Hall. destruct Hall as (Ha & Hb & Hc & Hd & _).
  unfold ParseAddr, dotted. cbn [app]. rewrite parse_addr_dotted by done.
  destruct (parse_v4_byte a (dot :: dec_byte b ++ dot :: dec_byte c ++ dot :: dec_byte d) [] Ha)
    as (l1 & Hl1 & ->).
  rewrite parse_v4_dot by (done || apply dec_byte_nonempty || simpl; lia).
  destruct (parse_v4_byte b (dot :: dec_byte c ++ dot :: dec_byte d) [a] Hb) as (l2 & Hl2 & ->).
  rewrite parse_v4_dot by (done || apply dec_byte_nonempty || simpl; lia).
  destruct (parse_v4_byte c (dot :: dec_byte d) [b; a] Hc) as (l3 & Hl3 & ->).
  rewrite parse_v4_dot; [|done|by rewrite <- (app_nil_r (dec_byte d)); apply dec_byte_nonempty|simpl; lia].
  destruct (parse_v4_byte d [] [c; b; a] Hd) as (l4 & Hl4 & He).
  rewrite app_nil_r in He. by rewrite He.
Qed.

(** ** Containment *)

(** Masking a byte to its top [n] bits keeps exactly its quotient. *)
Lemma land_top_bits n x y :
  0 <= n < 8 -> is_byte x -> is_byte y ->
  Z.land x (255 - Z.shiftr 255 n) = Z.land y (255 - Z.shiftr 255 n) <->
  x / 2 ^ (8 - n) = y / 2 ^ (8 - n).
Proof.
  intros Hn Hx Hy.
  assert (Hall : forall n x, 0 <= n < 8 -> is_byte x ->
    Z.land x (255 - Z.shiftr 255 n) = 2 ^ (8 - n) * (x / 2 ^ (8 - n))).
  { clear. intros n x Hn Hx. unfold is_byte in Hx.
    assert (Hc : forallb (fun n => forallb (fun x =>
      Z.land x (255 - Z.shiftr 255 n) =? 2 ^ (8 - n) * (x / 2 ^ (8 - n))) (seqZ 0 256)) (seqZ 0 8) = true)
      by (vm_compute; reflexivity).
    rewrite forallb_forall in Hc. specialize (Hc n). rewrite forallb_forall in Hc.
    apply Z.eqb_eq, Hc; apply list_elem_of_In, elem_of_seqZ; lia. }
  rewrite !Hall by done. assert (0 < 2 ^ (8 - n)) by (apply Z.pow_pos_nonneg; lia).
  split; [|by intros ->]. intros He. by apply Z.mul_cancel_l in He; [|lia].
Qed.

Lemma be_val_cons x l : be_val (x :: l) = x * 2 ^ (8 * Z.of_nat (length l)) + be_val l.
Proof.
  unfold be_val. simpl rev. generalize (length_rev l). generalize (rev l). intros l' <-.
  induction l' as [|y l' IH]; simpl; [lia|].
  rewrite IH. replace (8 * Z.of_nat (S (length l'))) with (8 + 8 * Z.of_nat (length l')) by lia.
  rewrite Z.pow_add_r by lia. lia.
Qed.

Lemma be_val_range l : Forall is_byte l -> 0 <= be_val l < 2 ^ (8 * Z.of_nat (length l)).
Proof.
  intros Hl. unfold be_val. pose proof (le_val_range (rev l)) as Hr.
  rewrite length_rev in Hr. rewrite Z.pow_mul_r by lia. apply Hr. by apply Forall_rev.
Qed.

(** Equal under the mask of [n] bits is equal in the first [n] bits. *)
Lemma mask_prefix l1 l2 n :
  Forall is_byte l1 -> Forall is_byte l2 -> length l1 = length l2 ->
  0 <= n <= 8 * Z.of_nat (length l1) ->
  and_bytes l1 (mask_bytes (length l1) n) = and_bytes l2 (mask_bytes (length l1) n) <->
  be_val l1 / 2 ^ (8 * Z.of_nat (length l1) - n) = be_val l2 / 2 ^ (8 * Z.of_nat (length l1) - n).
Proof.
  intros H1. revert l2 n. induction H1 as [|x l1 Hx H1 IH]; intros [|y l2] n H2 Hlen Hn;
    simplify_eq/=; [done|].
  apply Forall_cons in H2 as [Hy H2]. rewrite !be_val_cons. rewrite <- Hlen.
  pose proof (be_val_range l1 H1) as Hr1. pose proof (be_val_range l2 H2) as Hr2.
  rewrite <- Hlen in Hr2. set (w := 8 * Z.of_nat (length l1)) in *.
  replace (8 * Z.of_nat (S (length l1))) with (8 + w) in * by (unfold w; lia).
  assert (Hw : 0 <= w) by (unfold w; lia).
  destruct (Z.leb_spec 8 n) as [Hge|Hlt].
  - (* a whole byte *)
    replace (8 + w - n) with (w - (n - 8)) by lia. set (m := w - (n - 8)).
    assert (Hsplit : forall v u, 0 <= u < 2 ^ w ->
      (v * 2 ^ w + u) / 2 ^ m = v * 2 ^ (n - 8) + u / 2 ^ m /\ 0 <= u / 2 ^ m < 2 ^ (n - 8)).
    { intros v u Hu. assert (Hp : 2 ^ w = 2 ^ (n - 8) * 2 ^ m)
        by (rewrite <- Z.pow_add_r by lia; f_equal; lia).
      assert (0 < 2 ^ m) by (apply Z.pow_pos_nonneg; lia). rewrite Hp in Hu |- *.
      rewrite Z.mul_assoc, Z.add_comm, Z.div_add, Z.add_comm by lia. split; [done|].
      split; [apply Z.div_pos; lia|]. apply Z.div_lt_upper_bound; lia. }
    destruct (Hsplit x (be_val l1) Hr1) as [-> Hb1]. destruct (Hsplit y (be_val l2) Hr2) as [-> Hb2].
    specialize (IH l2 (n - 8) H2 Hlen ltac:(lia)). fold w m in IH.
    change 255 with (Z.ones 8). rewrite !Z.land_ones by lia.
    unfold is_byte in Hx, Hy. change (2 ^ 8) with 256. rewrite !Z.mod_small by lia. split.
    + intros He. simplify_eq. by rewrite (proj1 IH).
    + intros He. assert (x = y) as -> by nia. f_equal. apply IH. lia.
  - (* the last, partial byte; the rest is masked out *)
    assert (Hz : forall l, and_bytes l (mask_bytes (length l) 0) = replicate (length l) 0).
    { induction l as [|z l IHl]; simpl; [done|]. rewrite Z.land_0_r. unfold and_bytes in *. by rewrite IHl. }
    rewrite Hz. unfold and_bytes in *. rewrite Hlen, Hz, <- Hlen.
    replace (8 + w - n) with (w + (8 - n)) by lia. rewrite Z.pow_add_r by lia.
    rewrite <- !Z.div_div by lia.
    assert (0 < 2 ^ w) by (apply Z.pow_pos_nonneg; lia).
    assert (Hq : forall v u, 0 <= u < 2 ^ w -> (v * 2 ^ w + u) / 2 ^ w = v).
    { intros v u Hu. rewrite Z.add_comm, Z.div_add, Z.div_small by lia. done. }
    rewrite !Hq by done.
    rewrite <- land_top_bits by (done || lia). split; [by intros [= ->]|by intros ->].
Qed.

Lemma length_mask_bytes len n : length (mask_bytes len n) = len.
Proof. revert n. induction len; intros; simpl; [done|]. destruct (8 <=? n); simpl; auto. Qed.

Lemma and_bytes_idemp l m : and_bytes (and_bytes l m) m = and_bytes l m.
Proof.
  revert m. induction l as [|x l IH]; intros [|y m]; simpl; [done..|].
  unfold and_bytes in *. rewrite IH. by rewrite <- Z.land_assoc, Z.land_diag.
Qed.

Lemma length_and_bytes l m : length l = length m -> length (and_bytes l m) = length l.
Proof. intros. unfold and_bytes. rewrite length_zip_with. lia. Qed.

Lemma take_mapped ip : take 12 (v4InV6Prefix ++ ip) = v4InV6Prefix.
Proof. done. Qed.

Lemma To4_As16 ip : length ip = 4%nat -> To4 (As16 ip) = Some ip.
Proof.
  intros Hl. unfold To4, As16. rewrite Hl. cbn [Nat.eqb].
  rewrite length_app, Hl, take_mapped. by rewrite bool_decide_eq_true_2.
Qed.

(** A block given by four network bytes and a mask of four bytes. *)
Lemma Contains_masked net m ip :
  length ip = 4%nat -> length m = 4%nat -> To4 (net_IP net) <> None ->
  net_Mask net = m ->
  Contains net (As16 ip) = true <->
  exists nn, To4 (net_IP net) = Some nn /\ length nn = 4%nat /\ and_bytes nn m = and_bytes ip m.
Proof.
  intros Hip Hm Hnet Hmask. unfold Contains, networkNumberAndMask.
  rewrite To4_As16, Hmask, Hm by done. destruct (To4 (net_IP net)) as [nn|] eqn:Hnn; [|done].
  destruct (Nat.eqb_spec (length nn) 4) as [Hl|Hl]; cbn [Nat.eqb].
  - rewrite Hip, Hl. cbn [Nat.eqb andb]. rewrite bool_decide_eq_true. split; [by eexists|].
    by intros (? & [= <-] & _ & ?).
  - rewrite (proj2 (Nat.eqb_neq _ _)) by lia. split; [done|]. by intros (? & [= <-] & ? & _).
Qed.

(** A prefix contains exactly the addresses that agree with it in its first bits. *)
Lemma Contains_v4 addr n ip :
  Forall is_byte addr -> length addr = 4%nat -> Forall is_byte ip -> length ip = 4%nat -> 0 <= n <= 32 ->
  Contains (prefix_net addr n) (As16 ip) = true <->
  be_val addr / 2 ^ (32 - n) = be_val ip / 2 ^ (32 - n).
Proof.
  intros Ha Hal Hi Hil Hn. pose proof (length_mask_bytes 4 n) as Hm.
  assert (Hnet : To4 (net_IP (prefix_net addr n)) = Some (and_bytes addr (mask_bytes 4 n))).
  { unfold prefix_net. cbn [net_IP]. unfold IP_Mask. rewrite Hal, Hm. unfold As16. rewrite Hal.
    cbn [Nat.eqb andb]. rewrite take_mapped, bool_decide_eq_true_2 by done.
    change (drop 12 (v4InV6Prefix ++ addr)) with addr. unfold To4.
    by rewrite length_and_bytes, Hal by congruence. }
  rewrite (Contains_masked _ (mask_bytes 4 n)); [|done|done|congruence|unfold prefix_net; cbn; by rewrite Hal].
  pose proof (mask_prefix addr ip n Ha Hi ltac:(congruence)) as Hp. rewrite Hal in Hp.
  change (8 * Z.of_nat 4) with 32 in Hp. rewrite <- Hp by lia. rewrite Hnet. split.
  - intros (nn & [= <-] & _ & He). by rewrite and_bytes_idemp in He.
  - intros He. eexists. split_and!; [done| |by rewrite and_bytes_idemp].
    rewrite length_and_bytes; congruence.
Qed.

(** A single address is a prefix of full length. *)
Lemma Contains_single_v4 addr ip :
  Forall is_byte addr -> length addr = 4%nat -> Forall is_byte ip -> length ip = 4%nat ->
  Contains (MkIPNet (As16 addr) (mask_bytes 4 32)) (As16 ip) = true <-> addr = ip.
Proof.
  intros Ha Hal Hi Hil. rewrite (Contains_masked _ (mask_bytes 4 32));
    [|done|done|by cbn [net_IP]; rewrite To4_As16|done].
  assert (Hid : forall l, Forall is_byte l -> length l = 4%nat -> and_bytes l (mask_bytes 4 32) = l).
  { intros l Hl Hlen. destruct l as [|a [|b [|c [|d [|? ?]]]]]; try done.
    rewrite !Forall_cons in Hl. unfold is_byte in Hl. change (mask_bytes 4 32) with [255; 255; 255; 255].
    unfold and_bytes. simpl. change 255 with (Z.ones 8). rewrite !Z.land_ones by lia.
    change (2 ^ 8) with 256. rewrite !Z.mod_small by lia. done. }
  cbn [net_IP]. rewrite To4_As16 by done. split.
  - intros (nn & [= <-] & _ & He). by rewrite !Hid in He.
  - intros ->. by exists ip.
Qed.
