(* ===== verification/GoNetFilter.v ===== *)
(** internal/enforcer/netfilter.go: the address blocklist and the rate limit on
    connections.

    The clock is an argument; the mutex is outside the model, since every method
    holds it for its whole body.  An [int] counter is 64 bits wide. *)

From S2P Require Import Prelude GoEvents GoApi GoNet.

(** ** State *)

Record connWindow : Type := MkConnWindow { count : Z; resetAt : Z }.

Record NetFilter : Type := MkNetFilter {
  blocklists : list IPNet;
  rateLimit : Z;
  window : Z;
  connCounts : gmap Z connWindow;
}.

Record NetFilterConfig : Type := MkNetFilterConfig {
  BlockCIDRs : list (list Z);
  RateLimit : Z;
  Window : Z;
}.

Definition minute : Z := 60 * 1000000000.

Definition with_blocklists (b : list IPNet) (nf : NetFilter) : NetFilter :=
  MkNetFilter b (rateLimit nf) (window nf) (connCounts nf).
Definition with_connCounts (m : gmap Z connWindow) (nf : NetFilter) : NetFilter :=
  MkNetFilter (blocklists nf) (rateLimit nf) (window nf) m.

(** ** Operations *)

(** The block of a configuration string: a prefix, or a single address. *)
Definition parse_block (cidr : list Z) : go IPNet :=
  match ParseCIDR cidr with
  | Some ipnet => Ret ipnet
  | None =>
      match ParseIP cidr with
      | None => Fail (Sprintf "invalid CIDR or IP: %s" [AStr cidr])
      | Some ip =>
          let mask := match To4 ip with Some _ => mask_bytes 4 32 | None => mask_bytes 16 128 end in
          Ret (MkIPNet ip mask)
      end
  end.

(** [AddCIDR]; the loop of [NewNetFilter] has the same body. *)
Definition AddCIDR (cidr : list Z) (nf : NetFilter) : go NetFilter :=
  let! ipnet := parse_block cidr in
  Ret (with_blocklists (blocklists nf ++ [ipnet]) nf).

Fixpoint add_cidrs (cidrs : list (list Z)) (nf : NetFilter) : go NetFilter :=
  match cidrs with
  | [] => Ret nf
  | cidr :: cidrs' => let! nf := AddCIDR cidr nf in add_cidrs cidrs' nf
  end.

Definition NewNetFilter (cfg : NetFilterConfig) : go NetFilter :=
  add_cidrs (BlockCIDRs cfg)
    (MkNetFilter [] (RateLimit cfg) (if Window cfg <=? 0 then minute else Window cfg) ∅).

(** The address to test: the string itself, or the host of a host-port pair. *)
Definition parse_target (addr : list Z) : option (list Z) :=
  match ParseIP addr with
  | Some ip => Some ip
  | None =>
      match SplitHostPort addr with
      | None => None
      | Some (host, _) => ParseIP host
      end
  end.

Definition IsBlocked (addr : list Z) (nf : NetFilter) : bool :=
  match parse_target addr with
  | None => false
  | Some ip => existsb (fun block => Contains block ip) (blocklists nf)
  end.

Definition CheckRateLimit (now pid : Z) (nf : NetFilter) : bool * NetFilter :=
  if rateLimit nf <=? 0 then (false, nf)
  else
    let fresh := (false, with_connCounts (<[pid := MkConnWindow 1 (now + window nf)]> (connCounts nf)) nf) in
    match connCounts nf !! pid with
    | None => fresh
    | Some w =>
        if resetAt w <? now then fresh
        else
          let w := MkConnWindow (to_s 64 (count w + 1)) (resetAt w) in
          (rateLimit nf <? count w, with_connCounts (<[pid := w]> (connCounts nf)) nf)
    end.

Fixpoint remove_first (p : IPNet -> bool) (l : list IPNet) : list IPNet :=
  match l with
  | [] => []
  | b :: l' => if p b then l' else b :: remove_first p l'
  end.

Definition RemoveCIDR (cidr : list Z) (nf : NetFilter) : NetFilter :=
  with_blocklists (remove_first (fun block => bool_decide (IPNet_String block = cidr)) (blocklists nf)) nf.

Definition BlocklistSize (nf : NetFilter) : Z := Z.of_nat (length (blocklists nf)).

Definition CleanupStale (now : Z) (nf : NetFilter) : NetFilter :=
  with_connCounts (filter (fun p => ~ resetAt p.2 < now) (connCounts nf)) nf.

(** ** The blocklist *)

(** What a configuration string means: an IPv4 network and the length of its prefix. *)
Definition v4_prefix (cidr addr : list Z) (n : Z) : Prop :=
  length addr = 4%nat /\
  (parse_prefix cidr = Some (addr, n) \/ (parse_prefix cidr = None /\ ParseAddr cidr = Some addr /\ n = 32)).

Definition in_prefix (addr : list Z) (n : Z) (ip : list Z) : Prop :=
  be_val addr / 2 ^ (32 - n) = be_val ip / 2 ^ (32 - n).

Lemma parse_v4_bytes s val len fields addr :
  is_byte val -> Forall is_byte fields -> parse_v4 s val len fields = Some addr -> Forall is_byte addr.
Proof.
  revert val len fields. induction s as [|c s IH]; intros val len fields Hv Hf; simpl.
  { case_match; [done|]. intros [= <-]. apply Forall_app. split; [by apply Forall_rev|]. by constructor. }
  destruct (is_digit c) eqn:Hd.
  - destruct ((len =? 1) && (val =? 0)); [done|].
    destruct (Z.ltb_spec 255 (val * 10 + (c - 48))); [done|]. apply IH; [|done].
    unfold is_digit in Hd. apply andb_prop in Hd as []. zbool. unfold is_byte in *. lia.
  - destruct (c =? dot); [|done]. case_match; [done|].
    apply IH; [unfold is_byte; lia|by constructor].
Qed.

Lemma ParseAddr_v4_bytes s addr :
  ParseAddr s = Some addr -> length addr = 4%nat -> Forall is_byte addr.
Proof.
  unfold ParseAddr. generalize s at 2 as rest. intros rest. induction rest as [|c rest IH]; simpl; [done|].
  destruct (c =? dot); [intros Hp _; eapply parse_v4_bytes; [| |exact Hp]; [unfold is_byte; lia|done]|].
  destruct (c =? colon); [|destruct (c =? 37); [done|auto]].
  intros Hp Hl. exfalso. unfold parse_v6 in Hp. case_bool_decide; [done|].
  destruct (match s with [] => _ | _ => _ end) as [[t e] only]. destruct only; [by simplify_eq|].
  destruct (v6_groups 8 t [] e) as [[[ip e'] [|? ?]]|]; [|done..].
  destruct (Nat.ltb_spec (length ip) 16) as [Hlt|Hge].
  - destruct e' as [e'|]; [|done]. simplify_eq/=.
    rewrite !length_app, length_replicate, length_take, length_drop in Hl. lia.
  - case_bool_decide; [|done]. simplify_eq. lia.
Qed.

(** The block built for a configured IPv4 network tests the prefix. *)
Lemma parse_block_contains cidr addr n block ip :
  v4_prefix cidr addr n -> parse_block cidr = Ret block -> Forall is_byte ip -> length ip = 4%nat ->
  Contains block (As16 ip) = true <-> in_prefix addr n ip.
Proof.
  intros [Hl [Hp|(Hp & Ha & ->)]] Hb Hip Hil; unfold parse_block, ParseCIDR in Hb; rewrite Hp in Hb;
    simplify_eq/=.
  - unfold parse_prefix in Hp. destruct (cut slash cidr) as [[a m]|]; [|done]. simpl in Hp.
    destruct (ParseAddr a) as [a'|] eqn:Ha; [|done]. simpl in Hp. case_bool_decide; [done|].
    destruct (dtoi m 0) as [n'|] eqn:Hd; [|done]. simpl in Hp.
    destruct (Z.ltb_spec (8 * Z.of_nat (length a')) n') as [|Hle]; [done|]. simplify_eq.
    assert (Hn : 0 <= n).
    { cut (forall m acc r, dtoi m acc = Some r -> 0 <= acc -> 0 <= r); [intros Hc; by eapply Hc|].
      clear. induction m as [|c m IH]; intros acc r; simpl; [by intros [= <-]|].
      destruct (is_digit c) eqn:Hd; [|done]. case_match; [done|]. intros Hr Ha. eapply IH; [done|].
      unfold is_digit in Hd. apply andb_prop in Hd as []. zbool. lia. }
    rewrite Hl in Hle. pose proof (ParseAddr_v4_bytes _ _ Ha Hl) as Hab. apply Contains_v4; auto.
  - unfold ParseIP in Hb. rewrite Ha in Hb. simpl in Hb. rewrite To4_As16 in Hb by done. simplify_eq.
    pose proof (ParseAddr_v4_bytes _ _ Ha Hl) as Hab.
    rewrite Contains_single_v4 by done. unfold in_prefix. rewrite !Z.div_1_r.
    split; [by intros ->|]. intros He. unfold be_val in He.
    assert (rev addr = rev ip) as Hr; [|by apply (f_equal (@rev Z)) in Hr; rewrite !rev_involutive in Hr].
    rewrite <- (le_bytes_le_val (rev addr)), <- (le_bytes_le_val (rev ip)) by (by apply Forall_rev).
    by rewrite He, !length_rev, Hl, Hil.
Qed.

Lemma add_cidrs_blocks cidrs nf nf' :
  add_cidrs cidrs nf = Ret nf' ->
  exists blocks, blocklists nf' = blocklists nf ++ blocks /\
    Forall2 (fun cidr block => parse_block cidr = Ret block) cidrs blocks.
Proof.
  revert nf. induction cidrs as [|cidr cidrs IH]; intros nf; simpl.
  { intros [= <-]. exists []. by rewrite app_nil_r. }
  unfold AddCIDR. destruct (parse_block cidr) as [block| | |] eqn:Hb; [|done..]. cbn [go_bind].
  intros (blocks & -> & Hall)%IH. exists (block :: blocks). cbn [blocklists with_blocklists].
  split; [by rewrite <- app_assoc|]. by constructor.
Qed.

(** The filter blocks the configured networks and nothing else: for a filter
    built from a list of IPv4 prefixes and addresses, an IPv4 address, printed the way
    events carry it, is blocked exactly when it agrees with one of the entries in the
    first bits, as many as the entry's prefix length. *)
Lemma netfilter_blocks_iff cfg nf nets a b c d :
  NewNetFilter cfg = Ret nf ->
  Forall2 (fun cidr net => v4_prefix cidr net.1 net.2) (BlockCIDRs cfg) nets ->
  Forall is_byte [a; b; c; d] ->
  IsBlocked (dotted a b c d) nf = true <->
  Exists (fun net => in_prefix net.1 net.2 [a; b; c; d]) nets.
Proof.
  intros Hnew Hnets Hip. unfold IsBlocked, parse_target, ParseIP. rewrite ParseAddr_dotted by done.
  cbn [fmap option_fmap option_map].
  destruct (add_cidrs_blocks _ _ _ Hnew) as (blocks & -> & Hall). cbn [blocklists app].
  clear Hnew. revert nets Hnets. induction Hall as [|cidr block cidrs blocks Hb Hall IH];
    intros nets Hnets; inversion Hnets as [|? net ? nets' Hv Hrest]; subst; simpl.
  { split; [done|]. by intros ?%Exists_nil. }
  rewrite orb_true_iff, Exists_cons, (IH nets') by done.
  rewrite (parse_block_contains cidr net.1 net.2) by done. done.
Qed.

(** An entry added as a single address cannot be removed under the name it was added
    by: the stored block prints with a prefix length. *)
Lemma RemoveCIDR_needs_length :
  let nf := MkNetFilter [] 0 minute ∅ in
  exists nf1, AddCIDR (bstr "192.0.2.7") nf = Ret nf1 /\
    RemoveCIDR (bstr "192.0.2.7") nf1 = nf1 /\
    IsBlocked (bstr "192.0.2.7") (RemoveCIDR (bstr "192.0.2.7") nf1) = true /\
    IsBlocked (bstr "192.0.2.7") (RemoveCIDR (bstr "192.0.2.7/32") nf1) = false.
Proof. eexists. split; [vm_compute; reflexivity|]. by vm_compute. Qed.

(** ** The rate limit *)

(** Connection attempts, each a process id and a time, and what they were answered. *)
Fixpoint rate_run (calls : list (Z * Z)) (nf : NetFilter) : list (Z * bool) :=
  match calls with
  | [] => []
  | (pid, now) :: calls' =>
      let '(limited, nf) := CheckRateLimit now pid nf in (pid, limited) :: rate_run calls' nf
  end.

Definition answers (pid : Z) (out : list (Z * bool)) : list bool :=
  snd <$> filter (fun x => x.1 = pid) out.
Definition attempts (pid : Z) (calls : list (Z * Z)) : nat :=
  length (filter (fun x => x.1 = pid) calls).

Lemma CheckRateLimit_other now pid pid' nf :
  pid <> pid' -> let nf' := (CheckRateLimit now pid nf).2 in
  connCounts nf' !! pid' = connCounts nf !! pid' /\ rateLimit nf' = rateLimit nf /\ window nf' = window nf.
Proof.
  intros Hne. unfold CheckRateLimit. repeat case_match; simpl; auto;
    by rewrite lookup_insert_ne.
Qed.

Lemma to_s64_id z : 0 <= z < 2 ^ 63 -> to_s 64 z = z.
Proof.
  intros. unfold to_s. rewrite Z.mod_small by lia.
  change (64 - 1) with 63. by rewrite (proj2 (Z.ltb_lt _ _)) by lia.
Qed.

(** Inside an open window with [k] attempts so far, the next ones are answered by
    their number, whatever other processes do in between. *)
Lemma rate_run_open calls pid k r nf :
  0 < rateLimit nf -> connCounts nf !! pid = Some (MkConnWindow k r) ->
  Forall (fun c => c.1 = pid -> c.2 <= r) calls ->
  0 <= k -> k + Z.of_nat (attempts pid calls) < 2 ^ 63 ->
  answers pid (rate_run calls nf) =
  (fun i => rateLimit nf <? i) <$> seqZ (k + 1) (Z.of_nat (attempts pid calls)).
Proof.
  revert k nf. induction calls as [|[pid' now] calls IH]; intros k nf Hr Hk Hin Hpos Hmax; [done|].
  apply Forall_cons in Hin as [Hnow Hin]. unfold answers, attempts in *. cbn [rate_run].
  destruct (decide (pid' = pid)) as [->|Hne].
  - rewrite filter_cons_True in Hmax |- * by done. cbn [length] in *. unfold CheckRateLimit.
    rewrite (proj2 (Z.leb_gt _ _)) by lia. rewrite Hk. cbn [resetAt count].
    specialize (Hnow eq_refl). simpl in Hnow. rewrite (proj2 (Z.ltb_ge _ _)) by lia.
    rewrite to_s64_id by lia. rewrite filter_cons_True by done. rewrite fmap_cons.
    rewrite seqZ_cons by lia. rewrite fmap_cons. f_equal.
    rewrite (IH (k + 1)); cbn [rateLimit with_connCounts connCounts]; [|done| |done|lia|lia].
    + f_equal. f_equal; lia.
    + by rewrite lookup_insert_eq.
  - rewrite filter_cons_False in Hmax |- * by done.
    destruct (CheckRateLimit_other now pid' pid nf Hne) as (Hl & Hrl & _).
    destruct (CheckRateLimit now pid' nf) as [limited nf']. cbn [snd] in *.
    rewrite filter_cons_False by done. rewrite <- Hrl. apply IH; [lia|congruence|done..].
Qed.

(** C36: the rate limit is exact: from the first attempt of a process outside any
    window, and whatever other processes do in between, its attempts within the
    window are let through up to the configured limit, and every later one until the
    window ends is refused. *)
Theorem rate_limit_exact pid t0 calls nf :
  0 < rateLimit nf ->
  (forall w, connCounts nf !! pid = Some w -> resetAt w < t0) ->
  Forall (fun c => c.1 = pid -> c.2 <= t0 + window nf) calls ->
  1 + Z.of_nat (attempts pid calls) < 2 ^ 63 ->
  answers pid (rate_run ((pid, t0) :: calls) nf) =
  (fun i => rateLimit nf <? i) <$> seqZ 1 (1 + Z.of_nat (attempts pid calls)).
Proof.
  intros Hr Hfresh Hin Hmax. cbn [rate_run]. unfold CheckRateLimit.
  rewrite (proj2 (Z.leb_gt _ _)) by lia.
  assert (Hopen : match connCounts nf !! pid with
                  | None => true
                  | Some w => resetAt w <? t0
                  end = true).
  { destruct (connCounts nf !! pid) eqn:Hw; [|done]. apply Z.ltb_lt. by apply Hfresh. }
  set (nf' := with_connCounts (<[pid := MkConnWindow 1 (t0 + window nf)]> (connCounts nf)) nf).
  assert (Hstep : answers pid ((pid, false) :: rate_run calls nf') =
    (fun i => rateLimit nf <? i) <$> seqZ 1 (1 + Z.of_nat (attempts pid calls))).
  { unfold answers at 1. rewrite filter_cons_True, fmap_cons by done.
    fold (answers pid (rate_run calls nf')).
    rewrite (rate_run_open calls pid 1 (t0 + window nf) nf');
      [|done|by apply lookup_insert_eq|done|lia|lia].
    rewrite (seqZ_cons 1) by lia. rewrite fmap_cons. f_equal; [symmetry; apply Z.ltb_ge; lia|].
    do 2 f_equal; lia. }
  destruct (connCounts nf !! pid); [|exact Hstep]. rewrite Hopen. exact Hstep.
Qed.

(** Removing expired windows changes no later answer. *)
Lemma cleanup_transparent now calls nf :
  Forall (fun c => now <= c.2) calls ->
  rate_run calls (CleanupStale now nf) = rate_run calls nf.
Proof.
  intros Hin.
  assert (Hag : forall calls nf1 nf2, Forall (fun c => now <= c.2) calls ->
    rateLimit nf1 = rateLimit nf2 -> window nf1 = window nf2 ->
    (forall pid, connCounts nf1 !! pid = connCounts nf2 !! pid \/
       (connCounts nf1 !! pid = None /\ exists w, connCounts nf2 !! pid = Some w /\ resetAt w < now)) ->
    rate_run calls nf1 = rate_run calls nf2).
  { clear. induction calls as [|[pid t] calls IH]; intros nf1 nf2 Hin Hr Hw Hc; [done|].
    apply Forall_cons in Hin as [Ht Hin]. simpl in Ht. cbn [rate_run]. unfold CheckRateLimit.
    rewrite Hr, Hw. destruct (rateLimit nf2 <=? 0); [f_equal; by apply IH|].
    assert (Hins : forall w b, (pid, b) :: rate_run calls (with_connCounts (<[pid := w]> (connCounts nf1)) nf1)
      = (pid, b) :: rate_run calls (with_connCounts (<[pid := w]> (connCounts nf2)) nf2)).
    { intros w b. f_equal. apply IH; cbn [rateLimit window connCounts with_connCounts]; [done..|].
      intros pid'. destruct (decide (pid = pid')) as [->|Hne]; [by rewrite !lookup_insert_eq; left|].
      rewrite !lookup_insert_ne by done. apply Hc. }
    destruct (Hc pid) as [->|(-> & w & -> & Hexp)].
    - destruct (connCounts nf2 !! pid) as [w|]; [|apply Hins]. destruct (resetAt w <? t); apply Hins.
    - rewrite (proj2 (Z.ltb_lt _ _)) by lia. apply Hins. }
  apply Hag; [done..|]. intros pid. unfold CleanupStale. cbn [connCounts with_connCounts].
  destruct (connCounts nf !! pid) as [w|] eqn:Hw; [|left; by rewrite map_lookup_filter_None; left].
  destruct (decide (resetAt w < now)); [right|left].
  - split; [|by eexists]. rewrite map_lookup_filter_None. right. intros w' ?. simplify_eq. simpl. tauto.
  - by apply map_lookup_filter_Some.
Qed.

(** ** Witnesses *)

Definition demo_netfilter : NetFilter :=
  MkNetFilter [prefix_net [10; 0; 0; 0] 8; MkIPNet (As16 [192; 0; 2; 7]) (mask_bytes 4 32)] 2 minute ∅.
Definition demo_netfilter_config : NetFilterConfig :=
  MkNetFilterConfig [bstr "10.0.0.0/8"; bstr "192.0.2.7"] 2 0.

Lemma netfilter_blocks_iff_witness : IsBlocked (dotted 10 1 2 3) demo_netfilter = true.
Proof.
  apply (netfilter_blocks_iff demo_netfilter_config demo_netfilter
    [([10; 0; 0; 0], 8); ([192; 0; 2; 7], 32)] 10 1 2 3).
  - vm_compute. reflexivity.
  - apply Forall2_cons. split; [split; [done|left; vm_compute; reflexivity]|].
    apply Forall2_cons. split; [split; [done|right; by vm_compute]|]. apply Forall2_nil. exact I.
  - repeat constructor; unfold is_byte; lia.
  - left. vm_compute. reflexivity.
Defined.

Lemma rate_limit_exact_witness :
  answers 42 (rate_run [(42, 100); (7, 101); (42, 102); (42, 103); (42, 104)] demo_netfilter) =
  [false; false; true; true].
Proof.
  etrans; [apply (rate_limit_exact 42 100 [(7, 101); (42, 102); (42, 103); (42, 104)] demo_netfilter)|].
  - done.
  - intros w Hw. vm_compute in Hw. discriminate.
  - repeat constructor; vm_compute; congruence.
  - vm_compute. reflexivity.
  - vm_compute. reflexivity.
Defined.
