(* ===== verification/GoSandbox.v ===== *)
(** internal/enforcer/sandbox.go: sandbox profiles and the processes under them.

    Profiles are shared by pointer and never changed after registration, so a
    profile is its value. *)

From S2P Require Import Prelude GoApi.

Record SandboxProfile : Type := MkProfile {
  Name : list Z;
  DenyNetwork : bool;
  ReadOnlyFS : bool;
  AllowedSyscalls : list (list Z);
  BlockedSyscalls : list (list Z);
  MaxOpenFiles : Z;
  MaxProcesses : Z;
  MaxMemoryMB : Z;
  IsolatePID : bool;
  DropCaps : list (list Z);
}.

Record SandboxManager : Type := MkSandboxManager {
  profiles : gmap (list Z) SandboxProfile;
  applied : gmap Z SandboxProfile;
}.

Definition RegisterProfile (p : SandboxProfile) (sm : SandboxManager) : SandboxManager :=
  MkSandboxManager (<[Name p := p]> (profiles sm)) (applied sm).

Definition NewSandboxManager (ps : list SandboxProfile) : SandboxManager :=
  foldl (fun sm p => RegisterProfile p sm) (MkSandboxManager ∅ ∅) ps.

Definition GetProfile (name : list Z) (sm : SandboxManager) : option SandboxProfile :=
  profiles sm !! name.

(** In an order that is not specified. *)
Definition ListProfiles (sm : SandboxManager) : list (list Z) := (map_to_list (profiles sm)).*1.

Definition ApplySandbox (pid : Z) (profileName : list Z) (sm : SandboxManager) : go SandboxManager :=
  match profiles sm !! profileName with
  | None => Fail (Sprintf "sandbox profile %q not found" [AStr profileName])
  | Some p => Ret (MkSandboxManager (profiles sm) (<[pid := p]> (applied sm)))
  end.

Definition IsSandboxed (pid : Z) (sm : SandboxManager) : option SandboxProfile := applied sm !! pid.

Definition ReleaseSandbox (pid : Z) (sm : SandboxManager) : SandboxManager :=
  MkSandboxManager (profiles sm) (delete pid (applied sm)).

Definition SandboxedCount (sm : SandboxManager) : Z := Z.of_nat (size (applied sm)).

(** The reason, or [None] for the empty string. *)
Definition CheckViolation (pid : Z) (action : list Z) (sm : SandboxManager) : option message :=
  match applied sm !! pid with
  | None => None
  | Some profile =>
      if bool_decide (action = bstr "network") && DenyNetwork profile then
        Some (Sprintf "sandbox %q: network access denied" [AStr (Name profile)])
      else if bool_decide (action = bstr "write") && ReadOnlyFS profile then
        Some (Sprintf "sandbox %q: filesystem is read-only" [AStr (Name profile)])
      else if bool_decide (action ∈ BlockedSyscalls profile) then
        Some (Sprintf "sandbox %q: syscall %s blocked" [AStr (Name profile); AStr action])
      else None
  end.

Definition DefaultProfiles : list SandboxProfile := [
  MkProfile (bstr "strict") true true [] [] 0 0 0 true [bstr "ALL"];
  MkProfile (bstr "network-deny") true false [] [] 0 0 0 false [];
  MkProfile (bstr "readonly") false true [] [] 0 0 0 false [];
  MkProfile (bstr "limited") false false []
    [bstr "ptrace"; bstr "mount"; bstr "reboot"; bstr "kexec_load"] 64 16 256 false []].

(** ** Facts *)

(** What a profile forbids. *)
Definition forbids (profile : SandboxProfile) (action : list Z) : Prop :=
  (action = bstr "network" /\ DenyNetwork profile = true) \/
  (action = bstr "write" /\ ReadOnlyFS profile = true) \/
  action ∈ BlockedSyscalls profile.

Lemma CheckViolation_iff pid action sm :
  is_Some (CheckViolation pid action sm) <->
  exists profile, IsSandboxed pid sm = Some profile /\ forbids profile action.
Proof.
  unfold CheckViolation, IsSandboxed, forbids. destruct (applied sm !! pid) as [p|].
  2: { split; [by intros []|by intros (? & ? & _)]. }
  split.
  - intros Hv. exists p. split; [done|]. revert Hv.
    destruct (DenyNetwork p), (ReadOnlyFS p); repeat case_bool_decide; simpl; intros [];
      simplify_eq; tauto.
  - intros (? & [= <-] & Hf).
    destruct (DenyNetwork p), (ReadOnlyFS p); repeat case_bool_decide; simpl;
      destruct Hf as [[]|[[]|]]; simplify_eq; eauto.
Qed.

(** Applying a registered profile is what later checks see; a missing one fails and
    changes nothing; releasing ends it. *)
Lemma ApplySandbox_effect pid name sm :
  match ApplySandbox pid name sm with
  | Ret sm' => exists p, GetProfile name sm = Some p /\ IsSandboxed pid sm' = Some p /\
      (forall pid', pid' <> pid -> IsSandboxed pid' sm' = IsSandboxed pid' sm) /\
      IsSandboxed pid (ReleaseSandbox pid sm') = None
  | Fail _ => GetProfile name sm = None
  | _ => False
  end.
Proof.
  unfold ApplySandbox, GetProfile, IsSandboxed. destruct (profiles sm !! name) as [p|]; [|done].
  exists p. simpl. split_and!; [done|by rewrite lookup_insert_eq| |by rewrite lookup_delete_eq].
  intros. by rewrite lookup_insert_ne.
Qed.
