(* ===== verification/GoActions.v ===== *)
(** internal/enforcer/actions.go: carrying out a decision.

    [Enforce] counts the decision, may mark the shared decision as audited, and
    terminates the process of a denied event.  What leaves the daemon (signals,
    log lines, metrics, the streaming pipeline) is a list of [effect]s. *)

From S2P Require Import Prelude GoApi GoCache.

Inductive effect : Type :=
  | Terminate (pid : Z)
  | AuditLine (level : string) (pid : Z) (result : ActionResult)
  | LogEvent (event : ApiEvent) (result : ActionResult)
  | LogDenial (event : ApiEvent) (result : ActionResult)
  | LogError (err : message)
  | RecordEvent (action : list Z)
  | RecordCacheHit
  | RecordCacheMiss
  | RecordProcessingError
  | RecordAuditDenied
  | RecordLatency (latency : Z)
  | UpdateCacheSize (n : Z)
  | Emit (event : ApiEvent) (result : pointer).

Record ActionHandler : Type := MkHandler {
  allowed : Z;
  denied : Z;
  logged : Z;
  auditDenied : Z;
  auditMode : bool;
}.

Definition NewActionHandler (auditMode : bool) : ActionHandler := MkHandler 0 0 0 0 auditMode.

(** [atomic.AddUint64(&h.x, 1)]. *)
Definition add_allowed (h : ActionHandler) : ActionHandler :=
  MkHandler (to_u64 (allowed h + 1)) (denied h) (logged h) (auditDenied h) (auditMode h).
Definition add_denied (h : ActionHandler) : ActionHandler :=
  MkHandler (allowed h) (to_u64 (denied h + 1)) (logged h) (auditDenied h) (auditMode h).
Definition add_logged (h : ActionHandler) : ActionHandler :=
  MkHandler (allowed h) (denied h) (to_u64 (logged h + 1)) (auditDenied h) (auditMode h).
Definition add_auditDenied (h : ActionHandler) : ActionHandler :=
  MkHandler (allowed h) (denied h) (logged h) (to_u64 (auditDenied h + 1)) (auditMode h).

(** An error of [terminateProcess] is only logged. *)
Definition handleDeny (event : ApiEvent) : list effect :=
  if ae_PID event =? 0 then [] else [Terminate (ae_PID event)].

Definition handleLog (event : ApiEvent) (result : ActionResult) : list effect :=
  let level := if Action result =? api.ActionDeny then "WARN" else "INFO" in
  [AuditLine level (ae_PID event) result].

(** The decision is read and written through its pointer. *)
Definition Enforce (event : ApiEvent) (p : pointer) (h : ActionHandler) (hp : heap)
    : go unit * ActionHandler * heap * list effect :=
  match deref hp p, p with
  | Ret result, Some a =>
      if Action result =? api.ActionAllow then (Ret tt, add_allowed h, hp, [])
      else if Action result =? api.ActionDeny then
        if auditMode h || Audit result then
          let result := with_Audit true result in
          (Ret tt, add_logged (add_auditDenied h), <[a := result]> hp, handleLog event result)
        else (Ret tt, add_denied h, hp, handleDeny event)
      else if Action result =? api.ActionLog then (Ret tt, add_logged h, hp, handleLog event result)
      else (Fail (Sprintf "unknown action: %v" [ANum (Action result)]), h, hp, [])
  | _, _ => (Panic "nil pointer dereference", h, hp, [])
  end.

Definition handler_GetStats (h : ActionHandler) : EnforcementStats :=
  MkStats (allowed h) (denied h) (logged h) (auditDenied h) 0 0 0.

(** ** Facts *)

(** What [Enforce] does to a decision: the audit flag of a denial under audit mode. *)
Definition enforced (h : ActionHandler) (r : ActionResult) : ActionResult :=
  if (Action r =? api.ActionDeny) && (auditMode h || Audit r) then with_Audit true r else r.

Definition known (a : Z) : bool :=
  (a =? api.ActionAllow) || (a =? api.ActionDeny) || (a =? api.ActionLog).

Lemma with_Audit_id r : Audit r = true -> with_Audit true r = r.
Proof. destruct r; simpl. by intros ->. Qed.

(** The counters after a decision. *)
Definition counted (h : ActionHandler) (r : ActionResult) : ActionHandler :=
  if Action r =? api.ActionAllow then add_allowed h
  else if Action r =? api.ActionDeny then
    if auditMode h || Audit r then add_logged (add_auditDenied h) else add_denied h
  else if Action r =? api.ActionLog then add_logged h
  else h.

(** The processes a list of effects terminates, and those a decision should. *)
Definition kills (l : list effect) : list Z :=
  omap (fun x => match x with Terminate pid => Some pid | _ => None end) l.

Definition kill_list (h : ActionHandler) (event : ApiEvent) (r : ActionResult) : list Z :=
  if (Action r =? api.ActionDeny) && negb (auditMode h || Audit r) && negb (ae_PID event =? 0)
  then [ae_PID event] else [].

Lemma kills_app l l' : kills (l ++ l') = kills l ++ kills l'.
Proof. apply omap_app. Qed.

(** The whole of [Enforce] for a decision at address [a]: it fails exactly on an
    unknown action, and then does nothing. *)
Lemma Enforce_run event a r h hp :
  hp !! a = Some r ->
  exists res effects,
    Enforce event (Some a) h hp = (res, counted h r, <[a := enforced h r]> hp, effects) /\
    kills effects = kill_list h event r /\
    res = (if known (Action r) then Ret tt else Fail (Sprintf "unknown action: %v" [ANum (Action r)])).
Proof.
  intros Hr. unfold Enforce, deref, enforced, known, counted, kill_list. cbn. rewrite Hr.
  assert (Hid : <[a := r]> hp = hp) by (by apply insert_id).
  destruct (Z.eqb_spec (Action r) api.ActionAllow) as [->|Ha]; cbn.
  { rewrite Hid. by eexists _, _. }
  destruct (Z.eqb_spec (Action r) api.ActionDeny) as [->|Hd]; cbn.
  { destruct (auditMode h || Audit r) eqn:Hm; cbn; [by eexists _, _|]. rewrite Hid.
    eexists _, _. split_and!; [done| |done]. unfold handleDeny. by destruct (ae_PID event =? 0). }
  rewrite Hid. destruct (Action r =? api.ActionLog); cbn; by eexists _, _.
Qed.

(** The three decision counters move together with the known decisions. *)
Lemma counted_total h r :
  to_u64 (allowed (counted h r) + denied (counted h r) + logged (counted h r)) =
  to_u64 (allowed h + denied h + logged h + (if known (Action r) then 1 else 0)).
Proof.
  unfold counted, known.
  destruct (Action r =? api.ActionAllow); cbn [orb].
  { cbn [add_allowed allowed denied logged]. rewrite <- Z.add_assoc, to_u_add_l. f_equal. lia. }
  destruct (Action r =? api.ActionDeny); cbn [orb].
  { destruct (auditMode h || Audit r); cbn [add_logged add_auditDenied add_denied allowed denied logged].
    - rewrite Z.add_comm, to_u_add_l. f_equal. lia.
    - rewrite (Z.add_comm (allowed h)), <- Z.add_assoc, to_u_add_l. f_equal. lia. }
  destruct (Action r =? api.ActionLog); cbn [orb add_logged allowed denied logged].
  - rewrite Z.add_comm, to_u_add_l. f_equal. lia.
  - f_equal. lia.
Qed.
