(* ===== verification/GoWasm.v ===== *)
(** internal/wasm: what a policy module sees of an event and how it is evaluated
    (policy.go, hostcallback.go, pool.go, context.go).

    The WebAssembly engine is the interface [Wasm]: instances of a module with
    exported functions and a linear memory.  A pool is a channel of instances; a
    call on it may block or, once it is closed, panic, as Go's channels do. *)

From S2P Require Import Prelude CTypes GoPolicyMap GoApi.

(** ** The binary event *)

Definition eventStructSize : nat := 256.

(** [copyStringToBuffer(buf[off:off+n], s)]. *)
Definition copyStringToBuffer (off n : nat) (s buf : list Z) : list Z := splice off (take n s) buf.

Definition PutUint16 (off : nat) (v : Z) (buf : list Z) : list Z := splice off (le_bytes 2 v) buf.

Definition event_type_byte (t : ApiEventType) : Z :=
  match t with EventTypeProcess => 0 | EventTypeFile => 1 | EventTypeNetwork => 2 end.

Definition write_subject (event : ApiEvent) (buf : list Z) : list Z :=
  match GetType event with
  | EventTypeProcess =>
      let filename := match ae_Process event with
                      | Some p => pe_Filename p
                      | None => ae_Filename event
                      end in
      copyStringToBuffer 77 128 filename buf
  | EventTypeFile =>
      match ae_File event with
      | Some f =>
          let buf := copyStringToBuffer 77 128 (fe_Path f) buf in
          let buf := PutUint32 205 (fe_Flags f) buf in
          copyStringToBuffer 213 32 (fe_Operation f) buf
      | None =>
          let buf := copyStringToBuffer 77 128 (ae_Filename event) buf in
          copyStringToBuffer 213 32 (bstr "open") buf
      end
  | EventTypeNetwork =>
      match ae_Network event with
      | Some n =>
          let buf := copyStringToBuffer 77 128 (ne_RemoteAddr n) buf in
          let buf := PutUint16 209 (ne_RemotePort n) buf in
          let buf := PutUint16 211 (ne_LocalPort n) buf in
          copyStringToBuffer 213 32 (ne_Protocol n) buf
      | None => buf
      end
  end.

Definition writeEventBinary (event : ApiEvent) : list Z :=
  let buf := replicate eventStructSize 0 in
  let buf := PutUint32 0 (ae_PID event) buf in
  let buf := PutUint32 4 (ae_UID event) buf in
  let buf := PutUint32 8 (ae_GID event) buf in
  let buf := PutByte 12 (event_type_byte (GetType event)) buf in
  let buf := copyStringToBuffer 13 64 (ae_Comm event) buf in
  write_subject event buf.

(** The object handed to a module of the older interface, before its encoding. *)
Inductive json : Type := JNum (n : Z) | JStr (s : list Z).

Definition marshalEventForWASM (event : ApiEvent) : list (string * json) :=
  [("pid", JNum (ae_PID event)); ("uid", JNum (ae_UID event)); ("gid", JNum (ae_GID event));
   ("comm", JStr (ae_Comm event))] ++
  match GetType event with
  | EventTypeProcess =>
      [("type", JStr (bstr "PROCESS"));
       ("filename", JStr match ae_Process event with
                         | Some p => pe_Filename p
                         | None => ae_Filename event
                         end)]
  | EventTypeFile =>
      ("type", JStr (bstr "FILE")) ::
      match ae_File event with
      | Some f => [("operation", JStr (fe_Operation f)); ("path", JStr (fe_Path f));
                   ("flags", JNum (fe_Flags f))]
      | None => [("operation", JStr (bstr "open")); ("path", JStr (ae_Filename event));
                 ("flags", JNum 0)]
      end
  | EventTypeNetwork =>
      ("type", JStr (bstr "NETWORK")) ::
      match ae_Network event with
      | Some n => [("operation", JStr (ne_Operation n)); ("protocol", JStr (ne_Protocol n));
                   ("remote_addr", JStr (ne_RemoteAddr n)); ("remote_port", JNum (ne_RemotePort n));
                   ("local_port", JNum (ne_LocalPort n))]
      | None => [("operation", JStr (bstr "connect")); ("protocol", JStr (bstr "tcp"));
                 ("remote_addr", JStr []); ("remote_port", JNum 0); ("local_port", JNum 0)]
      end
  end.

(** ** Host callbacks *)

Definition hostGetFieldU32 (event : ApiEvent) (fieldID : Z) : Z :=
  if fieldID =? 0 then ae_PID event
  else if fieldID =? 1 then ae_UID event
  else if fieldID =? 2 then ae_GID event
  else if fieldID =? 3 then from_option fe_Flags 0 (ae_File event)
  else if fieldID =? 4 then from_option ne_RemotePort 0 (ae_Network event)
  else if fieldID =? 5 then from_option ne_LocalPort 0 (ae_Network event)
  else 0.

Definition getEventPath (event : ApiEvent) : list Z :=
  let process := from_option pe_Filename [] (ae_Process event) in
  let file := from_option fe_Path [] (ae_File event) in
  let network := from_option ne_RemoteAddr [] (ae_Network event) in
  if negb (bool_decide (process = [])) then process
  else if negb (bool_decide (file = [])) then file
  else if negb (bool_decide (network = [])) then network
  else ae_Filename event.

Definition getEventOperation (event : ApiEvent) : list Z :=
  match ae_File event with
  | Some f => fe_Operation f
  | None => from_option ne_Operation [] (ae_Network event)
  end.

(** The bytes written to the module's buffer of [bufLen] bytes. *)
Definition hostGetFieldStr (event : ApiEvent) (fieldID bufLen : Z) : list Z :=
  let value :=
    if fieldID =? 10 then ae_Comm event
    else if fieldID =? 11 then getEventPath event
    else if fieldID =? 12 then getEventOperation event
    else if fieldID =? 13 then from_option ne_Protocol [] (ae_Network event)
    else if fieldID =? 14 then from_option ne_RemoteAddr [] (ae_Network event)
    else [] in
  take (Z.to_nat bufLen) value.

(** ** The engine *)

(** [M] is a compiled module, [S] the state of an instance.  A call is given the event
    whose fields the host callbacks return. *)
Class Wasm (M S : Type) : Type := {
  InstantiateModule : M -> Z -> go S;
  exports : S -> string -> bool;
  call : string -> (Z -> Z) * (Z -> Z -> list Z) -> list Z -> S -> go (list Z) * S;
  memory_write : Z -> list Z -> S -> option S;
  memory_read : Z -> Z -> S -> option (list Z);
  json_Marshal : list (string * json) -> list Z;
}.

Section Engine.
Context {M S : Type} `{Wasm M S}.

Record Policy : Type := MkPolicy {
  instance : S;
  eventBufPtr : Z;
  useBinaryABI : bool;
}.

Definition with_instance (s : S) (p : Policy) : Policy := MkPolicy s (eventBufPtr p) (useBinaryABI p).

(** [results[0]]. *)
Definition result0 (results : list Z) : go Z :=
  match results with r :: _ => Ret r | [] => Panic "index out of range" end.

Definition no_event : (Z -> Z) * (Z -> Z -> list Z) := (fun _ => 0, fun _ _ => []).
Definition host_of (event : ApiEvent) : (Z -> Z) * (Z -> Z -> list Z) :=
  (hostGetFieldU32 event, hostGetFieldStr event).

(** [fn.Call(ctx, args...)] and its first result. *)
Definition call0 (host : (Z -> Z) * (Z -> Z -> list Z)) (fn : string) (args : list Z) (p : Policy)
    : go Z * Policy :=
  let '(res, s) := call fn host args (instance p) in
  (go_bind res result0, with_instance s p).

Definition evaluateBinary (event : ApiEvent) (p : Policy) : go Z * Policy :=
  match memory_write (eventBufPtr p) (writeEventBinary event) (instance p) with
  | None => (Fail (Text "failed to write event to WASM memory"), p)
  | Some s =>
      let '(res, p) := call0 (host_of event) "evaluate_event" [eventBufPtr p] (with_instance s p) in
      match res with
      | Ret r => (Ret (to_s 32 r), p)
      | Fail err => (Fail (Sprintf "evaluate_event failed: %w" [AErr err]), p)
      | Panic why => (Panic why, p)
      | Block => (Block, p)
      end
  end.

(** The deferred call of free. *)
Definition free_buffer (host : (Z -> Z) * (Z -> Z -> list Z)) (ptr len : Z) (p : Policy) : Policy :=
  if exports (instance p) "free" then (call0 host "free" [ptr; len] p).2 else p.

Definition evaluateJSON (event : ApiEvent) (p : Policy) : go Z * Policy :=
  let eventJSON := json_Marshal (marshalEventForWASM event) in
  let len := Z.of_nat (length eventJSON) in
  if negb (exports (instance p) "malloc") then (Fail (Text "malloc function not found"), p)
  else
    let '(res, p) := call0 (host_of event) "malloc" [len] p in
    match res with
    | Fail err => (Fail (Sprintf "malloc failed: %w" [AErr err]), p)
    | Panic why => (Panic why, p)
    | Block => (Block, p)
    | Ret r =>
        let ptr := to_u32 r in
        match memory_write ptr eventJSON (instance p) with
        | None => (Fail (Text "failed to write event to WASM memory"), free_buffer (host_of event) ptr len p)
        | Some s =>
            let p := with_instance s p in
            if negb (exports (instance p) "evaluate_syscall")
            then (Fail (Text "evaluate_syscall function not found"), free_buffer (host_of event) ptr len p)
            else
              let '(res, p) := call0 (host_of event) "evaluate_syscall" [ptr; len] p in
              let p := free_buffer (host_of event) ptr len p in
              match res with
              | Ret r => (Ret (to_s 32 r), p)
              | Fail err => (Fail (Sprintf "evaluate_syscall failed: %w" [AErr err]), p)
              | Panic why => (Panic why, p)
              | Block => (Block, p)
              end
        end
    end.

Definition Policy_Evaluate (event : ApiEvent) (p : Policy) : go Z * Policy :=
  if useBinaryABI p then evaluateBinary event p else evaluateJSON event p.

(** The reason of the last matched rule; [[]] when the module gives none. *)
Definition GetMatchedRule (p : Policy) : list Z * Policy :=
  if negb (exports (instance p) "get_last_matched_rule") then ([], p)
  else if negb (exports (instance p) "malloc") then ([], p)
  else
    let '(res, p) := call0 no_event "malloc" [512] p in
    match res with
    | Ret r =>
        let bufPtr := to_u32 r in
        let '(res, p) := call0 no_event "get_last_matched_rule" [bufPtr; 512] p in
        let text := match res with
                    | Ret r =>
                        let written := to_u32 r in
                        if written =? 0 then []
                        else from_option id [] (memory_read bufPtr written (instance p))
                    | _ => []
                    end in
        (text, free_buffer no_event bufPtr 512 p)
    | _ => ([], p)
    end.

(** ** The pool *)

(** The channel: its buffered instances in order, whether it is closed, and the
    counter for instance names. *)
Record Pool : Type := MkPool {
  instances : list Policy;
  closed : bool;
  psize : Z;
  counter : Z;
  pmodule : M;
}.

Definition pool_instantiate (p : Pool) : go Policy * Pool :=
  let n := to_u64 (counter p + 1) in
  let p := MkPool (instances p) (closed p) (psize p) n (pmodule p) in
  match InstantiateModule (pmodule p) n with
  | Fail err => (Fail err, p)
  | Panic why => (Panic why, p)
  | Block => (Block, p)
  | Ret s =>
      if negb (exports s "evaluate_event") then (Ret (MkPolicy s 0 false), p)
      else if negb (exports s "malloc") then (Fail (Text "binary ABI module missing malloc export"), p)
      else
        let '(res, pol) := call0 no_event "malloc" [256] (MkPolicy s 0 true) in
        match res with
        | Ret r => (Ret (MkPolicy (instance pol) (to_u32 r) true), p)
        | Fail err => (Fail (Sprintf "malloc for event buffer: %w" [AErr err]), p)
        | Panic why => (Panic why, p)
        | Block => (Block, p)
        end
  end.

(** [for i := 0; i < size; i++]: [n] instances are left to create. *)
Fixpoint fill_pool (n : nat) (i : Z) (p : Pool) : go Pool :=
  match n with
  | O => Ret p
  | Datatypes.S n' =>
      let '(res, p) := pool_instantiate p in
      match res with
      | Ret pol => fill_pool n' (i + 1) (MkPool (instances p ++ [pol]) (closed p) (psize p) (counter p) (pmodule p))
      | Fail err => Fail (Sprintf "instantiate pool member %d: %w" [ANum i; AErr err])
      | Panic why => Panic why
      | Block => Block
      end
  end.

Definition NewPool (module : option M) (size : Z) : go Pool :=
  let size := if size <=? 0 then 1 else size in
  match module with
  | None => Fail (Text "runtime has no compiled module")
  | Some m => fill_pool (Z.to_nat size) 0 (MkPool [] false size 0 m)
  end.

(** [canceled]: the select takes the case of the cancelled context.  A receive on a
    closed, drained channel yields nil. *)
Definition Pool_Get (canceled : bool) (p : Pool) : go (option Policy) * Pool :=
  if canceled then (Fail (Text "context canceled"), p)
  else match instances p with
  | pol :: rest => (Ret (Some pol), MkPool rest (closed p) (psize p) (counter p) (pmodule p))
  | [] => (if closed p then Ret None else Block, p)
  end.

Definition Pool_Put (pol : option Policy) (p : Pool) : go unit * Pool :=
  match pol with
  | None => (Ret tt, p)
  | Some pol =>
      if closed p then (Panic "send on closed channel", p)
      else if Z.of_nat (length (instances p)) <? psize p
      then (Ret tt, MkPool (instances p ++ [pol]) false (psize p) (counter p) (pmodule p))
      else (Ret tt, p)
  end.

(** Closing the drained instances has no effect on the daemon. *)
Definition Pool_Close (p : Pool) : go unit * Pool :=
  if closed p then (Panic "close of closed channel", p)
  else (Ret tt, MkPool [] true (psize p) (counter p) (pmodule p)).

(** ** The evaluator *)

Definition ActionAuditDeny : Z := 3.

Definition buildReason (action : Z) (event : ApiEvent) : message :=
  if action =? api.ActionAllow then Text "Policy allows execution"
  else if action =? api.ActionDeny
  then Sprintf "Policy denies: %s by UID %d" [AStr (ae_Filename event); ANum (ae_UID event)]
  else if action =? api.ActionLog then Text "Policy requires logging"
  else Text "Unknown action".

(** [start] and [latency] are what the clock says. *)
Definition Evaluate (canceled : bool) (start latency : Z) (event : ApiEvent) (pl : Pool)
    : go ActionResult * Pool :=
  let '(got, pl) := Pool_Get canceled pl in
  match got with
  | Fail err => (Fail (Sprintf "get policy from pool: %w" [AErr err]), pl)
  | Panic why => (Panic why, pl)
  | Block => (Block, pl)
  | Ret None => (Panic "nil pointer dereference", pl)
  | Ret (Some policy) =>
      let '(res, policy) := Policy_Evaluate event policy in
      match res with
      | Panic why => (Panic why, pl)
      | Block => (Block, pl)
      | Fail err =>
          let '(put, pl) := Pool_Put (Some policy) pl in
          (match put with Ret _ => Fail err | Fail e => Fail e | Panic why => Panic why | Block => Block end, pl)
      | Ret action =>
          let '(action, audit) :=
            if action =? ActionAuditDeny then (api.ActionDeny, true) else (action, false) in
          let '(text, policy) := GetMatchedRule policy in
          let reason := if bool_decide (text = []) then buildReason action event
                        else Sprintf "%s" [AStr text] in
          let result := MkResult action reason start false latency audit in
          let '(put, pl) := Pool_Put (Some policy) pl in
          (go_bind put (fun _ => Ret result), pl)
      end
  end.
End Engine.

Arguments Policy : clear implicits.
Arguments Pool : clear implicits.

(** ** Evaluation is total *)

(** A call of a module's function returns a result or an error. *)
Class WasmOk (M S : Type) `{Wasm M S} : Prop := {
  call_total fn host args s :
    fn ∈ ["malloc"; "evaluate_event"; "evaluate_syscall"; "get_last_matched_rule"] ->
    (exists r rs, (call fn host args s).1 = Ret (r :: rs)) \/ (exists err, (call fn host args s).1 = Fail err);
}.

(** A pool that an evaluation can take an instance from and put it back. *)
Definition pool_ready {M S} (pl : Pool M S) : Prop :=
  closed pl = false /\ instances pl <> [] /\ Z.of_nat (length (instances pl)) <= psize pl.

Definition returns {A} (m : go A) : Prop := (exists a, m = Ret a) \/ (exists err, m = Fail err).

Section Total.
Context {M S : Type} `{WasmOk M S}.

Lemma call0_total host fn args (p : Policy S) :
  fn ∈ ["malloc"; "evaluate_event"; "evaluate_syscall"; "get_last_matched_rule"] ->
  returns (call0 host fn args p).1.
Proof.
  intros Hfn. unfold call0. pose proof (call_total fn host args (instance p) Hfn) as Hc.
  destruct (call fn host args (instance p)) as [res s]. cbn [fst] in *.
  destruct Hc as [(r & rs & ->)|(err & ->)]; [left|right]; by eexists.
Qed.

Lemma Policy_Evaluate_total event (p : Policy S) : returns (Policy_Evaluate event p).1.
Proof.
  unfold Policy_Evaluate. destruct (useBinaryABI p).
  - unfold evaluateBinary. destruct (memory_write _ _ _); [|right; by eexists].
    pose proof (call0_total (host_of event) "evaluate_event" [eventBufPtr p] (with_instance s p)) as Hc.
    destruct (call0 _ _ _ _) as [res p']. cbn [fst] in Hc.
    destruct Hc as [(r & ->)|(err & ->)]; [set_solver|left|right]; by eexists.
  - unfold evaluateJSON. destruct (exports _ "malloc"); [|right; by eexists]. cbn [negb].
    set (len := Z.of_nat _).
    pose proof (call0_total (host_of event) "malloc" [len] p) as Hc.
    destruct (call0 _ "malloc" _ _) as [res p']. cbn [fst] in Hc.
    destruct Hc as [(r & ->)|(err & ->)]; [set_solver| |right; by eexists].
    destruct (memory_write _ _ _); [|right; by eexists].
    destruct (exports _ "evaluate_syscall"); [|right; by eexists]. cbn [negb].
    pose proof (call0_total (host_of event) "evaluate_syscall" [to_u32 r; len] (with_instance s p')) as Hc.
    destruct (call0 _ "evaluate_syscall" _ _) as [res p'']. cbn [fst] in Hc.
    destruct Hc as [(r' & ->)|(err & ->)]; [set_solver|left|right]; by eexists.
Qed.

(** An evaluation takes an instance, returns or fails, and gives the instance back. *)
Lemma Evaluate_total canceled start latency event (pl : Pool M S) :
  pool_ready pl ->
  returns (Evaluate canceled start latency event pl).1 /\
  pool_ready (Evaluate canceled start latency event pl).2.
Proof.
  intros (Hc & Hi & Hs). unfold Evaluate, Pool_Get. destruct canceled; [split; [right; by eexists|done]|].
  destruct (instances pl) as [|pol rest] eqn:Hin; [done|].
  pose proof (Policy_Evaluate_total event pol) as Hp.
  destruct (Policy_Evaluate event pol) as [res pol']. cbn [fst] in Hp.
  assert (Hput : forall pol'', let pl' := MkPool rest (closed pl) (psize pl) (counter pl) (pmodule pl) in
    Pool_Put (Some pol'') pl' = (Ret tt, MkPool (rest ++ [pol'']) false (psize pl) (counter pl) (pmodule pl)) /\
    pool_ready (MkPool (rest ++ [pol'']) false (psize pl) (counter pl) (pmodule pl))).
  { intros pol'' pl'. unfold Pool_Put. subst pl'. cbn [closed instances psize counter pmodule]. rewrite Hc.
    cbn [length] in Hs. rewrite (proj2 (Z.ltb_lt _ _)) by lia. split; [done|].
    split_and!; cbn [closed instances psize]; [done|by destruct rest|rewrite length_app; simpl; lia]. }
  destruct Hp as [(r & ->)|(err & ->)].
  - destruct (if r =? ActionAuditDeny then _ else _) as [action audit].
    destruct (GetMatchedRule pol') as [text pol'']. destruct (Hput pol'') as [-> Hready].
    split; [left; by eexists|done].
  - destruct (Hput pol') as [-> Hready]. split; [right; by eexists|done].
Qed.
End Total.

(** ** The layout of the binary event *)

(** A string in a field of [n] bytes: cut, or filled up with zeros. *)
Definition pad (n : nat) (s : list Z) : list Z := take n s ++ replicate (n - length s) 0.

Lemma length_pad n s : length (pad n s) = n.
Proof. unfold pad. rewrite length_app, length_take, length_replicate. lia. Qed.

(** Writing at the start of a field of a buffer that is a sequence of fields. *)
Lemma splice_field off s pre f post :
  off = length (concat pre) -> (length s <= length f)%nat ->
  splice off s (concat (pre ++ f :: post)) = concat (pre ++ (s ++ drop (length s) f) :: post).
Proof.
  intros -> Hl. rewrite !concat_app. cbn [concat]. unfold splice.
  rewrite take_app_length, drop_app_add, (drop_app_le f) by done. by rewrite <- app_assoc.
Qed.

Lemma copy_field off n s pre post :
  off = length (concat pre) ->
  copyStringToBuffer off n s (concat (pre ++ replicate n 0 :: post)) = concat (pre ++ pad n s :: post).
Proof.
  intros Ho. unfold copyStringToBuffer. rewrite splice_field; [|done|rewrite length_replicate, length_take; lia].
  unfold pad. rewrite drop_replicate, length_take.
  by replace (n - n `min` length s)%nat with (n - length s)%nat by lia.
Qed.

Lemma put_field off n v pre post :
  off = length (concat pre) ->
  splice off (le_bytes n v) (concat (pre ++ replicate n 0 :: post)) = concat (pre ++ le_bytes n v :: post).
Proof.
  intros Ho. rewrite splice_field; [|done|by rewrite length_le_bytes, length_replicate].
  rewrite length_le_bytes, drop_ge by (by rewrite length_replicate). by rewrite app_nil_r.
Qed.

(** What the fields after the command name hold. *)
Definition primary_str (event : ApiEvent) : list Z :=
  match GetType event with
  | EventTypeProcess => from_option pe_Filename (ae_Filename event) (ae_Process event)
  | EventTypeFile => from_option fe_Path (ae_Filename event) (ae_File event)
  | EventTypeNetwork => from_option ne_RemoteAddr [] (ae_Network event)
  end.
Definition flags_field (event : ApiEvent) : Z :=
  match GetType event with EventTypeFile => from_option fe_Flags 0 (ae_File event) | _ => 0 end.
Definition port_field (get : NetworkEvent -> Z) (event : ApiEvent) : Z :=
  match GetType event with EventTypeNetwork => from_option get 0 (ae_Network event) | _ => 0 end.
Definition secondary_str (event : ApiEvent) : list Z :=
  match GetType event with
  | EventTypeProcess => []
  | EventTypeFile => from_option fe_Operation (bstr "open") (ae_File event)
  | EventTypeNetwork => from_option ne_Protocol [] (ae_Network event)
  end.

(** Rewrites with a field lemma once the sequence of fields is written out. *)
Ltac put_at t := let H := fresh in pose proof t as H; cbn [app] in H |- *; rewrite H; clear H.

Lemma write_subject_fields event a b c d e :
  length a = 4%nat -> length b = 4%nat -> length c = 4%nat -> length d = 1%nat -> length e = 64%nat ->
  write_subject event (concat ([a; b; c; d; e] ++ [replicate 128 0; replicate 4 0; replicate 2 0;
    replicate 2 0; replicate 32 0; replicate 11 0])) =
  concat [a; b; c; d; e; pad 128 (primary_str event); le_bytes 4 (flags_field event);
    le_bytes 2 (port_field ne_RemotePort event); le_bytes 2 (port_field ne_LocalPort event);
    pad 32 (secondary_str event); replicate 11 0].
Proof.
  intros Ha Hb Hc Hd He.
  assert (Hoff : length (concat [a; b; c; d; e]) = 77%nat)
    by (rewrite length_concat; simpl; lia).
  assert (Hoff2 : forall p x y z, length p = 128%nat -> length x = 4%nat -> length y = 2%nat -> length z = 2%nat ->
    length (concat [a; b; c; d; e; p]) = 205%nat /\ length (concat [a; b; c; d; e; p; x]) = 209%nat /\
    length (concat [a; b; c; d; e; p; x; y]) = 211%nat /\ length (concat [a; b; c; d; e; p; x; y; z]) = 213%nat).
  { intros. rewrite !length_concat. simpl. lia. }
  unfold write_subject, primary_str, flags_field, port_field, secondary_str.
  destruct (GetType event).
  - rewrite copy_field by done.
    replace (match ae_Process event with Some p => pe_Filename p | None => ae_Filename event end)
      with (from_option pe_Filename (ae_Filename event) (ae_Process event)) by (by destruct (ae_Process event)).
    reflexivity.
  - destruct (ae_File event) as [f|]; cbn [from_option];
      rewrite copy_field by done.
    + destruct (Hoff2 (pad 128 (fe_Path f)) (le_bytes 4 (fe_Flags f)) (replicate 2 0) (replicate 2 0))
        as (H1 & _ & _ & H4); rewrite ?length_pad, ?length_le_bytes; [done..|].
      unfold PutUint32. cbn [app].
      rewrite (put_field 205 4 _ [a; b; c; d; e; pad 128 (fe_Path f)]
        [replicate 2 0; replicate 2 0; replicate 32 0; replicate 11 0] (eq_sym H1)).
      exact (copy_field 213 32 _ _ [replicate 11 0] (eq_sym H4)).
    + destruct (Hoff2 (pad 128 (ae_Filename event)) (replicate 4 0) (replicate 2 0) (replicate 2 0))
        as (_ & _ & _ & H4); rewrite ?length_pad, ?length_le_bytes; [done..|].
      exact (copy_field 213 32 _ _ [replicate 11 0] (eq_sym H4)).
  - destruct (ae_Network event) as [n|]; cbn [from_option]; [|reflexivity].
    rewrite copy_field by done. unfold PutUint16.
    destruct (Hoff2 (pad 128 (ne_RemoteAddr n)) (replicate 4 0) (le_bytes 2 (ne_RemotePort n))
      (le_bytes 2 (ne_LocalPort n))) as (_ & H2 & H3 & H4); rewrite ?length_pad, ?length_le_bytes; [done..|].
    rewrite (put_field 209 2 _ [a; b; c; d; e; pad 128 (ne_RemoteAddr n); replicate 4 0]
      [replicate 2 0; replicate 32 0; replicate 11 0] (eq_sym H2)).
    rewrite (put_field 211 2 _ [a; b; c; d; e; pad 128 (ne_RemoteAddr n); replicate 4 0;
      le_bytes 2 (ne_RemotePort n)] [replicate 32 0; replicate 11 0] (eq_sym H3)).
    exact (copy_field 213 32 _ _ [replicate 11 0] (eq_sym H4)).
Qed.

(** The event a policy module is given has the documented layout: 256 bytes, with
    the process, user and group id, the type, the command name cut to 64 bytes, the
    path or address cut to 128, flags, ports and the operation or protocol cut to 32,
    each in its field and zero-filled, and nothing else. *)
Lemma wasm_event_layout event :
  length (writeEventBinary event) = eventStructSize /\
  writeEventBinary event = concat [
    le_bytes 4 (ae_PID event); le_bytes 4 (ae_UID event); le_bytes 4 (ae_GID event);
    [event_type_byte (GetType event)]; pad 64 (ae_Comm event);
    pad 128 (primary_str event); le_bytes 4 (flags_field event);
    le_bytes 2 (port_field ne_RemotePort event); le_bytes 2 (port_field ne_LocalPort event);
    pad 32 (secondary_str event); replicate 11 0].
Proof.
  assert (Heq : writeEventBinary event = concat [
    le_bytes 4 (ae_PID event); le_bytes 4 (ae_UID event); le_bytes 4 (ae_GID event);
    [event_type_byte (GetType event)]; pad 64 (ae_Comm event);
    pad 128 (primary_str event); le_bytes 4 (flags_field event);
    le_bytes 2 (port_field ne_RemotePort event); le_bytes 2 (port_field ne_LocalPort event);
    pad 32 (secondary_str event); replicate 11 0]).
  { unfold writeEventBinary, PutUint32, PutByte.
    set (rest := [replicate 128 0; replicate 4 0; replicate 2 0; replicate 2 0; replicate 32 0; replicate 11 0]).
    change (replicate eventStructSize 0) with
      (concat ([] ++ replicate 4 0 :: [replicate 4 0; replicate 4 0; replicate 1 0; replicate 64 0] ++ rest)).
    rewrite (put_field 0 4 (ae_PID event) []
      ([replicate 4 0; replicate 4 0; replicate 1 0; replicate 64 0] ++ rest) eq_refl).
    put_at (put_field 4 4 (ae_UID event) [le_bytes 4 (ae_PID event)]
      ([replicate 4 0; replicate 1 0; replicate 64 0] ++ rest) eq_refl).
    put_at (put_field 8 4 (ae_GID event) [le_bytes 4 (ae_PID event); le_bytes 4 (ae_UID event)]
      ([replicate 1 0; replicate 64 0] ++ rest) eq_refl).
    put_at (put_field 12 1 (event_type_byte (GetType event)) [le_bytes 4 (ae_PID event); le_bytes 4 (ae_UID event); le_bytes 4 (ae_GID event)]
      ([replicate 64 0] ++ rest) eq_refl).
    put_at (copy_field 13 64 (ae_Comm event) [le_bytes 4 (ae_PID event); le_bytes 4 (ae_UID event); le_bytes 4 (ae_GID event); le_bytes 1 (event_type_byte (GetType event))] rest eq_refl).
    etrans; [apply (write_subject_fields event); rewrite ?length_pad, ?length_le_bytes; done|].
    by destruct (GetType event). }
  split; [|done]. rewrite Heq, length_concat. simpl.
  by rewrite !length_pad.
Qed.
