(* ===== verification/GoEnforcer.v ===== *)
(** internal/enforcer/enforcer.go: from an event to its decision.

    The enforcer is a record of its components, the heap of decisions they share,
    the instance pools by address (the evaluator and the enforcer point to the same
    one) and the kernel whose policy map it fills.  Operations are written in a
    state monad over [go]: an early return ends a computation, a panic carries the
    state it happened in.  The clock readings of one event, the order of map
    iterations and whether a select saw the cancelled context are in [moment]. *)

From S2P Require Import Prelude CTypes Bpf GoPolicyMap GoApi GoCache GoLineage GoNetFilter GoSandbox.
From S2P Require Import GoActions GoWasm.

Record moment : Type := MkMoment {
  t_exec : Z;
  t_rate : Z;
  t_decide : Z;
  t_get : Z;
  t_put : Z;
  t_start : Z;
  t_latency : Z;
  visited_pids : list Z;
  visited_keys : list (list Z);
  canceled : bool;
}.

Section Enforcer.
Context {K M S : Type} `{BpfKernel K} `{Wasm M S}.

(** ** State *)

Record Enforcer : Type := MkEnforcer {
  platform : bool;
  evaluator : option Z;
  pool : option Z;
  cache : DecisionCache;
  actionHandler : ActionHandler;
  policyMap : bool;
  pipeline : bool;
  lineageTracker : Tracker;
  netFilter : option NetFilter;
  sandbox : option SandboxManager;
  learningMode : bool;
  results : heap;
  pools : gmap Z (Pool M S);
  next : Z;
  kernel : K;
  out : list effect;
}.

Definition set_platform v e := MkEnforcer v (evaluator e) (pool e) (cache e) (actionHandler e) (policyMap e) (pipeline e) (lineageTracker e) (netFilter e) (sandbox e) (learningMode e) (results e) (pools e) (next e) (kernel e) (out e).
Definition set_evaluator v e := MkEnforcer (platform e) v (pool e) (cache e) (actionHandler e) (policyMap e) (pipeline e) (lineageTracker e) (netFilter e) (sandbox e) (learningMode e) (results e) (pools e) (next e) (kernel e) (out e).
Definition set_pool v e := MkEnforcer (platform e) (evaluator e) v (cache e) (actionHandler e) (policyMap e) (pipeline e) (lineageTracker e) (netFilter e) (sandbox e) (learningMode e) (results e) (pools e) (next e) (kernel e) (out e).
Definition set_cache v e := MkEnforcer (platform e) (evaluator e) (pool e) v (actionHandler e) (policyMap e) (pipeline e) (lineageTracker e) (netFilter e) (sandbox e) (learningMode e) (results e) (pools e) (next e) (kernel e) (out e).
Definition set_handler v e := MkEnforcer (platform e) (evaluator e) (pool e) (cache e) v (policyMap e) (pipeline e) (lineageTracker e) (netFilter e) (sandbox e) (learningMode e) (results e) (pools e) (next e) (kernel e) (out e).
Definition set_lineage v e := MkEnforcer (platform e) (evaluator e) (pool e) (cache e) (actionHandler e) (policyMap e) (pipeline e) v (netFilter e) (sandbox e) (learningMode e) (results e) (pools e) (next e) (kernel e) (out e).
Definition set_netFilter v e := MkEnforcer (platform e) (evaluator e) (pool e) (cache e) (actionHandler e) (policyMap e) (pipeline e) (lineageTracker e) v (sandbox e) (learningMode e) (results e) (pools e) (next e) (kernel e) (out e).
Definition set_results v e := MkEnforcer (platform e) (evaluator e) (pool e) (cache e) (actionHandler e) (policyMap e) (pipeline e) (lineageTracker e) (netFilter e) (sandbox e) (learningMode e) v (pools e) (next e) (kernel e) (out e).
Definition set_pools v e := MkEnforcer (platform e) (evaluator e) (pool e) (cache e) (actionHandler e) (policyMap e) (pipeline e) (lineageTracker e) (netFilter e) (sandbox e) (learningMode e) (results e) v (next e) (kernel e) (out e).
Definition set_next v e := MkEnforcer (platform e) (evaluator e) (pool e) (cache e) (actionHandler e) (policyMap e) (pipeline e) (lineageTracker e) (netFilter e) (sandbox e) (learningMode e) (results e) (pools e) v (kernel e) (out e).
Definition set_kernel v e := MkEnforcer (platform e) (evaluator e) (pool e) (cache e) (actionHandler e) (policyMap e) (pipeline e) (lineageTracker e) (netFilter e) (sandbox e) (learningMode e) (results e) (pools e) (next e) v (out e).
Definition set_out v e := MkEnforcer (platform e) (evaluator e) (pool e) (cache e) (actionHandler e) (policyMap e) (pipeline e) (lineageTracker e) (netFilter e) (sandbox e) (learningMode e) (results e) (pools e) (next e) (kernel e) v.

(** ** Computations *)

Definition comp (A : Type) : Type := Enforcer -> go A * Enforcer.

#[global] Instance comp_ret : MRet comp := fun A a e => (Ret a, e).
#[global] Instance comp_bind : MBind comp := fun A B f m e =>
  match m e with
  | (Ret a, e) => f a e
  | (Fail err, e) => (Fail err, e)
  | (Panic why, e) => (Panic why, e)
  | (Block, e) => (Block, e)
  end.

Definition gets {A} (f : Enforcer -> A) : comp A := fun e => (Ret (f e), e).
Definition modify (f : Enforcer -> Enforcer) : comp unit := fun e => (Ret tt, f e).
Definition lift {A} (m : go A) : comp A := fun e => (m, e).
Definition say (x : effect) : comp unit := modify (fun e => set_out (out e ++ [x]) e).

(** [&api.ActionResult{...}], and reading through the pointer. *)
Definition new_result (r : ActionResult) : comp pointer := fun e =>
  (Ret (Some (next e)), set_next (next e + 1) (set_results (<[next e := r]> (results e)) e)).
Definition load (p : pointer) : comp ActionResult := fun e => (deref (results e) p, e).

(** [_ = e.actionHandler.Enforce(e.ctx, event, result)]: an error is ignored. *)
Definition enforce (event : ApiEvent) (p : pointer) : comp unit := fun e =>
  let '(res, h, hp, effects) := Enforce event p (actionHandler e) (results e) in
  (match res with Fail _ => Ret tt | res => res end,
   set_out (out e ++ effects) (set_results hp (set_handler h e))).

Definition log_event (event : ApiEvent) (p : pointer) : comp unit :=
  r ← load p; say (LogEvent event r).
Definition record_event (p : pointer) : comp unit :=
  r ← load p; say (RecordEvent (Action_String (Action r))).
Definition record_latency (p : pointer) : comp unit :=
  r ← load p; say (RecordLatency (Latency r ÷ 1000)).
Definition emit (event : ApiEvent) (p : pointer) : comp unit :=
  b ← gets pipeline; if b : bool then say (Emit event p) else mret tt.

(** A denial by a filter before the policy is asked. *)
Definition deny_early (at_ : moment) (event : ApiEvent) (reason : message) : comp unit :=
  p ← new_result (MkResult api.ActionDeny reason (t_decide at_) false 0 false);
  enforce event p;;
  log_event event p;;
  record_event p;;
  emit event p.

(** ** The stages of [handleEvent] *)

Definition record_exec (at_ : moment) (event : ApiEvent) : comp unit :=
  if bool_decide (GetType event = EventTypeProcess) then
    let filename := match ae_Process event with
                    | Some p => pe_Filename p
                    | None => ae_Filename event
                    end in
    modify (fun e => set_lineage
      (RecordExec (t_exec at_) (visited_pids at_) (ae_PID event) 0 (ae_UID event) (ae_GID event)
         (ae_Comm event) filename (lineageTracker e)) e)
  else mret tt.

(** [true] when the event was handled. *)
Definition check_network (at_ : moment) (event : ApiEvent) : comp bool :=
  nf ← gets netFilter;
  match nf with
  | Some nf =>
      if bool_decide (GetType event = EventTypeNetwork) then
        let remoteAddr := from_option ne_RemoteAddr [] (ae_Network event) in
        if negb (bool_decide (remoteAddr = [])) && IsBlocked remoteAddr nf then
          deny_early at_ event (Sprintf "network blocked: %s in CIDR blocklist" [AStr remoteAddr]);;
          mret true
        else
          let '(limited, nf) := CheckRateLimit (t_rate at_) (ae_PID event) nf in
          modify (set_netFilter (Some nf));;
          if limited : bool then
            deny_early at_ event (Sprintf "rate limit exceeded for pid %d" [ANum (ae_PID event)]);;
            mret true
          else mret false
      else mret false
  | None => mret false
  end.

Definition eventTypeToSandboxAction (event : ApiEvent) : list Z :=
  match GetType event with
  | EventTypeNetwork => bstr "network"
  | EventTypeFile => bstr "write"
  | EventTypeProcess => []
  end.

Definition check_sandbox (at_ : moment) (event : ApiEvent) : comp bool :=
  sb ← gets sandbox;
  match sb with
  | Some sm =>
      let action := eventTypeToSandboxAction event in
      if negb (bool_decide (action = [])) then
        match CheckViolation (ae_PID event) action sm with
        | Some reason => deny_early at_ event reason;; mret true
        | None => mret false
        end
      else mret false
  | None => mret false
  end.

Definition learn (at_ : moment) (event : ApiEvent) : comp unit :=
  p ← new_result (MkResult api.ActionAllow (Text "learning mode") (t_decide at_) false 0 false);
  log_event event p;;
  record_event p;;
  emit event p.

Definition serve_hit (event : ApiEvent) (r : ActionResult) : comp unit :=
  p ← new_result r;
  say RecordCacheHit;;
  enforce event p;;
  log_event event p;;
  record_event p;;
  record_latency p;;
  emit event p.

Definition cache_get (at_ : moment) (event : ApiEvent) : comp (option ActionResult) := fun e =>
  match Get (t_get at_) (results e) event (cache e) with
  | Ret (r, c) => (Ret r, set_cache c e)
  | Fail err => (Fail err, e)
  | Panic why => (Panic why, e)
  | Block => (Block, e)
  end.

(** [evaluator.Evaluate(e.ctx, event)]: the error is a value of the caller. *)
Definition evaluate (at_ : moment) (event : ApiEvent) : comp (ActionResult + message) := fun e =>
  match (a ← evaluator e; pl ← pools e !! a; Some (a, pl)) with
  | None => (Panic "nil pointer dereference", e)
  | Some (a, pl) =>
      let '(res, pl) := Evaluate (canceled at_) (t_start at_) (t_latency at_) event pl in
      (match res with
       | Ret r => Ret (inl r)
       | Fail err => Ret (inr err)
       | Panic why => Panic why
       | Block => Block
       end, set_pools (<[a := pl]> (pools e)) e)
  end.

(** The event type and pattern of the kernel rule for an event. *)
Definition sync_pattern (event : ApiEvent) : Z * list Z :=
  match GetType event with
  | EventTypeProcess => (0, from_option pe_Filename (ae_Filename event) (ae_Process event))
  | EventTypeFile => (1, from_option fe_Path (ae_Filename event) (ae_File event))
  | EventTypeNetwork => (2, from_option ne_RemoteAddr [] (ae_Network event))
  end.

Definition syncToPolicyMap (event : ApiEvent) (p : pointer) : comp unit :=
  r ← load p;
  let '(eventType, pattern) := sync_pattern event in
  if bool_decide (pattern = []) then mret tt
  else
    let action := if Action r =? api.ActionDeny then 1 else 0 in
    modify (fun e => set_kernel (SetRule (ae_CgroupID event) eventType pattern action (Audit r) (kernel e)).2 e).

(** The decision on an event no filter and no cache entry decided. *)
Definition decide_event (at_ : moment) (event : ApiEvent) : comp pointer :=
  res ← evaluate at_ event;
  match res with
  | inl r => new_result r
  | inr err =>
      say (LogError err);;
      say RecordProcessingError;;
      new_result (MkResult api.ActionDeny (Sprintf "Evaluation error: %v" [AErr err])
                    (t_decide at_) false 0 false)
  end.

(** What follows the decision. *)
Definition conclude (event : ApiEvent) (p : pointer) : comp unit :=
  enforce event p;;
  log_event event p;;
  r ← load p;
  (if (Action r =? api.ActionDeny) && negb (Audit r) then say (LogDenial event r) else mret tt);;
  record_event p;;
  record_latency p;;
  (if Audit r then say RecordAuditDenied else mret tt);;
  emit event p;;
  c ← gets cache;
  say (UpdateCacheSize (Size (Stats c))).

Definition handleEvent (at_ : moment) (event : ApiEvent) : comp unit :=
  record_exec at_ event;;
  handled ← check_network at_ event;
  if handled : bool then mret tt
  else
    handled ← check_sandbox at_ event;
    if handled : bool then mret tt
    else
      learning ← gets learningMode;
      if learning : bool then learn at_ event
      else
        hit ← cache_get at_ event;
        match hit with
        | Some r => serve_hit event r
        | None =>
            say RecordCacheMiss;;
            p ← decide_event at_ event;
            modify (fun e => set_cache (Put (t_put at_) (visited_keys at_) event p (cache e)) e);;
            pm ← gets policyMap;
            (if pm && negb (ae_LSMEvent event) then syncToPolicyMap event p else mret tt);;
            conclude event p
        end.

(** ** Statistics, reload and shutdown *)

Definition Enforcer_GetStats (e : Enforcer) : EnforcementStats :=
  let actionStats := handler_GetStats (actionHandler e) in
  let cacheStats := Stats (cache e) in
  MkStats (Allowed actionStats) (Denied actionStats) (Logged actionStats) (AuditDenied actionStats)
    (TotalHits cacheStats)
    (to_u64 (Allowed actionStats + Denied actionStats + Logged actionStats - TotalHits cacheStats)) 0.

(** [pool.Close(e.ctx)] on the pool at an address; the error is ignored. *)
Definition close_pool (a : option Z) : comp unit := fun e =>
  match a with
  | None => (Ret tt, e)
  | Some a =>
      match pools e !! a with
      | None => (Panic "nil pointer dereference", e)
      | Some pl => let '(res, pl) := Pool_Close pl in (res, set_pools (<[a := pl]> (pools e)) e)
      end
  end.

(** [loaded] is the outcome of creating a runtime and loading the policy into it. *)
Definition ReloadPolicy (loaded : go (option M)) (numCPU : Z) : comp unit :=
  module ← lift loaded;
  newPool ← lift (wrap "create new policy pool: %w" (NewPool module numCPU));
  oldEvaluator ← gets evaluator;
  oldPool ← gets pool;
  a ← gets next;
  modify (fun e => set_next (a + 1) (set_pools (<[a := newPool]> (pools e)) e));;
  modify (set_evaluator (Some a));;
  modify (set_pool (Some a));;
  modify (fun e => set_cache (Clear (cache e)) e);;
  close_pool oldEvaluator;;
  close_pool oldPool.

Definition Enforcer_Close : comp unit :=
  ev ← gets evaluator;
  pl ← gets pool;
  close_pool ev;;
  close_pool pl;;
  modify (set_platform false).

(** ** Construction *)

(** The options the enforcer itself reads; the others configure the platform. *)
Record Options : Type := MkOptions {
  AuditMode : bool;
  LearningMode : bool;
  StreamSinks : Z;
  opt_NetFilterConfig : option NetFilterConfig;
  SandboxProfiles : option (list SandboxProfile);
}.

(** [loaded_platform]: the kernel and whether the platform gave a policy map; [loaded]:
    the outcome of creating a runtime and loading the policy.  The error paths also
    close the runtime and the platform, which are not part of the state here. *)
Definition New (loaded_platform : go (K * bool)) (loaded : go (option M)) (numCPU : Z) (opts : Options)
    : go Enforcer :=
  let! (k, pm) := wrap "load platform: %w" loaded_platform in
  let! module := loaded in
  let! pl := wrap "create policy pool: %w" (NewPool module numCPU) in
  let! nf := match opt_NetFilterConfig opts with
             | None => Ret None
             | Some cfg =>
                 let! nf := wrap "initialize net filter: %w" (NewNetFilter cfg) in
                 Ret (Some nf)
             end in
  Ret {| platform := true; evaluator := Some 0; pool := Some 0;
         cache := NewDecisionCache 10000 (5 * minute);
         actionHandler := NewActionHandler (AuditMode opts);
         policyMap := pm; pipeline := 0 <? StreamSinks opts;
         lineageTracker := NewTracker (MkTrackerConfig 0 0);
         netFilter := nf;
         sandbox := Some (NewSandboxManager (default DefaultProfiles (SandboxProfiles opts)));
         learningMode := LearningMode opts;
         results := ∅; pools := {[0 := pl]}; next := 1; kernel := k; out := [] |}.
End Enforcer.

Arguments Enforcer : clear implicits.
