(* ===== verification/EnforcerFacts.v ===== *)
(** What the enforcer does with an event.

    [outcome_of] states the layered decision abstractly: filters first, then
    learning mode, then the cache, then the policy, with a failed evaluation as a
    denial.  [handleEvent_handled] proves that [handleEvent] implements it, with
    its effects on counters, processes, cache, kernel rules and the process tree;
    the other theorems follow from it. *)

From S2P Require Import Prelude CTypes Bpf GoPolicyMap GoApi GoCache GoLineage GoNetFilter GoSandbox.
From S2P Require Import GoActions GoWasm GoEnforcer.

Section Facts.
Context {K M S : Type} `{BpfKernel K} `{WasmOk M S}.
Implicit Types (e : Enforcer K M S).

(** ** Running computations *)

Lemma bind_ret {A B} (m : comp A) (f : A -> comp B) e a e' :
  m e = (Ret a, e') -> mbind (M := comp) f m e = f a e'.
Proof. intros Hm. unfold mbind, comp_bind. by rewrite Hm. Qed.

Lemma mret_run {A} (a : A) e : mret (M := comp) a e = (Ret a, e).
Proof. done. Qed.
Lemma gets_run {A} (f : Enforcer K M S -> A) e : gets f e = (Ret (f e), e).
Proof. done. Qed.

Lemma load_run a r e : results e !! a = Some r -> load (Some a) e = (Ret r, e).
Proof. intros Hr. unfold load, deref. simpl. by rewrite Hr. Qed.

(** The enforcer after a decision: counters, decisions, next address, new effects. *)
Definition settle (h : ActionHandler) (hp : heap) (n : Z) (l : list effect) e : Enforcer K M S :=
  set_out (out e ++ l) (set_next n (set_results hp (set_handler h e))).

(** Speaking only adds an effect. *)
Lemma settle_say h hp n l x e :
  say x (settle h hp n l e) = (Ret tt, settle h hp n (l ++ [x]) e).
Proof. unfold say, modify, settle. cbn. by rewrite app_assoc. Qed.

Lemma settle_load h hp n l e a r :
  hp !! a = Some r -> load (Some a) (settle h hp n l e) = (Ret r, settle h hp n l e).
Proof. intros. by apply load_run. Qed.

(** Steps of a computation on a settled state whose decision is known. *)
Ltac runs Hr :=
  repeat first
    [ erewrite bind_ret; [|apply settle_say]
    | erewrite bind_ret; [|apply (settle_load _ _ _ _ _ _ _ Hr)]
    | erewrite bind_ret; [|apply (bind_ret _ _ _ _ _ (settle_load _ _ _ _ _ _ _ Hr))]
    | rewrite settle_say ].

Lemma log_event_run event h hp n l e a r :
  hp !! a = Some r ->
  log_event event (Some a) (settle h hp n l e) = (Ret tt, settle h hp n (l ++ [LogEvent event r]) e).
Proof. intros Hr. unfold log_event. runs Hr. done. Qed.

Lemma record_event_run h hp n l e a r :
  hp !! a = Some r ->
  record_event (Some a) (settle h hp n l e) =
  (Ret tt, settle h hp n (l ++ [RecordEvent (Action_String (Action r))]) e).
Proof. intros Hr. unfold record_event. runs Hr. done. Qed.

Lemma record_latency_run h hp n l e a r :
  hp !! a = Some r ->
  record_latency (Some a) (settle h hp n l e) =
  (Ret tt, settle h hp n (l ++ [RecordLatency (Latency r ÷ 1000)]) e).
Proof. intros Hr. unfold record_latency. runs Hr. done. Qed.

Definition emitted (event : ApiEvent) (p : pointer) e : list effect :=
  if pipeline e then [Emit event p] else [].

Lemma emit_run event p h hp n l e :
  emit event p (settle h hp n l e) = (Ret tt, settle h hp n (l ++ emitted event p e) e).
Proof.
  unfold emit, gets, emitted. unfold mbind, comp_bind. cbn. destruct (pipeline e).
  - apply settle_say.
  - by rewrite app_nil_r.
Qed.

Lemma kills_emitted event p e : kills (emitted event p e) = [].
Proof. unfold emitted. by destruct (pipeline e). Qed.

(** Enforcing a decision held at [a]. *)
Lemma enforce_run event a r e :
  results e !! a = Some r ->
  exists l, kills l = kill_list (actionHandler e) event r /\
    enforce event (Some a) e =
    (Ret tt, settle (counted (actionHandler e) r) (<[a := enforced (actionHandler e) r]> (results e))
       (next e) l e).
Proof.
  intros Hr. destruct (Enforce_run event a r (actionHandler e) (results e) Hr) as (res & l & He & Hk & Hres).
  exists l. split; [done|]. unfold enforce. rewrite He, Hres.
  by destruct (known (Action r)).
Qed.

Lemma settle_fresh h hp n l r e :
  new_result r (settle h hp n l e) = (Ret (Some n), settle h (<[n := r]> hp) (n + 1) l e).
Proof. done. Qed.

Lemma settle_id e : e = settle (actionHandler e) (results e) (next e) [] e.
Proof. unfold settle. rewrite app_nil_r. by destruct e. Qed.

Lemma new_result_run r e :
  new_result r e = (Ret (Some (next e)),
    settle (actionHandler e) (<[next e := r]> (results e)) (next e + 1) [] e).
Proof. rewrite (settle_id e) at 1. apply settle_fresh. Qed.

Lemma settle_results h hp n l e : results (settle h hp n l e) = hp.
Proof. done. Qed.
Lemma settle_handler h hp n l e : actionHandler (settle h hp n l e) = h.
Proof. done. Qed.
Lemma settle_next h hp n l e : next (settle h hp n l e) = n.
Proof. done. Qed.

Lemma settle_settle h hp n l h' hp' n' l' e :
  settle h' hp' n' l' (settle h hp n l e) = settle h' hp' n' (l ++ l') e.
Proof. unfold settle. cbn. by rewrite app_assoc. Qed.

Lemma enforced_action h r : Action (enforced h r) = Action r /\ Latency (enforced h r) = Latency r.
Proof. unfold enforced. by case_match. Qed.

(** ** The stages *)

(** From a fresh decision: allocate, enforce, then tell the world. *)
Lemma enforce_fresh event r e :
  exists l, kills l = kill_list (actionHandler e) event r /\
    enforce event (Some (next e)) (settle (actionHandler e) (<[next e := r]> (results e)) (next e + 1) [] e) =
    (Ret tt, settle (counted (actionHandler e) r)
       (<[next e := enforced (actionHandler e) r]> (results e)) (next e + 1) l e).
Proof.
  destruct (enforce_run event (next e) r
    (settle (actionHandler e) (<[next e := r]> (results e)) (next e + 1) [] e)) as (l & Hk & ->);
    [by apply lookup_insert_eq|].
  exists l. split; [done|]. by rewrite settle_settle, settle_results, settle_handler, settle_next, insert_insert_eq.
Qed.

Definition early_denial (at_ : moment) (reason : message) : ActionResult :=
  MkResult api.ActionDeny reason (t_decide at_) false 0 false.

(** Telling the world about the decision at [a] adds effects, none of which kills. *)
Ltac tell Hr :=
  repeat first
    [ erewrite bind_ret; [|apply (log_event_run _ _ _ _ _ _ _ _ Hr)]
    | erewrite bind_ret; [|apply (record_event_run _ _ _ _ _ _ _ Hr)]
    | erewrite bind_ret; [|apply (record_latency_run _ _ _ _ _ _ _ Hr)]
    | erewrite bind_ret; [|apply settle_say]
    | erewrite bind_ret; [|apply emit_run]
    | erewrite bind_ret; [|apply mret_run]
    | erewrite bind_ret; [|apply (settle_load _ _ _ _ _ _ _ Hr)]
    | rewrite emit_run | rewrite settle_say ].

Ltac no_kills := rewrite ?kills_app, ?kills_emitted; simpl; rewrite ?app_nil_r; try done.

Lemma deny_early_run at_ event reason e :
  let r := early_denial at_ reason in
  exists l, kills l = kill_list (actionHandler e) event r /\
    deny_early at_ event reason e =
    (Ret tt, settle (counted (actionHandler e) r)
       (<[next e := enforced (actionHandler e) r]> (results e)) (next e + 1) l e).
Proof.
  intros r. destruct (enforce_fresh event r e) as (l & Hk & He).
  pose proof (lookup_insert_eq (results e) (next e) (enforced (actionHandler e) r)) as Hr.
  eexists. split; cycle 1.
  - unfold deny_early. erewrite bind_ret; [|apply new_result_run]. erewrite bind_ret; [|exact He].
    tell Hr. reflexivity.
  - no_kills.
Qed.

Lemma serve_hit_run event r e :
  exists l, kills l = kill_list (actionHandler e) event r /\
    serve_hit event r e =
    (Ret tt, settle (counted (actionHandler e) r)
       (<[next e := enforced (actionHandler e) r]> (results e)) (next e + 1) l e).
Proof.
  pose proof (lookup_insert_eq (results e) (next e) (enforced (actionHandler e) r)) as Hr.
  unfold serve_hit. erewrite bind_ret; [|apply new_result_run]. erewrite bind_ret; [|apply settle_say].
  destruct (enforce_run event (next e) r
    (settle (actionHandler e) (<[next e := r]> (results e)) (next e + 1) ([] ++ [RecordCacheHit]) e))
    as (l & Hk & He); [by apply lookup_insert_eq|].
  rewrite settle_settle, settle_results, settle_handler, settle_next, insert_insert_eq in He.
  eexists. split; cycle 1.
  - erewrite bind_ret; [|exact He]. tell Hr. reflexivity.
  - no_kills.
Qed.

Lemma learn_run at_ event e :
  exists l, kills l = [] /\
    learn at_ event e =
    (Ret tt, settle (actionHandler e)
       (<[next e := MkResult api.ActionAllow (Text "learning mode") (t_decide at_) false 0 false]> (results e))
       (next e + 1) l e).
Proof.
  pose proof (lookup_insert_eq (results e) (next e)
    (MkResult api.ActionAllow (Text "learning mode") (t_decide at_) false 0 false)) as Hr.
  eexists. split; cycle 1.
  - unfold learn. erewrite bind_ret; [|apply new_result_run]. tell Hr. reflexivity.
  - no_kills.
Qed.

Lemma conclude_run event a r e :
  results e !! a = Some r ->
  exists l, kills l = kill_list (actionHandler e) event r /\
    conclude event (Some a) e =
    (Ret tt, settle (counted (actionHandler e) r)
       (<[a := enforced (actionHandler e) r]> (results e)) (next e) l e).
Proof.
  intros Hold. destruct (enforce_run event a r e Hold) as (l & Hk & He).
  pose proof (lookup_insert_eq (results e) a (enforced (actionHandler e) r)) as Hr.
  unfold conclude. erewrite bind_ret; [|exact He].
  erewrite bind_ret; [|apply (log_event_run _ _ _ _ _ _ _ _ Hr)].
  erewrite bind_ret; [|apply (settle_load _ _ _ _ _ _ _ Hr)].
  set (r' := enforced (actionHandler e) r) in *.
  destruct ((Action r' =? api.ActionDeny) && negb (Audit r')), (Audit r');
    (eexists; split; [|tell Hr; reflexivity]);
    no_kills.
Qed.

(** ** The layered decision *)

Inductive outcome : Type :=
  | Early (r : ActionResult)
  | Learning
  | Hit (r : ActionResult)
  | Fresh (r : ActionResult).

Definition outcome_result (o : outcome) : option ActionResult :=
  match o with Early r | Hit r | Fresh r => Some r | Learning => None end.

Definition net_reason (at_ : moment) (event : ApiEvent) e : option message :=
  match netFilter e with
  | Some nf =>
      if bool_decide (GetType event = EventTypeNetwork) then
        let remoteAddr := from_option ne_RemoteAddr [] (ae_Network event) in
        if negb (bool_decide (remoteAddr = [])) && IsBlocked remoteAddr nf
        then Some (Sprintf "network blocked: %s in CIDR blocklist" [AStr remoteAddr])
        else if (CheckRateLimit (t_rate at_) (ae_PID event) nf).1
        then Some (Sprintf "rate limit exceeded for pid %d" [ANum (ae_PID event)])
        else None
      else None
  | None => None
  end.

(** The filter after the event: an attempt that is not blocked is counted. *)
Definition net_after (at_ : moment) (event : ApiEvent) e : option NetFilter :=
  match netFilter e with
  | Some nf =>
      if bool_decide (GetType event = EventTypeNetwork) then
        let remoteAddr := from_option ne_RemoteAddr [] (ae_Network event) in
        if negb (bool_decide (remoteAddr = [])) && IsBlocked remoteAddr nf then Some nf
        else Some (CheckRateLimit (t_rate at_) (ae_PID event) nf).2
      else Some nf
  | None => None
  end.

Definition sandbox_reason (event : ApiEvent) e : option message :=
  sm ← sandbox e;
  if bool_decide (eventTypeToSandboxAction event = []) then None
  else CheckViolation (ae_PID event) (eventTypeToSandboxAction event) sm.

Definition failed_evaluation (at_ : moment) (err : message) : ActionResult :=
  MkResult api.ActionDeny (Sprintf "Evaluation error: %v" [AErr err]) (t_decide at_) false 0 false.

(** What the policy, or its failure, decides. *)
Definition policy_decision (at_ : moment) (event : ApiEvent) (pl : Pool M S) : ActionResult :=
  match (Evaluate (canceled at_) (t_start at_) (t_latency at_) event pl).1 with
  | Ret r => r
  | Fail err => failed_evaluation at_ err
  | _ => failed_evaluation at_ (Text "")
  end.

Definition outcome_of (at_ : moment) (event : ApiEvent) (pl : Pool M S) e : outcome :=
  match net_reason at_ event e, sandbox_reason event e with
  | Some reason, _ | None, Some reason => Early (early_denial at_ reason)
  | None, None =>
      if learningMode e then Learning
      else match Get (t_get at_) (results e) event (cache e) with
      | Ret (Some r, _) => Hit r
      | _ => Fresh (policy_decision at_ event pl)
      end
  end.

(** The kernel after a fresh decision: the rule is written from the decision as the
    policy made it, before audit mode marks it. *)
Definition synced (event : ApiEvent) (r : ActionResult) e : K :=
  let '(eventType, pattern) := sync_pattern event in
  if policyMap e && negb (ae_LSMEvent event) && negb (bool_decide (pattern = [])) then
    (SetRule (ae_CgroupID event) eventType pattern
       (if Action r =? api.ActionDeny then 1 else 0) (Audit r) (kernel e)).2
  else kernel e.

Definition lineage_after (at_ : moment) (event : ApiEvent) e : Tracker :=
  if bool_decide (GetType event = EventTypeProcess) then
    RecordExec (t_exec at_) (visited_pids at_) (ae_PID event) 0 (ae_UID event) (ae_GID event)
      (ae_Comm event) (from_option pe_Filename (ae_Filename event) (ae_Process event)) (lineageTracker e)
  else lineageTracker e.

(** ** The invariant *)

Record enforcer_ok e (pl : Pool M S) : Prop := {
  ok_results : forall a r, results e !! a = Some r -> a < next e;
  ok_cache : forall key ce, entries (cache e) !! key = Some ce ->
    exists a, Result ce = Some a /\ is_Some (results e !! a);
  ok_pool : exists a, evaluator e = Some a /\ pools e !! a = Some pl;
  ok_ready : pool_ready pl;
}.

(** ** The filters *)

Lemma record_exec_run at_ event e :
  record_exec at_ event e = (Ret tt, set_lineage (lineage_after at_ event e) e).
Proof.
  unfold record_exec, lineage_after. case_bool_decide; [|by destruct e].
  by destruct (ae_Process event).
Qed.

Lemma check_network_run at_ event e :
  check_network at_ event e =
  match net_reason at_ event e with
  | Some reason => (Ret true, (deny_early at_ event reason (set_netFilter (net_after at_ event e) e)).2)
  | None => (Ret false, set_netFilter (net_after at_ event e) e)
  end.
Proof.
  unfold check_network, net_reason, net_after. erewrite bind_ret; [|apply gets_run].
  assert (Hid : forall v, netFilter e = v -> set_netFilter v e = e) by (intros v <-; by destruct e).
  destruct (netFilter e) as [nf|] eqn:Hnf; [|by rewrite Hid].
  case_bool_decide; [|by rewrite Hid]. cbv zeta.
  destruct (negb _ && IsBlocked _ nf).
  - rewrite Hid by done. destruct (deny_early_run at_ event
      (Sprintf "network blocked: %s in CIDR blocklist" [AStr (from_option ne_RemoteAddr [] (ae_Network event))]) e)
      as (l & _ & Hd). erewrite bind_ret by exact Hd. by rewrite Hd.
  - destruct (CheckRateLimit (t_rate at_) (ae_PID event) nf) as [limited nf']. cbn [fst snd].
    erewrite bind_ret; [|reflexivity]. destruct limited; [|done].
    destruct (deny_early_run at_ event (Sprintf "rate limit exceeded for pid %d" [ANum (ae_PID event)])
      (set_netFilter (Some nf') e)) as (l & _ & Hd). erewrite bind_ret by exact Hd. by rewrite Hd.
Qed.

Lemma check_sandbox_run at_ event e :
  check_sandbox at_ event e =
  match sandbox_reason event e with
  | Some reason => (Ret true, (deny_early at_ event reason e).2)
  | None => (Ret false, e)
  end.
Proof.
  unfold check_sandbox, sandbox_reason. erewrite bind_ret; [|apply gets_run].
  destruct (sandbox e) as [sm|]; [|done]. cbn [mbind option_bind]. case_bool_decide; [done|]. cbn [negb].
  destruct (CheckViolation (ae_PID event) (eventTypeToSandboxAction event) sm) as [reason|]; [|done].
  destruct (deny_early_run at_ event reason e) as (l & _ & Hd). erewrite bind_ret by exact Hd. by rewrite Hd.
Qed.

(** ** Evaluation and synchronisation *)

(** The pool after the evaluation. *)
Definition pool_after (at_ : moment) (event : ApiEvent) (pl : Pool M S) : Pool M S :=
  (Evaluate (canceled at_) (t_start at_) (t_latency at_) event pl).2.

(** The state after a decision was made: the pool, the new decision at [next]. *)
Definition decided (a : Z) (pl : Pool M S) (r : ActionResult) (l : list effect) e : Enforcer K M S :=
  settle (actionHandler e) (<[next e := r]> (results e)) (next e + 1) l
    (set_pools (<[a := pl]> (pools e)) e).

Lemma decide_event_run at_ event pl a e :
  evaluator e = Some a -> pools e !! a = Some pl -> pool_ready pl ->
  exists l, kills l = [] /\
    decide_event at_ event e =
    (Ret (Some (next e)), decided a (pool_after at_ event pl) (policy_decision at_ event pl) l e).
Proof.
  intros Ha Hpl Hready.
  destruct (Evaluate_total (canceled at_) (t_start at_) (t_latency at_) event pl Hready) as [Hret _].
  unfold decide_event, policy_decision, pool_after, decided.
  assert (Hev : evaluate at_ event e =
    (match (Evaluate (canceled at_) (t_start at_) (t_latency at_) event pl).1 with
     | Ret r => Ret (inl r) | Fail err => Ret (inr err) | Panic why => Panic why | Block => Block
     end, set_pools (<[a := (Evaluate (canceled at_) (t_start at_) (t_latency at_) event pl).2]> (pools e)) e)).
  { unfold evaluate. rewrite Ha. cbn [mbind option_bind]. rewrite Hpl. cbn [mbind option_bind].
    by destruct (Evaluate _ _ _ _ _). }
  destruct (Evaluate (canceled at_) (t_start at_) (t_latency at_) event pl) as [res pl'].
  cbn [fst snd] in *. destruct Hret as [(r & ->)|(err & ->)].
  - exists []. split; [done|]. erewrite bind_ret by exact Hev.
    exact (new_result_run r (set_pools (<[a := pl']> (pools e)) e)).
  - exists [LogError err; RecordProcessingError]. split; [done|]. erewrite bind_ret by exact Hev.
    set (e1 := set_pools _ e). rewrite (settle_id e1) at 1.
    erewrite bind_ret; [|apply settle_say]. erewrite bind_ret; [|apply settle_say].
    rewrite settle_fresh. done.
Qed.

Lemma sync_run event r a e :
  results e !! a = Some r ->
  syncToPolicyMap event (Some a) e =
  (Ret tt, set_kernel (let '(eventType, pattern) := sync_pattern event in
    if bool_decide (pattern = []) then kernel e
    else (SetRule (ae_CgroupID event) eventType pattern
       (if Action r =? api.ActionDeny then 1 else 0) (Audit r) (kernel e)).2) e).
Proof.
  intros Hr. unfold syncToPolicyMap. erewrite bind_ret; [|by apply load_run].
  destruct (sync_pattern event) as [eventType pattern]. case_bool_decide; [by destruct e|done].
Qed.

(** ** The theorem *)

(** The pools after the policy was asked. *)
Definition pools_after (at_ : moment) (event : ApiEvent) e : gmap Z (Pool M S) :=
  match evaluator e with
  | Some a => match pools e !! a with
              | Some pl => <[a := pool_after at_ event pl]> (pools e)
              | None => pools e
              end
  | None => pools e
  end.

Record handled (at_ : moment) (event : ApiEvent) (o : outcome) e e' : Prop := {
  hd_counts : actionHandler e' =
    from_option (counted (actionHandler e)) (actionHandler e) (outcome_result o);
  hd_kills : exists l, out e' = out e ++ l /\
    kills l = from_option (kill_list (actionHandler e) event) [] (outcome_result o);
  hd_kernel : kernel e' = match o with Fresh r => synced event r e | _ => kernel e end;
  hd_cache : match o with
    | Fresh r => exists a, results e !! a = None /\
        cache e' = Put (t_put at_) (visited_keys at_) event (Some a) (cache e) /\
        results e' !! a = Some (enforced (actionHandler e) r)
    | Hit r => Get (t_get at_) (results e) event (cache e) = Ret (Some r, cache e')
    | _ => cache e' = cache e
    end;
  hd_lineage : lineageTracker e' = lineage_after at_ event e;
  hd_netFilter : netFilter e' = net_after at_ event e;
  hd_config : sandbox e' = sandbox e /\ learningMode e' = learningMode e /\ policyMap e' = policyMap e /\
    pipeline e' = pipeline e /\ evaluator e' = evaluator e /\ pool e' = pool e;
  hd_results : forall a r, results e !! a = Some r -> results e' !! a = Some r;
  hd_next : next e' = next e + 1;
  hd_pools : pools e' = match o with Fresh _ => pools_after at_ event e | _ => pools e end;
}.

Lemma fresh_address e pl : enforcer_ok e pl -> results e !! next e = None.
Proof.
  intros [Hn _ _ _]. destruct (results e !! next e) as [r|] eqn:Hr; [|done]. specialize (Hn _ _ Hr). lia.
Qed.

(** What [Put] stores. *)
Lemma Put_entries now visited event p c key ce :
  entries (Put now visited event p c) !! key = Some ce ->
  Result ce = p \/ entries c !! key = Some ce.
Proof.
  unfold Put. cbn [entries with_entries]. intros [[_ <-]|[_ He]]%lookup_insert_Some; [by left|right].
  destruct (maxSize c <=? _); [|done]. unfold evictOldest in He. destruct (negb _); [|done].
  cbn [entries with_entries] in He. by apply lookup_delete_Some in He as [_ ?].
Qed.

(** An outcome that stores at a new address keeps the invariant. *)
Lemma ok_settle h l r e pl :
  enforcer_ok e pl ->
  enforcer_ok (settle h (<[next e := r]> (results e)) (next e + 1) l e) pl /\
  forall a r', results e !! a = Some r' -> <[next e := r]> (results e) !! a = Some r'.
Proof.
  intros Hok. pose proof (fresh_address e pl Hok) as Hf. destruct Hok as [Hn Hc Hp Hr].
  assert (Hkeep : forall a r', results e !! a = Some r' -> <[next e := r]> (results e) !! a = Some r').
  { intros a r' Ha. rewrite lookup_insert_ne; [done|]. congruence. }
  split; [|done]. split; cbn -[settle]; rewrite ?settle_results, ?settle_next; auto.
  - intros a r' [[<- _]|[_ Ha]]%lookup_insert_Some; [lia|]. specialize (Hn _ _ Ha). lia.
  - intros key ce Hk. destruct (Hc key ce Hk) as (a & Ha & [r' Hr']). exists a. eauto.
Qed.

(** The state in which the decision is taken: tree and filter are up to date. *)
Definition filtered (at_ : moment) (event : ApiEvent) (c : DecisionCache) e : Enforcer K M S :=
  set_cache c (set_netFilter (net_after at_ event e) (set_lineage (lineage_after at_ event e) e)).

Lemma ok_filtered at_ event c e pl :
  enforcer_ok e pl ->
  (forall key ce, entries c !! key = Some ce -> exists ce', entries (cache e) !! key = Some ce' /\ Result ce = Result ce') ->
  enforcer_ok (filtered at_ event c e) pl.
Proof.
  intros [Hn Hc Hp Hr] Hsub. split; auto. cbn. intros key ce Hk.
  destruct (Hsub key ce Hk) as (ce' & Hk' & ->). eauto.
Qed.

(** Outcomes that leave the kernel alone: the decision goes to a new address. *)
Lemma settled_handled at_ event c o h r l e pl :
  enforcer_ok e pl ->
  (forall key ce, entries c !! key = Some ce -> exists ce', entries (cache e) !! key = Some ce' /\ Result ce = Result ce') ->
  match o with
  | Fresh _ => False
  | Hit r => Get (t_get at_) (results e) event (cache e) = Ret (Some r, c)
  | _ => c = cache e
  end ->
  h = from_option (counted (actionHandler e)) (actionHandler e) (outcome_result o) ->
  kills l = from_option (kill_list (actionHandler e) event) [] (outcome_result o) ->
  let e' := settle h (<[next e := r]> (results e)) (next e + 1) l (filtered at_ event c e) in
  handled at_ event o e e' /\ enforcer_ok e' pl.
Proof.
  intros Hok Hsub Ho Hh Hk e'. pose proof (ok_filtered at_ event c e pl Hok Hsub) as Hok'.
  destruct (ok_settle h l r (filtered at_ event c e) pl Hok') as [Hok'' Hkeep].
  split; [|exact Hok'']. split; [done|exists l; by split|by destruct o|by destruct o|done|done|done|exact Hkeep|done|by destruct o].
Qed.

Lemma Get_results now h event c r c' :
  Get now h event c = Ret (r, c') ->
  forall key ce, entries c' !! key = Some ce -> exists ce', entries c !! key = Some ce' /\ Result ce = Result ce'.
Proof.
  destruct (Get_cases now h event c) as [(ce & r0 & He & _ & _ & ->)|[(ce & why & _ & _ & ->)| -> ]];
    intros [= <- <-] key ce'; [|by eauto]. cbn [entries with_entries].
  intros [[<- <-]|[_ Hk]]%lookup_insert_Some; [by exists ce|by exists ce'].
Qed.

(** What [handleEvent] runs after the filters let the event pass. *)
Definition consult (at_ : moment) (event : ApiEvent) : comp unit :=
  learning ← gets learningMode;
  if learning : bool then learn at_ event
  else
    hit ← cache_get at_ event;
    match hit with
    | Some r => serve_hit event r
    | None =>
        say RecordCacheMiss;;
        p ← decide_event at_ event;
        modify (fun e => set_cache (Put (t_put at_) (visited_keys at_) event p (cache e)) e);;
        pm ← gets policyMap;
        (if pm && negb (ae_LSMEvent event) then syncToPolicyMap event p else mret tt);;
        conclude event p
    end.

Lemma fresh_run at_ event pl e :
  enforcer_ok e pl ->
  exists e', (p ← decide_event at_ event;
        modify (fun e => set_cache (Put (t_put at_) (visited_keys at_) event p (cache e)) e);;
        pm ← gets policyMap;
        (if pm && negb (ae_LSMEvent event) then syncToPolicyMap event p else mret tt);;
        conclude event p) (filtered at_ event (cache e) (set_out (out e ++ [RecordCacheMiss]) e)) = (Ret tt, e') /\
    handled at_ event (Fresh (policy_decision at_ event pl)) e e' /\
    enforcer_ok e' (pool_after at_ event pl).
Proof.
  intros Hok. pose proof (fresh_address e pl Hok) as Hf. destruct Hok as [Hn Hc (a & Ha & Hpl) Hr].
  set (e0 := filtered at_ event (cache e) (set_out (out e ++ [RecordCacheMiss]) e)).
  destruct (decide_event_run at_ event pl a e0 Ha Hpl Hr) as (l & Hl & Hd).
  set (r := policy_decision at_ event pl) in *. set (pl' := pool_after at_ event pl) in *.
  erewrite bind_ret; [|exact Hd]. erewrite bind_ret; [|reflexivity]. erewrite bind_ret; [|apply gets_run].
  set (e1 := set_cache (Put (t_put at_) (visited_keys at_) event (Some (next e)) (cache e)) (decided a pl' r l e0)).
  assert (Hsync : (if policyMap e && negb (ae_LSMEvent event) then syncToPolicyMap event (Some (next e)) else mret tt)
      e1 = (Ret tt, set_kernel (synced event r e) e1)).
  { unfold synced. destruct (policyMap e && negb (ae_LSMEvent event)) eqn:Hp.
    - rewrite (sync_run event r); [|by apply lookup_insert_eq]. cbn [andb].
      destruct (sync_pattern event) as [ty pat]. by case_bool_decide.
    - destruct (sync_pattern event) as [ty pat]. cbn [andb]. by destruct e. }
  erewrite bind_ret; [|exact Hsync].
  destruct (conclude_run event (next e) r (set_kernel (synced event r e) e1)) as (l' & Hl' & Hcon);
    [by apply lookup_insert_eq|].
  eexists. split; [exact Hcon|].
  assert (Hres : results (set_kernel (synced event r e) e1) = <[next e := r]> (results e)) by done.
  rewrite Hres. rewrite insert_insert_eq.
  set (hp := <[next e := enforced _ r]> (results e)).
  assert (Hkeep : forall a r', results e !! a = Some r' -> hp !! a = Some r').
  { intros a' r' Ha'. unfold hp. rewrite lookup_insert_ne; [done|]. congruence. }
  split; [split|split].
  - done.
  - exists (RecordCacheMiss :: l ++ l'). split; [cbn; by rewrite <- !app_assoc|].
    change (RecordCacheMiss :: l ++ l') with ([RecordCacheMiss] ++ l ++ l').
    rewrite !kills_app, Hl, Hl'. done.
  - done.
  - exists (next e). split_and!; [done|done|by apply lookup_insert_eq].
  - done.
  - done.
  - done.
  - exact Hkeep.
  - done.
  - unfold pools_after. by rewrite Ha, Hpl.
  - rewrite settle_results, settle_next. intros a' r' [[<- _]|[_ Ha']]%lookup_insert_Some; cbn; [lia|].
    specialize (Hn _ _ Ha'). lia.
  - intros key ce Hk. apply Put_entries in Hk as [->|Hk]; [exists (next e); split; [done|]|].
    + eexists. by apply lookup_insert_eq.
    + destruct (Hc key ce Hk) as (a' & Ha' & [r' Hr']). exists a'. split; [done|]. eexists. by apply Hkeep.
  - exists a. split; [done|]. by apply lookup_insert_eq.
  - by apply Evaluate_total.
Qed.

Lemma consult_run at_ event pl e :
  enforcer_ok e pl -> net_reason at_ event e = None -> sandbox_reason event e = None ->
  exists e' pl', consult at_ event (filtered at_ event (cache e) e) = (Ret tt, e') /\
    handled at_ event (outcome_of at_ event pl e) e e' /\ enforcer_ok e' pl'.
Proof.
  intros Hok Hnet Hbox. unfold outcome_of. rewrite Hnet, Hbox.
  assert (Hsame : forall key ce, entries (cache e) !! key = Some ce ->
    exists ce', entries (cache e) !! key = Some ce' /\ Result ce = Result ce') by eauto.
  unfold consult. erewrite bind_ret; [|apply gets_run].
  change (learningMode (filtered at_ event (cache e) e)) with (learningMode e).
  destruct (learningMode e) eqn:Hlearn.
  { destruct (learn_run at_ event (filtered at_ event (cache e) e)) as (l & Hl & ->).
    eexists _, pl. split; [reflexivity|]. by apply (settled_handled at_ event (cache e) Learning (actionHandler e) _ l e pl). }
  assert (Hget : cache_get at_ event (filtered at_ event (cache e) e) =
    match Get (t_get at_) (results e) event (cache e) with
    | Ret (r, c) => (Ret r, filtered at_ event c e)
    | Fail err => (Fail err, filtered at_ event (cache e) e)
    | Panic why => (Panic why, filtered at_ event (cache e) e)
    | Block => (Block, filtered at_ event (cache e) e)
    end) by done.
  destruct (Get_cases (t_get at_) (results e) event (cache e))
    as [(ce & r & Hce & _ & Hr & Hg)|[(ce & why & Hce & Hr & Hg)|Hg]]; rewrite Hg in Hget |- *.
  - set (c := with_entries _ (cache e)) in *. erewrite bind_ret; [|exact Hget].
    destruct (serve_hit_run event (with_Cached true r) (filtered at_ event c e)) as (l & Hl & ->).
    eexists _, pl. split; [reflexivity|]. apply (settled_handled at_ event c (Hit (with_Cached true r))
      (counted (actionHandler e) (with_Cached true r)) _ l e pl); auto.
    by eapply Get_results.
  - exfalso. destruct Hok as [_ Hc _ _]. destruct (Hc _ _ Hce) as (a & Ha & [r' Hr']).
    unfold deref in Hr. rewrite Ha in Hr. simpl in Hr. by rewrite Hr' in Hr.
  - erewrite bind_ret; [|exact Hget]. cbv beta iota. erewrite bind_ret; [|reflexivity].
    destruct (fresh_run at_ event pl e Hok) as (e' & He' & Hh & Hok'). by exists e', (pool_after at_ event pl).
Qed.

(** One event: the enforcer implements the layered decision: address blocklist and rate
    limit first, then the sandbox, then learning mode, then an unexpired cached
    decision, then the policy, with a failed evaluation as a denial.  The handler
    always returns; it counts the decision, terminates exactly the process of an
    unaudited denial, stores only a policy decision in the cache and in the kernel
    map, and keeps every earlier decision. *)
Lemma handleEvent_handled at_ event pl e :
  enforcer_ok e pl ->
  exists e' pl', handleEvent at_ event e = (Ret tt, e') /\
    handled at_ event (outcome_of at_ event pl e) e e' /\ enforcer_ok e' pl'.
Proof.
  intros Hok. unfold handleEvent. erewrite bind_ret; [|apply record_exec_run].
  set (e1 := set_lineage (lineage_after at_ event e) e).
  pose proof (check_network_run at_ event e1) as Hnet.
  change (net_reason at_ event e1) with (net_reason at_ event e) in Hnet.
  change (set_netFilter (net_after at_ event e1) e1) with (filtered at_ event (cache e) e) in Hnet.
  assert (Hsame : forall key ce, entries (cache e) !! key = Some ce ->
    exists ce', entries (cache e) !! key = Some ce' /\ Result ce = Result ce') by eauto.
  assert (Hearly : forall reason, exists e', (deny_early at_ event reason (filtered at_ event (cache e) e)).2 = e' /\
    handled at_ event (Early (early_denial at_ reason)) e e' /\ enforcer_ok e' pl).
  { intros reason. destruct (deny_early_run at_ event reason (filtered at_ event (cache e) e)) as (l & Hl & ->).
    eexists. split; [reflexivity|]. 
    by apply (settled_handled at_ event (cache e) (Early (early_denial at_ reason))
      (counted (actionHandler e) (early_denial at_ reason)) _ l e pl). }
  destruct (net_reason at_ event e) as [reason|] eqn:Hnr.
  { erewrite bind_ret; [|exact Hnet]. destruct (Hearly reason) as (e' & -> & Hh & Hok').
    exists e', pl. unfold outcome_of. by rewrite Hnr. }
  erewrite bind_ret; [|exact Hnet].
  pose proof (check_sandbox_run at_ event (filtered at_ event (cache e) e)) as Hbox.
  change (sandbox_reason event (filtered at_ event (cache e) e)) with (sandbox_reason event e) in Hbox.
  destruct (sandbox_reason event e) as [reason|] eqn:Hsr.
  { erewrite bind_ret; [|exact Hbox]. destruct (Hearly reason) as (e' & -> & Hh & Hok').
    exists e', pl. unfold outcome_of. by rewrite Hnr, Hsr. }
  erewrite bind_ret; [|exact Hbox]. by apply (consult_run at_ event pl e).
Qed.

(** ** Sequences of events *)

(** The events taken from the channel one after the other; a panic ends the run. *)
Fixpoint handle_all (evs : list (moment * ApiEvent)) : comp unit :=
  match evs with
  | [] => mret tt
  | (at_, event) :: evs' => handleEvent at_ event;; handle_all evs'
  end.

(** Rule induction over handled events. *)
Lemma handle_all_ind (P : Enforcer K M S -> Prop) evs e pl :
  (forall at_ event e e' pl, enforcer_ok e pl ->
     handled at_ event (outcome_of at_ event pl e) e e' -> P e -> P e') ->
  enforcer_ok e pl -> P e ->
  exists e' pl', handle_all evs e = (Ret tt, e') /\ enforcer_ok e' pl' /\ P e'.
Proof.
  intros Hstep. revert e pl. induction evs as [|[at_ event] evs IH]; intros e pl Hok HP.
  { by exists e, pl. }
  destruct (handleEvent_handled at_ event pl e Hok) as (e1 & pl1 & Hrun & Hh & Hok1).
  cbn [handle_all]. erewrite bind_ret; [|exact Hrun]. eapply IH; eauto.
Qed.

Lemma counted_auditMode h r : auditMode (counted h r) = auditMode h.
Proof. unfold counted. by repeat case_match. Qed.

(** C31: in audit mode the daemon never terminates a process, whatever events arrive
    and whatever the filters, the sandbox and the policy decide. *)
Theorem audit_mode_never_kills evs e pl :
  enforcer_ok e pl -> auditMode (actionHandler e) = true ->
  exists e', handle_all evs e = (Ret tt, e') /\ kills (out e') = kills (out e).
Proof.
  intros Hok Ha.
  destruct (handle_all_ind (fun e' => auditMode (actionHandler e') = true /\ kills (out e') = kills (out e))
    evs e pl) as (e' & pl' & Hrun & _ & _ & Hk); [|done|done|by exists e'].
  intros at_ event e1 e2 pl1 _ Hh [Ha1 Hk1]. destruct Hh as [Hc (l & Hl & Hkl) _ _ _ _ _ _ _].
  rewrite Hc, Hl, kills_app, Hkl, Hk1.
  destruct (outcome_result _) as [r|]; cbn [from_option]; [|by rewrite app_nil_r].
  rewrite counted_auditMode. split; [done|]. unfold kill_list. rewrite Ha1. cbn.
  by rewrite andb_false_r, app_nil_r.
Qed.

(** Processes are recorded without a parent, so nobody has ancestors. *)
Lemma lineage_rootless evs e pl :
  enforcer_ok e pl -> rootless (lineageTracker e) ->
  exists e' pl', handle_all evs e = (Ret tt, e') /\ enforcer_ok e' pl' /\ rootless (lineageTracker e').
Proof.
  intros Hok Hr. apply (handle_all_ind (fun e => rootless (lineageTracker e))) with pl; auto.
  intros at_ event e1 e2 pl1 _ [_ _ _ _ Hl _ _ _ _] Hr1. rewrite Hl. unfold lineage_after.
  case_bool_decide; [|done]. by apply RecordExec_rootless.
Qed.

(** The process tree the enforcer builds has no edges: after any events, the
    ancestors of every process are empty and no process has an ancestor of any name,
    since each exec is recorded with parent 0. *)
Lemma lineage_has_no_parents evs e pl pid comm :
  enforcer_ok e pl -> rootless (lineageTracker e) ->
  exists e', handle_all evs e = (Ret tt, e') /\
    GetAncestors pid (lineageTracker e') = [] /\ HasAncestor pid comm (lineageTracker e') = false.
Proof.
  intros Hok Hr. destruct (lineage_rootless evs e pl Hok Hr) as (e' & _ & Hrun & _ & Hr').
  exists e'. unfold HasAncestor. rewrite (rootless_no_ancestors pid _ Hr'). done.
Qed.

(** ** Decisions of the policy *)

(** No filter, no learning mode, no cached decision: the policy is asked. *)
Definition asks_policy (at_ : moment) (event : ApiEvent) e : Prop :=
  net_reason at_ event e = None /\ sandbox_reason event e = None /\ learningMode e = false /\
  Get (t_get at_) (results e) event (cache e) = Ret (None, cache e).

Lemma asks_policy_outcome at_ event pl e :
  asks_policy at_ event e -> outcome_of at_ event pl e = Fresh (policy_decision at_ event pl).
Proof. intros (Hn & Hs & Hl & Hg). unfold outcome_of. by rewrite Hn, Hs, Hl, Hg. Qed.

(** C18: evaluation fails closed.  Let an event get as far as the policy: neither network
    filter nor sandbox denies it, learning mode is off and the cache has no decision for
    it.  If the policy then cannot be evaluated, the event is denied.  Outside audit mode
    its process, unless it is process 0, is terminated and the denial counted; in audit
    mode nothing is terminated and the denial is counted and marked as audited.  In both
    modes the denial is cached for later events with the same key; and when there is a
    policy map, the event is not one of the LSM programs and has a pattern, SetRule is
    called with an enforced deny rule, in audit mode too; otherwise the kernel's maps stay
    as they are. *)
Theorem evaluation_failure_denies at_ event pl e err :
  enforcer_ok e pl -> asks_policy at_ event e ->
  (Evaluate (canceled at_) (t_start at_) (t_latency at_) event pl).1 = Fail err ->
  let audit := auditMode (actionHandler e) in
  exists e' l a, handleEvent at_ event e = (Ret tt, e') /\
    out e' = out e ++ l /\ kills l = (if audit || (ae_PID event =? 0) then [] else [ae_PID event]) /\
    actionHandler e' = (if audit then add_logged (add_auditDenied (actionHandler e)) else add_denied (actionHandler e)) /\
    cache e' = Put (t_put at_) (visited_keys at_) event (Some a) (cache e) /\
    results e' !! a = Some (with_Audit audit (failed_evaluation at_ err)) /\
    kernel e' = (if policyMap e && negb (ae_LSMEvent event) && negb (bool_decide ((sync_pattern event).2 = []))
                 then (SetRule (ae_CgroupID event) (sync_pattern event).1 (sync_pattern event).2 1 false (kernel e)).2
                 else kernel e).
Proof.
  intros Hok Hask Hev audit.
  destruct (handleEvent_handled at_ event pl e Hok) as (e' & pl' & Hrun & Hh & _).
  rewrite (asks_policy_outcome at_ event pl e Hask) in Hh. unfold policy_decision in Hh. rewrite Hev in Hh.
  destruct Hh as [Hc (l & Hl & Hk) Hkern (a & _ & Hcache & Hres) _ _ _ _ _]. exists e', l, a.
  unfold kill_list in Hk. unfold counted in Hc. unfold enforced in Hres. unfold synced in Hkern. cbn in Hk, Hc, Hres.
  rewrite orb_false_r in Hk, Hc, Hres. fold audit in Hk, Hc, Hres. destruct (sync_pattern event) as [ty pat].
  split_and!; try done.
  - rewrite Hk. by destruct audit, (ae_PID event =? 0).
  - rewrite Hres. by destruct audit.
Qed.

(** An action the daemon does not know passes: when a policy module returns a
    value that is none of allow, deny and log (and not the audit code), no process is
    terminated, no counter moves, and with a policy map the kernel gets an allow rule. *)
Lemma unknown_action_passes at_ event pl e r :
  enforcer_ok e pl -> asks_policy at_ event e ->
  (Evaluate (canceled at_) (t_start at_) (t_latency at_) event pl).1 = Ret r ->
  known (Action r) = false ->
  exists e' l, handleEvent at_ event e = (Ret tt, e') /\
    out e' = out e ++ l /\ kills l = [] /\ actionHandler e' = actionHandler e /\
    (policyMap e = true -> ae_LSMEvent event = false -> (sync_pattern event).2 <> [] ->
       kernel e' = (SetRule (ae_CgroupID event) (sync_pattern event).1 (sync_pattern event).2 0 (Audit r)
                      (kernel e)).2).
Proof.
  intros Hok Hask Hev Hun.
  destruct (handleEvent_handled at_ event pl e Hok) as (e' & pl' & Hrun & Hh & _).
  rewrite (asks_policy_outcome at_ event pl e Hask) in Hh. unfold policy_decision in Hh. rewrite Hev in Hh.
  destruct Hh as [Hc (l & Hl & Hk) Hkern _ _ _ _ _ _]. exists e', l. cbn in Hk, Hc.
  unfold known in Hun. apply orb_false_iff in Hun as [[Hun1 Hun2]%orb_false_iff Hun3].
  unfold kill_list in Hk. rewrite Hun2 in Hk. unfold counted in Hc. rewrite Hun1, Hun2, Hun3 in Hc.
  split_and!; try done. intros Hpm Hlsm Hpat. rewrite Hkern. unfold synced.
  destruct (sync_pattern event) as [ty pat]. cbn in Hpat. rewrite Hpm, Hlsm, Hun2.
  by rewrite bool_decide_eq_false_2 by done.
Qed.

(** ** Counters *)

(** Whether the event's decision is one the counters know. *)
Definition counts (at_ : moment) (event : ApiEvent) e : bool :=
  match (a ← evaluator e; pools e !! a) with
  | Some pl => from_option (fun r => known (Action r)) false (outcome_result (outcome_of at_ event pl e))
  | None => false
  end.

Fixpoint counted_events (evs : list (moment * ApiEvent)) e : Z :=
  match evs with
  | [] => 0
  | (at_, event) :: evs' =>
      (if counts at_ event e then 1 else 0) + counted_events evs' (handleEvent at_ event e).2
  end.

Definition decision_total (s : EnforcementStats) : Z := to_u64 (Allowed s + Denied s + Logged s).

(** The reported statistics are exact modulo 2^64: allowed, denied and logged
    decisions add up to the events that were given one of these actions, whichever
    layer decided, and the reported cache misses are that total less the hits of the
    entries still cached. *)
Lemma statistics_exact evs e pl :
  enforcer_ok e pl ->
  exists e', handle_all evs e = (Ret tt, e') /\
    decision_total (Enforcer_GetStats e') =
      to_u64 (decision_total (Enforcer_GetStats e) + counted_events evs e) /\
    CacheMisses (Enforcer_GetStats e') =
      to_u64 (decision_total (Enforcer_GetStats e) + counted_events evs e - TotalHits (Stats (cache e'))).
Proof.
  intros Hok.
  assert (Hsum : exists e' pl', handle_all evs e = (Ret tt, e') /\ enforcer_ok e' pl' /\
    decision_total (Enforcer_GetStats e') = to_u64 (decision_total (Enforcer_GetStats e) + counted_events evs e)).
  { revert e pl Hok. induction evs as [|[at_ event] evs IH]; intros e pl Hok.
    { exists e, pl. cbn. unfold decision_total. by rewrite Z.add_0_r, to_u_idemp. }
    destruct (handleEvent_handled at_ event pl e Hok) as (e1 & pl1 & Hrun & Hh & Hok1).
    destruct (IH e1 pl1 Hok1) as (e' & pl' & Hrun' & Hok' & Hd). exists e', pl'.
    cbn [handle_all counted_events]. rewrite Hrun. cbn [snd].
    split_and!; [by erewrite bind_ret; [|exact Hrun]|done|].
    rewrite Hd. unfold decision_total, Enforcer_GetStats, counts. cbn -[to_u].
    rewrite !to_u_add_l. destruct Hok as [_ _ (a & Ha & Hpl) _]. rewrite Ha. cbn [mbind option_bind].
    rewrite Hpl. destruct Hh as [-> _ _ _ _ _ _ _ _].
    destruct (outcome_result (outcome_of at_ event pl e)) as [r|]; cbn [from_option]; [|done].
    rewrite <- to_u_add_l, counted_total, to_u_add_l. f_equal. lia. }
  destruct Hsum as (e' & pl' & Hrun & _ & Hd). exists e'. split_and!; [done|done|].
  unfold decision_total in Hd at 1. unfold Enforcer_GetStats at 1. cbn -[to_u] in *.
  rewrite <- !Z.add_opp_r. rewrite <- to_u_add_l, Hd. by rewrite to_u_add_l.
Qed.
End Facts.
