(* ===== verification/EnforcerLife.v ===== *)
(** The enforcer's life: construction, the event loop, reload and shutdown
    (internal/enforcer/enforcer.go).

    [loop_step] is one iteration of the event loop's select; when several cases are
    ready any of them may be taken. *)

From S2P Require Import Prelude CTypes Bpf GoPolicyMap GoApi GoCache GoLineage GoNetFilter GoSandbox.
From S2P Require Import GoActions GoWasm GoEnforcer EnforcerFacts.

Section Life.
Context {K M S : Type} `{BpfKernel K} `{WasmOk M S}.
Implicit Types (e : Enforcer K M S).

(** ** Construction *)

Lemma fill_pool_ready n i (p p' : Pool M S) :
  fill_pool n i p = Ret p' ->
  closed p' = closed p /\ psize p' = psize p /\ length (instances p') = (length (instances p) + n)%nat.
Proof.
  revert i p. induction n as [|n IH]; intros i p; cbn [fill_pool]; [intros [= <-]; split_and!; lia || done|].
  destruct (pool_instantiate p) as [res p1] eqn:Hi. destruct res as [pol| | |]; [|done..].
  intros (Hc & Hs & Hl)%IH. cbn [closed psize instances] in *. rewrite length_app in Hl. simpl in Hl.
  assert (closed p1 = closed p /\ psize p1 = psize p /\ instances p1 = instances p) as (<- & <- & <-).
  { unfold pool_instantiate in Hi. repeat case_match; by simplify_eq/=. }
  split_and!; [done|done|lia].
Qed.

Lemma NewPool_ready (module : option M) size (pl : Pool M S) :
  NewPool module size = Ret pl -> pool_ready pl.
Proof.
  unfold NewPool. destruct module as [m|]; [|done]. set (n := if size <=? 0 then 1 else size).
  assert (1 <= n) by (unfold n; destruct (Z.leb_spec size 0); lia).
  intros (Hc & Hs & Hl)%fill_pool_ready. cbn in *. split_and!; [done| |lia].
  intros He. rewrite He in Hl. simpl in Hl. lia.
Qed.

(** What holds of a new enforcer and of every later one. *)
Definition live e (pl : Pool M S) : Prop :=
  enforcer_ok e pl /\ evaluator e = Some 0 /\ pool e = Some 0 /\ 1 <= next e.

Lemma New_live plat loaded numCPU opts e :
  New plat loaded numCPU opts = Ret e ->
  exists pl, live e pl /\ auditMode (actionHandler e) = AuditMode opts /\ rootless (lineageTracker e) /\
    out e = [] /\ learningMode e = LearningMode opts.
Proof.
  unfold New. destruct plat as [[k pm]| | |]; [|done..]. destruct loaded as [module| | |]; [|done..].
  cbn [go_bind]. destruct (NewPool module numCPU) as [pl| | |] eqn:Hpl; [|done..]. cbn [go_bind].
  destruct (match opt_NetFilterConfig opts with Some _ => _ | None => _ end) as [nf| | |]; [|done..].
  cbn [go_bind]. intros [= <-]. exists pl. split_and!; [|done|apply NewTracker_wf|done|done].
  split_and!; [|done|done|done]. split; cbn.
  - intros a r Hr. by rewrite lookup_empty in Hr.
  - intros key ce Hk. by rewrite lookup_empty in Hk.
  - exists 0. split; [done|]. by rewrite lookup_singleton_eq.
  - by eapply NewPool_ready.
Qed.

Lemma handle_all_live evs e pl :
  live e pl -> exists e' pl', handle_all evs e = (Ret tt, e') /\ live e' pl'.
Proof.
  intros (Hok & He & Hp & Hn).
  destruct (handle_all_ind (fun e => evaluator e = Some 0 /\ pool e = Some 0 /\ 1 <= next e) evs e pl)
    as (e' & pl' & Hrun & Hok' & Hrest); [|done|done|by exists e', pl'].
  intros at_ event e1 e2 pl1 _ [_ _ _ _ _ _ (_ & _ & _ & _ & -> & ->) _ ->] (? & ? & ?). split_and!; auto; lia.
Qed.

(** The specification of a run: each event is decided by its layer, with the effects
    [handled] gives that decision. *)
Inductive spec_run : list (moment * ApiEvent) -> Enforcer K M S -> Enforcer K M S -> Prop :=
  | spec_done e : spec_run [] e e
  | spec_event at_ event evs pl e e1 e' :
      (a ← evaluator e; pools e !! a) = Some pl ->
      handled at_ event (outcome_of at_ event pl e) e e1 ->
      spec_run evs e1 e' -> spec_run ((at_, event) :: evs) e e'.

(** C3: the enforcer implements the layered decision on every run: once it is
    constructed, for all sequences of events, clocks and map orders and every policy
    module whose calls return, no event makes the handler panic, block or fail, and
    each is decided by the first of address blocklist, rate limit, sandbox, learning
    mode, unexpired cached decision and policy (a failed evaluation being a denial)
    that applies.  The decision is counted, exactly the process of an unaudited denial
    is terminated, only a policy decision is stored in the cache and in the kernel
    map, and every earlier decision is kept. *)
Theorem enforcer_refines plat loaded numCPU opts e evs :
  New plat loaded numCPU opts = Ret e -> exists e', handle_all evs e = (Ret tt, e') /\ spec_run evs e e'.
Proof.
  intros (pl & [Hok _] & _)%New_live. revert e pl Hok.
  induction evs as [|[at_ event] evs IH]; intros e pl Hok; [exists e; by split; [|constructor]|].
  destruct (handleEvent_handled at_ event pl e Hok) as (e1 & pl1 & Hrun & Hh & Hok1).
  destruct (IH e1 pl1 Hok1) as (e' & Hrun' & Hspec). exists e'. cbn [handle_all].
  split; [by erewrite bind_ret; [|exact Hrun]|]. eapply spec_event; [|exact Hh|done].
  destruct Hok as [_ _ (a & -> & Hpl) _]. exact Hpl.
Qed.

(** ** Reload and shutdown *)

Lemma close_pool_run a pl e :
  pools e !! a = Some pl ->
  close_pool (Some a) e = ((Pool_Close pl).1, set_pools (<[a := (Pool_Close pl).2]> (pools e)) e).
Proof. intros Hpl. unfold close_pool. rewrite Hpl. by destruct (Pool_Close pl). Qed.

Lemma bind_panic {A B} (m : comp A) (f : A -> comp B) e why e' :
  m e = (Panic why, e') -> mbind (M := comp) f m e = (Panic why, e').
Proof. intros Hm. unfold mbind, comp_bind. by rewrite Hm. Qed.

(** Closing through the evaluator and then the pool closes one channel twice. *)
Lemma close_twice a pl e :
  pools e !! a = Some pl -> closed pl = false ->
  let e' := set_pools (<[a := MkPool [] true (psize pl) (counter pl) (pmodule pl)]> (pools e)) e in
  close_pool (Some a) e = (Ret tt, e') /\
  close_pool (Some a) e' = (Panic "close of closed channel", e').
Proof.
  intros Hpl Hc e'. split.
  - rewrite (close_pool_run a pl) by done. unfold Pool_Close. by rewrite Hc.
  - rewrite (close_pool_run a (MkPool [] true (psize pl) (counter pl) (pmodule pl)))
      by (cbn; by apply lookup_insert_eq).
    cbn -[insert]. by rewrite insert_insert_eq.
Qed.

(** C30: shutting down and reloading panic: the evaluator and the enforcer hold the
    same pool and both close it.  [Close] always panics before the platform is
    closed; a reload whose new policy loads panics after switching to it, with the
    cache cleared; a reload whose policy does not load returns the error and changes
    nothing. *)
Theorem reload_and_close_panic plat loaded numCPU opts e evs :
  New plat loaded numCPU opts = Ret e ->
  exists e', handle_all evs e = (Ret tt, e') /\
    (exists e2, Enforcer_Close e' = (Panic "close of closed channel", e2) /\ platform e2 = platform e') /\
    (forall loaded' err, loaded' = Fail err -> ReloadPolicy loaded' numCPU e' = (Fail err, e')) /\
    (forall module pl', NewPool module numCPU = Ret pl' ->
       exists e2, ReloadPolicy (Ret module) numCPU e' = (Panic "close of closed channel", e2) /\
         evaluator e2 = Some (next e') /\ pools e2 !! next e' = Some pl' /\ entries (cache e2) = ∅ /\
         kernel e2 = kernel e').
Proof.
  intros (pl0 & Hlive & _)%New_live. destruct (handle_all_live evs e pl0 Hlive) as (e' & pl & Hrun & Hok & He & Hp & Hn).
  destruct Hok as [_ _ (a & Ha & Hpl) (Hopen & _)]. assert (a = 0) as -> by congruence.
  exists e'. split; [done|]. split_and!.
  - unfold Enforcer_Close. erewrite bind_ret; [|apply gets_run]. erewrite bind_ret; [|apply gets_run].
    rewrite He, Hp. destruct (close_twice 0 pl e' Hpl Hopen) as [H1' H2'].
    eexists. split; [erewrite bind_ret; [|exact H1']; by apply bind_panic|done].
  - by intros ? err ->.
  - intros module pl' Hnew. unfold ReloadPolicy.
    erewrite bind_ret; [|reflexivity]. rewrite Hnew.
    do 8 (erewrite bind_ret; [|reflexivity]). rewrite He, Hp.
    set (e1 := set_cache _ _).
    assert (Hpl1 : pools e1 !! 0 = Some pl) by (cbn; rewrite lookup_insert_ne by lia; done).
    destruct (close_twice 0 pl e1 Hpl1 Hopen) as [H1' H2'].
    eexists. split; [erewrite bind_ret; [exact H2'|exact H1']|].
    cbn -[insert]. rewrite lookup_insert_ne by lia. by rewrite lookup_insert_eq.
Qed.

(** ** The event loop *)

Inductive loop_status : Type := Running | Returned | Crashed.

(** The event channel's buffer, whether it is closed, whether the context is done. *)
Record loop_state : Type := MkLoop {
  queue : list ApiEvent;
  chan_closed : bool;
  ctx_done : bool;
  status : loop_status;
  enf : Enforcer K M S;
}.

(** One iteration of [eventLoop]. *)
Inductive loop_step : loop_state -> loop_state -> Prop :=
  | loop_ctx q c e : loop_step (MkLoop q c true Running e) (MkLoop q c true Returned e)
  | loop_closed d e : loop_step (MkLoop [] true d Running e) (MkLoop [] true d Returned e)
  | loop_event at_ event q c d e e' :
      handleEvent at_ event e = (Ret tt, e') ->
      loop_step (MkLoop (event :: q) c d Running e) (MkLoop q c d Running e')
  | loop_panic at_ event q c d e e' why :
      handleEvent at_ event e = (Panic why, e') ->
      loop_step (MkLoop (event :: q) c d Running e) (MkLoop q c d Crashed e').

(** Running loops hold a live enforcer, and something tells them to stop. *)
Definition loop_inv (s : loop_state) : Prop :=
  (status s = Running \/ status s = Returned) /\ (exists pl, live (enf s) pl) /\
  (ctx_done s = true \/ chan_closed s = true).

Lemma live_step at_ event e pl :
  live e pl -> exists e' pl', handleEvent at_ event e = (Ret tt, e') /\ live e' pl'.
Proof.
  intros Hl. destruct (handle_all_live [(at_, event)] e pl Hl) as (e' & pl' & Hrun & Hl').
  destruct (handleEvent_handled at_ event pl e (proj1 Hl)) as (e1 & pl1 & Hrun1 & _).
  exists e', pl'. split; [|done]. cbn [handle_all] in Hrun. erewrite bind_ret in Hrun; [|exact Hrun1].
  cbn [handle_all] in Hrun. rewrite mret_run in Hrun. congruence.
Qed.

(** C19: the event loop ends: once the context is cancelled or the channel closed,
    with no more events arriving, every execution of the loop, whichever ready case
    its select takes, returns without panicking; and what it has handled at any time
    is a prefix of the queued events, in order. *)
Theorem event_loop_ends s :
  loop_inv s ->
  inevitable loop_step (fun s => status s = Returned) s /\
  forall s', rtc loop_step s s' ->
    exists evs, evs.*2 ++ queue s' = queue s /\ handle_all evs (enf s) = (Ret tt, enf s').
Proof.
  intros Hinv. split.
  - eapply (inevitable_measure _ _ loop_inv
      (fun s => length (queue s) + match status s with Running => 1 | _ => 0 end)%nat); [| |done].
    + clear s Hinv. intros [q c d st e] ([Hs|Hs] & (pl & Hl) & Hd); simpl in *; subst; [|by left]. right.
      destruct d; [by eexists; constructor|]. destruct Hd as [|Hc]; [done|]. subst.
      destruct q as [|event q]; [by eexists; constructor|].
      destruct (live_step (MkMoment 0 0 0 0 0 0 0 [] [] false) event e pl Hl) as (e' & pl' & Hrun & _).
      eexists. by eapply loop_event.
    + clear s Hinv. intros s s' Hi Hstep. revert Hi.
      destruct Hstep as [| |at_ event q c d e e' Hrun|at_ event q c d e e' why Hrun];
        intros (Hst & (pl & Hl) & Hd); simpl in *; (split; [|lia]).
      * split_and!; [by right|exists pl; exact Hl|by left].
      * split_and!; [by right|exists pl; exact Hl|by right].
      * destruct (live_step at_ event e pl Hl) as (e1 & pl1 & Hrun1 & Hl1).
        assert (e1 = e') as -> by congruence. split_and!; [by left|exists pl1; exact Hl1|exact Hd].
      * destruct (live_step at_ event e pl Hl) as (e1 & pl1 & Hrun1 & Hl1). congruence.
  - intros s' Hsteps. assert (Hl : exists pl, live (enf s) pl) by apply Hinv. clear Hinv.
    induction Hsteps as [s|s s1 s' Hstep _ IH]; [by exists []|].
    destruct Hstep as [q c e|d e|at_ event q c d e e1 Hrun|at_ event q c d e e1 why Hrun]; simpl in *; auto;
      destruct Hl as (pl & Hl); destruct (live_step at_ event e pl Hl) as (e2 & pl2 & Hrun2 & Hl2).
    + assert (e2 = e1) as -> by congruence. destruct IH as (evs & Hq & Hall); [by exists pl2|].
      exists ((at_, event) :: evs). split; [cbn; f_equal; exact Hq|].
      cbn [handle_all]. by erewrite bind_ret; [|exact Hrun].
    + congruence.
Qed.
End Life.
