(* ===== verification/GoLoader.v ===== *)
(** internal/ebpf/loader.go and lsm_loader.go: loading the programs, and undoing a
    partial load.

    Every kernel resource a load step acquires (the objects of a program, its link,
    a ring-buffer reader) is a [resource]; [held] is the set acquired and not closed.
    Which steps the kernel lets succeed, and which closes report an error, are
    arguments.  A pointer to the objects of a program is nil, allocated but not
    filled, or filled; the generated [Close] method reads through its receiver. *)

From S2P Require Import Prelude GoApi GoWasm.

(** ** Detection *)

(** The [strings] functions the detection uses, on ASCII text. *)
Definition is_space (c : Z) : bool := ((9 <=? c) && (c <=? 13)) || (c =? 32).

Fixpoint TrimLeft (s : list Z) : list Z :=
  match s with
  | c :: s' => if is_space c then TrimLeft s' else s
  | [] => []
  end.
Definition TrimSpace (s : list Z) : list Z := rev (TrimLeft (rev (TrimLeft s))).

(** [field] holds the bytes since the last separator, reversed. *)
Fixpoint split_from (sep : Z -> bool) (field s : list Z) : list (list Z) :=
  match s with
  | [] => [rev field]
  | c :: s' => if sep c then rev field :: split_from sep [] s' else split_from sep (c :: field) s'
  end.
Definition Split (s : list Z) (sep : Z) : list (list Z) := split_from (Z.eqb sep) [] s.
Definition Fields (s : list Z) : list (list Z) :=
  filter (fun f => f <> []) (split_from is_space [] s).
Definition HasPrefix (s prefix : list Z) : bool := bool_decide (take (length prefix) s = prefix).

(** The contents of /sys/kernel/security/lsm and /proc/cmdline, when they can be read. *)
Definition IsLSMSupported (lsm cmdline : option (list Z)) : bool :=
  let comma := 44 in
  match lsm with
  | Some data => existsb (fun l => bool_decide (TrimSpace l = bstr "bpf")) (Split (TrimSpace data) comma)
  | None =>
      match cmdline with
      | Some data =>
          existsb (fun field => HasPrefix field (bstr "lsm=") &&
                     existsb (fun l => bool_decide (l = bstr "bpf")) (Split (drop 4 field) comma))
            (Fields data)
      | None => false
      end
  end.

Example lsm_listed : IsLSMSupported (Some (bstr "lockdown,capability, bpf
")) None = true.
Proof. vm_compute. reflexivity. Qed.
(** The mounted file decides alone, whatever the command line says. *)
Example lsm_file_wins : IsLSMSupported (Some (bstr "capability")) (Some (bstr "quiet lsm=bpf")) = false.
Proof. vm_compute. reflexivity. Qed.
Example lsm_cmdline : IsLSMSupported None (Some (bstr "quiet lsm=lockdown,bpf ro")) = true.
Proof. vm_compute. reflexivity. Qed.

(** ** Resources *)

(** The kind of resource and the program it belongs to, in load order. *)
Definition resource : Type := string * nat.
Abbreviation held := (gset resource).

Inductive objects : Type := NilObjects | Allocated | Filled.

#[export] Instance objects_eq_dec : EqDecision objects.
Proof. solve_decision. Defined.

(** The loader's pointers: program objects, links and readers. *)
Record Loader : Type := MkLoader {
  objs : list objects;
  links : list bool;
  readers : list bool;
}.

Section Closing.
(** Whether closing a resource reports an error. *)
Variable close_err : resource -> bool.

(** [if x != nil { if err := x.Close(); err != nil { errs = append(errs, err) } }] for
    the readers or the links, the program of the first being [i]. *)
Fixpoint close_handles (kind : string) (i : nat) (xs : list bool) (errs : Z) (h : held) : Z * held :=
  match xs with
  | [] => (errs, h)
  | x :: xs' =>
      if x : bool then
        close_handles kind (S i) xs' (if close_err (kind, i) then errs + 1 else errs) (h ∖ {[(kind, i)]})
      else close_handles kind (S i) xs' errs h
  end.

(** The loop over the objects.  The list holds interface values, which are never nil,
    so the test of [Loader.Close] does not skip a nil pointer; [guarded] is the test of
    [LSMLoader.Close], which does.  The method closes the program and then the maps
    and stops at the first error, so objects whose close fails stay held. *)
Fixpoint close_objects (guarded : bool) (i : nat) (xs : list objects) (errs : Z) (h : held)
    : go Z * held :=
  match xs with
  | [] => (Ret errs, h)
  | NilObjects :: xs' =>
      if guarded then close_objects guarded (S i) xs' errs h
      else (Panic "nil pointer dereference", h)
  | Allocated :: xs' => close_objects guarded (S i) xs' errs h
  | Filled :: xs' =>
      if close_err ("objs", i) then close_objects guarded (S i) xs' (errs + 1) h
      else close_objects guarded (S i) xs' errs (h ∖ {[("objs", i)]})
  end.

(** Readers, links, objects; [prefix] is the format of the summary error. *)
Definition close_with (guarded : bool) (prefix : string) (l : Loader) (h : held) : go unit * held :=
  let '(errs, h) := close_handles "reader" 0 (readers l) 0 h in
  let '(errs, h) := close_handles "link" 0 (links l) errs h in
  let '(res, h) := close_objects guarded 0 (objs l) errs h in
  (let! errs := res in if 0 <? errs then Fail (Sprintf prefix [ANum errs]) else Ret tt, h).

Definition Loader_Close : Loader -> held -> go unit * held := close_with false "close errors: %v".
Definition LSMLoader_Close : Loader -> held -> go unit * held := close_with true "lsm close errors: %v".

Definition Close (guarded : bool) : Loader -> held -> go unit * held :=
  if guarded then LSMLoader_Close else Loader_Close.

(** [l.Close(); return nil, err]. *)
Definition abandon (guarded : bool) (l : Loader) (err : message) (h : held) : go Loader * held :=
  let '(res, h) := Close guarded l h in
  (match res with Panic why => Panic why | Block => Block | _ => Fail err end, h).

(** ** What closing releases *)

(** Objects the kernel refused to close. *)
Definition unclosed (r : resource) : Prop := r.1 = "objs" /\ close_err r = true.

(** What a load that failed leaves: an error, and nothing held that could be closed,
    or a panic. *)
Definition clean_failure {A} (p : go A * held) : Prop :=
  (exists err, p.1 = Fail err) /\ set_Forall unclosed p.2.
Definition panicked {A} (p : go A * held) : Prop := p.1 = Panic "nil pointer dereference".

(** The resources behind the loader's pointers. *)
Fixpoint handles (kind : string) (i : nat) (xs : list bool) : held :=
  match xs with
  | [] => ∅
  | x :: xs' => (if x : bool then {[(kind, i)]} else ∅) ∪ handles kind (S i) xs'
  end.

Definition filled (x : objects) : bool := match x with Filled => true | _ => false end.

Definition owned (l : Loader) : held :=
  handles "reader" 0 (readers l) ∪ handles "link" 0 (links l) ∪ handles "objs" 0 (filled <$> objs l).

(** What closing the loader releases. *)
Definition released (l : Loader) : held :=
  handles "reader" 0 (readers l) ∪ handles "link" 0 (links l) ∪
  filter (fun r => close_err r = false) (handles "objs" 0 (filled <$> objs l)).

Lemma handles_kind kind xs : forall i r, r ∈ handles kind i xs -> r.1 = kind.
Proof. induction xs as [|[] xs IH]; intros i r; cbn [handles]; set_solver. Qed.

Lemma close_handles_held kind i xs errs h :
  (close_handles kind i xs errs h).2 = h ∖ handles kind i xs.
Proof.
  revert i errs h. induction xs as [|[] xs IH]; intros i errs h; cbn [close_handles handles snd].
  - by rewrite difference_empty_L.
  - by rewrite IH, difference_difference_l_L.
  - by rewrite IH, union_empty_l_L.
Qed.

Lemma close_objects_held guarded i xs errs h :
  guarded = true \/ NilObjects ∉ xs ->
  (exists errs', (close_objects guarded i xs errs h).1 = Ret errs') /\
  (close_objects guarded i xs errs h).2 =
    h ∖ filter (fun r => close_err r = false) (handles "objs" i (filled <$> xs)).
Proof.
  intros Hg. revert i errs h. induction xs as [|x xs IH]; intros i errs h; cbn [close_objects handles fmap list_fmap].
  { split; [by eexists|]. cbn [snd]. set_solver. }
  assert (Hg' : guarded = true \/ NilObjects ∉ xs) by (rewrite not_elem_of_cons in Hg; tauto).
  destruct x; cbn [filled].
  - destruct Hg as [->|Hn]; [|exfalso; apply Hn; left]. rewrite union_empty_l_L. by apply IH.
  - rewrite union_empty_l_L. by apply IH.
  - rewrite filter_union_L by apply _. destruct (close_err ("objs", i)) eqn:He.
    + rewrite filter_singleton_False_L by first [apply _|cbv beta; by rewrite He]. rewrite union_empty_l_L. by apply IH.
    + rewrite filter_singleton_True_L by first [apply _|done].
      destruct (IH Hg' (S i) errs (h ∖ {[("objs", i)]})) as [Hr ->].
      split; [done|]. by rewrite difference_difference_l_L.
Qed.

Lemma close_objects_panics i xs errs h :
  NilObjects ∈ xs -> (close_objects false i xs errs h).1 = Panic "nil pointer dereference".
Proof.
  revert i errs h. induction xs as [|x xs IH]; intros i errs h Hin; [by apply elem_of_nil in Hin|].
  destruct x; cbn [close_objects]; [reflexivity|..]; apply elem_of_cons in Hin as [|]; try done;
    [|destruct (close_err ("objs", i))]; by apply IH.
Qed.

(** Closing returns unless it trips over a nil pointer. *)
Lemma close_with_held guarded prefix l h :
  guarded = true \/ NilObjects ∉ objs l ->
  returns (close_with guarded prefix l h).1 /\ (close_with guarded prefix l h).2 = h ∖ released l.
Proof.
  intros Hg. unfold close_with, released.
  pose proof (close_handles_held "reader" 0 (readers l) 0 h) as Hr.
  destruct (close_handles "reader" 0 (readers l) 0 h) as [errs h1]. cbn [snd] in Hr.
  pose proof (close_handles_held "link" 0 (links l) errs h1) as Hl.
  destruct (close_handles "link" 0 (links l) errs h1) as [errs2 h2]. cbn [snd] in Hl.
  destruct (close_objects_held guarded 0 (objs l) errs2 h2 Hg) as [(errs3 & He) Ho].
  destruct (close_objects guarded 0 (objs l) errs2 h2) as [res h3]. cbn [fst snd] in *. subst.
  cbn [go_bind]. split; [destruct (0 <? errs3); [right|left]; by eexists|].
  by rewrite !difference_difference_l_L, (assoc_L (∪)).
Qed.

(** A loader that owns what is held releases it, but for what cannot be closed. *)
Lemma Close_releases guarded l h :
  guarded = true \/ NilObjects ∉ objs l -> h = owned l ->
  returns (Close guarded l h).1 /\ set_Forall unclosed (Close guarded l h).2.
Proof.
  intros Hg ->.
  assert (Hc : returns (Close guarded l (owned l)).1 /\ (Close guarded l (owned l)).2 = owned l ∖ released l)
    by (destruct guarded; by apply close_with_held).
  destruct Hc as [? ->]. split; [done|]. intros r. unfold owned, released.
  rewrite !elem_of_difference, !elem_of_union, elem_of_filter. intros [Hin Hout].
  assert (Ho : r ∈ handles "objs" 0 (filled <$> objs l)) by tauto. split; [by eapply handles_kind|].
  destruct (close_err r); [done|]. tauto.
Qed.

Lemma abandon_clean guarded l err h :
  guarded = true \/ NilObjects ∉ objs l -> h = owned l -> clean_failure (abandon guarded l err h).
Proof.
  intros Hg Hh. unfold abandon. destruct (Close_releases guarded l h Hg Hh) as [Hret Hc].
  destruct (Close guarded l h) as [res h']. cbn [fst snd] in *.
  split; [|done]. exists err. by destruct Hret as [(? & ->)|(? & ->)].
Qed.

Lemma abandon_panics l err h :
  NilObjects ∈ objs l -> panicked (abandon false l err h).
Proof.
  intros Hin. unfold abandon, Close, Loader_Close, close_with, panicked.
  destruct (close_handles "reader" 0 (readers l) 0 h) as [errs h1].
  destruct (close_handles "link" 0 (links l) errs h1) as [errs2 h2].
  pose proof (close_objects_panics 0 (objs l) errs2 h2 Hin) as Hp.
  destruct (close_objects false 0 (objs l) errs2 h2) as [res h3]. cbn [fst] in Hp. by subst.
Qed.

Lemma clean_bind {A B : Type} (p : go A * held) (f : A -> go B) :
  clean_failure p -> clean_failure (let '(res, h) := p in (go_bind res f, h)).
Proof. destruct p as [res h]. intros [(err & He) Hh]. cbn [fst snd] in *. subst. split; [by exists err|done]. Qed.

End Closing.

(** ** Loading *)

Section Load.
(** Whether acquiring a resource succeeds; whether closing it reports an error. *)
Variables (ok close_err : resource -> bool).

Definition with_objs (i : nat) (x : objects) (l : Loader) : Loader :=
  MkLoader (<[i := x]> (objs l)) (links l) (readers l).
Definition with_link (i : nat) (l : Loader) : Loader := MkLoader (objs l) (<[i := true]> (links l)) (readers l).
Definition with_reader (i : nat) (l : Loader) : Loader := MkLoader (objs l) (links l) (<[i := true]> (readers l)).

(** Opening reader [i]. *)
Definition open_reader (guarded : bool) (i : nat) (msg : string) (l : Loader) (h : held)
    (rest : Loader -> held -> go Loader * held) : go Loader * held :=
  if ok ("reader", i) then rest (with_reader i l) ({[("reader", i)]} ∪ h)
  else abandon close_err guarded l (Text msg) h.

(** Loading the objects of program [i] and attaching it; a failure of the very first
    load returns without closing. *)
Definition load_attach (guarded : bool) (i : nat) (load_msg attach_msg : string) (l : Loader) (h : held)
    (rest : Loader -> held -> go Loader * held) : go Loader * held :=
  let l := with_objs i Allocated l in
  if ok ("objs", i) then
    let l := with_objs i Filled l in
    let h := {[("objs", i)]} ∪ h in
    if ok ("link", i) then rest (with_link i l) ({[("link", i)]} ∪ h)
    else abandon close_err guarded l (Text attach_msg) h
  else if (i =? 0)%nat then (Fail (Text load_msg), h)
  else abandon close_err guarded l (Text load_msg) h.

(** Programs execve, openat and connect, each with its own reader. *)
Definition Load (memlock : bool) : go Loader * held :=
  if negb memlock then (Fail (Text "remove memlock"), ∅)
  else
    let l := MkLoader [NilObjects; NilObjects; NilObjects] [false; false; false] [false; false; false] in
    load_attach false 0 "load execve objects" "attach execve tracepoint" l ∅ (fun l h =>
    open_reader false 0 "open execve ring buffer" l h (fun l h =>
    load_attach false 1 "load openat objects" "attach openat tracepoint" l h (fun l h =>
    open_reader false 1 "open file ring buffer" l h (fun l h =>
    load_attach false 2 "load connect objects" "attach connect tracepoint" l h (fun l h =>
    open_reader false 2 "open network ring buffer" l h (fun l h => (Ret l, h))))))).

(** Programs exec, file, connect, bind, listen, ptrace and mount, with one reader. *)
Definition LoadLSM (lsm cmdline : option (list Z)) (memlock btf : bool) : go (option Loader) * held :=
  if negb (IsLSMSupported lsm cmdline) then (Ret None, ∅)
  else if negb memlock then (Fail (Text "remove memlock for lsm"), ∅)
  else if negb btf then (Fail (Text "kernel BTF not found at /sys/kernel/btf/vmlinux: CO-RE requires a kernel built with CONFIG_DEBUG_INFO_BTF=y"), ∅)
  else
    let l := MkLoader (replicate 7 NilObjects) (replicate 7 false) [false] in
    let '(res, h) :=
      load_attach true 0 "load lsm_exec objects" "attach lsm/bprm_check_security" l ∅ (fun l h =>
      load_attach true 1 "load lsm_file objects" "attach lsm/file_open" l h (fun l h =>
      load_attach true 2 "load lsm_connect objects" "attach lsm/socket_connect" l h (fun l h =>
      load_attach true 3 "load lsm_bind objects" "attach lsm/socket_bind" l h (fun l h =>
      load_attach true 4 "load lsm_listen objects" "attach lsm/socket_listen" l h (fun l h =>
      load_attach true 5 "load lsm_ptrace objects" "attach lsm/ptrace_access_check" l h (fun l h =>
      load_attach true 6 "load lsm_mount objects" "attach lsm/sb_mount" l h (fun l h =>
      open_reader true 0 "open lsm ring buffer" l h (fun l h => (Ret l, h))))))))) in
    (let! l := res in Ret (Some l), h).

(** The steps of [Load] in order. *)
Definition load_steps : list resource :=
  [("objs", 0%nat); ("link", 0%nat); ("reader", 0%nat); ("objs", 1%nat); ("link", 1%nat);
   ("reader", 1%nat); ("objs", 2%nat); ("link", 2%nat); ("reader", 2%nat)].

(** The steps after the first objects are loaded and before the last are allocated. *)
Definition exposed_steps : list resource :=
  [("link", 0%nat); ("reader", 0%nat); ("objs", 1%nat); ("link", 1%nat); ("reader", 1%nat)].

Definition first_failure (steps : list resource) : option resource := find (fun r => negb (ok r)) steps.

Ltac computed := apply (bool_decide_unpack _); vm_compute; reflexivity.

(** One step of a straight-line load: the failing branch is an [abandon] at concrete
    pointers, whose resources are computed. *)
Ltac abandoned :=
  first
    [ split; [by eexists|apply set_Forall_empty]
    | apply abandon_panics; computed
    | apply abandon_clean; [first [by left|right; computed]|computed]
    | apply clean_bind, abandon_clean; [first [by left|right; computed]|computed] ].
Ltac decide_steps :=
  repeat match goal with
  | |- context [bool_decide ?P] =>
      let b := eval vm_compute in (bool_decide P) in change (bool_decide P) with b; cbv iota
  end.
Ltac load_step :=
  match goal with
  | |- context [ok ?r] => destruct (ok r); cbn [negb find andb]; [|decide_steps; abandoned]
  end.

(** The outcome of loading the monitors, by the first step that fails. *)
Lemma Load_outcome :
  match first_failure load_steps with
  | None => exists l, Load true = (Ret l, list_to_set load_steps) /\
      (NilObjects ∉ objs l) /\ list_to_set load_steps = owned l
  | Some r => if bool_decide (r ∈ exposed_steps) then panicked (Load true) else clean_failure close_err (Load true)
  end.
Proof.
  unfold first_failure, load_steps, Load, load_attach, open_reader. cbn [find negb Nat.eqb].
  do 9 load_step.
  eexists. repeat split; [f_equal|..]; computed.
Qed.

(** The steps of [LoadLSM] in order. *)
Definition lsm_steps : list resource :=
  concat ((fun i => [("objs", i); ("link", i)]) <$> seq 0 7) ++ [("reader", 0%nat)].

Definition lsm_loads (lsm cmdline : option (list Z)) (memlock btf : bool) : bool :=
  IsLSMSupported lsm cmdline && memlock && btf && forallb ok lsm_steps.

(** The outcome of loading the LSM programs. *)
Lemma LoadLSM_outcome lsm cmdline memlock btf :
  if negb (IsLSMSupported lsm cmdline) then LoadLSM lsm cmdline memlock btf = (Ret None, ∅)
  else if lsm_loads lsm cmdline memlock btf then
    exists l, LoadLSM lsm cmdline memlock btf = (Ret (Some l), list_to_set lsm_steps) /\
      list_to_set lsm_steps = owned l
  else clean_failure close_err (LoadLSM lsm cmdline memlock btf).
Proof.
  unfold LoadLSM, lsm_loads. destruct (IsLSMSupported lsm cmdline); [|reflexivity]. cbn [negb].
  destruct memlock; [|split; [by eexists|apply set_Forall_empty]].
  destruct btf; [|split; [by eexists|apply set_Forall_empty]].
  unfold load_attach, open_reader. cbn [negb Nat.eqb andb].
  change lsm_steps with [("objs", 0%nat); ("link", 0%nat); ("objs", 1%nat); ("link", 1%nat);
    ("objs", 2%nat); ("link", 2%nat); ("objs", 3%nat); ("link", 3%nat); ("objs", 4%nat); ("link", 4%nat);
    ("objs", 5%nat); ("link", 5%nat); ("objs", 6%nat); ("link", 6%nat); ("reader", 0%nat)].
  cbn [forallb]. do 15 load_step.
  eexists. split; [cbn [go_bind]; f_equal|]; computed.
Qed.

(** Loading the monitors, by the step that fails: with none, all nine resources
    are held and [Close] releases all that can be closed; if one fails after the first
    objects are loaded and before the last are allocated, the cleanup panics on a nil
    pointer instead of returning the error; any other failure is returned with nothing
    held that could be closed. *)
Lemma load_failures :
  match first_failure load_steps with
  | None => exists l, Load true = (Ret l, list_to_set load_steps) /\
      returns (Loader_Close close_err l (list_to_set load_steps)).1 /\
      set_Forall (unclosed close_err) (Loader_Close close_err l (list_to_set load_steps)).2
  | Some r => if bool_decide (r ∈ exposed_steps) then panicked (Load true) else clean_failure close_err (Load true)
  end.
Proof.
  pose proof Load_outcome as Ho. destruct (first_failure load_steps) as [r|]; [done|].
  destruct Ho as (l & -> & Hn & Hh). exists l. split; [done|].
  apply (Close_releases close_err false); [by right|done].
Qed.

(** Loading the LSM programs never panics, and holds all or nothing. *)
Lemma load_lsm_all_or_nothing lsm cmdline memlock btf :
  if lsm_loads lsm cmdline memlock btf then
    exists l, LoadLSM lsm cmdline memlock btf = (Ret (Some l), list_to_set lsm_steps) /\
      returns (LSMLoader_Close close_err l (list_to_set lsm_steps)).1 /\
      set_Forall (unclosed close_err) (LSMLoader_Close close_err l (list_to_set lsm_steps)).2
  else LoadLSM lsm cmdline memlock btf = (Ret None, ∅) \/ clean_failure close_err (LoadLSM lsm cmdline memlock btf).
Proof.
  pose proof (LoadLSM_outcome lsm cmdline memlock btf) as Ho. unfold lsm_loads in *.
  destruct (IsLSMSupported lsm cmdline); cbn [negb andb] in Ho |- *; [|by left].
  destruct (memlock && btf && forallb ok lsm_steps); [|by right].
  destruct Ho as (l & -> & Hh). exists l. split; [done|]. apply (Close_releases close_err true); [by left|done].
Qed.
End Load.
