(* ===== verification/LinuxPlatform.v ===== *)
(** internal/platform/linux.go and internal/ebpf/cgroup.go: what the Linux platform
    loads, the events it delivers, and the goroutines that deliver them.

    [Load] composes the loaders of GoLoader.v with the map updates of the kernel; the
    file system's answers are arguments.  The monitors are a step relation: each one is
    a control point of its loop together with the ring buffer it reads. *)

From S2P Require Import Prelude CTypes Bpf GoEvents GoPolicyMap Monitors LsmPolicy WarmorLsm GoApi GoWasm GoLoader.
From S2P Require ExecveMonitor OpenatMonitor ConnectMonitor.

(** ** Events *)

Definition base_event (t : ApiEventType) (ev : Event) : BaseEvent := {|
  be_Type := t; be_PID := PID ev; be_UID := UID ev; be_GID := GID ev; be_Comm := Comm ev;
  be_Timestamp := Timestamp ev; be_CgroupID := ECgroupID ev |}.

Definition process_part (ev : Event) : ProcessEvent := {|
  pe_Base := base_event EventTypeProcess ev; pe_Filename := Filename ev; pe_Args := [] |}.
Definition file_part (flags mode : Z) (ev : Event) : FileEvent := {|
  fe_Base := base_event EventTypeFile ev; fe_Operation := bstr "open"; fe_Path := Filename ev;
  fe_Flags := flags; fe_Mode := mode |}.
Definition network_part (ev : Event) : NetworkEvent := {|
  ne_Base := base_event EventTypeNetwork ev; ne_Operation := bstr "connect";
  ne_Protocol := if Family ev =? 10 then bstr "tcp6" else bstr "tcp";
  ne_RemoteAddr := RemoteAddr ev; ne_RemotePort := RemotePort ev;
  ne_LocalAddr := []; ne_LocalPort := 0; ne_DataSize := 0 |}.

Definition processEvent (ev : Event) : ApiEvent := {|
  ae_PID := PID ev; ae_UID := UID ev; ae_GID := GID ev; ae_Comm := Comm ev;
  ae_Filename := Filename ev; ae_Timestamp := Timestamp ev; ae_Type := EventTypeProcess;
  ae_CgroupID := ECgroupID ev; ae_Process := Some (process_part ev); ae_File := None;
  ae_Network := None; ae_LSMEvent := false |}.

Definition fileEvent (ev : Event) : ApiEvent := {|
  ae_PID := PID ev; ae_UID := UID ev; ae_GID := GID ev; ae_Comm := Comm ev;
  ae_Filename := Filename ev; ae_Timestamp := Timestamp ev; ae_Type := EventTypeFile;
  ae_CgroupID := ECgroupID ev; ae_Process := None; ae_File := Some (file_part (Flags ev) (Mode ev) ev);
  ae_Network := None; ae_LSMEvent := false |}.

Definition networkEvent (ev : Event) : ApiEvent := {|
  ae_PID := PID ev; ae_UID := UID ev; ae_GID := GID ev; ae_Comm := Comm ev;
  ae_Filename := []; ae_Timestamp := Timestamp ev; ae_Type := EventTypeNetwork;
  ae_CgroupID := ECgroupID ev; ae_Process := None; ae_File := None;
  ae_Network := Some (network_part ev); ae_LSMEvent := false |}.

(** [api.EventType(ev.Kind)]: the two enumerations have the same values. *)
Definition kind_type (kind : EventKind) : ApiEventType :=
  match kind with
  | EventKindProcess => EventTypeProcess
  | EventKindFile => EventTypeFile
  | EventKindNetwork => EventTypeNetwork
  end.

Definition lsmEvent (ev : Event) : ApiEvent := {|
  ae_PID := PID ev; ae_UID := UID ev; ae_GID := GID ev; ae_Comm := Comm ev;
  ae_Filename := Filename ev; ae_Timestamp := Timestamp ev; ae_Type := kind_type (Kind ev);
  ae_CgroupID := ECgroupID ev;
  ae_Process := match Kind ev with EventKindProcess => Some (process_part ev) | _ => None end;
  ae_File := match Kind ev with EventKindFile => Some (file_part 0 0 ev) | _ => None end;
  ae_Network := match Kind ev with EventKindNetwork => Some (network_part ev) | _ => None end;
  ae_LSMEvent := true |}.

(** ** The file system (cgroup.go) *)

Section Cgroups.
(** The inode of a path; whether a path is a directory; the entries [filepath.Walk]
    visits under a directory, in order: path, name and whether it is a directory, or
    an error. *)
Variables (statx : list Z -> option Z) (is_dir : list Z -> bool)
  (walk : list Z -> list (option (list Z * list Z * bool))).

Definition ResolveCgroupID (cgroupPath : list Z) : go Z :=
  match statx cgroupPath with
  | Some ino => Ret ino
  | None => Fail (Sprintf "statx %s: %w" [AStr cgroupPath])
  end.

Fixpoint ResolveCgroupIDs (paths : list (list Z)) : go (list Z) :=
  match paths with
  | [] => Ret []
  | p :: paths' =>
      let! id := ResolveCgroupID p in
      let! ids := ResolveCgroupIDs paths' in
      Ret (id :: ids)
  end.

(** [strings.Contains]. *)
Fixpoint contains (s sub : list Z) : bool :=
  HasPrefix s sub || match s with [] => false | _ :: s' => contains s' sub end.

Definition is_pod (name : list Z) : bool :=
  contains name (bstr "pod") || HasPrefix name (bstr "cri-containerd-").

(** The ids the walk's callback appends for one entry. *)
Definition pod_id (baseDir : list Z) (entry : option (list Z * list Z * bool)) : list Z :=
  match entry with
  | None => []
  | Some (path, name, dir) =>
      if negb dir then []
      else if bool_decide (path = baseDir) then []
      else if is_pod name then match ResolveCgroupID path with Ret id => [id] | _ => [] end
      else []
  end.

(** [cgroupRoot] is a clean path, so that [filepath.Join] appends. *)
Definition DiscoverPodCgroups (cgroupRoot : list Z) : go (list Z) :=
  let kubepodsDirs := [cgroupRoot ++ bstr "/kubepods.slice"; cgroupRoot ++ bstr "/kubepods"] in
  match find is_dir kubepodsDirs with
  | None => Fail (Sprintf "kubepods cgroup directory not found under %s" [AStr cgroupRoot])
  | Some baseDir =>
      let ids := concat (pod_id baseDir <$> walk baseDir) in
      if bool_decide (ids = []) then Fail (Sprintf "no pod cgroups found under %s" [AStr baseDir])
      else Ret ids
  end.

(** ** Loading (linux.go) *)

Record LinuxConfig : Type := MkLinuxConfig {
  CgroupFilter : list (list Z);
  LSMEnforce : bool;
  RequireLSM : bool;
  SkipLSM : bool;
}.

(** What the system lets the loaders do. *)
Record system : Type := MkSystem {
  tp_ok : resource -> bool;
  tp_close_err : resource -> bool;
  lsm_ok : resource -> bool;
  lsm_close_err : resource -> bool;
  memlock : bool;
  btf : bool;
  lsm_file : option (list Z);
  cmdline : option (list Z);
}.

Context {K : Type} `{BpfKernel K}.

(** The platform with the resources its loaders hold and the kernel. *)
Record LinuxPlatform : Type := MkPlatform {
  ebpfLoader : option Loader;
  lsmLoader : option Loader;
  lsmEnabled : bool;
  tp_held : held;
  lsm_held : held;
  pkernel : K;
}.

Definition NewLinuxPlatform (k : K) : LinuxPlatform := MkPlatform None None false ∅ ∅ k.

(** [loader.Close(); return err], a panic of the close prevailing. *)
Definition give_up_load (sys : system) (l : Loader) (err : message) (p : LinuxPlatform) : go unit * LinuxPlatform :=
  let '(res, h) := Loader_Close (tp_close_err sys) l (tp_held p) in
  (match res with Panic why => Panic why | Block => Block | _ => Fail err end,
   MkPlatform (ebpfLoader p) (lsmLoader p) (lsmEnabled p) h (lsm_held p) (pkernel p)).

(** The cgroups to monitor: none configured, discovered, or resolved. *)
Definition filter_ids (filter : list (list Z)) : go (list Z) :=
  if bool_decide (filter = [bstr "auto"])
  then wrap "discover pod cgroups: %w" (DiscoverPodCgroups (bstr "/sys/fs/cgroup"))
  else wrap "resolve cgroup filter: %w" (ResolveCgroupIDs filter).

Definition with_kernel (k : K) (p : LinuxPlatform) : LinuxPlatform :=
  MkPlatform (ebpfLoader p) (lsmLoader p) (lsmEnabled p) (tp_held p) (lsm_held p) k.

(** The LSM part of [Load].  [visited] are the keys the iteration over a map visits;
    warnings are only printed, and the long advice in the texts is cut. *)
Definition load_lsm (sys : system) (visited : bpf_map -> list (list Z)) (cfg : LinuxConfig)
    (l : Loader) (cgroupIDs : list Z) (p : LinuxPlatform) : go unit * LinuxPlatform :=
  let '(res, h) := LoadLSM (lsm_ok sys) (lsm_close_err sys) (lsm_file sys) (cmdline sys) (memlock sys) (btf sys) in
  let p := MkPlatform (ebpfLoader p) (lsmLoader p) (lsmEnabled p) (tp_held p) h (pkernel p) in
  match res with
  | Panic why => (Panic why, p)
  | Block => (Block, p)
  | Fail err =>
      if RequireLSM cfg then
        give_up_load sys l (Sprintf "LSM-BPF required (--require-lsm) but failed to load: %w" [AErr err]) p
      else (Ret tt, p)
  | Ret None =>
      if RequireLSM cfg then
        give_up_load sys l (Text "LSM-BPF required (--require-lsm) but the kernel does not support BPF LSM; refusing to start") p
      else (Ret tt, p)
  | Ret (Some lsm) =>
      let p := MkPlatform (ebpfLoader p) (Some lsm) true (tp_held p) (lsm_held p) (pkernel p) in
      let '(err, k) := SetEnforce (LSMEnforce cfg) (pkernel p) in
      let p := with_kernel k p in
      if negb (err =? 0) && RequireLSM cfg then
        give_up_load sys l (Sprintf "LSM-BPF required (--require-lsm) but failed to set enforce mode: %w" [ANum err]) p
      else if bool_decide (cgroupIDs = []) then (Ret tt, p)
      else
        let '(_, k) := SetLSMCgroupFilter lsm_cgroup_filter (visited lsm_cgroup_filter) cgroupIDs (pkernel p) in
        (Ret tt, with_kernel k p)
  end.

Definition Platform_Load (sys : system) (visited : bpf_map -> list (list Z)) (cfg : LinuxConfig)
    (p : LinuxPlatform) : go unit * LinuxPlatform :=
  let '(res, h) := Load (tp_ok sys) (tp_close_err sys) (memlock sys) in
  let p := MkPlatform (ebpfLoader p) (lsmLoader p) (lsmEnabled p) h (lsm_held p) (pkernel p) in
  match wrap "load eBPF: %w" res with
  | Fail err => (Fail err, p)
  | Panic why => (Panic why, p)
  | Block => (Block, p)
  | Ret l =>
      let p := MkPlatform (Some l) (lsmLoader p) (lsmEnabled p) (tp_held p) (lsm_held p) (pkernel p) in
      let finish cgroupIDs p :=
        if SkipLSM cfg then (Ret tt, p) else load_lsm sys visited cfg l cgroupIDs p in
      if bool_decide (CgroupFilter cfg = []) then finish [] p
      else
        match filter_ids (CgroupFilter cfg) with
        | Fail err => give_up_load sys l err p
        | Panic why => (Panic why, p)
        | Block => (Block, p)
        | Ret ids =>
            let '(err, k) := SetCgroupFilter visited ids (pkernel p) in
            let p := with_kernel k p in
            if negb (err =? 0) then give_up_load sys l (Sprintf "set cgroup filter: %w" [ANum err]) p
            else finish ids p
        end
  end.

(** [LSMEnforcement] of [Capabilities]; the policy map is there with the loader. *)
Definition LSMEnforcement (p : LinuxPlatform) : bool := lsmEnabled p.
Definition Platform_PolicyMap (p : LinuxPlatform) : bool :=
  match lsmLoader p with Some _ => true | None => false end.

(** What [logSecurityPosture] prints. *)
Inductive posture : Type := KernelEnforcement | AuditOnly | ObserveOnly.
Definition logSecurityPosture (cfg : LinuxConfig) (p : LinuxPlatform) : posture :=
  if lsmEnabled p && LSMEnforce cfg then KernelEnforcement
  else if lsmEnabled p then AuditOnly
  else ObserveOnly.

(** One or two errors are reported as one. *)
Definition Platform_Close (sys : system) (p : LinuxPlatform) : go unit * LinuxPlatform :=
  let '(e1, hl) := match lsmLoader p with
                   | Some l => LSMLoader_Close (lsm_close_err sys) l (lsm_held p)
                   | None => (Ret tt, lsm_held p)
                   end in
  let p := MkPlatform (ebpfLoader p) (lsmLoader p) (lsmEnabled p) (tp_held p) hl (pkernel p) in
  match e1 with
  | Panic why => (Panic why, p)
  | Block => (Block, p)
  | _ =>
      let '(e2, ht) := match ebpfLoader p with
                       | Some l => Loader_Close (tp_close_err sys) l (tp_held p)
                       | None => (Ret tt, tp_held p)
                       end in
      let p := MkPlatform (ebpfLoader p) (lsmLoader p) (lsmEnabled p) ht (lsm_held p) (pkernel p) in
      (match e1, e2 with
       | _, Panic why => Panic why
       | _, Block => Block
       | Ret _, Ret _ => Ret tt
       | _, _ => Fail (Text "close errors: %v")
       end, p)
  end.
End Cgroups.

(** ** Facts about loading *)

Section LoadFacts.
Context {K : Type} `{BpfKernelOk K}.
Variables (statx : list Z -> option Z) (is_dir : list Z -> bool)
  (walk : list Z -> list (option (list Z * list Z * bool))).
Implicit Types (sys : system) (cfg : LinuxConfig) (p : @LinuxPlatform K) (k : K).

Abbreviation Platform_Load := (Platform_Load statx is_dir walk).

(** Whether the LSM programs load on a system. *)
Definition lsm_loadable sys : bool :=
  lsm_loads (lsm_ok sys) (lsm_file sys) (cmdline sys) (memlock sys) (btf sys).

Lemma enforcing_kept k k' :
  (forall key, map_contents k' lsm_enforce key = map_contents k lsm_enforce key) ->
  enforcing k' = enforcing k.
Proof. intros He. unfold enforcing. f_equal. apply enforcing_maps. intros. by rewrite He. Qed.

Lemma SetCgroupFilter_enforcing visited ids k :
  enforcing (SetCgroupFilter visited ids k).2 = enforcing k.
Proof.
  apply enforcing_kept. intros key. apply set_filters_other; [by repeat constructor|].
  apply (bool_decide_unpack _). vm_compute. exact I.
Qed.

(** What every outcome of a load guarantees. *)
Definition load_outcome sys cfg k (res : go unit) p : Prop :=
  match res with
  | Ret _ =>
      tp_held p = list_to_set load_steps /\
      lsmEnabled p = negb (SkipLSM cfg) && lsm_loadable sys /\
      (RequireLSM cfg = true -> SkipLSM cfg = false ->
         lsmEnabled p = true /\ enforcing (pkernel p) = LSMEnforce cfg) /\
      (lsmEnabled p = false -> lsm_held p = ∅ \/ set_Forall (unclosed (lsm_close_err sys)) (lsm_held p)) /\
      (lsmEnabled p = false -> enforcing (pkernel p) = enforcing k)
  | Fail _ =>
      set_Forall (unclosed (tp_close_err sys)) (tp_held p) /\
      (set_Forall (unclosed (lsm_close_err sys)) (lsm_held p) \/
       RequireLSM cfg = true /\ SkipLSM cfg = false /\ lsm_held p = list_to_set lsm_steps)
  | Panic _ => exists r, first_failure (tp_ok sys) load_steps = Some r /\ r ∈ exposed_steps
  | Block => False
  end.

Ltac outcome := cbn [fst snd load_outcome tp_held lsm_held lsmEnabled pkernel].

(** A loader in place, owning what is held. *)
Definition loaded sys (l : Loader) p : Prop :=
  (NilObjects ∉ objs l) /\ tp_held p = owned l /\ owned l = list_to_set load_steps.

Lemma give_up_outcome sys cfg k l err p :
  loaded sys l p ->
  (set_Forall (unclosed (lsm_close_err sys)) (lsm_held p) \/
   RequireLSM cfg = true /\ SkipLSM cfg = false /\ lsm_held p = list_to_set lsm_steps) ->
  load_outcome sys cfg k (give_up_load sys l err p).1 (give_up_load sys l err p).2.
Proof.
  intros (Hn & Hh & _) Hl. unfold give_up_load.
  destruct (Close_releases (tp_close_err sys) false l (tp_held p)) as [Hret Hc]; [by right|done|].
  cbn [Close] in *. destruct (Loader_Close (tp_close_err sys) l (tp_held p)) as [res h].
  cbn [fst snd] in *. by destruct Hret as [(? & ->)|(? & ->)].
Qed.

Lemma load_lsm_outcome sys visited cfg l ids k p :
  loaded sys l p -> lsm_held p = ∅ -> lsmEnabled p = false -> SkipLSM cfg = false ->
  enforcing (pkernel p) = enforcing k ->
  load_outcome sys cfg k (load_lsm sys visited cfg l ids p).1 (load_lsm sys visited cfg l ids p).2.
Proof.
  intros Hl Hlh Hd Hs Hk. unfold load_lsm.
  pose proof (LoadLSM_outcome (lsm_ok sys) (lsm_close_err sys) (lsm_file sys) (cmdline sys) (memlock sys) (btf sys)) as Ho.
  fold (lsm_loadable sys) in Ho.
  destruct (negb (IsLSMSupported (lsm_file sys) (cmdline sys))) eqn:Hsup.
  { rewrite Ho. assert (lsm_loadable sys = false) as Hf.
    { unfold lsm_loadable, lsm_loads. apply negb_true_iff in Hsup. by rewrite Hsup. }
    destruct (RequireLSM cfg) eqn:Hr.
    - apply (give_up_outcome sys cfg k); [done|]. left. apply set_Forall_empty.
    - destruct Hl as (_ & Hh & Hall). outcome. rewrite Hf, Hs, Hr. split_and!; [congruence|done|done|by left|done]. }
  destruct (lsm_loadable sys) eqn:Hf.
  - destruct Ho as (lsm & -> & _). destruct (SetEnforce (LSMEnforce cfg) _) as [err k1] eqn:Hse.
    pose proof (SetEnforce_effect (LSMEnforce cfg) (pkernel p)) as Heff. cbn [pkernel] in Hse.
    rewrite Hse in Heff. cbn [fst snd] in Heff.
    destruct (negb (err =? 0) && RequireLSM cfg) eqn:Hg.
    + apply andb_true_iff in Hg as [_ Hr]. apply (give_up_outcome sys cfg k); [done|by right].
    + assert (Hen : RequireLSM cfg = true -> enforcing k1 = LSMEnforce cfg).
      { intros Hr. rewrite Hr, andb_true_r in Hg. zbool. by apply Heff. }
      destruct Hl as (_ & Hh & Hall).
      assert (Hok : forall k2, enforcing k2 = enforcing k1 ->
        load_outcome sys cfg k (Ret tt) (MkPlatform (ebpfLoader p) (Some lsm) true (tp_held p) (list_to_set lsm_steps) k2)).
      { intros k2 Hk2. outcome. rewrite Hf, Hs. split_and!; [congruence|done| |done|done].
        intros Hr _. split; [done|]. rewrite Hk2. by apply Hen. }
      case_bool_decide; [by apply Hok|].
      destruct (SetLSMCgroupFilter _ _ ids _) as [err2 k2] eqn:Hf2. apply Hok. apply enforcing_kept. intros key.
      pose proof (SetLSMCgroupFilter_other lsm_cgroup_filter (visited lsm_cgroup_filter) ids k1 lsm_enforce key
        eq_refl ltac:(done)) as Hother. cbn in Hf2. by rewrite Hf2 in Hother.
  - destruct Ho as [(err & He) Hh']. destruct (LoadLSM _ _ _ _ _ _) as [res h]. cbn [fst snd] in *. subst res.
    destruct (RequireLSM cfg) eqn:Hr; [by apply (give_up_outcome sys cfg k); [|left]|].
    destruct Hl as (_ & Hh & Hall). outcome. rewrite Hf, Hs, Hr. split_and!; [congruence|done|done|by right|done].
Qed.

Lemma ResolveCgroupIDs_returns paths : returns (ResolveCgroupIDs statx paths).
Proof.
  induction paths as [|p paths IH]; cbn [ResolveCgroupIDs]; [left; by eexists|].
  unfold ResolveCgroupID. destruct (statx p); cbn [go_bind]; [|right; by eexists].
  destruct IH as [(ids & ->)|(err & ->)]; [left|right]; by eexists.
Qed.

Lemma filter_ids_returns filter : returns (filter_ids statx is_dir walk filter).
Proof.
  unfold filter_ids. case_bool_decide.
  - unfold DiscoverPodCgroups. destruct (find _ _); [case_bool_decide|]; [right|left|right]; by eexists.
  - destruct (ResolveCgroupIDs_returns filter) as [(ids & ->)|(err & ->)]; [left|right]; by eexists.
Qed.

(** C17: what loading the platform guarantees.  On success the monitors are attached
    and the LSM programs are exactly when they are not skipped and can be loaded; if
    they are required and not skipped they are, and the kernel blocks exactly when
    enforcement was asked for.  On failure every tracepoint resource that could be
    closed is, and so are the LSM programs unless they were required and only setting
    the switch failed: then they stay attached.  It panics only when a monitor fails
    half-way. *)
Theorem platform_load_outcome sys visited cfg k :
  load_outcome sys cfg k (Platform_Load sys visited cfg (NewLinuxPlatform k)).1
    (Platform_Load sys visited cfg (NewLinuxPlatform k)).2.
Proof.
  unfold LinuxPlatform.Platform_Load. pose proof (Load_outcome (tp_ok sys) (tp_close_err sys)) as Ho.
  destruct (memlock sys).
  2:{ cbn. split; [apply set_Forall_empty|left; apply set_Forall_empty]. }
  destruct (first_failure (tp_ok sys) load_steps) as [r|] eqn:Hff.
  - destruct (Load _ _ true) as [res h] eqn:HL. case_bool_decide as Hx.
    + unfold panicked in Ho. cbn in Ho. subst res. cbn. by exists r.
    + destruct Ho as [(err & He) Hh]. cbn in He, Hh. subst res. cbn. split; [done|left; apply set_Forall_empty].
  - destruct Ho as (l & -> & Hn & Hall). cbn [wrap].
    assert (Hfin : forall ids k', enforcing k' = enforcing k ->
      let p := MkPlatform (Some l) None false (list_to_set load_steps) ∅ k' in
      let q := if SkipLSM cfg then (Ret tt, p) else load_lsm sys visited cfg l ids p in
      load_outcome sys cfg k q.1 q.2).
    { intros ids k' Hk p q. subst q. destruct (SkipLSM cfg) eqn:Hs.
      - outcome. rewrite Hs. cbn [negb andb]. split_and!; [done|done|done|by left|done].
      - apply load_lsm_outcome; [by split_and!|done..]. }
    case_bool_decide; [by apply Hfin|].
    destruct (filter_ids _ _ _ (CgroupFilter cfg)) as [ids|err|why|] eqn:Hids.
    + pose proof (SetCgroupFilter_enforcing visited ids k) as Hk. cbn [pkernel NewLinuxPlatform].
      destruct (SetCgroupFilter visited ids k) as [err k1]. cbn [snd] in Hk.
      destruct (negb (err =? 0)); [|by apply Hfin].
      apply give_up_outcome; [by split_and!|left; apply set_Forall_empty].
    + apply give_up_outcome; [by split_and!|left; apply set_Forall_empty].
    + by destruct (filter_ids_returns (CgroupFilter cfg)) as [(? & Hr)|(? & Hr)]; rewrite Hids in Hr.
    + by destruct (filter_ids_returns (CgroupFilter cfg)) as [(? & Hr)|(? & Hr)]; rewrite Hids in Hr.
Qed.
End LoadFacts.

(** ** The monitors *)

Inductive source : Type := ProcessRing | FileRing | NetworkRing | LsmRing.

(** The points of a monitor's loop: the select at its top, the read of the ring
    buffer, the select that sends an event, and after the return. *)
Inductive mon_pc : Type := AtTop | InRead | Sending (event : ApiEvent) | Exited.

(** A monitor goroutine with the records of its ring buffer not read yet. *)
Record mon : Type := MkMon {
  src : source;
  pc : mon_pc;
  ring : list (list Z);
  ring_closed : bool;
}.

(** [ctx_done] and [stopping] are the two channels the selects watch. *)
Record plat_state : Type := MkPlatState {
  mons : list mon;
  eventChan : list ApiEvent;
  ctx_done : bool;
  stopping : bool;
}.

Definition chan_capacity : nat := 1024.

Section Run.
Variable bootTimeOffset : Z.

(** Reading a record and converting the event; a record that is too short is an error. *)
Definition decode (from : source) (record : list Z) : option ApiEvent :=
  match from with
  | ProcessRing => processEvent <$> readEvent bootTimeOffset EventKindProcess record
  | FileRing => fileEvent <$> readEvent bootTimeOffset EventKindFile record
  | NetworkRing => networkEvent <$> readEvent bootTimeOffset EventKindNetwork record
  | LsmRing => lsmEvent <$> ReadLSMEvent bootTimeOffset record
  end.

(** One step of a monitor; the read blocks on an open ring buffer with no record. *)
Inductive mon_step (stop : bool) (chan : list ApiEvent) : mon -> mon -> list ApiEvent -> Prop :=
  | mon_return from rs c : stop = true ->
      mon_step stop chan (MkMon from AtTop rs c) (MkMon from Exited rs c) chan
  | mon_read from rs c : stop = false ->
      mon_step stop chan (MkMon from AtTop rs c) (MkMon from InRead rs c) chan
  | mon_got from r rs event : decode from r = Some event ->
      mon_step stop chan (MkMon from InRead (r :: rs) false) (MkMon from (Sending event) rs false) chan
  | mon_bad from r rs : decode from r = None ->
      mon_step stop chan (MkMon from InRead (r :: rs) false) (MkMon from AtTop rs false) chan
  | mon_closed from rs : mon_step stop chan (MkMon from InRead rs true) (MkMon from AtTop rs true) chan
  | mon_send from event rs c : (length chan < chan_capacity)%nat ->
      mon_step stop chan (MkMon from (Sending event) rs c) (MkMon from AtTop rs c) (chan ++ [event])
  | mon_drop from event rs c : stop = true ->
      mon_step stop chan (MkMon from (Sending event) rs c) (MkMon from Exited rs c) chan.

Inductive plat_step : plat_state -> plat_state -> Prop :=
  | plat_mon s i m m' chan : mons s !! i = Some m ->
      mon_step (ctx_done s || stopping s) (eventChan s) m m' chan ->
      plat_step s (MkPlatState (<[i := m']> (mons s)) chan (ctx_done s) (stopping s)).

(** [Start]: three monitors, and a fourth for the LSM events when it is loaded. *)
Definition Platform_Start (loaded lsm : bool) (chan : list ApiEvent) (ctx : bool) : go plat_state :=
  if negb loaded then Fail (Text "platform not loaded")
  else
    let go_mon from := MkMon from AtTop [] false in
    Ret (MkPlatState (go_mon <$> [ProcessRing; FileRing; NetworkRing] ++ if lsm then [LsmRing] else [])
           chan ctx false).

(** [Stop] closes the stop channel and then waits for the monitors to return. *)
Definition Platform_Stop (s : plat_state) : plat_state :=
  MkPlatState (mons s) (eventChan s) (ctx_done s) true.

Definition all_exited (s : plat_state) : Prop := Forall (fun m => pc m = Exited) (mons s).

(** A monitor waiting for a record. *)
Definition starved (m : mon) : bool :=
  match pc m, ring m, ring_closed m with InRead, [], false => true | _, _, _ => false end.

Definition weight (m : mon) : nat :=
  match pc m with AtTop => 1 | Sending _ => 2 | InRead => 3 | Exited => 0 end.

Lemma sum_insert (f : mon -> nat) ms i m m' :
  ms !! i = Some m -> (f m' < f m)%nat -> (sum_list_with f (<[i := m']> ms) < sum_list_with f ms)%nat.
Proof.
  revert i. induction ms as [|x ms IH]; intros [|i] Hi Hlt; simplify_eq/=; [lia|].
  specialize (IH i Hi Hlt). simpl. lia.
Qed.

(** Once the platform is stopping a step takes its monitor closer to returning. *)
Lemma stopped_step chan m m' chan' :
  mon_step true chan m m' chan' -> (weight m' < weight m)%nat /\ starved m' = false.
Proof. intros Hs. inversion Hs; subst; try done; (split; [cbn; lia|done]). Qed.

Lemma stopped_progress chan m :
  starved m = false -> pc m = Exited \/ exists m' chan', mon_step true chan m m' chan'.
Proof.
  destruct m as [from [| |event|] rs c]; intros Hn; [right..|by left].
  - do 2 eexists. by apply mon_return.
  - destruct c; [do 2 eexists; by apply mon_closed|]. destruct rs as [|r rs]; [done|].
    destruct (decode from r) as [event|] eqn:Hd; do 2 eexists; [by eapply mon_got|by apply mon_bad].
  - do 2 eexists. by apply mon_drop.
Qed.

Lemma starved_stuck stop chan m m' chan' : starved m = true -> ~ mon_step stop chan m m' chan'.
Proof. intros Hs Hstep. destruct Hstep; unfold starved in Hs; cbn in Hs; by repeat case_match. Qed.

(** A starved monitor keeps the platform from ending. *)
Lemma starved_forever i m s :
  inevitable plat_step all_exited s -> mons s !! i = Some m -> starved m = true -> False.
Proof.
  intros Hin. induction Hin as [s Hex|s [s' Hs] _ IH]; intros Hi Hm.
  - apply (Forall_lookup_1 _ _ _ _ Hex) in Hi. unfold starved in Hm. by rewrite Hi in Hm.
  - refine (IH s' Hs _ Hm). destruct Hs as [s j m1 m2 chan Hj Hstep]. cbn [mons].
    rewrite list_lookup_insert_ne; [done|]. intros ->. simplify_eq. by eapply starved_stuck.
Qed.

(** C22: [Stop] returns exactly when no monitor is waiting in a read: with no more
    records arriving, after the stop channel is closed every execution ends with all
    monitors returned if and only if none of them is reading an open ring buffer with
    no record left; the readers are closed only after [Stop]. *)
Theorem stop_returns_iff s :
  inevitable plat_step all_exited (Platform_Stop s) <-> Forall (fun m => starved m = false) (mons s).
Proof.
  split.
  - intros Hin. apply Forall_lookup. intros i m Hi. destruct (starved m) eqn:Hm; [|done].
    exfalso. by eapply (starved_forever i m (Platform_Stop s)).
  - intros Hf. apply (inevitable_measure _ _
      (fun s => stopping s = true /\ Forall (fun m => starved m = false) (mons s))
      (fun s => sum_list_with weight (mons s))); [| |by split].
    + intros s1 [Hst Hf1]. destruct (decide (Forall (fun m => weight m = 0%nat) (mons s1))) as [Hex|Hex].
      * left. eapply Forall_impl; [exact Hex|]. intros m. by destruct m as [? [] ? ?].
      * right. apply not_Forall_Exists, Exists_exists in Hex as (m & Hin & Hw); [|apply _].
        apply list_elem_of_lookup in Hin as [i Hi].
        destruct (stopped_progress (eventChan s1) m) as [He|(m' & chan' & Hs)].
        -- by apply (Forall_lookup_1 _ _ _ _ Hf1 Hi).
        -- by destruct m; cbn in *; subst.
        -- eexists. eapply plat_mon; [done|]. by rewrite Hst, orb_true_r.
    + intros s1 s2 [Hst Hf1] Hs. destruct Hs as [s1 i m m' chan Hi Hs]. rewrite Hst, orb_true_r in Hs.
      apply stopped_step in Hs as [Hlt Hn]. cbn. split; [split; [done|by apply Forall_insert]|].
      by eapply sum_insert.
Qed.

(** ** Delivery *)

(** What happens to the platform while it runs: a monitor sends an event or moves on
    its own, the kernel submits a record, the enforcer takes an event, and the stop
    signals are raised. *)
Inductive happening : Type :=
  | Sent (i : nat) (event : ApiEvent)
  | Moved
  | Arrived (i : nat) (record : list Z)
  | Taken (event : ApiEvent)
  | Signalled.

Inductive plat_event : plat_state -> happening -> plat_state -> Prop :=
  | plat_sent s i m m' event : mons s !! i = Some m ->
      mon_step (ctx_done s || stopping s) (eventChan s) m m' (eventChan s ++ [event]) ->
      plat_event s (Sent i event)
        (MkPlatState (<[i := m']> (mons s)) (eventChan s ++ [event]) (ctx_done s) (stopping s))
  | plat_moved s i m m' : mons s !! i = Some m ->
      mon_step (ctx_done s || stopping s) (eventChan s) m m' (eventChan s) ->
      plat_event s Moved (MkPlatState (<[i := m']> (mons s)) (eventChan s) (ctx_done s) (stopping s))
  | plat_arrived s i m record : mons s !! i = Some m -> ring_closed m = false ->
      plat_event s (Arrived i record)
        (MkPlatState (<[i := MkMon (src m) (pc m) (ring m ++ [record]) false]> (mons s))
           (eventChan s) (ctx_done s) (stopping s))
  | plat_taken s event rest : eventChan s = event :: rest ->
      plat_event s (Taken event) (MkPlatState (mons s) rest (ctx_done s) (stopping s))
  | plat_signal s ctx stop :
      plat_event s Signalled (MkPlatState (mons s) (eventChan s) (ctx_done s || ctx) (stopping s || stop)).

(** A run with what happened, in order. *)
Inductive plat_run (s : plat_state) : list happening -> plat_state -> Prop :=
  | run_start : plat_run s [] s
  | run_more hs s1 h s2 : plat_run s hs s1 -> plat_event s1 h s2 -> plat_run s (hs ++ [h]) s2.

Definition sent_by (i : nat) (h : happening) : option ApiEvent :=
  match h with Sent j event => if bool_decide (i = j) then Some event else None | _ => None end.
Definition arrived_at (i : nat) (h : happening) : option (list Z) :=
  match h with Arrived j r => if bool_decide (i = j) then Some r else None | _ => None end.
Definition sent_any (h : happening) : option ApiEvent :=
  match h with Sent _ event => Some event | _ => None end.
Definition taken (h : happening) : option ApiEvent :=
  match h with Taken event => Some event | _ => None end.

(** The events a monitor still has to send. *)
Definition pending (m : mon) : list ApiEvent :=
  match pc m with Sending event => [event] | _ => [] end ++ omap (decode (src m)) (ring m).

(** What the step of a monitor that goes on does to its pending events. *)
Lemma mon_step_pending stop chan m m' chan' :
  mon_step stop chan m m' chan' -> pc m' <> Exited ->
  src m' = src m /\ pc m <> Exited /\ exists new, chan' = chan ++ new /\ pending m = new ++ pending m'.
Proof.
  intros Hs Hpc. destruct Hs; cbn in Hpc; try done; (split; [done|split; [done|]]).
  - by exists []; rewrite app_nil_r.
  - exists []. rewrite app_nil_r. split; [done|]. unfold pending. cbn. by rewrite H.
  - exists []. rewrite app_nil_r. split; [done|]. unfold pending. cbn. by rewrite H.
  - by exists []; rewrite app_nil_r.
  - by exists [event].
Qed.

(** One happening: what monitor [i] sent and still has to send is what it had to send
    and what arrived. *)
Lemma plat_event_pending s h s' i m' :
  plat_event s h s' -> mons s' !! i = Some m' -> pc m' <> Exited ->
  exists m, mons s !! i = Some m /\ src m' = src m /\ pc m <> Exited /\
    omap (sent_by i) [h] ++ pending m' = pending m ++ omap (decode (src m)) (omap (arrived_at i) [h]).
Proof.
  intros He Hi Hpc. destruct He as [s j m1 m2 event Hj Hs|s j m1 m2 Hj Hs|s j m1 r Hj Hc|s event rest Hq|s ctx stop];
    cbn [mons] in Hi; [..|by exists m'; cbn; rewrite app_nil_r|by exists m'; cbn; rewrite app_nil_r].
  all: apply list_lookup_insert_Some in Hi as [(<- & <- & _)|(Hne & Hi)];
    [exists m1; split; [done|]|exists m'; split_and!; [done..|]; cbn; rewrite ?bool_decide_eq_false_2 by done;
       by rewrite ?app_nil_r].
  - destruct (mon_step_pending _ _ _ _ _ Hs Hpc) as (? & ? & new & Hnew & Hp).
    apply app_inv_head in Hnew as <-. split_and!; [done..|]. cbn. rewrite bool_decide_eq_true_2 by done. cbn.
    by rewrite Hp, app_nil_r.
  - destruct (mon_step_pending _ _ _ _ _ Hs Hpc) as (? & ? & new & Hnew & Hp).
    rewrite <- (app_nil_r (eventChan s)) in Hnew at 1. apply app_inv_head in Hnew as <-.
    split_and!; [done..|]. cbn. by rewrite Hp, app_nil_r.
  - split_and!; [done..|]. cbn. rewrite bool_decide_eq_true_2 by done. unfold pending. cbn.
    rewrite omap_app. cbn. by rewrite app_assoc.
Qed.

(** C29: the platform loses, repeats and reorders nothing while it runs: along every
    run, with records arriving, the enforcer taking events and any interleaving of
    the monitors, what a monitor that has not returned sent, and then still has to
    send, is what it had to send followed by the events decoded from the records that
    arrived in its ring buffer, in order; and what the enforcer took, and then the
    channel holds, is what the channel held followed by all that was sent. *)
Theorem delivery_in_order s hs s' :
  plat_run s hs s' ->
  omap taken hs ++ eventChan s' = eventChan s ++ omap sent_any hs /\
  forall i m', mons s' !! i = Some m' -> pc m' <> Exited ->
    exists m, mons s !! i = Some m /\ src m' = src m /\
      omap (sent_by i) hs ++ pending m' = pending m ++ omap (decode (src m)) (omap (arrived_at i) hs).
Proof.
  intros Hrun. induction Hrun as [|hs s1 h s2 _ [IHc IH] He].
  - split; [by rewrite app_nil_r|]. intros i m' Hi _. exists m'. by rewrite app_nil_r.
  - split.
    + rewrite !omap_app. destruct He as [| | |s1 event rest Hq|]; cbn [omap list_omap taken sent_any eventChan] in *;
        rewrite ?app_nil_r; [by rewrite app_assoc, IHc, <- app_assoc|done|done| |done].
      rewrite Hq in IHc. by rewrite <- IHc, <- app_assoc.
    + intros i m' Hi Hpc. destruct (plat_event_pending _ _ _ _ _ He Hi Hpc) as (m1 & Hi1 & Hsrc & Hpc1 & Hbal).
      destruct (IH i m1 Hi1 Hpc1) as (m & Him & Hsrc1 & Hb). exists m. split_and!; [done|congruence|].
      by rewrite !omap_app, <- app_assoc, Hbal, app_assoc, Hb, <- app_assoc, Hsrc1.
Qed.
End Run.
