(* ===== verification/DaemonEndToEnd.v ===== *)
(** From a system call to the kernel's next verdict, through the daemon.

    The tracepoint program's record is decoded and converted by the platform, the
    enforcer decides and writes a rule, and the LSM program of the same kernel looks
    rules up on the next call: the theorems compose Monitors.v, LinuxPlatform.v,
    EnforcerFacts.v and LsmHooks.v across their interfaces.  The second part runs the
    enforcer on a concrete machine and policy module. *)

From S2P Require Import Prelude CTypes Bpf SimKernel VmlinuxTypes WarmorLsm LsmPolicy Fnv.
From S2P Require Import TracepointDefs ExecveMonitor OpenatMonitor ConnectMonitor GoEvents Demo LsmHooks GoPolicyMap EndToEnd Monitors.
From S2P Require Import GoApi GoCache GoLineage GoNet GoNetFilter GoSandbox GoActions GoWasm GoEnforcer.
From S2P Require Import EnforcerFacts EnforcerLife LinuxPlatform.

Section Daemon.
Context {K M S : Type} `{BpfKernelOk K} `{WasmOk M S}.
Implicit Types (k : K) (e : Enforcer K M S).

(** ** Rules the enforcer writes *)

(** A policy denial of an event that has a pattern becomes a deny rule under the hash
    of the pattern; nothing else of the kernel changes. *)
Lemma denial_synced at_ event pl e r :
  enforcer_ok e pl -> asks_policy at_ event e -> policyMap e = true -> ae_LSMEvent event = false ->
  (Evaluate (canceled at_) (t_start at_) (t_latency at_) event pl).1 = Ret r -> Action r = api.ActionDeny ->
  (sync_pattern event).2 <> [] ->
  (SetRule (ae_CgroupID event) (sync_pattern event).1 (sync_pattern event).2 1 (Audit r) (kernel e)).1 = 0 ->
  policy_wf (kernel e) ->
  exists e', handleEvent at_ event e = (Ret tt, e') /\
    policy_wf (kernel e') /\ kernel_env (kernel e') = kernel_env (kernel e) /\
    (forall key, rule_at (kernel e') key =
       if bool_decide (key = mk_policy_key (ae_CgroupID event) (HashPattern (sync_pattern event).2) (sync_pattern event).1)
       then Some (Rule ActionDeny (Audit r) 0) else rule_at (kernel e) key) /\
    (forall m key, bm_name m <> "policy_map" -> map_contents (kernel e') m key = map_contents (kernel e) m key) /\
    (auditMode (actionHandler e) = true -> kills (out e') = kills (out e)).
Proof.
  intros Hok Hask Hpm Hlsm Hev Hact Hpat Hset Hwf.
  destruct (handleEvent_handled at_ event pl e Hok) as (e' & pl' & Hrun & Hh & _).
  rewrite (asks_policy_outcome at_ event pl e Hask) in Hh. unfold policy_decision in Hh. rewrite Hev in Hh.
  destruct Hh as [_ (l & Hl & Hk) Hkern _ _ _ _ _ _ _]. exists e'. split; [done|].
  unfold synced in Hkern. destruct (sync_pattern event) as [ty pat]. cbn [fst snd] in *.
  rewrite Hpm, Hlsm, bool_decide_eq_false_2, Hact in Hkern by done. cbn in Hkern.
  destruct (put_rule_effect (ae_CgroupID event) (HashPattern pat) ty 1 (Audit r) (kernel e))
    as (Hr & Hm & Hw & He); [unfold is_u; lia|done|].
  rewrite Hkern. unfold SetRule. split_and!; [by apply Hw|done|exact Hr|exact Hm|].
  intros Ha. rewrite Hl, kills_app, Hk. cbn [outcome_result from_option]. unfold kill_list.
  rewrite Ha. cbn. by rewrite andb_false_r, app_nil_r.
Qed.

(** ** Executions *)

Lemma execve_decoded off ctx k stale s rec event :
  dropped ExecveMonitor.cgroup_filter k = false ->
  (ringbuf_reserve events (sizeof execve_event) k).1 = Some stale ->
  cstring_at (usr_byte (kernel_env k) (ctx_arg ctx 0)) s ->
  ring_records (tracepoint__syscalls__sys_enter_execve ctx k).2 events = ring_records k events ++ [rec] ->
  decode off ProcessRing rec = Some event ->
  GetType event = EventTypeProcess /\ ae_LSMEvent event = false /\ ae_PID event = task_pid k /\
  ae_CgroupID event = bpf_get_current_cgroup_id k /\ sync_pattern event = (0, take 255 s).
Proof.
  intros Hd Hr Hs Hring Hdec. destruct (execve_event_roundtrip off ctx k stale s Hd Hr Hs) as (rec' & Hring' & Hread).
  rewrite Hring in Hring'. apply app_inj_tail in Hring' as [_ <-].
  cbn [decode] in Hdec. rewrite Hread in Hdec. cbn in Hdec. injection Hdec as <-. by split_and!.
Qed.

(** The exec hook denies a path under whose hash a deny rule was written. *)
Lemma synced_exec_blocked k k1 k2 bprm s audit :
  (length s <= 16)%nat -> Forall (fun b => 0 < b < 128) s ->
  kernel_env k1 = kernel_env k -> kernel_env k2 = kernel_env k1 -> policy_wf k2 ->
  enforcing k1 = true -> filtered_out k1 = false -> exec_path_at k bprm s ->
  (forall key, rule_at k2 key =
     if bool_decide (key = mk_policy_key (bpf_get_current_cgroup_id k) (HashPattern s) 0)
     then Some (Rule ActionDeny audit 0) else rule_at k1 key) ->
  (forall m key, bm_name m <> "policy_map" -> map_contents k2 m key = map_contents k1 m key) ->
  (run_hook (CallExec bprm 0) k2).1 = -1.
Proof.
  intros Hlen Hasc Henv Henv' Hwf' Hen Hf Hpath Hrule Hm.
  destruct (exec_subject_at k2 bprm 0 s) as (sub & Hsub & Hh).
  { destruct Hpath as (fp & ? & ? & ?). exists fp. by rewrite Henv', Henv. }
  assert (Hhash : su_hash sub = HashPattern s).
  { rewrite Hh, take_ge by lia. rewrite sext8_ascii_map; [done|].
    eapply Forall_impl; [done|]. simpl; lia. }
  apply (denied_by_own_rule _ k2 sub (Rule ActionDeny audit 0)); auto.
  - by rewrite (filtered_out_ext k1) by first [done|intros; by apply Hm].
  - rewrite (enforcing_kept k1); [done|]. intros. by apply Hm.
  - rewrite Hrule, Hhash. unfold bpf_get_current_cgroup_id. rewrite Henv', Henv.
    by rewrite bool_decide_eq_true_2.
Qed.

(** C7: an execution of a short path that the daemon denies is blocked by the kernel from
    then on.  Let the exec monitor report, from a container it does not filter out and with
    room in its ring buffer, an execve whose path has 1 to 16 seven-bit characters (for
    longer ones see [EndToEnd.exec_rule_on_long_path_is_dead]).  If the event gets as far
    as the policy, which denies it, and the update of the policy map succeeds, then
    handling the decoded record leaves a rule for which the exec hook returns -1 when a
    task of the same container, in the same environment, executes that path, in a kernel
    that enforces and whose LSM filter does not skip the container.  This holds in audit
    mode too, where the daemon itself terminates nothing: the rule is written before
    the decision is marked as audited. *)
Theorem exec_observed_then_blocked off ctx k stale s rec event bprm at_ pl e r :
  dropped ExecveMonitor.cgroup_filter k = false ->
  (ringbuf_reserve events (sizeof execve_event) k).1 = Some stale ->
  cstring_at (usr_byte (kernel_env k) (ctx_arg ctx 0)) s ->
  ring_records (tracepoint__syscalls__sys_enter_execve ctx k).2 events = ring_records k events ++ [rec] ->
  decode off ProcessRing rec = Some event ->
  s <> [] -> (length s <= 16)%nat -> Forall (fun b => 0 < b < 128) s ->
  enforcer_ok e pl -> policyMap e = true -> asks_policy at_ event e ->
  (Evaluate (canceled at_) (t_start at_) (t_latency at_) event pl).1 = Ret r -> Action r = api.ActionDeny ->
  kernel_env (kernel e) = kernel_env k -> policy_wf (kernel e) ->
  enforcing (kernel e) = true -> filtered_out (kernel e) = false -> exec_path_at k bprm s ->
  (SetRule (ae_CgroupID event) (sync_pattern event).1 (sync_pattern event).2 1 (Audit r) (kernel e)).1 = 0 ->
  exists e', handleEvent at_ event e = (Ret tt, e') /\
    (run_hook (CallExec bprm 0) (kernel e')).1 = -1 /\
    (auditMode (actionHandler e) = true -> kills (out e') = kills (out e)).
Proof.
  intros Hd Hr Hs Hring Hdec Hne Hlen Hasc Hok Hpm Hask Hev Hact Henv Hwf Hen Hf Hpath Hset.
  destruct (execve_decoded off ctx k stale s rec event Hd Hr Hs Hring Hdec) as (_ & Hlsm & _ & Hcg & Hpat).
  rewrite take_ge in Hpat by lia.
  destruct (denial_synced at_ event pl e r) as (e' & Hrun & Hwf' & Henv' & Hrule & Hm & Haud); auto.
  { by rewrite Hpat. }
  rewrite Hpat, Hcg in Hrule. cbn [fst snd] in Hrule. exists e'. split_and!; [done| |done].
  by apply (synced_exec_blocked k (kernel e) (kernel e') bprm s (Audit r)).
Qed.

(** ** Connections *)

Lemma connect_decoded off ctx k stale p0 p1 a b c d rest rec event :
  dropped ConnectMonitor.cgroup_filter k = false ->
  (ringbuf_reserve network_events (sizeof network_event) k).1 = Some stale ->
  Forall is_byte [p0; p1; a; b; c; d] ->
  bytes_at (usr_byte (kernel_env k) (ctx_arg ctx 1)) (le_bytes 2 2 ++ [p0; p1] ++ [a; b; c; d] ++ rest) ->
  ring_records (tracepoint__syscalls__sys_enter_connect ctx k).2 network_events =
    ring_records k network_events ++ [rec] ->
  decode off NetworkRing rec = Some event ->
  GetType event = EventTypeNetwork /\ ae_LSMEvent event = false /\
  ae_CgroupID event = bpf_get_current_cgroup_id k /\
  (exists n, ae_Network event = Some n /\ ne_RemoteAddr n = dotted d c b a /\ ne_RemotePort n = 256 * p0 + p1).
Proof.
  intros Hd Hr Hb Hs Hring Hdec.
  destruct (connect_event_ipv4_reversed off ctx k stale p0 p1 a b c d rest Hd Hr Hb Hs) as (rec' & Hring' & Hread).
  rewrite Hring in Hring'. apply app_inj_tail in Hring' as [_ <-].
  cbn [decode] in Hdec. rewrite Hread in Hdec. cbn in Hdec. injection Hdec as <-.
  split_and!; [done..|]. by eexists.
Qed.

(** A rule written under another hash than the subject's decides nothing. *)
Lemma rule_elsewhere c k k' sub cg h et r :
  hook_subject c k = Some sub -> is_u 32 h -> is_u 32 (su_hash sub) -> h <> su_hash sub ->
  is_u 64 cg -> is_u 8 et -> is_u 8 (hook_type c) ->
  kernel_env k' = kernel_env k ->
  (forall key, rule_at k' key = if bool_decide (key = mk_policy_key cg h et) then r else rule_at k key) ->
  (forall key, map_contents k' lsm_cgroup_filter key = map_contents k lsm_cgroup_filter key) ->
  deciding_rule c k' = deciding_rule c k.
Proof.
  intros Hs Hu Hu' Hne Hc Ht Ht' He Hr Hf. unfold deciding_rule.
  rewrite (filtered_out_ext k) by done. rewrite (hook_subject_env _ k) by done. rewrite Hs.
  destruct (filtered_out k); [done|]. unfold rule_for, bpf_get_current_cgroup_id. rewrite He, !Hr.
  pose proof (ok_cgroup_id _ (env_ok k)). assert (is_u 64 0) by (unfold is_u; lia).
  by rewrite !bool_decide_eq_false_2 by (intros (_ & ? & _)%mk_policy_key_inj; auto).
Qed.

(** A connection the daemon denies is not blocked by the kernel: the record of a
    connect to the IPv4 address a.b.c.d is decoded as d.c.b.a, so the blocklist is
    asked about that address, and the deny rule is stored under the hash of its text,
    a hash the connect hook never computes unless it collides with the hash of the
    endpoint: the next connect to the same address gets the verdict of the rules that
    were there before. *)
Lemma connect_observed_not_blocked off ctx k stale p0 p1 a b c d rest rec event sock address len at_ pl e r :
  dropped ConnectMonitor.cgroup_filter k = false ->
  (ringbuf_reserve network_events (sizeof network_event) k).1 = Some stale ->
  Forall is_byte [p0; p1; a; b; c; d] ->
  bytes_at (usr_byte (kernel_env k) (ctx_arg ctx 1)) (le_bytes 2 2 ++ [p0; p1] ++ [a; b; c; d] ++ rest) ->
  ring_records (tracepoint__syscalls__sys_enter_connect ctx k).2 network_events =
    ring_records k network_events ++ [rec] ->
  decode off NetworkRing rec = Some event ->
  HashPattern (dotted d c b a) <> fnv1a ([a; b; c; d] ++ [p0; p1]) ->
  enforcer_ok e pl -> policyMap e = true -> asks_policy at_ event e ->
  (Evaluate (canceled at_) (t_start at_) (t_latency at_) event pl).1 = Ret r -> Action r = api.ActionDeny ->
  kernel_env (kernel e) = kernel_env k -> policy_wf (kernel e) ->
  bytes_at (src_byte (kernel_env k) (KAddr address)) (sockaddr_in_bytes [p0; p1] [a; b; c; d]) ->
  (SetRule (ae_CgroupID event) (sync_pattern event).1 (sync_pattern event).2 1 (Audit r) (kernel e)).1 = 0 ->
  from_option ne_RemoteAddr [] (ae_Network event) = dotted d c b a /\
  exists e', handleEvent at_ event e = (Ret tt, e') /\
    (run_hook (CallConnect sock address len) (kernel e')).1 =
    (run_hook (CallConnect sock address len) (kernel e)).1.
Proof.
  intros Hd Hr Hb Hs Hring Hdec Hne Hok Hpm Hask Hev Hact Henv Hwf Hm Hset.
  destruct (connect_decoded off ctx k stale p0 p1 a b c d rest rec event Hd Hr Hb Hs Hring Hdec)
    as (Hty & Hlsm & Hcg & n & Hn & Haddr & _).
  assert (Hpat : sync_pattern event = (2, dotted d c b a)).
  { unfold sync_pattern. rewrite Hty, Hn. by rewrite <- Haddr. }
  split; [by rewrite Hn|].
  destruct (denial_synced at_ event pl e r) as (e' & Hrun & Hwf' & Henv' & Hrule & Hmaps & _); auto.
  { rewrite Hpat. apply dec_byte_nonempty. }
  exists e'. split; [done|]. rewrite !run_hook_return by done.
  rewrite (enforcing_kept (kernel e)) by (intros; by apply Hmaps). f_equal. f_equal.
  pose proof (endpoint_ipv4 (kernel e) address [p0; p1] [a; b; c; d]) as Hsub. rewrite Henv in Hsub.
  specialize (Hsub eq_refl eq_refl Hb Hm). rewrite Hpat, Hcg in Hrule. cbn [fst snd] in Hrule.
  eapply rule_elsewhere; [exact Hsub|apply fnv1a_range|apply fnv1a_range|exact Hne| | | |done|exact Hrule|].
  - apply (ok_cgroup_id _ (env_ok k)).
  - unfold is_u. lia.
  - split; [discriminate|reflexivity].
  - intros. by apply Hmaps.
Qed.
End Daemon.
