(* ===== verification/EnforcerDemo.v ===== *)
(** A concrete daemon: the machine of Demo.v with enforcement on and no rules yet, and
    a policy module that denies a user, fails for another and allows the rest.  The
    witnesses of the enforcer's theorems are runs of it. *)

From S2P Require Import Prelude CTypes Bpf SimKernel VmlinuxTypes WarmorLsm LsmPolicy Fnv.
From S2P Require Import TracepointDefs ExecveMonitor ConnectMonitor GoEvents Demo LsmHooks GoPolicyMap EndToEnd Monitors.
From S2P Require Import GoApi GoCache GoLineage GoNet GoNetFilter GoSandbox GoActions GoWasm GoEnforcer.
From S2P Require Import EnforcerFacts EnforcerLife LinuxPlatform DaemonEndToEnd.

(** ** The policy module *)

(** A module is a decision over the integer fields of the event; [None] is a trap.
    An instance has the binary interface, a buffer at 64 and no rule names. *)
Definition demo_module : Type := (Z -> Z) -> option Z.

#[global] Instance demo_wasm : Wasm demo_module demo_module := {
  InstantiateModule m _ := Ret m;
  exports _ fn := bool_decide (fn ∈ ["evaluate_event"; "malloc"]);
  call fn host args m :=
    ((if String.eqb fn "evaluate_event" then
        match m host.1 with Some a => Ret [a] | None => Fail (Text "unreachable executed") end
      else Ret [64]), m);
  memory_write _ _ m := Some m;
  memory_read _ _ _ := None;
  json_Marshal _ := [];
}.

#[global] Instance demo_wasm_ok : WasmOk demo_module demo_module.
Proof.
  split. intros fn host args m _. cbn. destruct (String.eqb fn "evaluate_event"); [|left; by eexists _, _].
  destruct (m host.1); [left; by eexists _, _|right; by eexists].
Qed.

(** Denies user 44, traps for user 45. *)
Definition demo_policy : demo_module := fun field =>
  if field 1 =? 44 then Some 1 else if field 1 =? 45 then None else Some 0.

(** ** The enforcer *)

(** The machine of Demo.v, enforcing, without rules. *)
Definition demo_host : sim_kernel :=
  SimK (1000 * 2 ^ 32 + 1001) (33 * 2 ^ 32 + 44) 7 123456789 (bstr "sh")
       demo_memory demo_memory {[("lsm_enforce", le_bytes 4 0) := [1]]} 262144 [].

Definition demo_pool : Pool demo_module demo_module :=
  MkPool [MkPolicy demo_policy 64 true; MkPolicy demo_policy 64 true] false 2 2 demo_policy.

Definition demo_options (audit : bool) : Options := MkOptions audit false 0 None None.

Definition demo_enforcer (audit : bool) : Enforcer sim_kernel demo_module demo_module := {|
  platform := true; evaluator := Some 0; pool := Some 0;
  cache := NewDecisionCache 10000 (5 * minute);
  actionHandler := NewActionHandler audit;
  policyMap := true; pipeline := false;
  lineageTracker := NewTracker (MkTrackerConfig 0 0);
  netFilter := None;
  sandbox := Some (NewSandboxManager DefaultProfiles);
  learningMode := false;
  results := ∅; pools := {[0 := demo_pool]}; next := 1; kernel := demo_host; out := [] |}.

Lemma demo_new audit :
  New (Ret (demo_host, true)) (Ret (Some demo_policy)) 2 (demo_options audit) = Ret (demo_enforcer audit).
Proof. reflexivity. Qed.

Lemma demo_live audit : live (demo_enforcer audit) demo_pool.
Proof.
  destruct (New_live _ _ _ _ _ (demo_new audit)) as (pl & (Hok & He & Hp & Hn) & _).
  assert (pl = demo_pool) as ->; [|done]. destruct Hok as [_ _ (a & Ha & Hpl) _].
  injection Ha as <-. by injection Hpl.
Qed.

Definition demo_moment : moment := MkMoment 1 2 3 4 5 6 7 [] [] false.

(** The demo task's execve and connect, as the platform delivers them. *)
Definition last_record (k : sim_kernel) (ring : bpf_map) : list Z := default [] (last (ring_records k ring)).
Definition demo_exec_rec : list Z :=
  last_record (tracepoint__syscalls__sys_enter_execve demo_execve demo_host).2 events.
Definition demo_connect_rec : list Z :=
  last_record (tracepoint__syscalls__sys_enter_connect demo_connect demo_host).2 network_events.

Definition exec_by (uid : Z) : ApiEvent := {|
  ae_PID := 1000; ae_UID := uid; ae_GID := 33; ae_Comm := bstr "sh"; ae_Filename := demo_path;
  ae_Timestamp := 123456789; ae_Type := EventTypeProcess; ae_CgroupID := 7;
  ae_Process := Some {|
    pe_Base := {| be_Type := EventTypeProcess; be_PID := 1000; be_UID := uid; be_GID := 33;
                  be_Comm := bstr "sh"; be_Timestamp := 123456789; be_CgroupID := 7 |};
    pe_Filename := demo_path; pe_Args := [] |};
  ae_File := None; ae_Network := None; ae_LSMEvent := false |}.

Example demo_exec_decoded : decode 0 ProcessRing demo_exec_rec = Some (exec_by 44).
Proof. vm_compute. reflexivity. Qed.

Lemma demo_asks audit uid : asks_policy demo_moment (exec_by uid) (demo_enforcer audit).
Proof. by split_and!. Qed.

(** ** Witnesses *)

(** A denial, a failed evaluation, an allowed execution and a cached denial. *)
Definition demo_events : list (moment * ApiEvent) :=
  (fun uid => (demo_moment, exec_by uid)) <$> [44; 45; 1000; 44].

Lemma audit_mode_never_kills_witness :
  exists e', handle_all demo_events (demo_enforcer true) = (Ret tt, e') /\ kills (out e') = [].
Proof. apply (audit_mode_never_kills demo_events (demo_enforcer true) demo_pool); [apply demo_live|reflexivity]. Defined.

Lemma evaluation_failure_denies_witness :
  let err := Sprintf "evaluate_event failed: %w" [AErr (Text "unreachable executed")] in
  exists e' l a, handleEvent demo_moment (exec_by 45) (demo_enforcer false) = (Ret tt, e') /\
    out e' = l /\ kills l = [1000] /\ results e' !! a = Some (failed_evaluation demo_moment err) /\
    kernel e' = (SetRule 7 0 demo_path 1 false demo_host).2.
Proof.
  intros err.
  destruct (evaluation_failure_denies demo_moment (exec_by 45) demo_pool (demo_enforcer false) err)
    as (e' & l & a & Hrun & Hout & Hk & _ & _ & Hres & Hkern).
  - apply demo_live.
  - apply demo_asks.
  - vm_compute. reflexivity.
  - exists e', l, a. repeat split; [exact Hrun|exact Hout|exact Hk|exact Hres|exact Hkern].
Defined.

Lemma enforcer_refines_witness :
  exists e', handle_all demo_events (demo_enforcer false) = (Ret tt, e') /\
    spec_run demo_events (demo_enforcer false) e'.
Proof.
  apply (enforcer_refines (Ret (demo_host, true)) (Ret (Some demo_policy)) 2 (demo_options false)).
  reflexivity.
Defined.

Lemma reload_and_close_panic_witness :
  exists e' e2, handle_all demo_events (demo_enforcer false) = (Ret tt, e') /\
    Enforcer_Close e' = (Panic "close of closed channel", e2) /\ platform e2 = platform e'.
Proof.
  destruct (reload_and_close_panic (Ret (demo_host, true)) (Ret (Some demo_policy)) 2 (demo_options false)
    (demo_enforcer false) demo_events) as (e' & Hrun & (e2 & Hc & Hp) & _); [reflexivity|].
  exists e', e2. split; [exact Hrun|]. split; [exact Hc|exact Hp].
Defined.

Lemma event_loop_ends_witness :
  inevitable loop_step (fun s => status s = Returned)
    (MkLoop [exec_by 44; exec_by 1000] true false Running (demo_enforcer false)).
Proof.
  apply (event_loop_ends (MkLoop [exec_by 44; exec_by 1000] true false Running (demo_enforcer false))).
  split; [left; reflexivity|]. split; [exists demo_pool; apply demo_live|right; reflexivity].
Defined.

(** The denial, the failed evaluation and the cached denial each end the process. *)
Example demo_kills : kills (out (handle_all demo_events (demo_enforcer false)).2) = [1000; 1000; 1000].
Proof. vm_compute. reflexivity. Qed.

Lemma demo_host_wf : policy_wf demo_host.
Proof.
  apply sim_policy_wf. unfold demo_host; cbn [sk_maps].
  apply map_Forall_insert_2; [done|]. apply map_Forall_empty.
Qed.

Lemma demo_host_path : exec_path_at demo_host demo_bprm demo_path.
Proof.
  exists 8192. split_and!.
  - split; [discriminate|reflexivity].
  - apply reads_bytes_at. vm_compute. reflexivity.
  - apply reads_cstring. vm_compute. reflexivity.
Qed.

(** What the policy says of the demo task. *)
Definition demo_deny (event : ApiEvent) : ActionResult :=
  MkResult api.ActionDeny (buildReason 1 event) 6 false 7 false.

(** In audit mode: the daemon terminates nothing, the kernel blocks. *)
Lemma exec_observed_then_blocked_witness :
  exists e', handleEvent demo_moment (exec_by 44) (demo_enforcer true) = (Ret tt, e') /\
    (run_hook (CallExec demo_bprm 0) demo_host).1 = 0 /\
    (run_hook (CallExec demo_bprm 0) (kernel e')).1 = -1 /\ kills (out e') = [].
Proof.
  destruct (exec_observed_then_blocked 0 demo_execve demo_host (replicate 304 stale_byte) demo_path
    demo_exec_rec (exec_by 44) demo_bprm demo_moment demo_pool (demo_enforcer true) (demo_deny (exec_by 44)))
    as (e' & Hrun & Hdeny & Hk).
  - vm_compute. reflexivity.
  - vm_compute. reflexivity.
  - apply reads_cstring. vm_compute. reflexivity.
  - vm_compute. reflexivity.
  - vm_compute. reflexivity.
  - discriminate.
  - vm_compute. lia.
  - vm_compute. repeat constructor.
  - apply demo_live.
  - reflexivity.
  - apply demo_asks.
  - vm_compute. reflexivity.
  - reflexivity.
  - reflexivity.
  - apply demo_host_wf.
  - vm_compute. reflexivity.
  - vm_compute. reflexivity.
  - apply demo_host_path.
  - vm_compute. reflexivity.
  - exists e'. split; [exact Hrun|]. split; [vm_compute; reflexivity|]. split; [exact Hdeny|]. apply Hk. reflexivity.
Defined.

Definition demo_connect_event : ApiEvent :=
  default (exec_by 44) (decode 0 NetworkRing demo_connect_rec).

(** The daemon denies a connect to 169.254.10.1, which it takes for 1.10.254.169. *)
Lemma connect_observed_not_blocked_witness :
  from_option ne_RemoteAddr [] (ae_Network demo_connect_event) = bstr "1.10.254.169" /\
  exists e', handleEvent demo_moment demo_connect_event (demo_enforcer false) = (Ret tt, e') /\
    (run_hook (CallConnect 0 demo_sockaddr 16) (kernel e')).1 = 0.
Proof.
  destruct (connect_observed_not_blocked 0 demo_connect demo_host (replicate 72 stale_byte) 0 80 169 254 10 1 []
    demo_connect_rec demo_connect_event 0 demo_sockaddr 16 demo_moment demo_pool (demo_enforcer false)
    (demo_deny demo_connect_event)) as (Haddr & e' & Hrun & Hrest).
  - vm_compute. reflexivity.
  - vm_compute. reflexivity.
  - repeat constructor; discriminate.
  - apply reads_bytes_at. vm_compute. reflexivity.
  - vm_compute. reflexivity.
  - vm_compute. reflexivity.
  - vm_compute. discriminate.
  - apply demo_live.
  - reflexivity.
  - repeat split; vm_compute; reflexivity.
  - vm_compute. reflexivity.
  - reflexivity.
  - reflexivity.
  - apply demo_host_wf.
  - apply reads_bytes_at. vm_compute. reflexivity.
  - vm_compute. reflexivity.
  - split; [exact Haddr|]. exists e'. split; [exact Hrun|]. rewrite Hrest. vm_compute. reflexivity.
Defined.

(** ** Loading the platform of the demo machine *)

(** A system on which every step succeeds and BPF LSM is listed. *)
Definition demo_system : system := {|
  tp_ok := fun _ => true; tp_close_err := fun _ => false;
  lsm_ok := fun _ => true; lsm_close_err := fun _ => false;
  memlock := true; btf := true; lsm_file := Some (bstr "capability,bpf"); cmdline := None |}.

Definition demo_load : go unit * LinuxPlatform :=
  Platform_Load (fun _ => None) (fun _ => false) (fun _ => []) demo_system (fun _ => [])
    (MkLinuxConfig [] true true false) (NewLinuxPlatform demo_open).

(** Enforcement was off and is on once the required programs are loaded. *)
Lemma platform_load_outcome_witness :
  demo_load.1 = Ret tt /\ enforcing demo_open = false /\
  lsmEnabled demo_load.2 = true /\ enforcing (pkernel demo_load.2) = true.
Proof.
  split; [vm_compute; reflexivity|]. split; [vm_compute; reflexivity|].
  destruct (platform_load_outcome (fun _ => None) (fun _ => false) (fun _ => []) demo_system (fun _ => [])
    (MkLinuxConfig [] true true false) demo_open) as (_ & _ & Hreq & _).
  apply Hreq; reflexivity.
Defined.

(** An idle platform does not stop: its monitors wait for records. *)
Example idle_platform_hangs :
  ~ inevitable (plat_step 0) all_exited
      (Platform_Stop (MkPlatState [MkMon ProcessRing InRead [] false; MkMon FileRing AtTop [] false] [] false false)).
Proof. intros Hin. by apply (starved_forever 0 0 (MkMon ProcessRing InRead [] false) _ Hin). Qed.

(** ** The exec record of the demo task on its way *)

Definition demo_mons (m : mon) : list mon := [m; MkMon FileRing AtTop [] false; MkMon NetworkRing AtTop [] false].
Definition exec_mon (pc : mon_pc) (rs : list (list Z)) : mon := MkMon ProcessRing pc rs false.

(** The monitor reads, the record is submitted, decoded, sent and taken. *)
Definition demo_happenings : list happening :=
  [Moved; Arrived 0 demo_exec_rec; Moved; Sent 0 (exec_by 44); Taken (exec_by 44)].

Example demo_start :
  Platform_Start true false [] false = Ret (MkPlatState (demo_mons (exec_mon AtTop [])) [] false false).
Proof. reflexivity. Qed.

Lemma demo_run :
  plat_run 0 (MkPlatState (demo_mons (exec_mon AtTop [])) [] false false) demo_happenings
    (MkPlatState (demo_mons (exec_mon AtTop [])) [] false false).
Proof.
  eapply (run_more _ _ [_; _; _; _]); [eapply (run_more _ _ [_; _; _]); [eapply (run_more _ _ [_; _]);
    [eapply (run_more _ _ [_]); [eapply (run_more _ _ []); [apply run_start|]|]|]|]|].
  - by refine (plat_moved 0 (MkPlatState (demo_mons (exec_mon AtTop [])) [] false false) 0 _
      (exec_mon InRead []) eq_refl _); apply mon_read.
  - exact (plat_arrived 0 (MkPlatState (demo_mons (exec_mon InRead [])) [] false false) 0
      (exec_mon InRead []) demo_exec_rec eq_refl eq_refl).
  - by refine (plat_moved 0 (MkPlatState (demo_mons (exec_mon InRead [demo_exec_rec])) [] false false) 0 _
      (exec_mon (Sending (exec_by 44)) []) eq_refl _); apply mon_got, demo_exec_decoded.
  - refine (plat_sent 0 (MkPlatState (demo_mons (exec_mon (Sending (exec_by 44)) [])) [] false false) 0 _
      (exec_mon AtTop []) (exec_by 44) eq_refl _). apply mon_send. unfold chan_capacity. cbn. lia.
  - by eapply (plat_taken 0 (MkPlatState (demo_mons (exec_mon AtTop [])) [exec_by 44] false false)).
Qed.

Lemma delivery_in_order_witness :
  omap taken demo_happenings = omap sent_any demo_happenings /\
  omap (sent_by 0) demo_happenings ++ pending 0 (exec_mon AtTop []) =
    omap (decode 0 ProcessRing) [demo_exec_rec].
Proof.
  destruct (delivery_in_order 0 _ _ _ demo_run) as [Hchan Hmon].
  split; [rewrite <- app_nil_r at 1; exact Hchan|].
  destruct (Hmon 0%nat (exec_mon AtTop []) eq_refl) as (m & Hm & _ & Hbal); [discriminate|].
  injection Hm as <-. exact Hbal.
Defined.
