(* ===== verification/GoFmt.v ===== *)
(** What the policy compiler uses of Go's fmt, strconv and strings, and the values
    the YAML decoder hands it.

    The text of a policy and of the generated program is a [string] of bytes; the
    decoder itself is not modelled, so a float is what the code observes of it, and
    a value of a type the code never asks for is its rendering.  Also the arithmetic on
    float64 of the analyses. *)

From Stdlib Require Export Numbers.DecimalString.
From Stdlib Require Import Numbers.DecimalN Numbers.DecimalZ.
From Stdlib Require Import SpecFloat.
From S2P Require Import Prelude GoApi.

(** ** Floating-point numbers *)

(** The float64 arithmetic of Go: binary64 with rounding to nearest even, as in the
    specification of floating-point numbers of the Standard Library, with 53 bits of
    precision and exponents up to 1024. *)
Definition float64 : Type := spec_float.

(** [float64(n)] *)
Definition float_of_int (n : Z) : float64 := binary_normalize 53 1024 n 0 false.
(** A decimal literal: the quotient of its digits and the power of ten is exact up to
    one rounding as long as both fit 53 bits. *)
Definition float_lit (digits scale : Z) : float64 := SFdiv 53 1024 (float_of_int digits) (float_of_int scale).

Definition fdiv (a b : float64) : float64 := SFdiv 53 1024 a b.
Definition fadd (a b : float64) : float64 := SFadd 53 1024 a b.
Definition fsub (a b : float64) : float64 := SFsub 53 1024 a b.
Definition fmul (a b : float64) : float64 := SFmul 53 1024 a b.
Definition flt (a b : float64) : bool := SFltb a b.
Definition fle (a b : float64) : bool := SFleb a b.

(** ** Characters *)

Definition dquote : Ascii.ascii := Ascii.ascii_of_nat 34.
Definition backslash : Ascii.ascii := Ascii.ascii_of_nat 92.
Definition nl : string := String (Ascii.ascii_of_nat 10) EmptyString.
Definition code (c : Ascii.ascii) : Z := Z.of_N (Ascii.N_of_ascii c).
Definition chr (z : Z) : Ascii.ascii := Ascii.ascii_of_N (Z.to_N z).

Definition between (lo hi z : Z) : bool := (lo <=? z) && (z <=? hi).

Fixpoint string_forallb (P : Ascii.ascii -> bool) (s : string) : bool :=
  match s with EmptyString => true | String c s' => P c && string_forallb P s' end.

(** ** Decoded YAML *)

(** [YFloat n text]: a float64 that prints as [text] and, when it equals its own
    conversion to int64, is the integer [n]. The entries of a map are in key order;
    [YOther] is a time, or a map with keys that are not strings. *)
#[warnings="-register-all"] Inductive yaml : Type :=
  | YNull
  | YBool (b : bool)
  | YInt (n : Z)
  | YFloat (n : option Z) (text : string)
  | YStr (s : string)
  | YList (l : list yaml)
  | YMap (m : list (string * yaml))
  | YOther (text : string).

(** ** fmt and strings *)

(** [strings.Join(l, sep)]. *)
Fixpoint Join (sep : string) (l : list string) : string :=
  match l with
  | [] => ""
  | [x] => x
  | x :: l' => x +:+ sep +:+ Join sep l'
  end.

(** The verb d. *)
Definition Sprint_d (n : Z) : string := NilEmpty.string_of_int (Z.to_int n).

(** The verb v. *)
Fixpoint Sprint_v (v : yaml) : string :=
  match v with
  | YNull => "<nil>"
  | YBool b => if b then "true" else "false"
  | YInt n => Sprint_d n
  | YFloat _ text => text
  | YStr s => s
  | YList l => "[" +:+ Join " " (Sprint_v <$> l) +:+ "]"
  | YMap m => "map[" +:+ Join " " ((fun kv => kv.1 +:+ ":" +:+ Sprint_v kv.2) <$> m) +:+ "]"
  | YOther text => text
  end.

(** ** strconv.Quote *)

(** The length of the well-formed UTF-8 sequence at the start of a string whose
    first byte is at least 0x80, as utf8.DecodeRuneInString finds it, with its rune. *)
Definition cont (lo hi : Z) (c : Ascii.ascii) : bool := between lo hi (code c).

Definition DecodeRune (s : string) : option (Z * string * string) :=
  match s with
  | String a (String b rest) =>
      let x := code a in
      let y := code b in
      if between 194 223 x then
        if cont 128 191 b then Some ((x - 192) * 64 + (y - 128), String a (String b ""), rest) else None
      else
        let lo := if x =? 224 then 160 else if x =? 240 then 144 else 128 in
        let hi := if x =? 237 then 159 else if x =? 244 then 143 else 191 in
        if cont lo hi b then
          match rest with
          | String c rest =>
              if cont 128 191 c then
                if between 224 239 x then
                  Some ((x - 224) * 4096 + (y - 128) * 64 + (code c - 128),
                        String a (String b (String c "")), rest)
                else if between 240 244 x then
                  match rest with
                  | String d rest =>
                      if cont 128 191 d then
                        Some ((x - 240) * 262144 + (y - 128) * 4096 + (code c - 128) * 64 + (code d - 128),
                              String a (String b (String c (String d ""))), rest)
                      else None
                  | EmptyString => None
                  end
                else None
              else None
          | EmptyString => None
          end
        else None
  | _ => None
  end.

Definition hexdigit (n : Z) : string :=
  String (chr (if n <? 10 then 48 + n else 87 + n)) "".

(** The last [n] hexadecimal digits of [r]. *)
Fixpoint hexdigits (n : nat) (r : Z) : string :=
  match n with
  | O => ""
  | S n' => hexdigits n' (r / 16) +:+ hexdigit (r mod 16)
  end.

Definition escape (c : string) : string := String backslash c.

(** appendEscapedRune for a rune below 0x80. *)
Definition escape_ascii (c : Ascii.ascii) : string :=
  let r := code c in
  if (r =? 34) || (r =? 92) then escape (String c "")
  else if between 32 126 r then String c ""
  else if r =? 7 then escape "a"
  else if r =? 8 then escape "b"
  else if r =? 12 then escape "f"
  else if r =? 10 then escape "n"
  else if r =? 13 then escape "r"
  else if r =? 9 then escape "t"
  else if r =? 11 then escape "v"
  else escape ("x" +:+ hexdigits 2 r).

(** For a rune from 0x80 on, written as the bytes [bs]; [IsPrint] is strconv's table. *)
Definition escape_rune (IsPrint : Z -> bool) (r : Z) (bs : string) : string :=
  if IsPrint r then bs
  else if r <? 65536 then escape ("u" +:+ hexdigits 4 r)
  else escape ("U" +:+ hexdigits 8 r).

(** The loop of appendQuotedWith; every iteration consumes a byte. *)
Fixpoint quote_runes (IsPrint : Z -> bool) (fuel : nat) (s : string) : string :=
  match fuel, s with
  | O, _ | _, EmptyString => ""
  | S fuel', String c s' =>
      if code c <? 128 then escape_ascii c +:+ quote_runes IsPrint fuel' s'
      else match DecodeRune s with
      | Some (r, bs, rest) => escape_rune IsPrint r bs +:+ quote_runes IsPrint fuel' rest
      | None => escape ("x" +:+ hexdigits 2 (code c)) +:+ quote_runes IsPrint fuel' s'
      end
  end.

(** The verb q. *)
Definition Quote (IsPrint : Z -> bool) (s : string) : string :=
  String dquote (quote_runes IsPrint (String.length s) s) +:+ String dquote "".

(** ** Facts *)

Lemma append_cons x (a b : string) : String x a +:+ b = String x (a +:+ b).
Proof. done. Qed.

Lemma append_assoc (a b c : string) : (a +:+ b) +:+ c = a +:+ b +:+ c.
Proof. induction a as [|x a IH]; [done|]. by rewrite !append_cons, IH. Qed.

Lemma append_nil_r (a : string) : a +:+ "" = a.
Proof. induction a as [|x a IH]; [done|]. by rewrite append_cons, IH. Qed.

Lemma bstr_app a b : bstr (a +:+ b) = bstr a ++ bstr b.
Proof. unfold bstr. rewrite <- fmap_app. f_equal. induction a as [|x a IH]; [done|]. by apply (f_equal (cons x)). Qed.

Lemma code_inj a b : code a = code b -> a = b.
Proof.
  unfold code. intros Hab. apply N2Z.inj, (f_equal Ascii.ascii_of_N) in Hab.
  by rewrite !Ascii.ascii_N_embedding in Hab.
Qed.

Lemma bstr_inj a b : bstr a = bstr b -> a = b.
Proof.
  revert b. induction a as [|x a IH]; intros [|y b]; [done..|]. intros [= Hx Hb].
  f_equal; [by apply code_inj|by apply IH].
Qed.

Lemma code_range c : 0 <= code c < 256.
Proof. unfold code. pose proof (Ascii.N_ascii_bounded c). lia. Qed.

Lemma string_forallb_app P a b : string_forallb P (a +:+ b) = string_forallb P a && string_forallb P b.
Proof. induction a as [|x a IH]; [done|]. rewrite append_cons. cbn. by rewrite IH, andb_assoc. Qed.

(** A natural number is printed by its digits. *)
Lemma Sprint_d_nat n : 0 <= n -> Sprint_d n = NilEmpty.string_of_uint (N.to_uint (Z.to_N n)).
Proof. intros. destruct n; [done..|lia]. Qed.

(** Text without a byte above 0x7f is quoted byte by byte. *)
Fixpoint escape_all (s : string) : string :=
  match s with EmptyString => "" | String c s' => escape_ascii c +:+ escape_all s' end.

Definition is_ascii (s : string) : bool := string_forallb (fun c => code c <? 128) s.

Lemma Quote_ascii IsPrint s :
  is_ascii s = true -> Quote IsPrint s = String dquote (escape_all s) +:+ String dquote "".
Proof.
  intros Hs. unfold Quote. do 2 f_equal. unfold is_ascii in Hs.
  induction s as [|c s IH]; [done|]. cbn in *. apply andb_prop in Hs as [Hc Hs].
  rewrite Hc. f_equal. by apply IH.
Qed.
