(* ===== verification/PolicySchema.v ===== *)
(** internal/compiler/schema.go and parser.go: the policy language, the resolution
    of variables and the validation of a policy.

    A document is what the YAML decoder, which is not modelled, makes of a file:
    [rawPolicy].  Errors carry the messages of the source. *)

From S2P Require Import Prelude GoApi GoFmt.

Module compiler.

(** ** schema.go *)

Record Condition : Type := MkCondition {
  c_Field : string;
  c_Operator : string;
  c_Value : yaml;
}.

Record Conditions : Type := MkConditions {
  c_All : list Condition;
  c_Any : list Condition;
  c_Not : list Condition;
}.

Record Rule : Type := MkRule {
  r_Name : string;
  r_Event : string;
  r_Conditions : Conditions;
  r_Action : string;
  r_Mode : string;
  r_Reason : string;
}.

Record Policy : Type := MkPolicy {
  p_Name : string;
  p_Version : Z;
  p_Description : string;
  p_Variables : list (string * yaml);
  p_Rules : list Rule;
  p_DefaultAction : string;
}.

Definition isValidAction (action : string) : bool :=
  String.eqb action "allow" || String.eqb action "deny" || String.eqb action "log".

Definition isValidEvent (event : string) : bool :=
  String.eqb event "process" || String.eqb event "file" || String.eqb event "network".

Definition fieldsForEvent (eventType : string) : list string :=
  match eventType with
  | "process" => ["pid"; "uid"; "gid"; "comm"; "path"; "args"]
  | "file" => ["pid"; "uid"; "gid"; "comm"; "path"; "operation"; "flags"]
  | "network" => ["pid"; "uid"; "gid"; "comm"; "operation"; "protocol"; "remote_addr"; "remote_port";
                  "local_port"]
  | _ => []
  end.

Definition Condition_Validate (eventType : string) (c : Condition) : go unit :=
  if String.eqb (c_Field c) "" then Fail (Text "condition field is required")
  else if String.eqb (c_Operator c) "" then Fail (Text "condition operator is required")
  else if existsb (fun f => String.eqb f (c_Field c)) (fieldsForEvent eventType) then Ret tt
  else Fail (Sprintf "field %q is not valid for event type %q" [AStr (bstr (c_Field c)); AStr (bstr eventType)]).

(** [for i, x := range l], stopping at the first error, which is wrapped with [i]. *)
Fixpoint go_mapi {A B} (wrapi : Z -> A -> message -> message) (f : A -> go B) (i : Z) (l : list A) : go (list B) :=
  match l with
  | [] => Ret []
  | x :: l' =>
      match f x with
      | Ret y => let! ys := go_mapi wrapi f (i + 1) l' in Ret (y :: ys)
      | Fail err => Fail (wrapi i x err)
      | Panic why => Panic why
      | Block => Block
      end
  end.

Definition indexed {A} (format : string) (i : Z) (_ : A) (err : message) : message :=
  Sprintf format [ANum i; AErr err].

Definition Rule_Validate (r : Rule) : go unit :=
  if String.eqb (r_Name r) "" then Fail (Text "rule name is required")
  else if negb (isValidEvent (r_Event r))
  then Fail (Sprintf "invalid event type %q (must be process, file, or network)" [AStr (bstr (r_Event r))])
  else if negb (isValidAction (r_Action r))
  then Fail (Sprintf "invalid action %q (must be allow, deny, or log)" [AStr (bstr (r_Action r))])
  else if negb (String.eqb (r_Mode r) "") && negb (String.eqb (r_Mode r) "enforce")
          && negb (String.eqb (r_Mode r) "audit")
  then Fail (Sprintf "invalid mode %q (must be enforce or audit)" [AStr (bstr (r_Mode r))])
  else
    match c_All (r_Conditions r), c_Any (r_Conditions r), c_Not (r_Conditions r) with
    | [], [], [] => Fail (Text "rule must have at least one condition")
    | all, any, not =>
        let! _ := go_mapi (indexed "conditions.all[%d]: %w") (Condition_Validate (r_Event r)) 0 all in
        let! _ := go_mapi (indexed "conditions.any[%d]: %w") (Condition_Validate (r_Event r)) 0 any in
        let! _ := go_mapi (indexed "conditions.not[%d]: %w") (Condition_Validate (r_Event r)) 0 not in
        Ret tt
    end.

Definition with_DefaultAction (a : string) (p : Policy) : Policy :=
  MkPolicy (p_Name p) (p_Version p) (p_Description p) (p_Variables p) (p_Rules p) a.

(** Returns the policy, whose empty default action it has replaced. *)
Definition Validate (p : Policy) : go Policy :=
  if String.eqb (p_Name p) "" then Fail (Text "policy name is required")
  else if p_Version p <? 1 then Fail (Text "policy version must be >= 1")
  else match p_Rules p with
  | [] => Fail (Text "policy must have at least one rule")
  | rules =>
      let p := if String.eqb (p_DefaultAction p) "" then with_DefaultAction "allow" p else p in
      if negb (isValidAction (p_DefaultAction p))
      then Fail (Sprintf "invalid default_action %q (must be allow, deny, or log)" [AStr (bstr (p_DefaultAction p))])
      else
        let! _ := go_mapi (fun i r err => Sprintf "rule[%d] %q: %w" [ANum i; AStr (bstr (r_Name r)); AErr err])
                    Rule_Validate 0 rules in
        Ret p
  end.

(** ** parser.go *)

Record rawConditions : Type := MkRawConditions {
  rc_All : list (list (string * yaml));
  rc_Any : list (list (string * yaml));
  rc_Not : list (list (string * yaml));
}.

Record rawRule : Type := MkRawRule {
  rr_Name : string;
  rr_Event : string;
  rr_Conditions : rawConditions;
  rr_Action : string;
  rr_Mode : string;
  rr_Reason : string;
}.

Record rawPolicy : Type := MkRawPolicy {
  rp_Name : string;
  rp_Version : Z;
  rp_Description : string;
  rp_Variables : list (string * yaml);
  rp_Rules : list rawRule;
  rp_DefaultAction : string;
}.

(** [variables[varName]]. *)
Definition map_get (variables : list (string * yaml)) (k : string) : option yaml :=
  (fun f => f.2.2) <$> list_find (fun kv => kv.1 = k) variables.

Fixpoint resolveVariables (variables : list (string * yaml)) (value : yaml) : yaml :=
  match value with
  | YStr v =>
      match v with
      | String dollar varName =>
          if code dollar =? 36 then from_option id (YStr v) (map_get variables varName) else YStr v
      | EmptyString => YStr v
      end
  | YList v => YList (resolveVariables variables <$> v)
  | _ => value
  end.

Definition operators : list string :=
  ["eq"; "not"; "any_of"; "none_of"; "glob"; "gt"; "lt"; "gte"; "lte"; "starts_with"; "contains"].

Definition extractOperator (variables : list (string * yaml)) (m : list (string * yaml)) : go (string * yaml) :=
  match m with
  | [(op, val)] =>
      let val := resolveVariables variables val in
      if existsb (String.eqb op) operators then Ret (op, val)
      else Fail (Sprintf "unknown operator %q" [AStr (bstr op)])
  | _ => Fail (Sprintf "operator map must have exactly one key, got %d" [ANum (Z.of_nat (length m))])
  end.

Definition parseCondition (variables entry : list (string * yaml)) : go Condition :=
  match entry with
  | [(field, value)] =>
      match resolveVariables variables value with
      | YMap v =>
          match extractOperator variables v with
          | Ret (op, val) => Ret (MkCondition field op val)
          | Fail err => Fail (Sprintf "field %q: %w" [AStr (bstr field); AErr err])
          | Panic why => Panic why
          | Block => Block
          end
      | value => Ret (MkCondition field "eq" value)
      end
  | _ => Fail (Sprintf "condition must have exactly one field, got %d" [ANum (Z.of_nat (length entry))])
  end.

Definition parseConditionList (variables : list (string * yaml)) (raw : list (list (string * yaml)))
    : go (list Condition) :=
  go_mapi (indexed "[%d]: %w") (parseCondition variables) 0 raw.

Definition parseRule (variables : list (string * yaml)) (rr : rawRule) : go Rule :=
  let! all := wrap "conditions.all: %w" (parseConditionList variables (rc_All (rr_Conditions rr))) in
  let! any := wrap "conditions.any: %w" (parseConditionList variables (rc_Any (rr_Conditions rr))) in
  let! not := wrap "conditions.not: %w" (parseConditionList variables (rc_Not (rr_Conditions rr))) in
  Ret (MkRule (rr_Name rr) (rr_Event rr) (MkConditions all any not) (rr_Action rr) (rr_Mode rr) (rr_Reason rr)).

(** [Parse] after yaml.Unmarshal has returned [raw]. *)
Definition Parse_raw (raw : rawPolicy) : go Policy :=
  let! rules := go_mapi (indexed "rule[%d]: %w") (parseRule (rp_Variables raw)) 0 (rp_Rules raw) in
  wrap "validate: %w"
    (Validate (MkPolicy (rp_Name raw) (rp_Version raw) (rp_Description raw) (rp_Variables raw) rules
                        (rp_DefaultAction raw))).

Section Parse.
Context (Unmarshal : list Z -> go rawPolicy).

Definition Parse (data : list Z) : go Policy :=
  let! raw := wrap "parse YAML: %w" (Unmarshal data) in Parse_raw raw.

(** [file]: what os.ReadFile returns. *)
Definition ParseFile (file : go (list Z)) : go Policy :=
  let! data := wrap "read file: %w" file in Parse data.
End Parse.

(** ** What parsing accepts *)

Definition condition_ok (event : string) (c : Condition) : Prop :=
  c_Field c ∈ fieldsForEvent event /\ c_Operator c ∈ operators.

Definition conditions (cs : Conditions) : list Condition := c_All cs ++ c_Any cs ++ c_Not cs.

Record rule_ok (r : Rule) : Prop := {
  rok_name : r_Name r <> "";
  rok_event : r_Event r ∈ ["process"; "file"; "network"];
  rok_action : r_Action r ∈ ["allow"; "deny"; "log"];
  rok_mode : r_Mode r ∈ [""; "enforce"; "audit"];
  rok_some : conditions (r_Conditions r) <> [];
  rok_conditions : Forall (condition_ok (r_Event r)) (conditions (r_Conditions r));
}.

Record policy_ok (p : Policy) : Prop := {
  pok_name : p_Name p <> "";
  pok_version : 1 <= p_Version p;
  pok_some : p_Rules p <> [];
  pok_rules : Forall rule_ok (p_Rules p);
  pok_default : p_DefaultAction p ∈ ["allow"; "deny"; "log"];
}.

Definition not_map (v : yaml) : bool := match v with YMap _ => false | _ => true end.

(** What an entry of a condition list means. *)
Inductive elaborates_condition (variables : list (string * yaml)) : list (string * yaml) -> Condition -> Prop :=
  | elaborates_plain field value :
      not_map (resolveVariables variables value) = true ->
      elaborates_condition variables [(field, value)] (MkCondition field "eq" (resolveVariables variables value))
  | elaborates_operator field value op val :
      resolveVariables variables value = YMap [(op, val)] -> op ∈ operators ->
      elaborates_condition variables [(field, value)] (MkCondition field op (resolveVariables variables val)).

Record elaborates_rule (variables : list (string * yaml)) (rr : rawRule) (r : Rule) : Prop := {
  er_all : Forall2 (elaborates_condition variables) (rc_All (rr_Conditions rr)) (c_All (r_Conditions r));
  er_any : Forall2 (elaborates_condition variables) (rc_Any (rr_Conditions rr)) (c_Any (r_Conditions r));
  er_not : Forall2 (elaborates_condition variables) (rc_Not (rr_Conditions rr)) (c_Not (r_Conditions r));
  er_rest : r = MkRule (rr_Name rr) (rr_Event rr) (r_Conditions r) (rr_Action rr) (rr_Mode rr) (rr_Reason rr);
}.

Record elaborates (raw : rawPolicy) (p : Policy) : Prop := {
  el_rules : Forall2 (elaborates_rule (rp_Variables raw)) (rp_Rules raw) (p_Rules p);
  el_rest : p = MkPolicy (rp_Name raw) (rp_Version raw) (rp_Description raw) (rp_Variables raw) (p_Rules p)
                  (if String.eqb (rp_DefaultAction raw) "" then "allow" else rp_DefaultAction raw);
}.

(** A loop that succeeds has succeeded on every element. *)
Lemma go_mapi_Ret {A B} w (f : A -> go B) (R : A -> B -> Prop) i l ys :
  (forall x y, f x = Ret y <-> R x y) -> go_mapi w f i l = Ret ys <-> Forall2 R l ys.
Proof.
  intros Hf. revert i ys. induction l as [|x l IH]; intros i ys; cbn [go_mapi].
  - split; [intros [= <-]; constructor|by intros ->%Forall2_nil_inv_l].
  - split.
    + destruct (f x) as [y|err|why|] eqn:Hx; try done. apply Hf in Hx.
      destruct (go_mapi w f (i + 1) l) as [ys'|err|why|] eqn:Hl; try done.
      intros [= <-]. constructor; [done|]. by apply (IH (i + 1)).
    + intros (y & ys' & Hx & Hl & ->)%Forall2_cons_inv_l. apply Hf in Hx as ->.
      by apply (IH (i + 1)) in Hl as ->.
Qed.

Lemma wrap_Ret {A} format (m : go A) a : wrap format m = Ret a <-> m = Ret a.
Proof. by destruct m. Qed.

Lemma go_bind_Ret {A B} (m : go A) (f : A -> go B) b :
  go_bind m f = Ret b <-> exists a, m = Ret a /\ f a = Ret b.
Proof. destruct m; cbn; split; naive_solver. Qed.

Lemma existsb_eqb x l : existsb (String.eqb x) l = true <-> x ∈ l.
Proof.
  rewrite existsb_exists. setoid_rewrite String.eqb_eq. setoid_rewrite list_elem_of_In. naive_solver.
Qed.

Lemma parseCondition_Ret variables entry c :
  parseCondition variables entry = Ret c <-> elaborates_condition variables entry c.
Proof.
  unfold parseCondition. split.
  - destruct entry as [|[field value] [|? ?]]; [done| |done].
    destruct (resolveVariables variables value) as [|b|n|n t|s|l|m|t] eqn:Hv;
      try (intros [= <-]; rewrite <- Hv; constructor; by rewrite Hv).
    unfold extractOperator. destruct m as [|[op val] [|? ?]]; [done| |done].
    destruct (existsb (String.eqb op) operators) eqn:Hop; [|done].
    intros [= <-]. apply (elaborates_operator _ _ _ op); [done|by apply existsb_eqb].
  - intros [field value Hm|field value op val Hv Hop].
    + by destruct (resolveVariables variables value).
    + rewrite Hv. unfold extractOperator. by rewrite (proj2 (existsb_eqb _ _) Hop).
Qed.

Lemma parseConditionList_Ret variables raw cs :
  parseConditionList variables raw = Ret cs <-> Forall2 (elaborates_condition variables) raw cs.
Proof. apply go_mapi_Ret, parseCondition_Ret. Qed.

Lemma parseRule_Ret variables rr r : parseRule variables rr = Ret r <-> elaborates_rule variables rr r.
Proof.
  unfold parseRule. repeat setoid_rewrite go_bind_Ret. repeat setoid_rewrite wrap_Ret.
  repeat setoid_rewrite parseConditionList_Ret. split.
  - intros (all & Hall & any & Hany & not & Hnot & [= <-]). by split.
  - intros [Hall Hany Hnot Heq]. exists (c_All (r_Conditions r)). split; [done|].
    exists (c_Any (r_Conditions r)). split; [done|]. exists (c_Not (r_Conditions r)). split; [done|].
    rewrite Heq at 4. by destruct (r_Conditions r).
Qed.

Lemma isValidAction_spec a : isValidAction a = true <-> a ∈ ["allow"; "deny"; "log"].
Proof. unfold isValidAction. rewrite !orb_true_iff, !String.eqb_eq. set_solver. Qed.

Lemma isValidEvent_spec a : isValidEvent a = true <-> a ∈ ["process"; "file"; "network"].
Proof. unfold isValidEvent. rewrite !orb_true_iff, !String.eqb_eq. set_solver. Qed.

Lemma field_nonempty event f : f ∈ fieldsForEvent event -> f <> "".
Proof.
  intros Hf ->. unfold fieldsForEvent in Hf.
  repeat (case_match; try (by apply not_elem_of_nil in Hf); try (by revert Hf; vm_compute; set_solver)).
Qed.

Lemma Condition_Validate_Ret event c :
  Condition_Validate event c = Ret tt <-> c_Field c ∈ fieldsForEvent event /\ c_Operator c <> "".
Proof.
  unfold Condition_Validate. rewrite <- existsb_eqb.
  assert (Hx : forall l, existsb (fun f => String.eqb f (c_Field c)) l = existsb (String.eqb (c_Field c)) l)
    by (intros l; induction l; cbn; [done|by rewrite String.eqb_sym, IHl]).
  rewrite Hx. destruct (String.eqb_spec (c_Field c) "") as [Hf|Hf].
  { split; [done|]. intros [Hin _]. apply existsb_eqb, field_nonempty in Hin. congruence. }
  destruct (String.eqb_spec (c_Operator c) ""); [naive_solver|].
  destruct (existsb _ _); naive_solver.
Qed.

(** The checks of a loop whose body returns nothing. *)
Lemma go_checks_Ret {A} w (f : A -> go unit) (P : A -> Prop) l :
  (forall x, f x = Ret tt <-> P x) -> (exists ys, go_mapi w f 0 l = Ret ys) <-> Forall P l.
Proof.
  intros Hf. setoid_rewrite (go_mapi_Ret _ _ (fun x _ => P x)); [|by intros x []].
  split; [|intros Hl; exists (replicate (length l) tt); induction Hl; constructor; auto].
  intros [ys Hys]. induction Hys; constructor; auto.
Qed.

Lemma go_seq3_Ret {A B C} (a : go A) (b : go B) (c : go C) :
  (let! _ := a in let! _ := b in let! _ := c in Ret tt) = Ret tt <->
  (exists x, a = Ret x) /\ (exists x, b = Ret x) /\ (exists x, c = Ret x).
Proof. rewrite go_bind_Ret. destruct a, b, c; cbn; naive_solver. Qed.

Lemma Rule_Validate_Ret r :
  Rule_Validate r = Ret tt <->
  r_Name r <> "" /\ r_Event r ∈ ["process"; "file"; "network"] /\ r_Action r ∈ ["allow"; "deny"; "log"] /\
  r_Mode r ∈ [""; "enforce"; "audit"] /\ conditions (r_Conditions r) <> [] /\
  Forall (fun c => c_Field c ∈ fieldsForEvent (r_Event r) /\ c_Operator c <> "") (conditions (r_Conditions r)).
Proof.
  unfold Rule_Validate, conditions. rewrite <- isValidAction_spec, <- isValidEvent_spec, !Forall_app.
  destruct (String.eqb_spec (r_Name r) "") as [|Hn]; [naive_solver|].
  destruct (isValidEvent (r_Event r)); cbn [negb]; [|naive_solver].
  destruct (isValidAction (r_Action r)); cbn [negb]; [|naive_solver].
  assert (Hm : negb (String.eqb (r_Mode r) "") && negb (String.eqb (r_Mode r) "enforce")
               && negb (String.eqb (r_Mode r) "audit") = false <-> r_Mode r ∈ [""; "enforce"; "audit"]).
  { rewrite !andb_false_iff, !negb_false_iff, !String.eqb_eq. set_solver. }
  destruct (_ && _ && _); [naive_solver|]. pose proof (proj1 Hm eq_refl) as Hmode.
  pose proof (fun w l => go_checks_Ret w _ _ l (Condition_Validate_Ret (r_Event r))) as Hc.
  rewrite <- (Hc (indexed "conditions.all[%d]: %w")), <- (Hc (indexed "conditions.any[%d]: %w")),
    <- (Hc (indexed "conditions.not[%d]: %w")).
  rewrite <- go_seq3_Ret. destruct (c_All (r_Conditions r)), (c_Any (r_Conditions r)), (c_Not (r_Conditions r)).
  { naive_solver. }
  all: split; [intros Hs; by split_and!|by intros (_ & _ & _ & _ & _ & Hs)].
Qed.

Lemma Validate_Ret p p' :
  Validate p = Ret p' <->
  p_Name p <> "" /\ 1 <= p_Version p /\ p_Rules p <> [] /\ Forall (fun r => Rule_Validate r = Ret tt) (p_Rules p) /\
  p' = with_DefaultAction (if String.eqb (p_DefaultAction p) "" then "allow" else p_DefaultAction p) p /\
  p_DefaultAction p' ∈ ["allow"; "deny"; "log"].
Proof.
  unfold Validate. rewrite <- isValidAction_spec.
  destruct (String.eqb_spec (p_Name p) "") as [|Hn]; [naive_solver|].
  destruct (Z.ltb_spec (p_Version p) 1); [naive_solver lia|].
  destruct (p_Rules p) as [|r rs] eqn:Hr; [naive_solver|]. rewrite <- Hr.
  set (d := if String.eqb (p_DefaultAction p) "" then "allow" else p_DefaultAction p).
  assert (Hd : (if String.eqb (p_DefaultAction p) "" then with_DefaultAction "allow" p else p) =
               with_DefaultAction d p) by (subst d; destruct p; cbn; by destruct (String.eqb _ "")).
  rewrite Hd. cbn [p_DefaultAction with_DefaultAction].
  assert (Hne : p_Rules p <> []) by (by rewrite Hr).
  set (w := fun (i : Z) (r : Rule) (err : message) => _). rewrite <- (go_checks_Ret w Rule_Validate) by done.
  destruct (isValidAction d) eqn:Ha; cbn [negb]; [rewrite go_bind_Ret|].
  - split; [intros (ys & Hys & [= <-]); by split_and!; try exists ys|].
    intros (_ & _ & _ & [ys Hys] & -> & _). by exists ys.
  - split; [done|]. intros (_ & _ & _ & _ & -> & Hp). cbn in Hp. congruence.
Qed.

Lemma elaborates_operator_ok variables entry c :
  elaborates_condition variables entry c -> c_Operator c ∈ operators.
Proof. intros [field value _|]; [|done]. apply existsb_eqb. reflexivity. Qed.

Lemma operator_nonempty op : op ∈ operators -> op <> "".
Proof. intros Hop ->. by apply existsb_eqb in Hop. Qed.

Lemma elaborates_rule_operators variables rr r :
  elaborates_rule variables rr r -> Forall (fun c => c_Operator c ∈ operators) (conditions (r_Conditions r)).
Proof.
  intros [Hall Hany Hnot _]. unfold conditions. rewrite !Forall_app.
  assert (Hx : forall l cs, Forall2 (elaborates_condition variables) l cs -> Forall (fun c => c_Operator c ∈ operators) cs)
    by (intros l cs Hl; induction Hl; constructor; eauto using elaborates_operator_ok).
  split_and!; eauto.
Qed.

(** On rules the parser has produced, validation is [rule_ok]. *)
Lemma Rule_Validate_ok variables rr r :
  elaborates_rule variables rr r -> Rule_Validate r = Ret tt <-> rule_ok r.
Proof.
  intros Hops%elaborates_rule_operators. rewrite Rule_Validate_Ret, Forall_and. split.
  - intros (? & ? & ? & ? & ? & [Hf _]). split; try done. unfold condition_ok. by rewrite Forall_and.
  - intros [? ? ? ? ? Hc]. unfold condition_ok in Hc. rewrite Forall_and in Hc. destruct Hc as [Hf _].
    split_and!; try done. eapply Forall_impl; [exact Hops|]. intros c. apply operator_nonempty.
Qed.

Lemma rules_ok_Validate variables raws rules :
  Forall2 (elaborates_rule variables) raws rules ->
  Forall (fun r => Rule_Validate r = Ret tt) rules <-> Forall rule_ok rules.
Proof.
  induction 1 as [|rr r raws rules Hr _ IH]; [done|].
  by rewrite !Forall_cons, (Rule_Validate_ok _ _ _ Hr), IH.
Qed.

Definition ends {A} (m : go A) : Prop := (exists a, m = Ret a) \/ (exists err, m = Fail err).

Lemma ends_bind {A B} (m : go A) (f : A -> go B) : ends m -> (forall a, ends (f a)) -> ends (go_bind m f).
Proof. intros [[a ->]|[err ->]] Hf; [apply Hf|right; by eexists]. Qed.

Lemma ends_wrap {A} format (m : go A) : ends m -> ends (wrap format m).
Proof. intros [[a ->]|[err ->]]; [left|right]; by eexists. Qed.

Lemma ends_mapi {A B} w (f : A -> go B) i l : (forall x, ends (f x)) -> ends (go_mapi w f i l).
Proof.
  intros Hf. revert i. induction l as [|x l IH]; intros i; [left; by eexists|]. cbn.
  destruct (Hf x) as [[y ->]|[err ->]]; [|right; by eexists].
  apply ends_bind; [apply IH|left; by eexists].
Qed.

Lemma ends_Ret {A} (a : A) : ends (Ret a).
Proof. left. by eexists. Qed.

Lemma ends_Fail {A} err : ends (@Fail A err).
Proof. right. by eexists. Qed.

#[local] Hint Resolve ends_bind ends_wrap ends_mapi ends_Ret ends_Fail : core.

Lemma parseCondition_total variables entry : ends (parseCondition variables entry).
Proof.
  unfold parseCondition. destruct entry as [|[field value] [|? ?]]; auto.
  destruct (resolveVariables variables value); auto. unfold extractOperator.
  destruct m as [|[op val] [|? ?]]; auto. destruct (existsb _ _); auto.
Qed.

Lemma Rule_Validate_total r : ends (Rule_Validate r).
Proof.
  assert (Hc : forall event c, ends (Condition_Validate event c))
    by (intros; unfold Condition_Validate; repeat case_match; auto).
  unfold Rule_Validate. repeat case_match; auto 8.
Qed.

Lemma Validate_total p : ends (Validate p).
Proof. unfold Validate. repeat case_match; auto using Rule_Validate_total. Qed.

Lemma Parse_raw_total raw : ends (Parse_raw raw).
Proof.
  apply ends_bind; [|intros; apply ends_wrap, Validate_total]. apply ends_mapi. intros rr.
  unfold parseRule, parseConditionList.
  repeat (apply ends_bind; [apply ends_wrap, ends_mapi, parseCondition_total|intros ?]). auto.
Qed.

Lemma Parse_raw_Ret raw p : Parse_raw raw = Ret p <-> elaborates raw p /\ policy_ok p.
Proof.
  unfold Parse_raw. rewrite go_bind_Ret.
  setoid_rewrite wrap_Ret. setoid_rewrite Validate_Ret. cbn.
  setoid_rewrite (go_mapi_Ret _ _ _ _ _ _ (parseRule_Ret _)). split.
  - intros (rules & Hrules & Hn & Hv & Hs & Hok & -> & Hd). cbn in Hd. split; [by split|].
    split; cbn; try done. by apply (rules_ok_Validate _ _ _ Hrules).
  - intros [[Hrules Hp] [Hn Hv Hs Hok Hd]]. exists (p_Rules p). split; [done|].
    rewrite Hp in Hn, Hv. split_and!; try done. by apply (rules_ok_Validate _ _ _ Hrules).
Qed.

Lemma parse_ok raw p : Parse_raw raw = Ret p -> policy_ok p.
Proof. by intros [_ ?]%Parse_raw_Ret. Qed.

(** C8: the parser accepts a document exactly when it elaborates to a well-formed
    policy, and then returns that policy: every entry of a condition list names one
    field and, directly or through variables, one of the eleven operators; names,
    events, actions, modes and fields are legal, a rule has a condition, and a
    missing default action is allow.  In every other case it returns an error; it
    never panics. *)
Theorem parse_accepts_iff raw :
  (forall p, Parse_raw raw = Ret p <-> elaborates raw p /\ policy_ok p) /\
  ((exists p, Parse_raw raw = Ret p) \/ (exists err, Parse_raw raw = Fail err)).
Proof. split; [apply Parse_raw_Ret|apply Parse_raw_total]. Qed.
End compiler.
