(* ===== verification/RustRuntime.v ===== *)
(** The helper functions of every generated program (writeHelperFunctions of
    internal/compiler/codegen.go): string and list predicates and the glob matcher.

    A [&str] is its bytes; an index into one is a [nat].  The loop of [glob_match]
    is [glob_step] iterated with fuel, and the fuel [glob_match] gives it is proved
    to be enough. *)

From S2P Require Import Prelude.

(** ** Lists and strings *)

(** [while i < values.len()]: [i] runs over the list. *)
Fixpoint any_of {A} `{EqDecision A} (v : A) (values : list A) : bool :=
  match values with
  | [] => false
  | x :: values' => if decide (x = v) then true else any_of v values'
  end.

Definition none_of {A} `{EqDecision A} (v : A) (values : list A) : bool := negb (any_of v values).

Definition str_starts_with (s prefix : list Z) : bool :=
  (length prefix <=? length s)%nat && bool_decide (take (length prefix) s = prefix).

(** [n]: the iterations left, [sb.len() - nb.len() + 1 - i]. *)
Fixpoint contains_loop (nb : list Z) (n : nat) (sb : list Z) : bool :=
  match n with
  | O => false
  | S n' => if bool_decide (take (length nb) sb = nb) then true else contains_loop nb n' (drop 1 sb)
  end.

Definition str_contains (s needle : list Z) : bool :=
  match needle with
  | [] => true
  | _ => if (length s <? length needle)%nat then false
         else contains_loop needle (length s - length needle + 1) s
  end.

(** ** The glob matcher *)

Definition star : Z := 42.
Definition qmark : Z := 63.
Definition slash : Z := 47.

(** [star_pi] is [None] for usize::MAX. *)
Record gstate : Type := MkG {
  si : nat;
  pi : nat;
  star_pi : option nat;
  star_si : nat;
}.

Definition byte_at (l : list Z) (i : nat) (b : Z) : bool := bool_decide (l !! i = Some b).

(** One iteration of the loop: the next state, or [false] returned. *)
Definition glob_step (s p : list Z) (g : gstate) : option gstate :=
  if byte_at p (pi g) star then
    if byte_at p (pi g + 1) star then
      let pi' := (pi g + 2)%nat in
      let pi' := if byte_at p pi' slash then (pi' + 1)%nat else pi' in
      Some (MkG (si g) pi' (Some pi') (si g))
    else
      let pi' := (pi g + 1)%nat in
      Some (MkG (si g) pi' (Some pi') (si g))
  else if bool_decide (pi g < length p)%nat && (byte_at p (pi g) qmark || bool_decide (p !! pi g = s !! si g)) then
    Some (MkG (si g + 1) (pi g + 1) (star_pi g) (star_si g))
  else
    match star_pi g with
    | Some sp => Some (MkG (star_si g + 1) sp (Some sp) (star_si g + 1))
    | None => None
    end.

(** [while pi < p.len() && p[pi] == b'*']. *)
Fixpoint skip_stars (p : list Z) : list Z :=
  match p with
  | [] => []
  | c :: p' => if c =? star then skip_stars p' else p
  end.

Definition glob_end (p : list Z) (g : gstate) : bool := bool_decide (skip_stars (drop (pi g) p) = []).

(** [None]: out of fuel. *)
Fixpoint glob_loop (fuel : nat) (s p : list Z) (g : gstate) : option bool :=
  if bool_decide (si g < length s)%nat then
    match fuel with
    | O => None
    | S fuel' =>
        match glob_step s p g with
        | Some g' => glob_loop fuel' s p g'
        | None => Some false
        end
    end
  else Some (glob_end p g).

Definition glob_fuel (s p : list Z) : nat := (length s + 2) * (length s + length p + 1).

Definition glob_match_opt (s p : list Z) : option bool :=
  glob_loop (glob_fuel s p) s p (MkG 0 0 None 0).

Definition glob_match (s p : list Z) : bool := from_option id false (glob_match_opt s p).

Definition matches_glob (s pattern : list Z) : bool := glob_match s pattern.

(** ** What a pattern means *)

(** The pattern after the wildcard it starts with: a double star swallows a slash
    that follows it. *)
Definition after_wildcard (p : list Z) : option (list Z) :=
  match p with
  | c :: p' =>
      if c =? star then
        match p' with
        | c2 :: p'' =>
            if c2 =? star then
              match p'' with
              | c3 :: q => if c3 =? slash then Some q else Some p''
              | [] => Some p''
              end
            else Some p'
        | [] => Some p'
        end
      else None
  | [] => None
  end.

Inductive glob : list Z -> list Z -> Prop :=
  | glob_done p : Forall (fun c => c = star) p -> glob p []
  | glob_wild p q s1 s2 : after_wildcard p = Some q -> s1 ++ s2 <> [] -> glob q s2 -> glob p (s1 ++ s2)
  | glob_any p x s : glob p s -> glob (qmark :: p) (x :: s)
  | glob_lit c p s : c <> star -> glob p s -> glob (c :: p) (c :: s).

(** ** Facts about lists and strings *)

Lemma any_of_spec {A} `{EqDecision A} (v : A) values : any_of v values = true <-> v ∈ values.
Proof. induction values as [|x l IH]; cbn; [set_solver|]. case_decide; set_solver. Qed.

Lemma starts_with_spec s prefix : str_starts_with s prefix = true <-> prefix `prefix_of` s.
Proof.
  unfold str_starts_with. rewrite andb_true_iff, bool_decide_eq_true, Nat.leb_le. split.
  - intros [_ <-]. exists (drop (length prefix) s). by rewrite take_drop.
  - intros [r ->]. rewrite take_app_length, length_app. split; [lia|done].
Qed.

Lemma contains_loop_spec nb n sb :
  contains_loop nb n sb = true <-> exists i, (i < n)%nat /\ take (length nb) (drop i sb) = nb.
Proof.
  revert sb. induction n as [|n IH]; intros sb; cbn; [naive_solver lia|].
  case_bool_decide as Heq.
  - split; [|done]. intros _. exists 0%nat. split; [lia|done].
  - rewrite IH. setoid_rewrite drop_drop. split.
    + intros (i & Hi & He). exists (S i). split; [lia|done].
    + intros ([|i] & Hi & He); [by rewrite drop_0 in He|]. exists i. split; [lia|done].
Qed.

Lemma contains_spec s needle : str_contains s needle = true <-> exists a b, s = a ++ needle ++ b.
Proof.
  unfold str_contains. destruct needle as [|x needle]; [split; [exists [], s|]; done|].
  set (n := x :: needle). destruct (Nat.ltb_spec (length s) (length n)) as [Hlt|Hge].
  - split; [done|]. intros (a & b & ->). rewrite !length_app in Hlt. lia.
  - rewrite contains_loop_spec. split.
    + intros (i & _ & He). exists (take i s), (drop (length n) (drop i s)).
      rewrite <- He at 1. by rewrite !take_drop.
    + intros (a & b & Hs). exists (length a). rewrite Hs, !length_app. split; [lia|].
      by rewrite drop_app_length, take_app_length.
Qed.

(** ** Facts about patterns *)

Lemma skip_stars_nil p : skip_stars p = [] <-> Forall (fun c => c = star) p.
Proof.
  induction p as [|c p IH]; cbn; [done|]. rewrite Forall_cons. destruct (Z.eqb_spec c star); naive_solver.
Qed.

Lemma glob_nil p : glob p [] <-> Forall (fun c => c = star) p.
Proof. split; [|apply glob_done]. inversion 1; subst; [done|]. congruence. Qed.

(** A wildcard is a non-empty prefix of the pattern. *)
Lemma after_wildcard_split p q :
  after_wildcard p = Some q -> exists w, p = star :: w ++ q /\ Forall (fun c => c = star \/ c = slash) w.
Proof.
  unfold after_wildcard. destruct p as [|c p]; [done|]. destruct (Z.eqb_spec c star) as [->|]; [|done].
  destruct p as [|c2 p]; [intros [= <-]; by exists []|].
  destruct (Z.eqb_spec c2 star) as [->|]; [|intros [= <-]; by exists []].
  destruct p as [|c3 p]; [intros [= <-]; exists [star]; naive_solver|].
  destruct (Z.eqb_spec c3 slash) as [->|]; intros [= <-]; [exists [star; slash]|exists [star]]; naive_solver.
Qed.

Lemma after_wildcard_None p : after_wildcard p = None <-> head p <> Some star.
Proof.
  unfold after_wildcard. destruct p as [|c p]; [done|]. cbn. destruct (Z.eqb_spec c star) as [->|].
  - split; [|done]. by repeat case_match.
  - naive_solver.
Qed.

Lemma glob_wild_iff p q s :
  after_wildcard p = Some q -> s <> [] ->
  glob p s <-> exists j, (j <= length s)%nat /\ glob q (drop j s).
Proof.
  intros Hq Hs. split.
  - inversion 1 as [|p' q' s1 s2 Hw Hne Hg|p' x s' Hg|c p' s' Hc Hg]; subst; [done| |done|apply after_wildcard_split in Hq as (w & [= ? ?] & _); done].
    + exists (length s1). rewrite length_app, drop_app_length. split; [lia|congruence].
  - intros (j & Hj & Hg). rewrite <- (take_drop j s). apply glob_wild with q; [done|by rewrite take_drop|done].
Qed.

Lemma glob_char_iff c p x s : c <> star -> glob (c :: p) (x :: s) <-> (c = qmark \/ c = x) /\ glob p s.
Proof.
  intros Hc. split.
  - inversion 1 as [|p' q' s1 s2 Hw Hne Hg|p' y s' Hg|c' p' s' Hc' Hg]; subst; [|auto..].
    apply after_wildcard_split in Hw as (w & [= ? ?] & _). done.
  - intros [[->| ->] Hg]; [by apply glob_any|by apply glob_lit].
Qed.

Lemma glob_empty_pattern x s : ~ glob [] (x :: s).
Proof. inversion 1; subst. done. Qed.

Lemma after_wildcard_stars p q :
  after_wildcard p = Some q -> Forall (fun c => c = star) p -> Forall (fun c => c = star) q.
Proof.
  intros (w & -> & _)%after_wildcard_split [_ Hf]%Forall_cons. by apply Forall_app in Hf as [_ ?].
Qed.

(** What a leading wildcard matches, it matches with more in front. *)
Lemma glob_wild_mono p q s1 s2 : after_wildcard p = Some q -> glob p s2 -> glob p (s1 ++ s2).
Proof.
  intros Hq Hg. destruct (decide (s1 ++ s2 = [])) as [He|He].
  { apply app_eq_nil in He as [-> ->]. done. }
  apply (glob_wild_iff _ q); [done..|]. destruct (decide (s2 = [])) as [->|Hs2].
  - rewrite app_nil_r. exists (length s1). split; [done|]. rewrite drop_all. apply glob_done.
    apply (after_wildcard_stars p); [done|]. by apply glob_nil.
  - apply (glob_wild_iff _ q) in Hg as (j & Hj & Hg); [|done..].
    exists (length s1 + j)%nat. rewrite length_app, drop_app_add. split; [lia|done].
Qed.

(** A part of the pattern without wildcards matches a string of its length. *)
Lemma glob_literals l p s :
  Forall (fun c => c <> star) l -> glob (l ++ p) s -> (length l <= length s)%nat /\ glob p (drop (length l) s).
Proof.
  intros Hl. revert s. induction Hl as [|c l Hc _ IH]; intros s Hg; [split; [cbn; lia|done]|].
  destruct s as [|x s]; [apply glob_nil, Forall_cons in Hg; naive_solver|].
  apply glob_char_iff in Hg as [_ Hg]; [|done]. apply IH in Hg as [? ?]. split; [cbn; lia|done].
Qed.

(** ** The matcher against the meaning *)

Lemma byte_at_drop p i c p' : drop i p = c :: p' -> forall b, byte_at p i b = (c =? b).
Proof.
  intros Hp b. unfold byte_at. rewrite <- (Nat.add_0_r i), <- lookup_drop, Hp. cbn.
  destruct (Z.eqb_spec c b); [by rewrite bool_decide_eq_true_2 by congruence|by rewrite bool_decide_eq_false_2 by congruence].
Qed.

Lemma byte_at_end p i b : drop i p = [] -> byte_at p i b = false.
Proof.
  intros Hp. unfold byte_at. rewrite <- (Nat.add_0_r i), <- lookup_drop, Hp. done.
Qed.

Lemma drop_S_cons {A} i (l : list A) x l' : drop i l = x :: l' -> drop (i + 1) l = l' /\ (i < length l)%nat.
Proof.
  intros Hd. split; [|apply (f_equal length) in Hd; rewrite length_drop in Hd; cbn in Hd; lia].
  by rewrite <- drop_drop, Hd.
Qed.

Lemma lookup_drop_cons {A} i (l : list A) x l' : drop i l = x :: l' -> l !! i = Some x.
Proof. intros Hd. by rewrite <- (Nat.add_0_r i), <- lookup_drop, Hd. Qed.

(** A wildcard at the current position becomes the new backtracking point. *)
Lemma glob_step_wild s p g q :
  after_wildcard (drop (pi g) p) = Some q ->
  exists pi', glob_step s p g = Some (MkG (si g) pi' (Some pi') (si g)) /\
    drop pi' p = q /\ (pi g < pi' <= length p)%nat.
Proof.
  unfold after_wildcard, glob_step. destruct (drop (pi g) p) as [|c p1] eqn:H1; [done|].
  rewrite (byte_at_drop _ _ _ _ H1). destruct (c =? star) eqn:Hc; [|done].
  apply drop_S_cons in H1 as [H1 Hl1].
  destruct p1 as [|c2 p2].
  { rewrite (byte_at_end _ _ _ H1). intros [= <-]. exists (pi g + 1)%nat. split_and!; [done..|lia|lia]. }
  rewrite (byte_at_drop _ _ _ _ H1). apply drop_S_cons in H1 as H2. destruct H2 as [H2 Hl2].
  destruct (c2 =? star) eqn:Hc2; [|intros [= <-]; exists (pi g + 1)%nat; split_and!; [done..|lia|lia]].
  replace (pi g + 1 + 1)%nat with (pi g + 2)%nat in H2 by lia.
  destruct p2 as [|c3 p3].
  { rewrite (byte_at_end _ _ _ H2). intros [= <-]. exists (pi g + 2)%nat. split_and!; [done..|lia|lia]. }
  rewrite (byte_at_drop _ _ _ _ H2). apply drop_S_cons in H2 as H3. destruct H3 as [H3 Hl3].
  destruct (c3 =? slash); intros [= <-]; [exists (pi g + 2 + 1)%nat|exists (pi g + 2)%nat]; split_and!; done || lia.
Qed.

(** What the loop still has to find: a match from here, or from a later start of the
    part after the last wildcard. *)
Definition glob_goal (s p : list Z) (g : gstate) : Prop :=
  glob (drop (pi g) p) (drop (si g) s) \/
  exists sp j, star_pi g = Some sp /\ (star_si g < j <= length s)%nat /\ glob (drop sp p) (drop j s).

(** Since the last wildcard, as much of the string as of the pattern was consumed,
    and no wildcard. *)
Record glob_inv (s p : list Z) (g : gstate) : Prop := {
  gi_si : (si g <= length s)%nat;
  gi_pi : (pi g <= length p)%nat;
  gi_star : forall sp, star_pi g = Some sp -> exists l,
    drop sp p = l ++ drop (pi g) p /\ Forall (fun c => c <> star) l /\
    pi g = (sp + length l)%nat /\ si g = (star_si g + length l)%nat;
}.

(** Later starts need as much of the string as was consumed. *)
Lemma later_start s p g sp j :
  glob_inv s p g -> star_pi g = Some sp -> (star_si g < j <= length s)%nat -> glob (drop sp p) (drop j s) ->
  exists k, (si g < k <= length s)%nat /\ glob (drop (pi g) p) (drop k s).
Proof.
  intros [Hsi Hpi Hstar] Hsp Hj Hg. destruct (Hstar sp Hsp) as (l & Hl & Hns & Hpl & Hsl).
  rewrite Hl in Hg. apply glob_literals in Hg as [Hlen Hg]; [|done]. rewrite length_drop in Hlen.
  rewrite drop_drop in Hg. exists (j + length l)%nat. split; [lia|done].
Qed.

Lemma glob_loop_end s p g :
  glob_inv s p g -> ~ (si g < length s)%nat -> glob_end p g = true <-> glob_goal s p g.
Proof.
  intros Hinv Hsi. unfold glob_end, glob_goal. rewrite bool_decide_eq_true, skip_stars_nil, <- glob_nil.
  rewrite (drop_ge s) by lia. split; [auto|]. intros [?|(sp & j & Hsp & Hj & Hg)]; [done|].
  destruct (later_start _ _ _ _ _ Hinv Hsp Hj Hg) as (k & Hk & _). lia.
Qed.

Lemma glob_step_wild_spec s p g q :
  glob_inv s p g -> (si g < length s)%nat -> after_wildcard (drop (pi g) p) = Some q ->
  exists g', glob_step s p g = Some g' /\ glob_inv s p g' /\ (glob_goal s p g <-> glob_goal s p g').
Proof.
  intros Hinv Hsi Hw. destruct (glob_step_wild s p g q Hw) as (pi' & Hst & Hq & Hpi').
  eexists. split; [exact Hst|]. split.
  { split; cbn; [lia..|]. intros sp [= <-]. exists []. cbn. split_and!; [done..|lia|lia]. }
  assert (Hne : drop (si g) s <> []) by (intros He%(f_equal length); rewrite length_drop in He; cbn in He; lia).
  assert (Hhere : glob (drop (pi g) p) (drop (si g) s) <->
                  exists j, (si g <= j <= length s)%nat /\ glob (drop pi' p) (drop j s)).
  { rewrite (glob_wild_iff _ _ _ Hw Hne), Hq. setoid_rewrite drop_drop. split.
    - intros (j & Hj & Hg). rewrite length_drop in Hj. exists (si g + j)%nat. split; [lia|done].
    - intros (j & Hj & Hg). exists (j - si g)%nat. rewrite length_drop. split; [lia|].
      by replace (si g + (j - si g))%nat with j by lia. }
  unfold glob_goal. cbn. transitivity (glob (drop (pi g) p) (drop (si g) s)).
  - split; [|auto]. intros [?|(sp & j & Hsp & Hj & Hg)]; [done|].
    destruct (later_start _ _ _ _ _ Hinv Hsp Hj Hg) as (k & Hk & Hgk).
    replace (drop (si g) s) with (take (k - si g) (drop (si g) s) ++ drop k s).
    + by apply glob_wild_mono with q.
    + rewrite <- (take_drop (k - si g) (drop (si g) s)) at 2. rewrite drop_drop. do 2 f_equal. lia.
  - rewrite Hhere. split.
    + intros (j & Hj & Hg). destruct (decide (j = si g)) as [->|]; [auto|].
      right. exists pi', j. split_and!; [done|lia..|done].
    + intros [Hg|(sp & j & [= <-] & Hj & Hg)]; [exists (si g)|exists j]; (split; [lia|done]).
Qed.

(** With no match from here, the search goes on from the next start, if any. *)
Lemma glob_backtrack_spec s p g :
  glob_inv s p g -> (si g < length s)%nat -> ~ glob (drop (pi g) p) (drop (si g) s) ->
  match star_pi g with
  | Some sp => let g' := MkG (star_si g + 1) sp (Some sp) (star_si g + 1) in
               glob_inv s p g' /\ (glob_goal s p g <-> glob_goal s p g')
  | None => ~ glob_goal s p g
  end.
Proof.
  intros [_ Hpi Hstar] Hsi Hno. unfold glob_goal. destruct (star_pi g) as [sp|] eqn:Hsp; [|naive_solver].
  destruct (Hstar sp eq_refl) as (l & Hl & Hns & Hpl & Hsl). split.
  { split; cbn; [lia..|]. intros sp' [= <-]. exists []. cbn. split_and!; [done..|lia|lia]. }
  cbn. split.
  - intros [?|(sp' & j & [= <-] & Hj & Hg)]; [done|].
    destruct (decide (j = star_si g + 1)%nat) as [->|]; [auto|]. right. exists sp, j. split_and!; [done|lia..|done].
  - intros [Hg|(sp' & j & [= <-] & Hj & Hg)]; right; [exists sp, (star_si g + 1)%nat|exists sp, j];
      (split_and!; [done|lia..|done]).
Qed.

Lemma glob_advance_inv s p g c p' :
  glob_inv s p g -> drop (pi g) p = c :: p' -> c <> star -> (si g < length s)%nat ->
  glob_inv s p (MkG (si g + 1) (pi g + 1) (star_pi g) (star_si g)).
Proof.
  intros [_ _ Hstar] Hp Hc Hsi. destruct (drop_S_cons _ _ _ _ Hp) as [Hp1 Hpl]. split; cbn; [lia..|].
  intros sp Hsp. destruct (Hstar sp Hsp) as (l & Hl & Hns & Hpl' & Hsl). exists (l ++ [c]).
  rewrite Hp1, Hl, Hp, <- app_assoc, length_app, Forall_app. cbn. split_and!; [done..| |lia|lia]. by repeat constructor.
Qed.

Lemma glob_step_spec s p g :
  glob_inv s p g -> (si g < length s)%nat ->
  match glob_step s p g with
  | Some g' => glob_inv s p g' /\ (glob_goal s p g <-> glob_goal s p g')
  | None => ~ glob_goal s p g
  end.
Proof.
  intros Hinv Hsi. destruct (after_wildcard (drop (pi g) p)) as [q|] eqn:Hw.
  { destruct (glob_step_wild_spec s p g q Hinv Hsi Hw) as (g' & -> & ?). done. }
  pose proof (glob_backtrack_spec s p g Hinv Hsi) as Hback. unfold glob_step.
  destruct (drop (si g) s) as [|x s'] eqn:Hs; [apply (f_equal length) in Hs; rewrite length_drop in Hs; cbn in Hs; lia|].
  destruct (drop (pi g) p) as [|c p'] eqn:Hp.
  - rewrite (byte_at_end _ _ _ Hp), (bool_decide_eq_false_2 (pi g < length p)%nat).
    2: { apply (f_equal length) in Hp. rewrite length_drop in Hp. cbn in Hp. lia. }
    cbn. specialize (Hback (glob_empty_pattern x s')). by destruct (star_pi g).
  - apply after_wildcard_None in Hw. cbn in Hw. assert (Hc : c <> star) by congruence.
    rewrite !(byte_at_drop _ _ _ _ Hp), (proj2 (Z.eqb_neq c star) Hc), (lookup_drop_cons _ _ _ _ Hp), (lookup_drop_cons _ _ _ _ Hs).
    pose proof (drop_S_cons _ _ _ _ Hp) as [Hp1 Hpl]. pose proof (drop_S_cons _ _ _ _ Hs) as [Hs1 Hsl].
    rewrite (bool_decide_eq_true_2 (pi g < length p)%nat) by done. cbn [andb].
    pose proof (glob_char_iff c p' x s' Hc) as Hch.
    destruct ((c =? qmark) || bool_decide (Some c = Some x)) eqn:Hm.
    + rewrite orb_true_iff, Z.eqb_eq, bool_decide_eq_true in Hm. split.
      * apply (glob_advance_inv _ _ _ c p'); [done..|lia].
      * unfold glob_goal. cbn. rewrite Hp1, Hs1, Hp, Hs, Hch. naive_solver.
    + rewrite orb_false_iff, Z.eqb_neq, bool_decide_eq_false in Hm.
      assert (Hno : ~ glob (c :: p') (x :: s')) by naive_solver.
      specialize (Hback Hno). by destruct (star_pi g).
Qed.

(** ** Termination *)

(** Backtracking moves the start of the last wildcard forward; between two backtracks
    the positions only grow. *)
Definition glob_measure (s p : list Z) (g : gstate) : nat :=
  (match star_pi g with Some _ => length s - star_si g | None => length s + 1 end)
    * (length s + length p + 1) + (length s - si g) + (length p - pi g).

Lemma glob_step_measure s p g g' :
  glob_inv s p g -> (si g < length s)%nat -> glob_step s p g = Some g' ->
  (glob_measure s p g' < glob_measure s p g)%nat.
Proof.
  intros [_ Hpi Hstar] Hsi. unfold glob_measure. set (W := (length s + length p + 1)%nat).
  destruct (after_wildcard (drop (pi g) p)) as [q|] eqn:Hw.
  - destruct (glob_step_wild s p g q Hw) as (pi' & -> & _ & Hpi'). intros [= <-]. cbn.
    assert (Hle : (length s - si g <= match star_pi g with Some _ => length s - star_si g | None => length s + 1 end)%nat).
    { destruct (star_pi g) as [sp|]; [|lia]. destruct (Hstar sp eq_refl) as (l & _ & _ & _ & ?). lia. }
    apply (Nat.mul_le_mono_r _ _ W) in Hle. lia.
  - unfold glob_step. replace (byte_at p (pi g) star) with false.
    2: { apply after_wildcard_None in Hw. symmetry. apply bool_decide_eq_false_2.
         intros Hx. apply Hw. rewrite <- Hx, head_lookup, lookup_drop. f_equal. lia. }
    destruct (bool_decide (pi g < length p)%nat && _) eqn:Hm.
    + apply andb_prop in Hm as [Hlt%bool_decide_eq_true _]. intros [= <-]. cbn. lia.
    + destruct (star_pi g) as [sp|]; [|done]. intros [= <-]. cbn.
      destruct (Hstar sp eq_refl) as (l & _ & _ & _ & ?).
      replace (length s - star_si g)%nat with (S (length s - (star_si g + 1))) by lia. cbn. lia.
Qed.

Lemma glob_loop_spec fuel s p g :
  glob_inv s p g -> (glob_measure s p g < fuel)%nat ->
  exists b, glob_loop fuel s p g = Some b /\ (b = true <-> glob_goal s p g).
Proof.
  revert g. induction fuel as [|fuel IH]; intros g Hinv Hm; [lia|]. cbn.
  case_bool_decide as Hsi.
  - pose proof (glob_step_spec s p g Hinv Hsi) as Hs. pose proof (glob_step_measure s p g) as Hd.
    destruct (glob_step s p g) as [g'|]; [|exists false; naive_solver].
    destruct Hs as [Hinv' Hgoal]. specialize (Hd g' Hinv Hsi eq_refl).
    destruct (IH g' Hinv') as (b & Hb & Hbg); [lia|]. exists b. split; [done|]. by rewrite Hbg.
  - exists (glob_end p g). split; [done|]. by apply glob_loop_end.
Qed.

Lemma glob_match_opt_spec s p :
  exists b, glob_match_opt s p = Some b /\ (b = true <-> glob p s).
Proof.
  destruct (glob_loop_spec (glob_fuel s p) s p (MkG 0 0 None 0)) as (b & Hb & Hg).
  - split; cbn; [lia..|done].
  - unfold glob_measure, glob_fuel. cbn. lia.
  - exists b. split; [done|]. rewrite Hg. unfold glob_goal. cbn. rewrite !drop_0. naive_solver.
Qed.

Lemma glob_match_spec s p : glob_match s p = true <-> glob p s.
Proof. unfold glob_match. destruct (glob_match_opt_spec s p) as (b & -> & Hb). exact Hb. Qed.

(** C9: the glob matcher of the generated program terminates on every string and
    pattern, within a number of iterations that is linear in the product of their
    lengths, and decides what the pattern means: a star or double star stands for any
    bytes, slashes included, a question mark for one byte, and everything else for
    itself. *)
Theorem glob_match_decides s p :
  exists b, glob_match_opt s p = Some b /\ (b = true <-> glob p s).
Proof. exact (glob_match_opt_spec s p). Qed.

(** ** Common patterns *)

Lemma glob_prefix pre s :
  Forall (fun c => c <> star /\ c <> qmark) pre ->
  glob (pre ++ [star; star]) s <-> pre `prefix_of` s.
Proof.
  intros Hpre. revert s. induction Hpre as [|c pre [Hc Hq] _ IH]; intros s.
  - split; [intros _; by exists s|]. intros _. destruct s as [|x s]; [apply glob_done; by repeat constructor|].
    apply (glob_wild_iff _ []); [done..|]. exists (length (x :: s)). rewrite drop_all. split; [done|by apply glob_done].
  - cbn. destruct s as [|x s].
    + rewrite glob_nil, Forall_cons. split; [naive_solver|]. intros [r Hr]. done.
    + rewrite glob_char_iff, IH by done. split.
      * intros [[?| ->] Hp]; [done|]. by apply prefix_cons.
      * intros Hp. pose proof (prefix_cons_inv_1 _ _ _ _ Hp) as ->. apply prefix_cons_inv_2 in Hp. auto.
Qed.
