(* ===== verification/PolicyCodegen.v ===== *)
(** internal/compiler/codegen.go: the Rust program that is generated for a policy.

    The generated text is a list of fragments: [Emit] is text that depends on the
    policy or that the model of the Rust program reads, [Verbatim f] the constant
    text that the Go function [f] writes, whose meaning [RustModule.v] gives as
    functions. *)

From S2P Require Import Prelude GoApi GoFmt PolicySchema.

Import compiler.

Inductive fragment : Type :=
  | Emit (text : string)
  | Verbatim (writer : string).

Definition isNumericField (field : string) : bool :=
  match field with
  | "pid" | "uid" | "gid" | "flags" | "remote_port" | "local_port" => true
  | _ => false
  end.

Definition fieldRustType (field : string) : string :=
  match field with
  | "pid" | "uid" | "gid" | "flags" => "u32"
  | "remote_port" | "local_port" => "u16"
  | _ => "str"
  end.

Definition formatNumeric (value : yaml) : string :=
  match value with
  | YInt v => Sprint_d v
  | YFloat (Some n) _ => Sprint_d n
  | YFloat None text => text
  | v => Sprint_v v
  end.

Definition toSlice (value : yaml) : list yaml :=
  match value with YList v => v | _ => [value] end.

Definition rulesForEvent (policy : Policy) (eventType : string) : list Rule :=
  filter (fun r => r_Event r = eventType) (p_Rules policy).

Definition actionConstant (action : string) : string :=
  match action with
  | "allow" => "ACTION_ALLOW"
  | "deny" => "ACTION_DENY"
  | "log" => "ACTION_LOG"
  | _ => "ACTION_ALLOW"
  end.

Definition globalRuleIndex (policy : Policy) (rule : Rule) : Z :=
  match list_find (fun r => r_Name r = r_Name rule) (p_Rules policy) with
  | Some (i, _) => Z.of_nat i
  | None => 0
  end.

Definition fieldToRustBinary (field eventType : string) : string :=
  match field with
  | "pid" => "pid"
  | "uid" => "uid"
  | "gid" => "gid"
  | "comm" => "comm"
  | "path" => "path"
  | "args" => "path"
  | "operation" => "operation"
  | "protocol" => "protocol"
  | "remote_addr" => "remote_addr"
  | "flags" => "flags"
  | "remote_port" => "remote_port"
  | "local_port" => "local_port"
  | _ => field
  end.

Section Codegen.
Context (IsPrint : Z -> bool).

Definition formatEqBinary (fieldExpr field : string) (value : yaml) : string :=
  if isNumericField field then fieldExpr +:+ " == " +:+ formatNumeric value
  else fieldExpr +:+ " == " +:+ Quote IsPrint (Sprint_v value).

Definition formatNotBinary (fieldExpr field : string) (value : yaml) : string :=
  if isNumericField field then fieldExpr +:+ " != " +:+ formatNumeric value
  else fieldExpr +:+ " != " +:+ Quote IsPrint (Sprint_v value).

Definition formatAnyOfBinary (fieldExpr field : string) (value : yaml) : string :=
  let items := toSlice value in
  if isNumericField field then
    "any_of_" +:+ fieldRustType field +:+ "(" +:+ fieldExpr +:+ ", &["
      +:+ Join ", " (formatNumeric <$> items) +:+ "])"
  else
    "any_of_str(" +:+ fieldExpr +:+ ", &["
      +:+ Join ", " ((fun item => Quote IsPrint (Sprint_v item)) <$> items) +:+ "])".

Definition formatNoneOfBinary (fieldExpr field : string) (value : yaml) : string :=
  let items := toSlice value in
  if isNumericField field then
    "none_of_" +:+ fieldRustType field +:+ "(" +:+ fieldExpr +:+ ", &["
      +:+ Join ", " (formatNumeric <$> items) +:+ "])"
  else
    "none_of_str(" +:+ fieldExpr +:+ ", &["
      +:+ Join ", " ((fun item => Quote IsPrint (Sprint_v item)) <$> items) +:+ "])".

(** [s, _ := value.(string)]. *)
Definition as_string (value : yaml) : string := match value with YStr s => s | _ => "" end.

Definition conditionToRustBinary (eventType : string) (c : Condition) : string :=
  let fieldExpr := fieldToRustBinary (c_Field c) eventType in
  match c_Operator c with
  | "eq" => formatEqBinary fieldExpr (c_Field c) (c_Value c)
  | "not" => formatNotBinary fieldExpr (c_Field c) (c_Value c)
  | "glob" => "matches_glob(" +:+ fieldExpr +:+ ", " +:+ Quote IsPrint (as_string (c_Value c)) +:+ ")"
  | "any_of" => formatAnyOfBinary fieldExpr (c_Field c) (c_Value c)
  | "none_of" => formatNoneOfBinary fieldExpr (c_Field c) (c_Value c)
  | "gt" => fieldExpr +:+ " > " +:+ formatNumeric (c_Value c)
  | "lt" => fieldExpr +:+ " < " +:+ formatNumeric (c_Value c)
  | "gte" => fieldExpr +:+ " >= " +:+ formatNumeric (c_Value c)
  | "lte" => fieldExpr +:+ " <= " +:+ formatNumeric (c_Value c)
  | "starts_with" => "str_starts_with(" +:+ fieldExpr +:+ ", " +:+ Quote IsPrint (as_string (c_Value c)) +:+ ")"
  | "contains" => "str_contains(" +:+ fieldExpr +:+ ", " +:+ Quote IsPrint (as_string (c_Value c)) +:+ ")"
  | _ => "true"
  end.

Definition nonempty (s : string) : bool := negb (String.eqb s "").

Definition generateConditionExprBinary (conds : Conditions) (eventType : string) : string :=
  let exprs cs := filter (fun e => nonempty e = true) (conditionToRustBinary eventType <$> cs) in
  let all := match exprs (c_All conds) with [] => [] | parts => [Join " && " parts] end in
  let any := match exprs (c_Any conds) with [] => [] | parts => ["(" +:+ Join " || " parts +:+ ")"] end in
  let not := (fun e => "!(" +:+ e +:+ ")") <$> exprs (c_Not conds) in
  Join " && " (all ++ any ++ not).

Definition writeRuleCheckBinary (rule : Rule) (eventType : string) (ruleIndex : Z) : string :=
  let action := if String.eqb (r_Mode rule) "audit" && String.eqb (r_Action rule) "deny"
                then "ACTION_AUDIT_DENY" else actionConstant (r_Action rule) in
  let condExpr := generateConditionExprBinary (r_Conditions rule) eventType in
  let condExpr := if nonempty condExpr then condExpr else "true" in
  "    // Rule: " +:+ r_Name rule +:+ nl +:+
  "    if " +:+ condExpr +:+ " {" +:+ nl +:+
  "        LAST_MATCHED = " +:+ Sprint_d ruleIndex +:+ ";" +:+ nl +:+
  "        return " +:+ action +:+ ";" +:+ nl +:+
  "    }" +:+ nl +:+ nl.

Fixpoint concat_str (l : list string) : string :=
  match l with [] => "" | s :: l' => s +:+ concat_str l' end.

(** The loop over the rules of an event and the lines after it. *)
Definition writeRules (policy : Policy) (eventType : string) : string :=
  concat_str ((fun rule => writeRuleCheckBinary rule eventType (globalRuleIndex policy rule))
                <$> rulesForEvent policy eventType) +:+
  "    " +:+ actionConstant (p_DefaultAction policy) +:+ nl +:+ "}" +:+ nl +:+ nl.

(** The header of an evaluator and its bindings. *)
Definition process_head : string :=
  "unsafe fn evaluate_process(base: *const u8) -> i32 {" +:+ nl +:+
  "    let pid = read_u32(base, OFF_PID);" +:+ nl +:+
  "    let uid = read_u32(base, OFF_UID);" +:+ nl +:+
  "    let gid = read_u32(base, OFF_GID);" +:+ nl +:+
  "    let comm = read_str(base, OFF_COMM, OFF_COMM_LEN);" +:+ nl +:+
  "    let path = read_str(base, OFF_PRIMARY_STR, OFF_PRIMARY_STR_LEN);" +:+ nl +:+
  "    let _ = (pid, gid, comm);" +:+ nl.

Definition writeProcessEvaluatorBinary (policy : Policy) : string :=
  process_head +:+ writeRules policy "process".

Definition file_head : string :=
  "unsafe fn evaluate_file(base: *const u8) -> i32 {" +:+ nl +:+
  "    let pid = read_u32(base, OFF_PID);" +:+ nl +:+
  "    let uid = read_u32(base, OFF_UID);" +:+ nl +:+
  "    let gid = read_u32(base, OFF_GID);" +:+ nl +:+
  "    let comm = read_str(base, OFF_COMM, OFF_COMM_LEN);" +:+ nl +:+
  "    let path = read_str(base, OFF_PRIMARY_STR, OFF_PRIMARY_STR_LEN);" +:+ nl +:+
  "    let flags = read_u32(base, OFF_FLAGS);" +:+ nl +:+
  "    let operation = read_str(base, OFF_SECONDARY_STR, OFF_SECONDARY_STR_LEN);" +:+ nl +:+
  "    let _ = (pid, gid, comm, flags);" +:+ nl.

Definition writeFileEvaluatorBinary (policy : Policy) : string :=
  file_head +:+ writeRules policy "file".

Definition network_head : string :=
  "unsafe fn evaluate_network(base: *const u8) -> i32 {" +:+ nl +:+
  "    let pid = read_u32(base, OFF_PID);" +:+ nl +:+
  "    let uid = read_u32(base, OFF_UID);" +:+ nl +:+
  "    let gid = read_u32(base, OFF_GID);" +:+ nl +:+
  "    let comm = read_str(base, OFF_COMM, OFF_COMM_LEN);" +:+ nl +:+
  "    let remote_addr = read_str(base, OFF_PRIMARY_STR, OFF_PRIMARY_STR_LEN);" +:+ nl +:+
  "    let remote_port = read_u16(base, OFF_REMOTE_PORT);" +:+ nl +:+
  "    let local_port = read_u16(base, OFF_LOCAL_PORT);" +:+ nl +:+
  "    let protocol = read_str(base, OFF_SECONDARY_STR, OFF_SECONDARY_STR_LEN);" +:+ nl +:+
  "    let _ = (pid, gid, comm);" +:+ nl.

Definition writeNetworkEvaluatorBinary (policy : Policy) : string :=
  network_head +:+ writeRules policy "network".

Definition rule_reason (rule : Rule) : string :=
  if String.eqb (r_Reason rule) "" then "Rule: " +:+ r_Name rule else r_Reason rule.

Definition writeReasonTable (policy : Policy) : string :=
  "static RULE_REASONS: &[&str] = &[" +:+ nl +:+
  concat_str ((fun rule => "    " +:+ Quote IsPrint (rule_reason rule) +:+ "," +:+ nl) <$> p_Rules policy) +:+
  "];" +:+ nl +:+ nl +:+
  "static mut LAST_MATCHED: u32 = 0xFFFFFFFF;" +:+ nl +:+ nl.

Definition GenerateRust (policy : Policy) : list fragment :=
  [Emit ("// Auto-generated by warmor-compile from: " +:+ p_Name policy +:+ nl);
   Verbatim "GenerateRust";
   Verbatim "writeBinaryOffsets";
   Verbatim "writeHelperFunctions";
   Verbatim "writeMallocFree";
   Emit (writeReasonTable policy);
   Verbatim "writeEvaluateEventFunction";
   Emit (writeProcessEvaluatorBinary policy);
   Emit (writeFileEvaluatorBinary policy);
   Emit (writeNetworkEvaluatorBinary policy);
   Verbatim "writeGetLastMatchedRule";
   Verbatim "writeHostExterns"].

End Codegen.

(** [strings.ReplaceAll] of one character by another. *)
Fixpoint replace_char (a b : Z) (s : string) : string :=
  match s with
  | EmptyString => ""
  | String c s' => String (if code c =? a then chr b else c) (replace_char a b s')
  end.

(** The package name of the crate: [GenerateCargoToml] and the file cargo builds. *)
Definition safeName (policyName : string) : string := replace_char 32 95 (replace_char 45 95 policyName).
