(* ===== verification/RustSyntax.v ===== *)
(** The fragment of Rust that the policy compiler generates: its tokens, its
    expressions, statements and items, and a parser from text to syntax.

    The lexer is an automaton over the characters, so that the tokens of a text are
    those of its parts.  Text outside the fragment has no parse.  The parser recurs
    on fuel; [parse_crate] gives it more than the tokens can need for a generated
    program, which [CodegenCorrect.v] proves. *)

From S2P Require Import Prelude GoFmt.

(** ** Tokens *)

Inductive token : Type :=
  | TId (x : string)
  | TNum (text : string)
  | TStr (s : string)
  | TSym (s : string).

#[global] Instance token_eq_dec : EqDecision token.
Proof. solve_decision. Defined.

(** The state of the lexer inside a token. *)
Inductive mode : Type :=
  | MStart
  | MId (acc : string)
  | MNum (acc : string)
  | MStr (acc : string)
  | MEsc (acc : string)
  | MHex (acc : string)
  | MHex2 (acc : string) (high : Z)
  | MPend (c : Ascii.ascii)
  | MComment.

Definition is_digit (c : Ascii.ascii) : bool := between 48 57 (code c).
Definition is_alpha (c : Ascii.ascii) : bool :=
  between 65 90 (code c) || between 97 122 (code c) || (code c =? 95).
Definition is_word (c : Ascii.ascii) : bool := is_alpha c || is_digit c.
Definition is_space (c : Ascii.ascii) : bool := bool_decide (code c ∈ [9; 10; 13; 32]).

(** Characters that are a symbol, and those that may start a longer one. *)
Definition is_single (c : Ascii.ascii) : bool := bool_decide (code c ∈ bstr "()[]{},;:*").
Definition is_pending (c : Ascii.ascii) : bool := bool_decide (code c ∈ bstr "=!<>&|/-").

Definition snoc (s : string) (c : Ascii.ascii) : string := s +:+ String c "".
Definition sym (c : Ascii.ascii) : token := TSym (String c "").

Definition start (c : Ascii.ascii) : option (list token * mode) :=
  if is_alpha c then Some ([], MId (String c ""))
  else if is_digit c then Some ([], MNum (String c ""))
  else if code c =? 34 then Some ([], MStr "")
  else if is_space c then Some ([], MStart)
  else if is_single c then Some ([sym c], MStart)
  else if is_pending c then Some ([], MPend c)
  else None.

Definition emit (t : token) (r : option (list token * mode)) : option (list token * mode) :=
  '(ts, m) ← r; Some (t :: ts, m).

Definition hexval (c : Ascii.ascii) : option Z :=
  let x := code c in
  if between 48 57 x then Some (x - 48)
  else if between 97 102 x then Some (x - 87)
  else if between 65 70 x then Some (x - 55)
  else None.

(** The escapes of a string literal. *)
Definition unescape (c : Ascii.ascii) : option Z :=
  match code c with
  | 110 => Some 10
  | 114 => Some 13
  | 116 => Some 9
  | 48 => Some 0
  | 34 => Some 34
  | 39 => Some 39
  | 92 => Some 92
  | _ => None
  end.

Definition two_char : list string := ["=="; "!="; "<="; ">="; "&&"; "||"; "->"].

Definition step (m : mode) (c : Ascii.ascii) : option (list token * mode) :=
  match m with
  | MStart => start c
  | MId acc => if is_word c then Some ([], MId (snoc acc c)) else emit (TId acc) (start c)
  | MNum acc => if is_word c || (code c =? 46) then Some ([], MNum (snoc acc c)) else emit (TNum acc) (start c)
  | MStr acc =>
      if code c =? 34 then Some ([TStr acc], MStart)
      else if code c =? 92 then Some ([], MEsc acc)
      else if code c =? 13 then None
      else Some ([], MStr (snoc acc c))
  | MEsc acc =>
      if code c =? 120 then Some ([], MHex acc)
      else z ← unescape c; Some ([], MStr (snoc acc (chr z)))
  | MHex acc => h ← hexval c; if h <=? 7 then Some ([], MHex2 acc h) else None
  | MHex2 acc h => l ← hexval c; Some ([], MStr (snoc acc (chr (h * 16 + l))))
  | MPend p =>
      if (code p =? 47) && (code c =? 47) then Some ([], MComment)
      else if (code p =? 47) && (code c =? 42) then None
      else
        let s := String p (String c "") in
        if existsb (String.eqb s) two_char then Some ([TSym s], MStart) else emit (sym p) (start c)
  | MComment => if code c =? 10 then Some ([], MStart) else Some ([], MComment)
  end.

Fixpoint lex (m : mode) (s : string) : option (list token * mode) :=
  match s with
  | EmptyString => Some ([], m)
  | String c s' =>
      '(t, m) ← step m c;
      '(ts, m) ← lex m s';
      Some (t ++ ts, m)
  end.

(** The token that ends with the text. *)
Definition flush (m : mode) : option (list token) :=
  match m with
  | MStart | MComment => Some []
  | MId acc => Some [TId acc]
  | MNum acc => Some [TNum acc]
  | MPend c => Some [sym c]
  | _ => None
  end.

Definition tokens (s : string) : option (list token) :=
  '(ts, m) ← lex MStart s;
  last ← flush m;
  Some (ts ++ last).

(** ** Syntax *)

#[warnings="-register-all"]
Inductive rexpr : Type :=
  | EId (x : string)
  | ENum (text : string)
  | EStr (s : string)
  | ECall (f : string) (args : list rexpr)
  | EArr (items : list rexpr)
  | ENot (e : rexpr)
  | ECmp (op : string) (a b : rexpr)
  | EAnd (a b : rexpr)
  | EOr (a b : rexpr).

Inductive stmt : Type :=
  | SLet (x : string) (e : rexpr)
  | SDiscard (es : list rexpr)
  | SIf (cond : rexpr) (last_matched result : rexpr)
  | SReturn (e : rexpr).

Record rust_fn : Type := MkFn {
  fn_name : string;
  fn_body : list stmt;
  fn_tail : rexpr;
}.

Record crate : Type := MkCrate {
  cr_reasons : list rexpr;
  cr_fns : list rust_fn;
}.

(** ** The parser *)

Definition expect (t : token) (ts : list token) : option (list token) :=
  match ts with
  | t' :: ts' => if decide (t' = t) then Some ts' else None
  | [] => None
  end.

Fixpoint expect_all (want ts : list token) : option (list token) :=
  match want with
  | [] => Some ts
  | t :: want' => ts ← expect t ts; expect_all want' ts
  end.

Definition next_is (s : string) (ts : list token) : bool :=
  match ts with TSym s' :: _ => String.eqb s' s | _ => false end.

Definition cmp_ops : list string := ["=="; "!="; "<"; ">"; "<="; ">="].

Fixpoint p_or (n : nat) (ts : list token) : option (rexpr * list token) :=
  match n with
  | O => None
  | S n => '(a, ts) ← p_and n ts; p_or_tail n a ts
  end
with p_or_tail (n : nat) (a : rexpr) (ts : list token) : option (rexpr * list token) :=
  match n with
  | O => None
  | S n =>
      if next_is "||" ts then '(b, ts) ← p_and n (tail ts); p_or_tail n (EOr a b) ts
      else Some (a, ts)
  end
with p_and (n : nat) (ts : list token) : option (rexpr * list token) :=
  match n with
  | O => None
  | S n => '(a, ts) ← p_cmp n ts; p_and_tail n a ts
  end
with p_and_tail (n : nat) (a : rexpr) (ts : list token) : option (rexpr * list token) :=
  match n with
  | O => None
  | S n =>
      if next_is "&&" ts then '(b, ts) ← p_cmp n (tail ts); p_and_tail n (EAnd a b) ts
      else Some (a, ts)
  end
with p_cmp (n : nat) (ts : list token) : option (rexpr * list token) :=
  match n with
  | O => None
  | S n =>
      '(a, ts) ← p_unary n ts;
      match ts with
      | TSym op :: ts' =>
          if existsb (String.eqb op) cmp_ops then '(b, ts) ← p_unary n ts'; Some (ECmp op a b, ts)
          else Some (a, ts)
      | _ => Some (a, ts)
      end
  end
with p_unary (n : nat) (ts : list token) : option (rexpr * list token) :=
  match n with
  | O => None
  | S n =>
      match ts with
      | TId x :: ts' =>
          if next_is "(" ts' then '(args, ts) ← p_args n ")" (tail ts'); Some (ECall x args, ts)
          else Some (EId x, ts')
      | TNum text :: ts' => Some (ENum text, ts')
      | TStr s :: ts' => Some (EStr s, ts')
      | TSym s :: ts' =>
          if String.eqb s "!" then '(e, ts) ← p_unary n ts'; Some (ENot e, ts)
          else if String.eqb s "(" then
            '(e, ts) ← p_or n ts'; ts ← expect (TSym ")") ts; Some (e, ts)
          else if String.eqb s "&" then
            ts ← expect (TSym "[") ts'; '(items, ts) ← p_args n "]" ts; Some (EArr items, ts)
          else None
      | [] => None
      end
  end
with p_args (n : nat) (close : string) (ts : list token) : option (list rexpr * list token) :=
  match n with
  | O => None
  | S n =>
      if next_is close ts then Some ([], tail ts)
      else
        '(e, ts) ← p_or n ts;
        if next_is "," ts then '(es, ts) ← p_args n close (tail ts); Some (e :: es, ts)
        else ts ← expect (TSym close) ts; Some ([e], ts)
  end.

(** The statements of a function body, its tail expression and the brace after it. *)
Fixpoint p_body (n : nat) (ts : list token) : option (list stmt * rexpr * list token) :=
  match n with
  | O => None
  | S n' =>
      let tail_expr :=
        '(e, ts) ← p_or n ts; ts ← expect (TSym "}") ts; Some ([], e, ts) in
      match ts with
      | TId kw :: ts' =>
          if String.eqb kw "let" then
            match ts' with
            | TId x :: TSym eq :: ts'' =>
                if negb (String.eqb eq "=") then None
                else if String.eqb x "_" then
                  ts ← expect (TSym "(") ts''; '(es, ts) ← p_args n ")" ts;
                  ts ← expect (TSym ";") ts;
                  '(b, t, ts) ← p_body n' ts; Some (SDiscard es :: b, t, ts)
                else
                  '(e, ts) ← p_or n ts''; ts ← expect (TSym ";") ts;
                  '(b, t, ts) ← p_body n' ts; Some (SLet x e :: b, t, ts)
            | _ => None
            end
          else if String.eqb kw "if" then
            '(c, ts) ← p_or n ts';
            ts ← expect_all [TSym "{"; TId "LAST_MATCHED"; TSym "="] ts;
            '(lm, ts) ← p_or n ts;
            ts ← expect_all [TSym ";"; TId "return"] ts;
            '(r, ts) ← p_or n ts;
            ts ← expect_all [TSym ";"; TSym "}"] ts;
            '(b, t, ts) ← p_body n' ts; Some (SIf c lm r :: b, t, ts)
          else if String.eqb kw "return" then
            '(e, ts) ← p_or n ts'; ts ← expect (TSym ";") ts;
            '(b, t, ts) ← p_body n' ts; Some (SReturn e :: b, t, ts)
          else tail_expr
      | _ => tail_expr
      end
  end.

(** [unsafe fn name(base: *const u8) -> i32 { ... }]. *)
Definition fn_header (name : string) : list token :=
  [TId "unsafe"; TId "fn"; TId name; TSym "("; TId "base"; TSym ":"; TSym "*"; TId "const"; TId "u8"; TSym ")";
   TSym "->"; TId "i32"; TSym "{"].

Definition p_fn (n : nat) (name : string) (ts : list token) : option (rust_fn * list token) :=
  ts ← expect_all (fn_header name) ts;
  '(body, tl, ts) ← p_body n ts;
  Some (MkFn name body tl, ts).

Definition reasons_header : list token :=
  [TId "static"; TId "RULE_REASONS"; TSym ":"; TSym "&"; TSym "["; TSym "&"; TId "str"; TSym "]"; TSym "=";
   TSym "&"; TSym "["].

Definition last_matched_item : list token :=
  [TSym ";"; TId "static"; TId "mut"; TId "LAST_MATCHED"; TSym ":"; TId "u32"; TSym "="; TNum "0xFFFFFFFF"; TSym ";"].

Definition parse_fuel (ts : list token) : nat := length ts + 64.

Definition parse_crate (ts : list token) : option crate :=
  let n := parse_fuel ts in
  ts ← expect_all reasons_header ts;
  '(reasons, ts) ← p_args n "]" ts;
  ts ← expect_all last_matched_item ts;
  '(f1, ts) ← p_fn n "evaluate_process" ts;
  '(f2, ts) ← p_fn n "evaluate_file" ts;
  '(f3, ts) ← p_fn n "evaluate_network" ts;
  if decide (ts = []) then Some (MkCrate reasons [f1; f2; f3]) else None.
