(* ===== verification/RustModule.v ===== *)
(** The meaning of a generated program: typing and evaluation of the Rust fragment of
    [RustSyntax.v] on a linear memory, the constant parts of the program
    (writeBinaryOffsets, writeHelperFunctions, writeMallocFree,
    writeEvaluateEventFunction, writeGetLastMatchedRule of
    internal/compiler/codegen.go), and the WebAssembly module it becomes.

    Integers have the types of the source: u32, u16, i32, and a 32-bit usize.  The
    Rust toolchain is taken to implement these rules; where it places the heap of the
    program, and how large the memory is, are parameters. *)

From S2P Require Import Prelude GoApi GoFmt GoWasm PolicyCodegen RustSyntax RustRuntime.

(** ** Types and values *)

Inductive rty : Type := U32 | U16 | I32 | Usize | Ptr | Bool | Str | ArrU32 | ArrU16 | ArrStr.

#[global] Instance rty_eq_dec : EqDecision rty.
Proof. solve_decision. Defined.

Inductive rval : Type :=
  | VInt (t : rty) (z : Z)
  | VBool (b : bool)
  | VStr (s : list Z)
  | VInts (t : rty) (l : list Z)
  | VStrs (l : list (list Z)).

Definition type_of (v : rval) : rty :=
  match v with
  | VInt t _ => t
  | VBool _ => Bool
  | VStr _ => Str
  | VInts t _ => t
  | VStrs _ => ArrStr
  end.

Definition env := list (string * rval).
Definition tenv := list (string * rty).

Fixpoint get {A} (x : string) (l : list (string * A)) : option A :=
  match l with
  | [] => None
  | (y, v) :: l' => if String.eqb y x then Some v else get x l'
  end.

Definition types (rho : env) : tenv := prod_map id type_of <$> rho.

(** The value of a decimal literal. *)
Definition num_value (text : string) : option Z :=
  match text with
  | EmptyString => None
  | _ => u ← NilEmpty.uint_of_string text; Some (Z.of_N (N.of_uint u))
  end.

Definition int_bound (t : rty) : option Z :=
  match t with
  | U32 | Usize => Some (2 ^ 32)
  | U16 => Some (2 ^ 16)
  | I32 => Some (2 ^ 31)
  | _ => None
  end.

(** A literal at a type; one that does not fit is an error. *)
Definition literal (t : rty) (text : string) : option Z :=
  bound ← int_bound t; z ← num_value text; if z <? bound then Some z else None.

Definition elem_type (t : rty) : option rty :=
  match t with ArrU32 => Some U32 | ArrU16 => Some U16 | ArrStr => Some Str | _ => None end.

(** Parameter and result types of the helper functions. *)
Definition fn_sig (f : string) : option (list rty * rty) :=
  match f with
  | "read_u32" => Some ([Ptr; Usize], U32)
  | "read_u16" => Some ([Ptr; Usize], U16)
  | "read_str" => Some ([Ptr; Usize; Usize], Str)
  | "matches_glob" | "str_starts_with" | "str_contains" => Some ([Str; Str], Bool)
  | "any_of_str" | "none_of_str" => Some ([Str; ArrStr], Bool)
  | "any_of_u32" | "none_of_u32" => Some ([U32; ArrU32], Bool)
  | "any_of_u16" | "none_of_u16" => Some ([U16; ArrU16], Bool)
  | _ => None
  end.

(** The type an expression has by itself, when it is not a literal number. *)
Definition synth (G : tenv) (e : rexpr) : option rty :=
  match e with
  | EId x => get x G
  | EStr _ => Some Str
  | ECall f _ => snd <$> fn_sig f
  | ENot _ | ECmp _ _ _ | EAnd _ _ | EOr _ _ => Some Bool
  | ENum _ | EArr _ => None
  end.

Definition operand_type (G : tenv) (a b : rexpr) : option rty :=
  match synth G a with Some t => Some t | None => synth G b end.

(** Integers are ordered; strings are only compared for equality here. *)
Definition comparable (op : string) (t : rty) : bool :=
  match t with
  | U32 | U16 | I32 | Usize => true
  | Str => String.eqb op "==" || String.eqb op "!="
  | _ => false
  end.

(** ** Typing *)

Fixpoint check (G : tenv) (t : rty) (e : rexpr) : bool :=
  match e with
  | EId x => bool_decide (get x G = Some t)
  | ENum text => bool_decide (is_Some (literal t text))
  | EStr _ => bool_decide (t = Str)
  | ECall f args =>
      match fn_sig f with
      | Some (params, ret) =>
          bool_decide (ret = t) &&
          (fix check_args params args {struct args} :=
             match params, args with
             | [], [] => true
             | p :: params, a :: args => check G p a && check_args params args
             | _, _ => false
             end) params args
      | None => false
      end
  | EArr items =>
      match elem_type t with
      | Some te => (fix check_items items := match items with
                    | [] => true
                    | a :: items => check G te a && check_items items
                    end) items
      | None => false
      end
  | ENot a => bool_decide (t = Bool) && check G Bool a
  | ECmp op a b =>
      bool_decide (t = Bool) &&
      match operand_type G a b with
      | Some s => comparable op s && check G s a && check G s b
      | None => false
      end
  | EAnd a b | EOr a b => bool_decide (t = Bool) && check G Bool a && check G Bool b
  end.

Fixpoint check_body (G : tenv) (body : list stmt) (tail : rexpr) : bool :=
  match body with
  | [] => check G I32 tail
  | SLet x e :: body =>
      match synth G e with
      | Some t => check G t e && check_body ((x, t) :: G) body tail
      | None => false
      end
  | SDiscard es :: body =>
      forallb (fun e => match synth G e with Some t => check G t e | None => false end) es
      && check_body G body tail
  | SIf c lm r :: body => check G Bool c && check G U32 lm && check G I32 r && check_body G body tail
  | SReturn e :: body => check G I32 e && check_body G body tail
  end.

(** ** Memory *)

(** The bytes of a linear memory of [mem_size] bytes. *)
Record memory : Type := MkMem {
  mem_size : Z;
  mem_at : Z -> Z;
}.

Definition load (m : memory) (a : Z) : option Z :=
  if (0 <=? a) && (a <? mem_size m) then Some (mem_at m a) else None.

Definition mem_store (a : Z) (bs : list Z) (m : memory) : option memory :=
  if (0 <=? a) && (a + Z.of_nat (length bs) <=? mem_size m) then
    Some (MkMem (mem_size m) (fun x => if a <=? x then from_option id (mem_at m x) (bs !! Z.to_nat (x - a))
                                       else mem_at m x))
  else None.

Fixpoint loads (m : memory) (a : Z) (n : nat) : option (list Z) :=
  match n with
  | O => Some []
  | S n => b ← load m a; bs ← loads m (a + 1) n; Some (b :: bs)
  end.

Definition mem_load (a n : Z) (m : memory) : option (list Z) := loads m a (Z.to_nat n).

(** ** The helper functions that read the event *)

Section Read.
Context (m : memory).

Definition read_u32 (base offset : Z) : option Z :=
  let p := base + offset in
  b0 ← load m p; b1 ← load m (p + 1); b2 ← load m (p + 2); b3 ← load m (p + 3);
  Some (Z.lor (Z.lor (Z.lor b0 (Z.shiftl b1 8)) (Z.shiftl b2 16)) (Z.shiftl b3 24)).

Definition read_u16 (base offset : Z) : option Z :=
  let p := base + offset in
  b0 ← load m p; b1 ← load m (p + 1);
  Some (Z.lor b0 (Z.shiftl b1 8)).

(** [while len < max_len && *p.add(len) != 0], and the slice it delimits; [n] is
    [max_len - len]. *)
Fixpoint read_str_loop (n : nat) (p : Z) : option (list Z) :=
  match n with
  | O => Some []
  | S n => b ← load m p; if b =? 0 then Some [] else s ← read_str_loop n (p + 1); Some (b :: s)
  end.

Definition read_str (base offset max_len : Z) : option (list Z) :=
  read_str_loop (Z.to_nat max_len) (base + offset).

(** ** Evaluation *)

Definition call_fn (f : string) (args : list rval) : option rval :=
  match f, args with
  | "read_u32", [VInt _ b; VInt _ o] => VInt U32 <$> read_u32 b o
  | "read_u16", [VInt _ b; VInt _ o] => VInt U16 <$> read_u16 b o
  | "read_str", [VInt _ b; VInt _ o; VInt _ n] => VStr <$> read_str b o n
  | "matches_glob", [VStr s; VStr p] => Some (VBool (matches_glob s p))
  | "str_starts_with", [VStr s; VStr p] => Some (VBool (str_starts_with s p))
  | "str_contains", [VStr s; VStr p] => Some (VBool (str_contains s p))
  | "any_of_str", [VStr s; VStrs l] => Some (VBool (any_of s l))
  | "none_of_str", [VStr s; VStrs l] => Some (VBool (none_of s l))
  | "any_of_u32", [VInt _ z; VInts _ l] => Some (VBool (any_of z l))
  | "none_of_u32", [VInt _ z; VInts _ l] => Some (VBool (none_of z l))
  | "any_of_u16", [VInt _ z; VInts _ l] => Some (VBool (any_of z l))
  | "none_of_u16", [VInt _ z; VInts _ l] => Some (VBool (none_of z l))
  | _, _ => None
  end.

Definition as_bool (v : rval) : option bool := match v with VBool b => Some b | _ => None end.
Definition as_int (v : rval) : option Z := match v with VInt _ z => Some z | _ => None end.
Definition as_str (v : rval) : option (list Z) := match v with VStr s => Some s | _ => None end.

Definition pack (t : rty) (vs : list rval) : option rval :=
  if bool_decide (t = ArrStr) then VStrs <$> mapM as_str vs else VInts t <$> mapM as_int vs.

Definition compare_vals (op : string) (a b : rval) : option bool :=
  match a, b with
  | VInt _ x, VInt _ y =>
      match op with
      | "==" => Some (x =? y)
      | "!=" => Some (negb (x =? y))
      | "<" => Some (x <? y)
      | ">" => Some (y <? x)
      | "<=" => Some (x <=? y)
      | ">=" => Some (y <=? x)
      | _ => None
      end
  | VStr x, VStr y =>
      match op with
      | "==" => Some (bool_decide (x = y))
      | "!=" => Some (negb (bool_decide (x = y)))
      | _ => None
      end
  | _, _ => None
  end.

(** [None]: a trap (or an ill-typed expression). Expressions have no effect, so that
    the order of evaluation is not observable. *)
Fixpoint eval (rho : env) (t : rty) (e : rexpr) : option rval :=
  match e with
  | EId x => get x rho
  | ENum text => VInt t <$> literal t text
  | EStr s => Some (VStr (bstr s))
  | ECall f args =>
      '(params, _) ← fn_sig f;
      vs ← (fix eval_args params args {struct args} :=
              match params, args with
              | p :: params, a :: args => v ← eval rho p a; vs ← eval_args params args; Some (v :: vs)
              | _, _ => Some []
              end) params args;
      call_fn f vs
  | EArr items =>
      te ← elem_type t;
      vs ← (fix eval_items items := match items with
            | [] => Some []
            | a :: items => v ← eval rho te a; vs ← eval_items items; Some (v :: vs)
            end) items;
      pack t vs
  | ENot a => v ← eval rho Bool a; b ← as_bool v; Some (VBool (negb b))
  | ECmp op a b =>
      s ← operand_type (types rho) a b;
      x ← eval rho s a; y ← eval rho s b; VBool <$> compare_vals op x y
  | EAnd a b => v ← eval rho Bool a; w ← eval rho Bool b;
                x ← as_bool v; y ← as_bool w; Some (VBool (x && y))
  | EOr a b => v ← eval rho Bool a; w ← eval rho Bool b;
               x ← as_bool v; y ← as_bool w; Some (VBool (x || y))
  end.

Definition eval_int (rho : env) (t : rty) (e : rexpr) : option Z := v ← eval rho t e; as_int v.

(** Runs a function body with [LAST_MATCHED] = [lm]; the result and the new value. *)
Fixpoint run_body (rho : env) (lm : Z) (body : list stmt) (tail : rexpr) : option (Z * Z) :=
  match body with
  | [] => r ← eval_int rho I32 tail; Some (r, lm)
  | SLet x e :: body => t ← synth (types rho) e; v ← eval rho t e; run_body ((x, v) :: rho) lm body tail
  | SDiscard _ :: body => run_body rho lm body tail
  | SIf c l r :: body =>
      v ← eval rho Bool c; b ← as_bool v;
      if (b : bool) then l ← eval_int rho U32 l; r ← eval_int rho I32 r; Some (r, l)
      else run_body rho lm body tail
  | SReturn e :: _ => r ← eval_int rho I32 e; Some (r, lm)
  end.
End Read.

(** ** The constant items *)

Definition globals : env :=
  [("ACTION_ALLOW", VInt I32 0); ("ACTION_DENY", VInt I32 1); ("ACTION_LOG", VInt I32 2);
   ("ACTION_AUDIT_DENY", VInt I32 3);
   ("OFF_PID", VInt Usize 0); ("OFF_UID", VInt Usize 4); ("OFF_GID", VInt Usize 8);
   ("OFF_EVENT_TYPE", VInt Usize 12); ("OFF_COMM", VInt Usize 13); ("OFF_COMM_LEN", VInt Usize 64);
   ("OFF_PRIMARY_STR", VInt Usize 77); ("OFF_PRIMARY_STR_LEN", VInt Usize 128); ("OFF_FLAGS", VInt Usize 205);
   ("OFF_REMOTE_PORT", VInt Usize 209); ("OFF_LOCAL_PORT", VInt Usize 211);
   ("OFF_SECONDARY_STR", VInt Usize 213); ("OFF_SECONDARY_STR_LEN", VInt Usize 32);
   ("true", VBool true); ("false", VBool false)].

Definition NOT_MATCHED : Z := 4294967295.
Definition HEAP_LEN : Z := 65536.

Definition entry_env (base : Z) : env := ("base", VInt Ptr base) :: globals.

(** ** From text to module *)

Definition constant_items : list string :=
  ["GenerateRust"; "writeBinaryOffsets"; "writeHelperFunctions"; "writeMallocFree";
   "writeEvaluateEventFunction"; "writeGetLastMatchedRule"; "writeHostExterns"].

Definition verbatim (f : fragment) : option string := match f with Verbatim w => Some w | Emit _ => None end.

(** The text of the program with the constant items left out. *)
Definition rust_source (fs : list fragment) : string :=
  concat_str ((fun f => match f with Emit t => t | Verbatim _ => nl end) <$> fs).

Definition well_typed (c : crate) : bool :=
  forallb (check (types globals) Str) (cr_reasons c) &&
  forallb (fun f => check_body (types (entry_env 0)) (fn_body f) (fn_tail f)) (cr_fns c).

Definition rustc (fs : list fragment) : option crate :=
  if decide (omap verbatim fs = constant_items) then
    ts ← tokens (rust_source fs);
    c ← parse_crate ts;
    if well_typed c then Some c else None
  else None.

(** ** Instances *)

Record rust_inst : Type := MkInst {
  ri_crate : crate;
  ri_mem : memory;
  HEAP_POS : Z;
  LAST_MATCHED : Z;
}.

Definition with_mem (m : memory) (s : rust_inst) : rust_inst := MkInst (ri_crate s) m (HEAP_POS s) (LAST_MATCHED s).
Definition with_heap_pos (z : Z) (s : rust_inst) : rust_inst := MkInst (ri_crate s) (ri_mem s) z (LAST_MATCHED s).
Definition with_last_matched (z : Z) (s : rust_inst) : rust_inst := MkInst (ri_crate s) (ri_mem s) (HEAP_POS s) z.

Definition find_fn (name : string) (c : crate) : option rust_fn :=
  snd <$> list_find (fun f => fn_name f = name) (cr_fns c).

(** The reasons, as bytes. *)
Definition reasons (c : crate) : list (list Z) :=
  omap (fun e => match e with EStr s => Some (bstr s) | _ => None end) (cr_reasons c).

(** What the linker decides: the address of [HEAP] and the size of the memory. *)
Record layout : Type := MkLayout {
  heap_base : Z;
  memory_size : Z;
}.

(** A null pointer is no address in the heap or near it, and the heap is in memory. *)
Record layout_ok (ly : layout) : Prop := {
  lo_base : 512 <= heap_base ly;
  lo_heap : heap_base ly + HEAP_LEN <= memory_size ly;
  lo_size : memory_size ly <= 2 ^ 32;
}.

Section Module.
Context (ly : layout).

(** BumpAllocator::alloc with the given layout; [!mask] is the complement in 32 bits,
    and additions wrap. *)
Definition bump_alloc (size align : Z) (s : rust_inst) : Z * rust_inst :=
  let mask := to_u32 (align - 1) in
  let current := HEAP_POS s in
  let aligned := Z.land (to_u32 (current + mask)) (to_u32 (- mask - 1)) in
  let new_pos := to_u32 (aligned + size) in
  if HEAP_LEN <? new_pos then (0, s)
  else (heap_base ly + aligned, with_heap_pos new_pos s).

Definition rust_malloc (size : Z) (s : rust_inst) : Z * rust_inst := bump_alloc size 1 s.

(** dealloc does nothing. *)
Definition rust_free (ptr size : Z) (s : rust_inst) : rust_inst := s.

Definition run_fn (name : string) (base : Z) (s : rust_inst) : option (Z * rust_inst) :=
  f ← find_fn name (ri_crate s);
  '(r, lm) ← run_body (ri_mem s) (entry_env base) (LAST_MATCHED s) (fn_body f) (fn_tail f);
  Some (r, with_last_matched lm s).

Definition evaluate_event (offset : Z) (s : rust_inst) : option (Z * rust_inst) :=
  event_type ← load (ri_mem s) (offset + 12);
  let s := with_last_matched NOT_MATCHED s in
  if event_type =? 0 then run_fn "evaluate_process" offset s
  else if event_type =? 1 then run_fn "evaluate_file" offset s
  else if event_type =? 2 then run_fn "evaluate_network" offset s
  else Some (1, s).

Definition get_last_matched_rule (buf len : Z) (s : rust_inst) : option (Z * rust_inst) :=
  if LAST_MATCHED s =? NOT_MATCHED then Some (0, s)
  else match reasons (ri_crate s) !! Z.to_nat (LAST_MATCHED s) with
  | None => Some (0, s)
  | Some bytes =>
      let copy_len := if Z.of_nat (length bytes) <? len then Z.of_nat (length bytes) else len in
      m ← mem_store buf (take (Z.to_nat copy_len) bytes) (ri_mem s);
      Some (copy_len, with_mem m s)
  end.

Definition trap : message := Text "wasm error: out of bounds memory access".

Definition export_call (r : option (Z * rust_inst)) (s : rust_inst) : go (list Z) * rust_inst :=
  match r with
  | Some (v, s') => (Ret [to_u32 v], s')
  | None => (Fail trap, s)
  end.

Definition rust_exports : list string := ["evaluate_event"; "malloc"; "free"; "get_last_matched_rule"].

(** A call from the host; arguments are passed as 32-bit values. *)
Definition rust_call (fn : string) (args : list Z) (s : rust_inst) : go (list Z) * rust_inst :=
  match fn, to_u32 <$> args with
  | "evaluate_event", [offset] => export_call (evaluate_event offset s) s
  | "malloc", [size] => export_call (Some (rust_malloc size s)) s
  | "free", [ptr; size] => (Ret [], rust_free ptr size s)
  | "get_last_matched_rule", [buf; len] => export_call (get_last_matched_rule buf len s) s
  | _, _ => (Fail (Text "expected different params"), s)
  end.

Definition rust_instantiate (c : crate) : rust_inst :=
  MkInst c (MkMem (memory_size ly) (fun _ => 0)) 0 NOT_MATCHED.

Context (marshal : list (string * json) -> list Z).

Definition rust_wasm : Wasm crate rust_inst := {|
  InstantiateModule c _ := Ret (rust_instantiate c);
  exports _ fn := existsb (String.eqb fn) rust_exports;
  call fn _ args s := rust_call fn args s;
  memory_write ptr bs s := (fun m => with_mem m s) <$> mem_store ptr bs (ri_mem s);
  memory_read ptr n s := mem_load ptr n (ri_mem s);
  json_Marshal := marshal;
|}.

(** A module of the compiler returns from every call. *)
Lemma rust_wasm_ok : @WasmOk crate rust_inst rust_wasm.
Proof.
  split. intros fn host args s Hfn. cbn [call rust_wasm]. unfold rust_call.
  assert (Hx : forall r s', (exists x rs, (export_call r s').1 = Ret (x :: rs)) \/ (exists err, (export_call r s').1 = Fail err)).
  { intros [[v s']|] s''; [left|right]; by repeat eexists. }
  repeat (apply elem_of_cons in Hfn as [->|Hfn]; [destruct (to_u32 <$> args) as [|a [|b [|c l]]]; first [apply Hx|right; by eexists]|]).
  by apply not_elem_of_nil in Hfn.
Qed.
End Module.
