(* ===== verification/CodegenText.v ===== *)
(** The text of a condition, from characters to syntax: what the lexer and the parser
    of [RustSyntax.v] make of the text that internal/compiler/codegen.go prints.

    An [atom] is a condition whose field, operator and value fit together; its text,
    its tokens and its syntax are given side by side and proved to correspond. *)

From Stdlib Require Import Numbers.DecimalPos.
From S2P Require Import Prelude GoFmt PolicyCodegen RustSyntax.

(** ** Lexing the parts of a text *)

Definition soft (m : mode) : bool := match m with MStart | MId _ | MNum _ => true | _ => false end.
Definition pending (m : mode) : list token := match m with MId a => [TId a] | MNum a => [TNum a] | _ => [] end.

Definition delim (c : Ascii.ascii) : bool := negb (is_word c) && negb (code c =? 46).
Definition delim_head (s : string) : bool := match s with String c _ => delim c | EmptyString => false end.

Lemma lex_app m a b :
  lex m (a +:+ b) = ('(ta, m1) ← lex m a; '(tb, m2) ← lex m1 b; Some (ta ++ tb, m2)).
Proof.
  revert m. induction a as [|c a IH]; intros m.
  - change (lex m b = ('(tb, m2) ← lex m b; Some (tb, m2))). by destruct (lex m b) as [[tb m2]|].
  - rewrite append_cons. cbn [lex]. destruct (step m c) as [[t m1]|]; [|done]. cbn. rewrite IH.
    destruct (lex m1 a) as [[ta m2]|]; [|done]. cbn. destruct (lex m2 b) as [[tb m3]|]; [|done]. cbn.
    by rewrite app_assoc.
Qed.

(** A delimiter ends a word or a number. *)
Lemma lex_soft m s :
  soft m = true -> delim_head s = true ->
  lex m s = ('(ts, m') ← lex MStart s; Some (pending m ++ ts, m')).
Proof.
  destruct s as [|c s]; [done|]. cbn [delim_head lex]. intros Hm Hd.
  unfold delim in Hd. apply andb_prop in Hd as [Hw Hp]. apply negb_true_iff in Hw, Hp.
  assert (Hs : step m c = ('(t, m') ← start c; Some (pending m ++ t, m'))).
  { destruct m; try done; cbn [step]; rewrite ?Hw, ?Hp; cbn; by destruct (start c) as [[t m']|]. }
  rewrite Hs. cbn [step]. destruct (start c) as [[t m']|]; [|done]. cbn.
  destruct (lex m' s) as [[ts m'']|]; [|done]. cbn. by rewrite app_assoc.
Qed.

(** [s] lexes to [ts], where a word at the end is ended by what follows. *)
Definition emits (s : string) (ts : list token) : Prop :=
  exists t m, lex MStart s = Some (t, m) /\ soft m = true /\ t ++ pending m = ts.

(** [s] lexes to [ts] and leaves the lexer between two tokens. *)
Definition closed (s : string) (ts : list token) : Prop := lex MStart s = Some (ts, MStart).

Lemma closed_emits s ts : closed s ts -> emits s ts.
Proof. intros Hs. exists ts, MStart. split_and!; [done..|]. apply app_nil_r. Qed.

Lemma closed_app a b ta tb : closed a ta -> closed b tb -> closed (a +:+ b) (ta ++ tb).
Proof. unfold closed. intros Ha Hb. rewrite lex_app, Ha. cbn. by rewrite Hb. Qed.

Lemma closed_emits_app a b ta tb : closed a ta -> emits b tb -> emits (a +:+ b) (ta ++ tb).
Proof.
  unfold closed. intros Ha (t & m & Hb & Hm & <-). exists (ta ++ t), m.
  rewrite lex_app, Ha. cbn. rewrite Hb. cbn. by rewrite <- app_assoc.
Qed.

Lemma emits_closed_app a b ta tb : emits a ta -> delim_head b = true -> closed b tb -> closed (a +:+ b) (ta ++ tb).
Proof.
  unfold closed. intros (t & m & Ha & Hm & <-) Hd Hb. rewrite lex_app, Ha. cbn.
  rewrite (lex_soft m b Hm Hd), Hb. cbn. by rewrite app_assoc.
Qed.

Lemma closed_tokens s ts : closed s ts -> tokens s = Some ts.
Proof. unfold closed, tokens. intros ->. cbn. by rewrite app_nil_r. Qed.

(** ** Numbers and string literals *)

Lemma lex_num acc s : string_forallb is_digit s = true -> lex (MNum acc) s = Some ([], MNum (acc +:+ s)).
Proof.
  revert acc. induction s as [|c s IH]; intros acc Hs; [by rewrite append_nil_r|].
  cbn in Hs. apply andb_prop in Hs as [Hc Hs]. cbn [lex step].
  unfold is_word. rewrite Hc, orb_true_r. cbn. rewrite IH by done. cbn. unfold snoc. by rewrite append_assoc.
Qed.

Lemma uint_digits u : string_forallb is_digit (NilEmpty.string_of_uint u) = true.
Proof. induction u; cbn; done. Qed.

Lemma emits_number n : 0 <= n -> emits (Sprint_d n) [TNum (Sprint_d n)].
Proof.
  intros Hn. rewrite Sprint_d_nat by done. pose proof (uint_digits (N.to_uint (Z.to_N n))) as Hd.
  destruct (NilEmpty.string_of_uint (N.to_uint (Z.to_N n))) as [|c s] eqn:He.
  { exfalso. assert (Hu : N.to_uint (Z.to_N n) = Decimal.Nil).
    { apply (f_equal NilEmpty.uint_of_string) in He. rewrite NilEmpty.usu in He. by injection He. }
    destruct (Z.to_N n) as [|pos]; [done|]. by apply DecimalPos.Unsigned.to_uint_nonnil in Hu. }
  cbn in Hd. apply andb_prop in Hd as [Hc Hs]. exists [], (MNum (String c s)). split_and!; [|done..].
  cbn [lex step]. unfold start. replace (is_alpha c) with false.
  - rewrite Hc. cbn. by rewrite lex_num.
  - unfold is_alpha, is_digit, between in *. symmetry. rewrite !orb_false_iff, !andb_false_iff.
    rewrite andb_true_iff in Hc. destruct Hc as [?%Z.leb_le ?%Z.leb_le]. rewrite !Z.leb_gt, Z.eqb_neq. lia.
Qed.

(** Text whose quotation Rust reads back: ASCII without the control characters that
    only Go has an escape for. *)
Definition quotable_char (c : Ascii.ascii) : bool :=
  (code c <? 128) && bool_decide (code c ∉ [7; 8; 11; 12]).
Definition quotable (s : string) : bool := string_forallb quotable_char s.

Lemma lex_escape acc c :
  code c < 128 ->
  lex (MStr acc) (escape_ascii c) = if quotable_char c then Some ([], MStr (snoc acc c)) else None.
Proof. destruct c as [[] [] [] [] [] [] [] []]; intros Hc; first [reflexivity|discriminate Hc]. Qed.

Lemma lex_escape_all acc s :
  is_ascii s = true ->
  lex (MStr acc) (escape_all s) = if quotable s then Some ([], MStr (acc +:+ s)) else None.
Proof.
  revert acc. induction s as [|c s IH]; intros acc Hs; [cbn; by rewrite append_nil_r|].
  unfold is_ascii, quotable in *. cbn [string_forallb] in *. apply andb_prop in Hs as [Hc%Z.ltb_lt Hs].
  cbn [escape_all]. rewrite lex_app, lex_escape by done. destruct (quotable_char c); [|done].
  cbn. rewrite IH by done. destruct (string_forallb quotable_char s); [|done]. cbn. unfold snoc. by rewrite append_assoc.
Qed.

Lemma quotable_ascii s : quotable s = true -> is_ascii s = true.
Proof.
  unfold quotable, is_ascii. induction s as [|c s IH]; [done|]. cbn.
  intros [[Hc _]%andb_prop Hs]%andb_prop. by rewrite Hc, IH.
Qed.

Lemma lex_Quote IsPrint s :
  is_ascii s = true -> lex MStart (Quote IsPrint s) = if quotable s then Some ([TStr s], MStart) else None.
Proof.
  intros Ha. rewrite Quote_ascii by done.
  rewrite append_cons. cbn [lex step]. change (start dquote) with (Some ([] : list token, MStr "")). cbn [mbind option_bind].
  rewrite lex_app, lex_escape_all by done. by destruct (quotable s).
Qed.

(** A quoted string is one token, with the string it quotes. *)
Lemma closed_Quote IsPrint s : quotable s = true -> closed (Quote IsPrint s) [TStr s].
Proof. intros Hq. unfold closed. rewrite lex_Quote by by apply quotable_ascii. by rewrite Hq. Qed.

(** Words. *)
Definition is_ident (x : string) : bool :=
  match x with String c s => is_alpha c && string_forallb is_word s | EmptyString => false end.

Lemma lex_word acc s : string_forallb is_word s = true -> lex (MId acc) s = Some ([], MId (acc +:+ s)).
Proof.
  revert acc. induction s as [|c s IH]; intros acc Hs; [by rewrite append_nil_r|].
  cbn in Hs. apply andb_prop in Hs as [Hc Hs]. cbn [lex step]. rewrite Hc. cbn. rewrite IH by done. cbn.
  unfold snoc. by rewrite append_assoc.
Qed.

Lemma emits_ident x : is_ident x = true -> emits x [TId x].
Proof.
  destruct x as [|c s]; [done|]. cbn. intros [Hc Hs]%andb_prop. exists [], (MId (String c s)).
  split_and!; [|done..]. cbn [lex step]. unfold start. rewrite Hc. cbn. by rewrite lex_word.
Qed.

(** An equality with a string is read as it was written.  The text generated for
    [field == value] on a field of text is, for every value whose text is ASCII, the
    field, the operator and one literal with that text, quotes, backslashes and line
    ends included, unless the text has one of the control characters (bell, backspace,
    vertical tab, form feed) for which only Go has an escape: then the generated program
    has no tokens and is not compiled. *)
Lemma string_condition_roundtrip IsPrint x field v :
  is_ident x = true -> isNumericField field = false -> is_ascii (Sprint_v v) = true ->
  tokens (formatEqBinary IsPrint x field v)
  = if quotable (Sprint_v v) then Some [TId x; TSym "=="; TStr (Sprint_v v)] else None.
Proof.
  intros Hx Hf Ha. unfold formatEqBinary. rewrite Hf. unfold tokens. rewrite lex_app.
  destruct (emits_ident x Hx) as (t & m & -> & Hm & Ht). cbn [mbind option_bind].
  rewrite lex_soft by done. rewrite lex_app. change (lex MStart " == ") with (Some ([TSym "=="], MStart)).
  cbn [mbind option_bind]. rewrite lex_Quote by done. destruct (quotable (Sprint_v v)); [|done]. cbn.
  by rewrite app_nil_r, app_assoc, Ht.
Qed.

Lemma string_condition_roundtrip_witness :
  let odd := String dquote (String backslash (String (chr 10) "x")) in
  tokens (formatEqBinary (fun _ => false) "path" "path" (YStr odd)) = Some [TId "path"; TSym "=="; TStr odd] /\
  tokens (formatEqBinary (fun _ => false) "path" "path" (YStr (String (chr 7) "x"))) = None.
Proof. split; apply (string_condition_roundtrip (fun _ => false) "path" "path"); reflexivity. Defined.

(** ** Joined texts *)

Fixpoint join_tokens (sep : list token) (l : list (list token)) : list token :=
  match l with
  | [] => []
  | [x] => x
  | x :: l' => x ++ sep ++ join_tokens sep l'
  end.

Lemma emits_Join sep ts l tl :
  closed sep ts -> delim_head sep = true -> Forall2 emits l tl -> emits (Join sep l) (join_tokens ts tl).
Proof.
  intros Hsep Hd Hl. induction Hl as [|x tx l tl Hx Hl IH]; [by apply closed_emits|].
  destruct Hl as [|y ty l tl Hy Hl]; [done|].
  change (emits (x +:+ sep +:+ Join sep (y :: l)) (tx ++ ts ++ join_tokens ts (ty :: tl))).
  rewrite <- append_assoc, app_assoc. apply closed_emits_app; [|done]. by apply emits_closed_app.
Qed.

(** ** Atoms *)

Inductive lit : Type := LNum (n : Z) | LStr (s : string).

Inductive atom : Type :=
  | ACmp (op x : string) (l : lit)
  | AFun (f x s : string)
  | AMem (f x : string) (ls : list lit).

Section Text.
Context (IsPrint : Z -> bool).

Definition lit_text (l : lit) : string := match l with LNum n => Sprint_d n | LStr s => Quote IsPrint s end.
Definition lit_token (l : lit) : token := match l with LNum n => TNum (Sprint_d n) | LStr s => TStr s end.
Definition lit_expr (l : lit) : rexpr := match l with LNum n => ENum (Sprint_d n) | LStr s => EStr s end.
Definition lit_ok (l : lit) : bool := match l with LNum n => 0 <=? n | LStr s => quotable s end.

Definition atom_text (a : atom) : string :=
  match a with
  | ACmp op x l => x +:+ (" " +:+ op +:+ " ") +:+ lit_text l
  | AFun f x s => f +:+ "(" +:+ x +:+ ", " +:+ Quote IsPrint s +:+ ")"
  | AMem f x ls => f +:+ "(" +:+ x +:+ ", &[" +:+ Join ", " (lit_text <$> ls) +:+ "])"
  end.

Definition atom_tokens (a : atom) : list token :=
  match a with
  | ACmp op x l => [TId x; TSym op; lit_token l]
  | AFun f x s => [TId f; TSym "("; TId x; TSym ","; TStr s; TSym ")"]
  | AMem f x ls =>
      [TId f; TSym "("; TId x; TSym ","; TSym "&"; TSym "["]
        ++ join_tokens [TSym ","] ((fun l => [lit_token l]) <$> ls) ++ [TSym "]"; TSym ")"]
  end.

Definition atom_expr (a : atom) : rexpr :=
  match a with
  | ACmp op x l => ECmp op (EId x) (lit_expr l)
  | AFun f x s => ECall f [EId x; EStr s]
  | AMem f x ls => ECall f [EId x; EArr (lit_expr <$> ls)]
  end.

Definition atom_ok (a : atom) : bool :=
  match a with
  | ACmp op x l => existsb (String.eqb op) cmp_ops && is_ident x && lit_ok l
  | AFun f x s => is_ident f && is_ident x && quotable s
  | AMem f x ls => is_ident f && is_ident x && forallb lit_ok ls
  end.

Lemma emits_lit l : lit_ok l = true -> emits (lit_text l) [lit_token l].
Proof.
  destruct l as [n|s]; cbn; intros Hl.
  - apply emits_number. lia.
  - by apply closed_emits, closed_Quote.
Qed.

Lemma closed_op op : existsb (String.eqb op) cmp_ops = true -> closed (" " +:+ op +:+ " ") [TSym op].
Proof.
  intros (o & Ho & ->%String.eqb_eq)%existsb_exists. cbn in Ho.
  by repeat (destruct Ho as [<-|Ho]; [reflexivity|]).
Qed.

(** [word ++ rest] for a word followed by a delimiter. *)
Lemma closed_word x rest ts :
  is_ident x = true -> delim_head rest = true -> closed rest ts -> closed (x +:+ rest) (TId x :: ts).
Proof. intros Hx. apply (emits_closed_app x rest [TId x]). by apply emits_ident. Qed.

Lemma emits_atom a : atom_ok a = true -> emits (atom_text a) (atom_tokens a).
Proof.
  destruct a as [op x l|f x s|f x ls]; cbn [atom_ok atom_text atom_tokens]; intros [[H1 H2]%andb_prop H3]%andb_prop.
  - rewrite <- append_assoc. apply (closed_emits_app _ _ [TId x; TSym op]); [|by apply emits_lit].
    apply closed_word; [done..|]. by apply closed_op.
  - apply closed_emits, closed_word; [done..|].
    apply (closed_app "(" _ [TSym "("]); [done|]. apply closed_word; [done..|].
    apply (closed_app ", " _ [TSym ","]); [done|]. apply (closed_app _ ")" [TStr s]); [by apply closed_Quote|done].
  - apply closed_emits, closed_word; [done..|].
    apply (closed_app "(" _ [TSym "("]); [done|]. apply closed_word; [done..|].
    apply (closed_app ", &[" _ [TSym ","; TSym "&"; TSym "["]); [done|].
    apply emits_closed_app; [|done..]. apply (emits_Join ", " [TSym ","]); [done..|].
    rewrite forallb_forall in H3. apply Forall2_fmap_2, Forall_Forall2_diag, Forall_forall.
    intros l Hl%list_elem_of_In. by apply emits_lit, H3.
Qed.
End Text.

(** ** Parsing atoms *)

(** Uses up [k] units of the fuel [n]. *)
Tactic Notation "burn" ident(n) integer(k) := do k (destruct n as [|n]; [exfalso; cbn in *; lia|]).

(** One layer of the parser at a time. *)
Lemma p_unary_call n f ts args rest :
  p_args n ")" ts = Some (args, rest) -> p_unary (S n) (TId f :: TSym "(" :: ts) = Some (ECall f args, rest).
Proof. intros Ha. cbn [p_unary next_is String.eqb Ascii.eqb Bool.eqb tail]. by rewrite Ha. Qed.

Lemma p_unary_arr n ts items rest :
  p_args n "]" ts = Some (items, rest) -> p_unary (S n) (TSym "&" :: TSym "[" :: ts) = Some (EArr items, rest).
Proof.
  intros Ha. cbn [p_unary String.eqb Ascii.eqb Bool.eqb].
  change (expect (TSym "[") (TSym "[" :: ts)) with (Some ts). cbn [mbind option_bind]. by rewrite Ha.
Qed.

(** A symbol that ends an expression: a delimiter of a list, or the end of a statement. *)
Definition ends_expr (ts : list token) : bool :=
  match ts with TSym s :: _ => existsb (String.eqb s) [","; "]"; ")"; ";"; "{"; "}"] | _ => false end.

Ltac symbol_cases H :=
  match type of H with _ ?rest = true =>
    destruct rest as [|[?|?|?|?] rest]; try discriminate H; unfold ends_expr in H;
    apply existsb_exists in H as (? & H & ->%String.eqb_eq); cbn in H;
    repeat (destruct H as [<-|H]); try done
  end.

Lemma p_cmp_unary n ts e rest :
  p_unary n ts = Some (e, rest) -> match rest with TSym s :: _ => existsb (String.eqb s) cmp_ops | _ => false end = false ->
  p_cmp (S n) ts = Some (e, rest).
Proof.
  intros Hu Hr. cbn [p_cmp]. rewrite Hu. cbn [mbind option_bind]. destruct rest as [|[?|?|?|s] rest]; try done. by rewrite Hr.
Qed.

Lemma p_and_cmp n ts e rest : p_cmp (S n) ts = Some (e, rest) -> next_is "&&" rest = false -> p_and (S (S n)) ts = Some (e, rest).
Proof. intros Hc Hr. cbn [p_and]. rewrite Hc. cbn [mbind option_bind p_and_tail]. by rewrite Hr. Qed.

Lemma p_or_and n ts e rest : p_and (S n) ts = Some (e, rest) -> next_is "||" rest = false -> p_or (S (S n)) ts = Some (e, rest).
Proof. intros Hc Hr. cbn [p_or]. rewrite Hc. cbn [mbind option_bind p_or_tail]. by rewrite Hr. Qed.

Lemma p_or_unary n ts e rest :
  (4 <= n)%nat -> p_unary (n - 3) ts = Some (e, rest) -> ends_expr rest = true -> p_or n ts = Some (e, rest).
Proof.
  intros Hn Hu Hr. destruct n as [|[|[|n]]]; [lia..|]. replace (S (S (S n)) - 3)%nat with n in Hu by lia.
  apply p_or_and; [|by symbol_cases Hr]. apply p_and_cmp; [|by symbol_cases Hr].
  apply p_cmp_unary; [done|]. by symbol_cases Hr.
Qed.

Lemma p_args_cons n close ts e es ts' rest :
  next_is close ts = false -> p_or n ts = Some (e, TSym "," :: ts') -> p_args n close ts' = Some (es, rest) ->
  p_args (S n) close ts = Some (e :: es, rest).
Proof.
  intros Hn He Hes. cbn [p_args]. rewrite Hn, He. cbn [mbind option_bind next_is String.eqb Ascii.eqb Bool.eqb tail].
  by rewrite Hes.
Qed.

Lemma p_args_last n close ts e rest :
  close <> "," -> next_is close ts = false -> p_or n ts = Some (e, TSym close :: rest) ->
  p_args (S n) close ts = Some ([e], rest).
Proof.
  intros Hc Hn He. cbn [p_args]. rewrite Hn, He. cbn [mbind option_bind next_is].
  rewrite (proj2 (String.eqb_neq _ _) Hc). cbn [expect]. by rewrite decide_True.
Qed.

Lemma p_unary_lit n l rest : p_unary (S n) (lit_token l :: rest) = Some (lit_expr l, rest).
Proof. by destruct l. Qed.

Lemma p_or_lit n l rest :
  (4 <= n)%nat -> ends_expr rest = true -> p_or n (lit_token l :: rest) = Some (lit_expr l, rest).
Proof.
  intros Hn Hr. apply p_or_unary; [done| |done]. replace (n - 3)%nat with (S (n - 4)) by lia. apply p_unary_lit.
Qed.

Lemma p_or_id n x rest :
  (4 <= n)%nat -> ends_expr rest = true -> p_or n (TId x :: rest) = Some (EId x, rest).
Proof.
  intros Hn Hr. apply p_or_unary; [done| |done]. replace (n - 3)%nat with (S (n - 4)) by lia. by symbol_cases Hr.
Qed.

Lemma join_tokens_cons sep x y l : join_tokens sep (x :: y :: l) = x ++ sep ++ join_tokens sep (y :: l).
Proof. done. Qed.

Lemma next_is_lit s l ts : next_is s (lit_token l :: ts) = false.
Proof. by destruct l. Qed.

(** A list of expressions of one token each. *)
Lemma p_args_simple {A} (tok : A -> token) (expr : A -> rexpr) close n l rest :
  close ∈ ["]"; ")"] ->
  (forall s x ts, next_is s (tok x :: ts) = false) ->
  (forall x k rest, (4 <= k)%nat -> ends_expr rest = true -> p_or k (tok x :: rest) = Some (expr x, rest)) ->
  (length l + 5 <= n)%nat ->
  p_args n close (join_tokens [TSym ","] ((fun x => [tok x]) <$> l) ++ TSym close :: rest) = Some (expr <$> l, rest).
Proof.
  intros Hclose Hnext Hor. assert (Hend : ends_expr (TSym close :: rest) = true /\ close <> ",").
  { repeat (apply elem_of_cons in Hclose as [->|Hclose]; [done|]). by apply not_elem_of_nil in Hclose. }
  destruct Hend as [Hend Hne].
  revert n. induction l as [|x l IH]; intros n Hn.
  { destruct n; [cbn in Hn; lia|]. cbn. by rewrite String.eqb_refl. }
  destruct n as [|n]; [lia|]. cbn [length] in Hn. destruct l as [|y l].
  - apply p_args_last; [done|apply Hnext|]. cbn. apply Hor; [lia|done].
  - rewrite !fmap_cons, join_tokens_cons, <- fmap_cons. cbn [app].
    apply p_args_cons with (join_tokens [TSym ","] ((fun x => [tok x]) <$> y :: l) ++ TSym close :: rest).
    + apply Hnext.
    + apply Hor; [lia|done].
    + apply IH. lia.
Qed.

Lemma p_args_lits n ls rest :
  (length ls + 5 <= n)%nat ->
  p_args n "]" (join_tokens [TSym ","] ((fun l => [lit_token l]) <$> ls) ++ TSym "]" :: rest) = Some (lit_expr <$> ls, rest).
Proof.
  apply p_args_simple; [listed|intros; apply next_is_lit|intros; by apply p_or_lit].
Qed.

Lemma p_args_ids n xs rest :
  (length xs + 5 <= n)%nat ->
  p_args n ")" (join_tokens [TSym ","] ((fun x => [TId x]) <$> xs) ++ TSym ")" :: rest) = Some (EId <$> xs, rest).
Proof. apply p_args_simple; [listed|done|intros; by apply p_or_id]. Qed.

(** What can follow an operand in a generated program. *)
Definition operand_end (ts : list token) : bool :=
  match ts with TSym s :: _ => existsb (String.eqb s) ["&&"; "||"; ")"; "{"] | _ => false end.

Lemma operand_end_cmp ts :
  operand_end ts = true -> match ts with TSym s :: _ => existsb (String.eqb s) cmp_ops | _ => false end = false.
Proof.
  destruct ts as [|[?|?|?|s] ts]; try done. cbn [operand_end]. intros (o & Ho & ->%String.eqb_eq)%existsb_exists.
  cbn in Ho. by repeat (destruct Ho as [<-|Ho]; [done|]).
Qed.

Lemma length_join_lits ls :
  (length ls <= length (join_tokens [TSym ","] ((fun l => [lit_token l]) <$> ls)))%nat.
Proof. induction ls as [|l [|l' ls] IH]; cbn in *; lia. Qed.

Lemma p_cmp_atom n a rest :
  atom_ok a = true -> operand_end rest = true -> (length (atom_tokens a) + 16 <= n)%nat ->
  p_cmp n (atom_tokens a ++ rest) = Some (atom_expr a, rest).
Proof.
  intros Ha Hr Hn. destruct a as [op x l|f x s|f x ls]; cbn [atom_tokens atom_expr app] in *.
  - cbn [atom_ok] in Ha. apply andb_prop in Ha as [[Ho _]%andb_prop _]. burn n 3.
    apply existsb_exists in Ho as (o & Ho & ->%String.eqb_eq). cbn in Ho.
    repeat (destruct Ho as [<-|Ho]; [by destruct l|]). done.
  - burn n 4. apply p_cmp_unary; [|by apply operand_end_cmp]. apply p_unary_call.
    eapply p_args_cons; [done|apply p_or_id; [cbn in Hn; lia|done]|].
    apply p_args_last; [done..|]. apply (p_or_lit _ (LStr s)); [cbn in Hn; lia|done].
  - cbn [length] in Hn. rewrite length_app in Hn. pose proof (length_join_lits ls). cbn [length] in Hn.
    burn n 4. rewrite <- app_assoc. apply p_cmp_unary; [|by apply operand_end_cmp]. apply p_unary_call.
    eapply p_args_cons; [done|apply p_or_id; [lia|done]|].
    apply p_args_last; [done..|]. apply p_or_unary; [lia| |done].
    replace (n - 3)%nat with (S (n - 4)) by lia. apply p_unary_arr. cbn [app]. apply p_args_lits. lia.
Qed.

(** ** Conditions *)

(** The conjuncts of a rule: conditions of all, the disjunction of any, negations. *)
Inductive part : Type :=
  | PAtom (a : atom)
  | POr (a : atom) (l : list atom)
  | PNot (a : atom).

Definition part_text (IsPrint : Z -> bool) (p : part) : string :=
  match p with
  | PAtom a => atom_text IsPrint a
  | POr a l => "(" +:+ Join " || " (atom_text IsPrint <$> a :: l) +:+ ")"
  | PNot a => "!(" +:+ atom_text IsPrint a +:+ ")"
  end.

Definition part_tokens (p : part) : list token :=
  match p with
  | PAtom a => atom_tokens a
  | POr a l => TSym "(" :: join_tokens [TSym "||"] (atom_tokens <$> a :: l) ++ [TSym ")"]
  | PNot a => TSym "!" :: TSym "(" :: atom_tokens a ++ [TSym ")"]
  end.

Definition part_expr (p : part) : rexpr :=
  match p with
  | PAtom a => atom_expr a
  | POr a l => foldl EOr (atom_expr a) (atom_expr <$> l)
  | PNot a => ENot (atom_expr a)
  end.

Definition part_ok (p : part) : bool :=
  match p with
  | PAtom a | PNot a => atom_ok a
  | POr a l => forallb atom_ok (a :: l)
  end.

Definition conj_expr (p : part) (ps : list part) : rexpr := foldl EAnd (part_expr p) (part_expr <$> ps).
Definition conj_tokens (p : part) (ps : list part) : list token := join_tokens [TSym "&&"] (part_tokens <$> p :: ps).

Lemma emits_atoms IsPrint l :
  forallb atom_ok l = true -> Forall2 emits (atom_text IsPrint <$> l) (atom_tokens <$> l).
Proof.
  rewrite forallb_forall. intros Hl. apply Forall2_fmap_2, Forall_Forall2_diag, Forall_forall.
  intros a Ha%list_elem_of_In. by apply emits_atom, Hl.
Qed.

Lemma emits_part IsPrint p : part_ok p = true -> emits (part_text IsPrint p) (part_tokens p).
Proof.
  destruct p as [a|a l|a]; cbn [part_ok part_text part_tokens]; intros Hp.
  - by apply emits_atom.
  - apply closed_emits, (closed_app "(" _ [TSym "("]); [done|]. apply emits_closed_app; [|done..].
    apply (emits_Join " || " [TSym "||"]); [done..|]. by apply emits_atoms.
  - apply closed_emits, (closed_app "!(" _ [TSym "!"; TSym "("]); [done|].
    apply emits_closed_app; [by apply emits_atom|done..].
Qed.

Lemma emits_conj IsPrint p ps :
  forallb part_ok (p :: ps) = true ->
  emits (Join " && " (part_text IsPrint <$> p :: ps)) (conj_tokens p ps).
Proof.
  rewrite forallb_forall. intros Hp. apply (emits_Join " && " [TSym "&&"]); [done..|].
  apply Forall2_fmap_2, Forall_Forall2_diag, Forall_forall. intros q Hq%list_elem_of_In. by apply emits_part, Hp.
Qed.

Lemma join_tokens_concat sep x l : join_tokens sep (x :: l) = x ++ concat ((fun y => sep ++ y) <$> l).
Proof.
  revert x. induction l as [|y l IH]; intros x; [cbn; by rewrite app_nil_r|].
  rewrite join_tokens_cons, IH. cbn. by rewrite <- app_assoc.
Qed.

Lemma p_unary_paren n ts e rest :
  p_or n ts = Some (e, TSym ")" :: rest) -> p_unary (S n) (TSym "(" :: ts) = Some (e, rest).
Proof. intros He. cbn [p_unary String.eqb Ascii.eqb Bool.eqb]. by rewrite He. Qed.

Lemma p_unary_not n ts e rest :
  p_unary n ts = Some (e, rest) -> p_unary (S n) (TSym "!" :: ts) = Some (ENot e, rest).
Proof. intros He. cbn [p_unary String.eqb Ascii.eqb Bool.eqb]. by rewrite He. Qed.

Lemma p_or_tail_atoms n acc l rest :
  forallb atom_ok l = true ->
  (length (concat ((fun a => TSym "||" :: atom_tokens a) <$> l)) + 20 <= n)%nat ->
  p_or_tail n acc (concat ((fun a => TSym "||" :: atom_tokens a) <$> l) ++ TSym ")" :: rest)
  = Some (foldl EOr acc (atom_expr <$> l), TSym ")" :: rest).
Proof.
  revert n acc. induction l as [|a l IH]; intros n acc Hok Hn; [by destruct n; [cbn in Hn; lia|]|].
  cbn [forallb] in Hok. apply andb_prop in Hok as [Ha Hl].
  destruct n as [|n]; [lia|]. cbn [fmap list_fmap concat app] in *. rewrite <- app_assoc.
  cbn [length] in Hn. rewrite length_app in Hn.
  cbn [p_or_tail next_is String.eqb Ascii.eqb Bool.eqb tail].
  destruct n as [|[|n]]; [lia..|]. rewrite (p_and_cmp _ _ (atom_expr a)
    (concat ((fun a => TSym "||" :: atom_tokens a) <$> l) ++ TSym ")" :: rest)).
  - cbn [mbind option_bind]. rewrite IH by (done || lia). done.
  - apply p_cmp_atom; [done|by destruct l|lia].
  - by destruct l.
Qed.

Lemma p_or_atoms n a l rest :
  forallb atom_ok (a :: l) = true -> (length (join_tokens [TSym "||"] (atom_tokens <$> a :: l)) + 24 <= n)%nat ->
  p_or n (join_tokens [TSym "||"] (atom_tokens <$> a :: l) ++ TSym ")" :: rest)
  = Some (foldl EOr (atom_expr a) (atom_expr <$> l), TSym ")" :: rest).
Proof.
  cbn [forallb]. intros [Ha Hl]%andb_prop. rewrite fmap_cons, join_tokens_concat, <- list_fmap_compose.
  change ((fun y => [TSym "||"] ++ y) ∘ atom_tokens) with (fun a => TSym "||" :: atom_tokens a).
  rewrite length_app, <- app_assoc. intros Hn. destruct n as [|[|[|n]]]; [lia..|]. cbn [p_or].
  rewrite (p_and_cmp _ _ (atom_expr a) (concat ((fun a => TSym "||" :: atom_tokens a) <$> l) ++ TSym ")" :: rest)).
  - cbn [mbind option_bind]. apply p_or_tail_atoms; [done|lia].
  - apply p_cmp_atom; [done|by destruct l|lia].
  - by destruct l.
Qed.

Lemma p_cmp_part n p rest :
  part_ok p = true -> operand_end rest = true -> (length (part_tokens p) + 32 <= n)%nat ->
  p_cmp n (part_tokens p ++ rest) = Some (part_expr p, rest).
Proof.
  intros Hp Hr Hn. destruct p as [a|a l|a]; cbn [part_ok part_tokens part_expr] in *.
  - apply p_cmp_atom; [done..|lia].
  - cbn [length] in Hn. rewrite length_app in Hn. burn n 2. cbn [app]. rewrite <- app_assoc.
    apply p_cmp_unary; [|by apply operand_end_cmp]. apply p_unary_paren, p_or_atoms; [done|lia].
  - cbn [length] in Hn. rewrite length_app in Hn. burn n 3. cbn [app]. rewrite <- app_assoc.
    apply p_cmp_unary; [|by apply operand_end_cmp]. apply p_unary_not, p_unary_paren.
    apply (p_or_atoms n a [] rest); [cbn; by rewrite Hp|cbn; lia].
Qed.

Lemma p_and_tail_parts n acc ps rest :
  forallb part_ok ps = true ->
  (length (concat ((fun p => TSym "&&" :: part_tokens p) <$> ps)) + 34 <= n)%nat ->
  p_and_tail n acc (concat ((fun p => TSym "&&" :: part_tokens p) <$> ps) ++ TSym "{" :: rest)
  = Some (foldl EAnd acc (part_expr <$> ps), TSym "{" :: rest).
Proof.
  revert n acc. induction ps as [|p ps IH]; intros n acc Hok Hn; [by destruct n; [cbn in Hn; lia|]|].
  cbn [forallb] in Hok. apply andb_prop in Hok as [Hp Hps].
  destruct n as [|n]; [lia|]. cbn [fmap list_fmap concat app] in *. rewrite <- app_assoc.
  cbn [length] in Hn. rewrite length_app in Hn.
  cbn [p_and_tail next_is String.eqb Ascii.eqb Bool.eqb tail].
  rewrite p_cmp_part by (done || lia || by destruct ps). cbn [mbind option_bind]. rewrite IH by (done || lia). done.
Qed.

(** The condition of a rule, followed by the brace of its block, parses to the
    conjunction of its parts. *)
Lemma p_or_conj n p ps rest :
  forallb part_ok (p :: ps) = true -> (length (conj_tokens p ps) + 38 <= n)%nat ->
  p_or n (conj_tokens p ps ++ TSym "{" :: rest) = Some (conj_expr p ps, TSym "{" :: rest).
Proof.
  cbn [forallb]. unfold conj_tokens, conj_expr. intros [Hp Hps]%andb_prop.
  rewrite fmap_cons, join_tokens_concat, <- list_fmap_compose.
  change ((fun y => [TSym "&&"] ++ y) ∘ part_tokens) with (fun p => TSym "&&" :: part_tokens p).
  rewrite length_app, <- app_assoc. intros Hn. destruct n as [|[|[|n]]]; [lia..|].
  apply p_or_and; [|done]. cbn [p_and].
  rewrite p_cmp_part by (done || lia || by destruct ps). cbn [mbind option_bind].
  apply p_and_tail_parts; [done|lia].
Qed.
