(* ===== verification/PolicySemantics.v ===== *)
(** What a policy means, independently of its compilation, and which policies the
    compiler translates.

    The fields of an event are what the binary event carries: strings are cut at the
    size of their field and at a NUL byte.  Rules are tried in order and the first
    match decides. *)

From S2P Require Import Prelude GoApi GoFmt GoWasm PolicySchema PolicyCodegen RustRuntime RustSyntax.
From S2P Require Import RustModule CodegenText.

Import compiler.

(** ** The fields of an event *)

Inductive fval : Type := FNum (z : Z) | FStr (s : list Z).

(** A string in a field of [n] bytes, as it is read back. *)
Definition seen (n : nat) (s : list Z) : list Z := cstr (take n s).

Definition event_name (t : ApiEventType) : string :=
  match t with EventTypeProcess => "process" | EventTypeFile => "file" | EventTypeNetwork => "network" end.

(** The arguments of a process are not part of the event: the field is its path. *)
Definition field_value (event : ApiEvent) (field : string) : fval :=
  match field with
  | "pid" => FNum (to_u32 (ae_PID event))
  | "uid" => FNum (to_u32 (ae_UID event))
  | "gid" => FNum (to_u32 (ae_GID event))
  | "comm" => FStr (seen 64 (ae_Comm event))
  | "path" | "args" | "remote_addr" => FStr (seen 128 (primary_str event))
  | "flags" => FNum (to_u32 (flags_field event))
  | "remote_port" => FNum (to_u16 (port_field ne_RemotePort event))
  | "local_port" => FNum (to_u16 (port_field ne_LocalPort event))
  | _ => FStr (seen 32 (secondary_str event))
  end.

(** ** The meaning of a policy *)

Definition num_of (v : yaml) : option Z :=
  match v with YInt n => Some n | YFloat n _ => n | _ => None end.

Definition equals (fv : fval) (v : yaml) : Prop :=
  match fv with
  | FNum z => num_of v = Some z
  | FStr s => s = bstr (Sprint_v v)
  end.

Definition ordered (R : Z -> Z -> Prop) (fv : fval) (v : yaml) : Prop :=
  match fv, num_of v with FNum z, Some n => R z n | _, _ => False end.

Definition textual (R : list Z -> list Z -> Prop) (fv : fval) (v : yaml) : Prop :=
  match fv with FStr s => R s (bstr (as_string v)) | FNum _ => False end.

Definition holds (event : ApiEvent) (c : Condition) : Prop :=
  let fv := field_value event (c_Field c) in
  let v := c_Value c in
  match c_Operator c with
  | "eq" => equals fv v
  | "not" => ~ equals fv v
  | "any_of" => Exists (equals fv) (toSlice v)
  | "none_of" => ~ Exists (equals fv) (toSlice v)
  | "gt" => ordered Z.gt fv v
  | "lt" => ordered Z.lt fv v
  | "gte" => ordered Z.ge fv v
  | "lte" => ordered Z.le fv v
  | "glob" => textual (fun s p => glob p s) fv v
  | "starts_with" => textual (fun s p => p `prefix_of` s) fv v
  | "contains" => textual (fun s n => exists a b, s = a ++ n ++ b) fv v
  | _ => False
  end.

Record conditions_hold (event : ApiEvent) (cs : Conditions) : Prop := {
  ch_all : Forall (holds event) (c_All cs);
  ch_any : c_Any cs = [] \/ Exists (holds event) (c_Any cs);
  ch_not : Forall (fun c => ~ holds event c) (c_Not cs);
}.

Definition rule_matches (event : ApiEvent) (r : Rule) : Prop :=
  r_Event r = event_name (GetType event) /\ conditions_hold event (r_Conditions r).

(** The rule that decides, if any. *)
Inductive decides (event : ApiEvent) (rules : list Rule) : option Rule -> Prop :=
  | decides_rule pre r post :
      rules = pre ++ r :: post -> Forall (fun r' => ~ rule_matches event r') pre -> rule_matches event r ->
      decides event rules (Some r)
  | decides_default :
      Forall (fun r => ~ rule_matches event r) rules -> decides event rules None.

Definition action_code (action : string) : Z :=
  match action with "deny" => 1 | "log" => 2 | _ => 0 end.

(** Deny rules in audit mode have a code of their own. *)
Definition rule_code (r : Rule) : Z :=
  if String.eqb (r_Mode r) "audit" && String.eqb (r_Action r) "deny" then 3 else action_code (r_Action r).

Definition verdict_code (p : Policy) (o : option Rule) : Z :=
  match o with Some r => rule_code r | None => action_code (p_DefaultAction p) end.

(** ** Policies the compiler translates *)

(** The variables of an evaluator, by the fields they stand for. *)
Definition bound_fields (event : string) : list (string * rty) :=
  match event with
  | "process" => [("pid", U32); ("uid", U32); ("gid", U32); ("comm", Str); ("path", Str); ("args", Str)]
  | "file" => [("pid", U32); ("uid", U32); ("gid", U32); ("comm", Str); ("path", Str); ("operation", Str);
               ("flags", U32)]
  | "network" => [("pid", U32); ("uid", U32); ("gid", U32); ("comm", Str); ("protocol", Str);
                  ("remote_addr", Str); ("remote_port", U16); ("local_port", U16)]
  | _ => []
  end.

Definition lit_of (t : rty) (v : yaml) : option lit :=
  match int_bound t with
  | Some bound => n ← num_of v; if (0 <=? n) && (n <? bound) then Some (LNum n) else None
  | None => if quotable (Sprint_v v) then Some (LStr (Sprint_v v)) else None
  end.

Definition is_str (t : rty) : bool := bool_decide (t = Str).

Definition rust_name (t : rty) : string := match t with U32 => "u32" | U16 => "u16" | _ => "str" end.

Definition cmp_atom (op x : string) (t : rty) (v : yaml) : option atom :=
  l ← lit_of t v; Some (ACmp op x l).
Definition order_atom (op x : string) (t : rty) (v : yaml) : option atom :=
  if is_str t then None else cmp_atom op x t v.
Definition fun_atom (f x : string) (t : rty) (v : yaml) : option atom :=
  if is_str t && quotable (as_string v) then Some (AFun f x (as_string v)) else None.
Definition mem_atom (f x : string) (t : rty) (v : yaml) : option atom :=
  ls ← mapM (lit_of t) (toSlice v); Some (AMem (f +:+ rust_name t) x ls).

(** The atom of a condition whose value fits its field and operator. *)
Definition atom_of (event : string) (c : Condition) : option atom :=
  t ← get (c_Field c) (bound_fields event);
  let x := fieldToRustBinary (c_Field c) event in
  let v := c_Value c in
  match c_Operator c with
  | "eq" => cmp_atom "==" x t v
  | "not" => cmp_atom "!=" x t v
  | "any_of" => mem_atom "any_of_" x t v
  | "none_of" => mem_atom "none_of_" x t v
  | "gt" => order_atom ">" x t v
  | "lt" => order_atom "<" x t v
  | "gte" => order_atom ">=" x t v
  | "lte" => order_atom "<=" x t v
  | "glob" => fun_atom "matches_glob" x t v
  | "starts_with" => fun_atom "str_starts_with" x t v
  | "contains" => fun_atom "str_contains" x t v
  | _ => None
  end.

Definition one_line (s : string) : bool := string_forallb (fun c => negb (code c =? 10)) s.

Definition rule_compiles (r : Rule) : bool :=
  one_line (r_Name r) && quotable (rule_reason r) &&
  forallb (fun c => bool_decide (is_Some (atom_of (r_Event r) c))) (conditions (r_Conditions r)).

Definition policy_compiles (p : Policy) : bool :=
  one_line (p_Name p) && forallb rule_compiles (p_Rules p) && (Z.of_nat (length (p_Rules p)) <? NOT_MATCHED).

(** ** Decisions are unique *)

Lemma decides_cons event r rules o :
  decides event (r :: rules) o ->
  (rule_matches event r /\ o = Some r) \/ (~ rule_matches event r /\ decides event rules o).
Proof.
  intros [pre r' post Heq Hpre Hr'|Hall].
  - destruct pre as [|r0 pre]; injection Heq as -> ->; [by left|]. apply Forall_cons in Hpre as [Hr Hpre].
    right. split; [done|]. by apply (decides_rule _ _ pre _ post).
  - apply Forall_cons in Hall as [Hr Hall]. right. split; [done|]. by apply decides_default.
Qed.

Lemma decides_unique event rules o1 o2 : decides event rules o1 -> decides event rules o2 -> o1 = o2.
Proof.
  induction rules as [|r rules IH].
  - intros [pre ? ? Heq ? ?|] [pre' ? ? Heq' ? ?|]; try done; by destruct pre || destruct pre'.
  - intros [[? ->]|[? H1]]%decides_cons [[? ->]|[? H2]]%decides_cons; try done. by apply IH.
Qed.
