(* ===== verification/CodegenCorrect.v ===== *)
(** The compiler is correct: the program generated for a policy parses and
    type-checks, and its evaluators compute what the policy means. *)

From S2P Require Import Prelude GoApi GoFmt GoWasm PolicySchema PolicyCodegen RustSyntax RustRuntime.
From S2P Require Import RustModule CodegenText PolicySemantics.

Import compiler.

(** ** From conditions to atoms *)

Definition events : list string := ["process"; "file"; "network"].

Record bound_facts (event f : string) (t : rty) : Prop := {
  bf_type : t ∈ [U32; U16; Str];
  bf_numeric : isNumericField f = negb (is_str t);
  bf_name : fieldRustType f = rust_name t;
  bf_ident : is_ident (fieldToRustBinary f event) = true;
}.

Lemma bound_field event f t : event ∈ events -> get f (bound_fields event) = Some t -> bound_facts event f t.
Proof.
  intros He Hf. list_cases He; cbn [bound_fields get] in Hf;
    repeat (match type of Hf with context [String.eqb ?a ?b] => destruct (String.eqb_spec a b) as [<-|_] end;
      [injection Hf as <-; split; [listed|reflexivity..]|]); discriminate Hf.
Qed.

Section Text.
Context (IsPrint : Z -> bool).

Lemma formatNumeric_num v n : num_of v = Some n -> formatNumeric v = Sprint_d n.
Proof. destruct v as [| |m|m text| | | |]; try done; cbn; intros [= ->]; done. Qed.

Lemma lit_of_spec t v l :
  t ∈ [U32; U16; Str] -> lit_of t v = Some l ->
  lit_ok l = true /\ (if is_str t then Quote IsPrint (Sprint_v v) else formatNumeric v) = lit_text IsPrint l.
Proof.
  intros Ht Hl. unfold lit_of in Hl.
  assert (Hnum : forall bound, (n ← num_of v; if (0 <=? n) && (n <? bound) then Some (LNum n) else None) = Some l ->
    lit_ok l = true /\ formatNumeric v = lit_text IsPrint l).
  { intros bound Hb. destruct (num_of v) as [n|] eqn:Hn; [|done]. cbn in Hb.
    destruct (0 <=? n) eqn:H0; [|done]. destruct (n <? bound); [|done]. injection Hb as <-.
    split; [done|by apply formatNumeric_num]. }
  list_cases Ht; cbn [int_bound] in Hl; [by eapply Hnum..|].
  destruct (quotable (Sprint_v v)) eqn:Hq; [|done]. injection Hl as <-. done.
Qed.

Lemma lits_of_spec t vs ls :
  t ∈ [U32; U16; Str] -> mapM (lit_of t) vs = Some ls ->
  forallb lit_ok ls = true /\
  (if is_str t then (fun v => Quote IsPrint (Sprint_v v)) <$> vs else formatNumeric <$> vs) = lit_text IsPrint <$> ls.
Proof.
  intros Ht Hls%mapM_Some. induction Hls as [|v l vs ls Hl _ [IH1 IH2]]; [by destruct (is_str t)|].
  destruct (lit_of_spec t v l Ht Hl) as [Hok Htext]. cbn. rewrite Hok, IH1. split; [done|].
  destruct (is_str t); cbn; congruence.
Qed.

(** The text of an atom with variable [x] of type [t] and value [v]. *)
Section Atoms.
Context (x : string) (t : rty) (v : yaml) (a : atom).
Context (Ht : t ∈ [U32; U16; Str]) (Hid : is_ident x = true).

Lemma cmp_atom_text op :
  existsb (String.eqb op) cmp_ops = true -> cmp_atom op x t v = Some a ->
  x +:+ (" " +:+ op +:+ " ") +:+ (if is_str t then Quote IsPrint (Sprint_v v) else formatNumeric v)
    = atom_text IsPrint a /\ atom_ok a = true.
Proof.
  intros Ho Hc. unfold cmp_atom in Hc. destruct (lit_of t v) as [l|] eqn:Hl; [|done]. injection Hc as <-.
  destruct (lit_of_spec t v l Ht Hl) as [Hok Htext]. cbn [atom_text atom_ok]. by rewrite Htext, Ho, Hid, Hok.
Qed.

Lemma order_atom_text op :
  existsb (String.eqb op) cmp_ops = true -> order_atom op x t v = Some a ->
  x +:+ (" " +:+ op +:+ " ") +:+ formatNumeric v = atom_text IsPrint a /\ atom_ok a = true.
Proof.
  intros Ho Hc. unfold order_atom in Hc. pose proof (cmp_atom_text op Ho) as Hcmp.
  destruct (is_str t); [done|]. by apply Hcmp.
Qed.

Lemma fun_atom_text g :
  is_ident g = true -> fun_atom g x t v = Some a ->
  g +:+ "(" +:+ x +:+ ", " +:+ Quote IsPrint (as_string v) +:+ ")" = atom_text IsPrint a /\ atom_ok a = true.
Proof.
  intros Hg Hc. unfold fun_atom in Hc. destruct (is_str t); [|done].
  destruct (quotable (as_string v)) eqn:Hq; [|done].
  injection Hc as <-. cbn [atom_text atom_ok]. by rewrite Hg, Hid, Hq.
Qed.

Lemma mem_atom_text g :
  is_ident (g +:+ rust_name t) = true -> mem_atom g x t v = Some a ->
  g +:+ rust_name t +:+ "(" +:+ x +:+ ", &[" +:+ Join ", "
    (if is_str t then (fun v => Quote IsPrint (Sprint_v v)) <$> toSlice v else formatNumeric <$> toSlice v) +:+ "])"
    = atom_text IsPrint a /\ atom_ok a = true.
Proof.
  intros Hg Hc. unfold mem_atom in Hc. destruct (mapM (lit_of t) (toSlice v)) as [ls|] eqn:Hl; [|done].
  injection Hc as <-. destruct (lits_of_spec t (toSlice v) ls Ht Hl) as [Hok Htext]. cbn [atom_text atom_ok].
  by rewrite Htext, Hg, Hid, Hok, append_assoc.
Qed.
End Atoms.

Lemma is_ident_mem g t : t ∈ [U32; U16; Str] -> g ∈ ["any_of_"; "none_of_"] -> is_ident (g +:+ rust_name t) = true.
Proof. intros Ht Hg. list_cases Ht; by list_cases Hg. Qed.

Lemma is_str_name t : t ∈ [U32; U16; Str] -> is_str t = true -> rust_name t = "str".
Proof. intros Ht. by list_cases Ht. Qed.

(** The text of a condition is the text of its atom. *)
Lemma condition_text event c a :
  event ∈ events -> c_Operator c ∈ operators -> atom_of event c = Some a ->
  conditionToRustBinary IsPrint event c = atom_text IsPrint a /\ atom_ok a = true.
Proof.
  destruct c as [f op v]. cbn [c_Operator]. intros He Hop Ha. unfold atom_of in Ha.
  cbn [c_Field c_Operator c_Value] in Ha. destruct (get f (bound_fields event)) as [t|] eqn:Hf; [|done].
  cbn [mbind option_bind] in Ha. destruct (bound_field _ _ _ He Hf) as [Ht Hnum Hname Hid].
  unfold conditionToRustBinary. cbn [c_Field c_Operator c_Value].
  list_cases Hop.
  - unfold formatEqBinary. rewrite Hnum. pose proof (cmp_atom_text _ t v a Ht Hid "==" eq_refl Ha). by destruct (is_str t).
  - unfold formatNotBinary. rewrite Hnum. pose proof (cmp_atom_text _ t v a Ht Hid "!=" eq_refl Ha). by destruct (is_str t).
  - unfold formatAnyOfBinary. rewrite Hnum, Hname.
    pose proof (mem_atom_text _ t v a Ht Hid "any_of_" (is_ident_mem "any_of_" t Ht ltac:(listed)) Ha) as Hm.
    pose proof (is_str_name t Ht) as Hs. destruct (is_str t); [by rewrite (Hs eq_refl) in Hm|done].
  - unfold formatNoneOfBinary. rewrite Hnum, Hname.
    pose proof (mem_atom_text _ t v a Ht Hid "none_of_" (is_ident_mem "none_of_" t Ht ltac:(listed)) Ha) as Hm.
    pose proof (is_str_name t Ht) as Hs. destruct (is_str t); [by rewrite (Hs eq_refl) in Hm|done].
  - exact (fun_atom_text _ t v a Hid "matches_glob" eq_refl Ha).
  - exact (order_atom_text _ t v a Ht Hid ">" eq_refl Ha).
  - exact (order_atom_text _ t v a Ht Hid "<" eq_refl Ha).
  - exact (order_atom_text _ t v a Ht Hid ">=" eq_refl Ha).
  - exact (order_atom_text _ t v a Ht Hid "<=" eq_refl Ha).
  - exact (fun_atom_text _ t v a Hid "str_starts_with" eq_refl Ha).
  - exact (fun_atom_text _ t v a Hid "str_contains" eq_refl Ha).
Qed.

(** ** From rules to tokens *)

Lemma ident_nonempty x s : is_ident x = true -> nonempty (x +:+ s) = true.
Proof. by destruct x. Qed.

Lemma atom_text_nonempty a : atom_ok a = true -> nonempty (atom_text IsPrint a) = true.
Proof.
  destruct a as [op x l|f x s|f x ls]; cbn [atom_ok atom_text]; intros [[H1 H2]%andb_prop _]%andb_prop;
    by apply ident_nonempty.
Qed.

Lemma Join_Join sep l l' : l <> [] -> Join sep (Join sep l :: l') = Join sep (l ++ l').
Proof.
  induction l as [|x l IH]; [done|]. intros _. destruct l as [|y l]; [done|].
  specialize (IH ltac:(done)). destruct l' as [|z l'].
  { by rewrite app_nil_r. }
  change (Join sep (Join sep (x :: y :: l) :: z :: l')) with (Join sep (x :: y :: l) +:+ sep +:+ Join sep (z :: l')).
  change (Join sep (Join sep (y :: l) :: z :: l')) with (Join sep (y :: l) +:+ sep +:+ Join sep (z :: l')) in IH.
  change (Join sep (x :: y :: l)) with (x +:+ sep +:+ Join sep (y :: l)).
  change (Join sep ((x :: y :: l) ++ z :: l')) with (x +:+ sep +:+ Join sep ((y :: l) ++ z :: l')).
  by rewrite <- IH, !append_assoc.
Qed.

Lemma forallb_fmap {A B} (f : A -> B) (P : B -> bool) l : forallb P (f <$> l) = forallb (fun x => P (f x)) l.
Proof. induction l as [|x l IH]; [done|]. cbn. by rewrite <- IH. Qed.

Definition any_part (l : list atom) : list part := match l with [] => [] | a :: l => [POr a l] end.

(** The parts of a rule's condition. *)
Definition parts_of (event : string) (cs : Conditions) : option (list part) :=
  all ← mapM (atom_of event) (c_All cs);
  any ← mapM (atom_of event) (c_Any cs);
  not ← mapM (atom_of event) (c_Not cs);
  Some ((PAtom <$> all) ++ any_part any ++ (PNot <$> not)).

Lemma atoms_text event cs l :
  event ∈ events -> Forall (fun c => c_Operator c ∈ operators) cs -> mapM (atom_of event) cs = Some l ->
  filter (fun e => nonempty e = true) (conditionToRustBinary IsPrint event <$> cs) = atom_text IsPrint <$> l /\
  forallb atom_ok l = true.
Proof.
  intros He Hops Hl%mapM_Some. induction Hl as [|c a cs l Ha _ IH]; [done|].
  apply Forall_cons in Hops as [Hop Hops]. destruct (IH Hops) as [IH1 IH2].
  destruct (condition_text event c a He Hop Ha) as [Htext Hok]. cbn [fmap list_fmap forallb].
  rewrite filter_cons_True by (rewrite Htext; by apply atom_text_nonempty).
  rewrite Htext, Hok, IH2. split; [f_equal; exact IH1|done].
Qed.

Lemma conditions_text event cs ps :
  event ∈ events -> Forall (fun c => c_Operator c ∈ operators) (conditions cs) -> parts_of event cs = Some ps ->
  generateConditionExprBinary IsPrint cs event = Join " && " (part_text IsPrint <$> ps) /\ forallb part_ok ps = true.
Proof.
  intros He Hops Hp. unfold conditions in Hops. rewrite !Forall_app in Hops. destruct Hops as (H1 & H2 & H3).
  unfold parts_of in Hp.
  destruct (mapM (atom_of event) (c_All cs)) as [all|] eqn:Hall; [|done].
  destruct (mapM (atom_of event) (c_Any cs)) as [any|] eqn:Hany; [|done].
  destruct (mapM (atom_of event) (c_Not cs)) as [not|] eqn:Hnot; [|done]. injection Hp as <-.
  apply atoms_text in Hall as [Hall1 Hall2], Hany as [Hany1 Hany2], Hnot as [Hnot1 Hnot2]; [|done..].
  unfold generateConditionExprBinary. rewrite Hall1, Hany1, Hnot1. split.
  - rewrite !fmap_app, <- !list_fmap_compose. 
    replace (match atom_text IsPrint <$> any with [] => [] | parts => ["(" +:+ Join " || " parts +:+ ")"] end)
      with (part_text IsPrint <$> any_part any) by (by destruct any).
    destruct all as [|a all]; [done|].
    pose proof (Join_Join " && " (atom_text IsPrint a :: (atom_text IsPrint <$> all))
      ((part_text IsPrint <$> any_part any) ++ (part_text IsPrint ∘ PNot <$> not))) as HJ.
    apply HJ. done.
  - rewrite !forallb_app, !forallb_fmap. apply andb_true_iff. split; [exact Hall2|]. apply andb_true_iff. split; [|exact Hnot2].
    destruct any as [|a any]; [done|]. cbn [any_part forallb part_ok]. by rewrite andb_true_r.
Qed.

Lemma mapM_is_Some {A B} (f : A -> option B) l :
  forallb (fun x => bool_decide (is_Some (f x))) l = true -> exists l', mapM f l = Some l'.
Proof.
  rewrite forallb_forall. intros Hl. apply mapM_is_Some, Forall_forall. intros x Hx%list_elem_of_In.
  specialize (Hl x Hx). by apply bool_decide_eq_true in Hl.
Qed.

Definition rule_parts (r : Rule) : list part := from_option id [] (parts_of (r_Event r) (r_Conditions r)).

(** A rule the compiler accepts has parts. *)
Lemma rule_parts_some r :
  rule_ok r -> rule_compiles r = true ->
  exists q qs, parts_of (r_Event r) (r_Conditions r) = Some (q :: qs) /\ rule_parts r = q :: qs.
Proof.
  intros [_ _ _ _ Hsome _] Hc. unfold rule_compiles in Hc. apply andb_prop in Hc as [_ Hc].
  unfold conditions in Hsome, Hc. rewrite !forallb_app in Hc. apply andb_prop in Hc as [H1 [H2 H3]%andb_prop].
  apply mapM_is_Some in H1 as [all H1], H2 as [any H2], H3 as [not H3].
  assert (Hp : parts_of (r_Event r) (r_Conditions r) = Some ((PAtom <$> all) ++ any_part any ++ (PNot <$> not)))
    by (unfold parts_of; rewrite H1, H2, H3; done).
  destruct ((PAtom <$> all) ++ any_part any ++ (PNot <$> not)) as [|q qs] eqn:Hq.
  - exfalso. apply Hsome. apply app_eq_nil in Hq as [Ha [Hb Hd]%app_eq_nil].
    apply fmap_nil_inv in Ha as ->, Hd as ->. destruct any; [|done].
    apply mapM_Some, Forall2_nil_inv_r in H1 as ->, H2 as ->, H3 as ->. done.
  - exists q, qs. unfold rule_parts. by rewrite Hp.
Qed.

Definition rule_act (r : Rule) : string :=
  if String.eqb (r_Mode r) "audit" && String.eqb (r_Action r) "deny" then "ACTION_AUDIT_DENY"
  else actionConstant (r_Action r).

Definition if_tokens (q : part) (qs : list part) (i : Z) (act : string) : list token :=
  TId "if" :: conj_tokens q qs ++
  [TSym "{"; TId "LAST_MATCHED"; TSym "="; TNum (Sprint_d i); TSym ";"; TId "return"; TId act; TSym ";"; TSym "}"].

Lemma closed_comment head s :
  lex MStart head = Some ([], MComment) -> one_line s = true -> closed (head +:+ s +:+ nl) [].
Proof.
  intros Hh Hs. unfold closed. rewrite lex_app, Hh. cbn [mbind option_bind]. rewrite lex_app.
  assert (Hc : lex MComment s = Some ([], MComment)).
  { unfold one_line in Hs. induction s as [|c s IH]; [done|]. cbn in Hs. apply andb_prop in Hs as [Hc Hs].
    apply negb_true_iff in Hc. cbn [lex step]. rewrite Hc. cbn. by rewrite IH. }
  by rewrite Hc.
Qed.

Lemma part_text_nonempty q : part_ok q = true -> nonempty (part_text IsPrint q) = true.
Proof. destruct q as [a|a l|a]; [apply atom_text_nonempty|done..]. Qed.

Lemma Join_nonempty sep x l : nonempty x = true -> nonempty (Join sep (x :: l)) = true.
Proof. destruct x; [done|]. by destruct l. Qed.

Lemma act_ident r : is_ident (rule_act r) = true.
Proof. unfold rule_act. destruct (_ && _); [done|]. unfold actionConstant. by repeat case_match. Qed.

Lemma closed_rule r q qs i :
  rule_ok r -> rule_compiles r = true -> parts_of (r_Event r) (r_Conditions r) = Some (q :: qs) -> 0 <= i ->
  closed (writeRuleCheckBinary IsPrint r (r_Event r) i) (if_tokens q qs i (rule_act r)).
Proof.
  intros Hok Hc Hp Hi. pose proof Hok as [_ He _ _ _ Hconds].
  assert (Hops : Forall (fun c => c_Operator c ∈ operators) (conditions (r_Conditions r))).
  { eapply Forall_impl; [exact Hconds|]. by intros c [_ ?]. }
  destruct (conditions_text _ _ _ He Hops Hp) as [Htext Hparts].
  unfold rule_compiles in Hc. apply andb_prop in Hc as [[Hname _]%andb_prop _].
  unfold writeRuleCheckBinary. fold (rule_act r). rewrite Htext.
  pose proof (emits_conj IsPrint q qs Hparts) as Hcond. set (text := Join " && " _) in *.
  assert (Hne : nonempty text = true) by (by apply Join_nonempty, part_text_nonempty, (proj1 (andb_prop _ _ Hparts))).
  rewrite Hne. clearbody text. clear Hne Htext.
  set (t5 := ";" +:+ nl +:+ "    }" +:+ nl +:+ nl).
  set (t3 := ";" +:+ nl +:+ "        return " +:+ rule_act r +:+ t5).
  set (t1 := " {" +:+ nl +:+ "        LAST_MATCHED = " +:+ Sprint_d i +:+ t3).
  assert (H4 : closed (rule_act r +:+ t5) [TId (rule_act r); TSym ";"; TSym "}"])
    by (apply closed_word; [apply act_ident|done..]).
  assert (H3 : closed t3 [TSym ";"; TId "return"; TId (rule_act r); TSym ";"; TSym "}"])
    by exact (closed_app (";" +:+ nl +:+ "        return ") _ _ _ eq_refl H4).
  pose proof (emits_closed_app _ t3 _ _ (emits_number i Hi) eq_refl H3) as H2.
  pose proof (closed_app (" {" +:+ nl +:+ "        LAST_MATCHED = ") _ _ _ eq_refl H2) as H1.
  pose proof (emits_closed_app _ t1 _ _ Hcond eq_refl H1) as H0.
  pose proof (closed_app "    if " _ [TId "if"] _ eq_refl H0) as Hif.
  pose proof (closed_app _ _ _ _ (closed_comment "    // Rule: " _ eq_refl Hname) Hif) as Hall.
  rewrite !append_assoc in Hall. exact Hall.
Qed.
End Text.

(** ** From a policy to a crate *)

Section Crate.
Context (IsPrint : Z -> bool) (p : Policy).
Context (Hok : policy_ok p) (Hcomp : policy_compiles p = true).

Definition rule_tokens (r : Rule) : list token :=
  match rule_parts r with q :: qs => if_tokens q qs (globalRuleIndex p r) (rule_act r) | [] => [] end.

Definition rule_stmt (r : Rule) : stmt :=
  match rule_parts r with
  | q :: qs => SIf (conj_expr q qs) (ENum (Sprint_d (globalRuleIndex p r))) (EId (rule_act r))
  | [] => SReturn (EId "ACTION_ALLOW")
  end.

Definition default_act : string := actionConstant (p_DefaultAction p).

Definition rules_tokens (rules : list Rule) : list token :=
  concat (rule_tokens <$> rules) ++ [TId default_act; TSym "}"].

Lemma compiled_rule r :
  r ∈ p_Rules p -> rule_ok r /\ rule_compiles r = true /\
  exists q qs, parts_of (r_Event r) (r_Conditions r) = Some (q :: qs) /\ rule_parts r = q :: qs.
Proof.
  intros Hr. destruct Hok as [_ _ _ Hrules _]. rewrite Forall_forall in Hrules. specialize (Hrules r Hr).
  unfold policy_compiles in Hcomp. apply andb_prop in Hcomp as [[_ Hc]%andb_prop _].
  rewrite forallb_forall in Hc. specialize (Hc r (proj1 (list_elem_of_In _ _) Hr)).
  split_and!; [done..|]. by apply rule_parts_some.
Qed.

Lemma globalRuleIndex_nonneg r : 0 <= globalRuleIndex p r.
Proof. unfold globalRuleIndex. destruct (list_find _ _) as [[i r']|]; lia. Qed.

Lemma default_ident : is_ident default_act = true.
Proof. unfold default_act, actionConstant. by repeat case_match. Qed.

Lemma closed_rules event :
  closed (writeRules IsPrint p event) (rules_tokens (rulesForEvent p event)).
Proof.
  unfold writeRules, rules_tokens. apply closed_app.
  - assert (Hin : Forall (fun r => r_Event r = event /\ r ∈ p_Rules p) (rulesForEvent p event)).
    { apply Forall_forall. intros r Hr. by apply list_elem_of_filter in Hr. }
    induction Hin as [|r rules [He Hr] _ IH]; [done|]. cbn [fmap list_fmap concat concat_str].
    apply closed_app; [|exact IH]. destruct (compiled_rule r Hr) as (Hrok & Hrc & q & qs & Hp & Hq).
    unfold rule_tokens. rewrite Hq, <- He. apply closed_rule; [done..|]. apply globalRuleIndex_nonneg.
  - apply (closed_app "    " _ []); [done|]. apply closed_word; [apply default_ident|done..].
Qed.

Lemma expect_same t ts : expect t (t :: ts) = Some ts.
Proof. cbn. by rewrite decide_True. Qed.

(** Consumes the tokens that are expected. *)
Ltac expects := cbn [mbind option_bind expect_all]; repeat (rewrite expect_same; cbn [mbind option_bind]).

Lemma p_body_if n q qs i act rest b t rest' :
  forallb part_ok (q :: qs) = true -> (length (if_tokens q qs i act) + 40 <= S n)%nat ->
  p_body n rest = Some (b, t, rest') ->
  p_body (S n) (if_tokens q qs i act ++ rest)
  = Some (SIf (conj_expr q qs) (ENum (Sprint_d i)) (EId act) :: b, t, rest').
Proof.
  intros Hp Hn Hb. unfold if_tokens in *. cbn [length] in Hn. rewrite length_app in Hn. cbn [app length] in *.
  rewrite <- app_assoc. cbn [app].
  cbn [p_body String.eqb Ascii.eqb Bool.eqb]. rewrite p_or_conj by (done || lia). expects.
  change (TNum (Sprint_d i)) with (lit_token (LNum i)). rewrite p_or_lit by (done || lia). expects.
  rewrite p_or_id by (done || lia). expects. by rewrite Hb.
Qed.

Lemma rule_parts_ok r : r ∈ p_Rules p -> forallb part_ok (rule_parts r) = true.
Proof.
  intros Hr. destruct (compiled_rule r Hr) as ([_ He _ _ _ Hconds] & _ & q & qs & Hp & ->).
  apply (conditions_text (fun _ => false)) in Hp as [_ ?]; [done..|].
  eapply Forall_impl; [exact Hconds|]. by intros c [_ ?].
Qed.

Lemma p_body_tail n x rest :
  (5 <= n)%nat -> negb (existsb (String.eqb x) ["let"; "if"; "return"]) = true ->
  p_body n (TId x :: TSym "}" :: rest) = Some ([], EId x, rest).
Proof.
  intros Hn Hx. destruct n as [|n]; [lia|]. apply negb_true_iff in Hx. cbn [existsb] in Hx.
  rewrite !orb_false_iff in Hx. destruct Hx as (H1 & H2 & H3 & _). cbn [p_body]. rewrite H1, H2, H3.
  rewrite p_or_id by (done || lia). by expects.
Qed.

Lemma p_body_rules n rules rest :
  Forall (fun r => r ∈ p_Rules p) rules -> (length (rules_tokens rules) + 40 <= n)%nat ->
  p_body n (rules_tokens rules ++ rest) = Some (rule_stmt <$> rules, EId default_act, rest).
Proof.
  intros Hrules. revert n. induction Hrules as [|r rules Hr _ IH]; intros n Hn.
  - apply p_body_tail; [lia|]. unfold default_act, actionConstant. by repeat case_match.
  - unfold rules_tokens in *. cbn [fmap list_fmap concat] in *. rewrite <- !app_assoc in *.
    rewrite length_app in Hn.
    destruct (compiled_rule r Hr) as (_ & _ & q & qs & _ & Hq). pose proof (rule_parts_ok r Hr) as Hpok.
    assert (Hrt : rule_tokens r = if_tokens q qs (globalRuleIndex p r) (rule_act r)) by (unfold rule_tokens; by rewrite Hq).
    assert (Hrs : rule_stmt r = SIf (conj_expr q qs) (ENum (Sprint_d (globalRuleIndex p r))) (EId (rule_act r)))
      by (unfold rule_stmt; by rewrite Hq).
    rewrite Hrt, Hrs in *. rewrite Hq in Hpok. destruct n as [|n]; [lia|]. apply p_body_if; [done|lia|].
    apply IH. unfold if_tokens in Hn. cbn [length] in Hn. lia.
Qed.

(** The bindings of an evaluator: variable, helper function and its arguments. *)
Definition bindings (event : string) : list (string * string * list string) :=
  [("pid", "read_u32", ["base"; "OFF_PID"]); ("uid", "read_u32", ["base"; "OFF_UID"]);
   ("gid", "read_u32", ["base"; "OFF_GID"]); ("comm", "read_str", ["base"; "OFF_COMM"; "OFF_COMM_LEN"])] ++
  match event with
  | "process" => [("path", "read_str", ["base"; "OFF_PRIMARY_STR"; "OFF_PRIMARY_STR_LEN"])]
  | "file" =>
      [("path", "read_str", ["base"; "OFF_PRIMARY_STR"; "OFF_PRIMARY_STR_LEN"]);
       ("flags", "read_u32", ["base"; "OFF_FLAGS"]);
       ("operation", "read_str", ["base"; "OFF_SECONDARY_STR"; "OFF_SECONDARY_STR_LEN"])]
  | _ =>
      [("remote_addr", "read_str", ["base"; "OFF_PRIMARY_STR"; "OFF_PRIMARY_STR_LEN"]);
       ("remote_port", "read_u16", ["base"; "OFF_REMOTE_PORT"]);
       ("local_port", "read_u16", ["base"; "OFF_LOCAL_PORT"]);
       ("protocol", "read_str", ["base"; "OFF_SECONDARY_STR"; "OFF_SECONDARY_STR_LEN"])]
  end.

Definition discarded (event : string) : list string :=
  match event with "file" => ["pid"; "gid"; "comm"; "flags"] | _ => ["pid"; "gid"; "comm"] end.

Definition ids_tokens (xs : list string) : list token := join_tokens [TSym ","] ((fun x => [TId x]) <$> xs).

Definition let_tokens (b : string * string * list string) : list token :=
  let '(x, f, xs) := b in
  TId "let" :: TId x :: TSym "=" :: TId f :: TSym "(" :: ids_tokens xs ++ [TSym ")"; TSym ";"].
Definition let_stmt (b : string * string * list string) : stmt :=
  let '(x, f, xs) := b in SLet x (ECall f (EId <$> xs)).

Definition head_tokens (event : string) : list token :=
  concat (let_tokens <$> bindings event) ++
  TId "let" :: TId "_" :: TSym "=" :: TSym "(" :: ids_tokens (discarded event) ++ [TSym ")"; TSym ";"].

Definition fn_tokens (event : string) : list token :=
  fn_header ("evaluate_" +:+ event) ++ head_tokens event ++ rules_tokens (rulesForEvent p event).

Definition evaluator (event : string) : rust_fn :=
  MkFn ("evaluate_" +:+ event)
    ((let_stmt <$> bindings event) ++ SDiscard (EId <$> discarded event) :: (rule_stmt <$> rulesForEvent p event))
    (EId default_act).

Lemma closed_process : closed (writeProcessEvaluatorBinary IsPrint p) (fn_tokens "process").
Proof. unfold fn_tokens. rewrite app_assoc. apply closed_app; [by vm_compute|apply closed_rules]. Qed.
Lemma closed_file : closed (writeFileEvaluatorBinary IsPrint p) (fn_tokens "file").
Proof. unfold fn_tokens. rewrite app_assoc. apply closed_app; [by vm_compute|apply closed_rules]. Qed.
Lemma closed_network : closed (writeNetworkEvaluatorBinary IsPrint p) (fn_tokens "network").
Proof. unfold fn_tokens. rewrite app_assoc. apply closed_app; [by vm_compute|apply closed_rules]. Qed.

Lemma length_ids xs : (length xs <= length (ids_tokens xs))%nat.
Proof. unfold ids_tokens. induction xs as [|x [|y xs] IH]; cbn in *; lia. Qed.

Lemma p_body_let n b rest body t rest' :
  b.1.1 <> "_" -> (length (let_tokens b) + 10 <= S n)%nat -> p_body n rest = Some (body, t, rest') ->
  p_body (S n) (let_tokens b ++ rest) = Some (let_stmt b :: body, t, rest').
Proof.
  destruct b as [[x f] xs]. cbn [fst let_tokens let_stmt]. intros Hx Hn Hb.
  cbn [length] in Hn. rewrite length_app in Hn. pose proof (length_ids xs). cbn [app]. rewrite <- app_assoc. cbn [app].
  cbn [p_body String.eqb Ascii.eqb Bool.eqb negb]. rewrite (proj2 (String.eqb_neq _ _) Hx).
  rewrite (p_or_unary _ _ (ECall f (EId <$> xs)) (TSym ";" :: rest)); [|lia| |done].
  - expects. by rewrite Hb.
  - replace (S n - 3)%nat with (S (n - 3)) by lia. apply p_unary_call, p_args_ids. lia.
Qed.

Lemma p_body_discard n xs rest body t rest' :
  (length xs + 5 <= S n)%nat -> p_body n rest = Some (body, t, rest') ->
  p_body (S n) (TId "let" :: TId "_" :: TSym "=" :: TSym "(" :: ids_tokens xs ++ TSym ")" :: TSym ";" :: rest)
  = Some (SDiscard (EId <$> xs) :: body, t, rest').
Proof.
  intros Hn Hb. cbn [p_body String.eqb Ascii.eqb Bool.eqb negb]. expects.
  unfold ids_tokens. rewrite p_args_ids by lia. expects. by rewrite Hb.
Qed.

Lemma p_body_lets n bs rest body t rest' :
  Forall (fun b => b.1.1 <> "_") bs -> (length (concat (let_tokens <$> bs)) + 10 <= n)%nat ->
  p_body (n - length bs) rest = Some (body, t, rest') ->
  p_body n (concat (let_tokens <$> bs) ++ rest) = Some ((let_stmt <$> bs) ++ body, t, rest').
Proof.
  intros Hbs. revert n. induction Hbs as [|b bs Hb _ IH]; intros n Hn Hrest.
  { by rewrite Nat.sub_0_r in Hrest. }
  cbn [fmap list_fmap concat] in *. rewrite length_app in Hn. rewrite <- app_assoc.
  destruct n as [|n]; [lia|]. apply p_body_let; [done|lia|]. apply IH; [|done].
  destruct b as [[x f] xs]. cbn in Hn. lia.
Qed.

Lemma p_fn_evaluator n event name rest :
  event ∈ events -> name = "evaluate_" +:+ event -> (length (fn_tokens event) + 50 <= n)%nat ->
  p_fn n name (fn_tokens event ++ rest) = Some (evaluator event, rest).
Proof.
  intros He -> Hn. unfold p_fn, fn_tokens in *. rewrite !length_app in Hn.
  assert (Hh : forall h ts, expect_all h (h ++ ts) = Some ts).
  { induction h as [|t h IH]; intros ts; [done|]. cbn [app expect_all]. rewrite expect_same. apply IH. }
  rewrite <- app_assoc, Hh. cbn [mbind option_bind]. unfold head_tokens in *. rewrite <- !app_assoc. cbn [app].
  assert (Hrules : Forall (fun r => r ∈ p_Rules p) (rulesForEvent p event)).
  { apply Forall_forall. intros r Hr. by apply list_elem_of_filter in Hr as [_ ?]. }
  assert (Hlen : (length (bindings event) <= 8 /\ length (discarded event) <= 4)%nat) by (list_cases He; cbn; lia).
  rewrite length_app in Hn.
  erewrite p_body_lets; [| |lia|].
  - cbn [mbind option_bind]. unfold evaluator. reflexivity.
  - list_cases He; repeat constructor; done.
  - destruct (n - length (bindings event))%nat as [|k] eqn:Hk; [lia|].
    rewrite <- app_assoc. cbn [app]. apply p_body_discard; [lia|]. apply p_body_rules; [done|]. cbn [length] in Hn. lia.
Qed.

(** ** The crate *)

Definition reason_tokens : list token := concat ((fun r => [TStr (rule_reason r); TSym ","]) <$> p_Rules p).

Definition crate_tokens : list token :=
  reasons_header ++ reason_tokens ++ TSym "]" :: last_matched_item ++
  fn_tokens "process" ++ fn_tokens "file" ++ fn_tokens "network".

Definition compiled : crate :=
  MkCrate ((fun r => EStr (rule_reason r)) <$> p_Rules p)
    [evaluator "process"; evaluator "file"; evaluator "network"].

Lemma closed_reasons :
  closed (writeReasonTable IsPrint p) (reasons_header ++ reason_tokens ++ TSym "]" :: last_matched_item).
Proof.
  unfold writeReasonTable. rewrite <- append_assoc. apply closed_app; [by vm_compute|]. apply closed_app.
  - unfold reason_tokens. assert (Hin : Forall (fun r => r ∈ p_Rules p) (p_Rules p)) by (by apply Forall_forall).
    induction Hin as [|r rules Hr _ IH]; [done|]. cbn [fmap list_fmap concat concat_str]. apply closed_app; [|exact IH].
    destruct (compiled_rule r Hr) as (_ & Hc & _). unfold rule_compiles in Hc.
    apply andb_prop in Hc as [[_ Hq]%andb_prop _]. apply (closed_app "    " _ []); [done|].
    apply (closed_app _ _ [TStr (rule_reason r)]); [by apply closed_Quote|done].
  - by vm_compute.
Qed.

Lemma closed_skip a b tb : closed a [] -> closed b tb -> closed (a +:+ b) tb.
Proof. apply closed_app. Qed.

Lemma source_tokens : tokens (rust_source (GenerateRust IsPrint p)) = Some crate_tokens.
Proof.
  apply closed_tokens. unfold rust_source, GenerateRust, crate_tokens. cbn [fmap list_fmap concat_str].
  assert (Hname : one_line (p_Name p) = true).
  { unfold policy_compiles in Hcomp. by apply andb_prop in Hcomp as [[? _]%andb_prop _]. }
  apply closed_skip; [by apply closed_comment|]. do 4 (apply closed_skip; [done|]).
  replace (reasons_header ++ reason_tokens ++ TSym "]" :: last_matched_item ++ fn_tokens "process" ++ fn_tokens "file" ++ fn_tokens "network")
    with ((reasons_header ++ reason_tokens ++ TSym "]" :: last_matched_item) ++ fn_tokens "process" ++ fn_tokens "file" ++ fn_tokens "network")
    by (by rewrite <- !app_assoc).
  apply closed_app; [apply closed_reasons|]. apply closed_skip; [done|].
  apply closed_app; [apply closed_process|]. apply closed_app; [apply closed_file|].
  rewrite <- (app_nil_r (fn_tokens "network")). apply closed_app; [apply closed_network|done].
Qed.

Lemma p_args_reasons n rules rest :
  (2 * length rules + 6 <= n)%nat ->
  p_args n "]" (concat ((fun r => [TStr (rule_reason r); TSym ","]) <$> rules) ++ TSym "]" :: rest)
  = Some ((fun r => EStr (rule_reason r)) <$> rules, rest).
Proof.
  revert n. induction rules as [|r rules IH]; intros n Hn; (destruct n as [|n]; [lia|]); [done|].
  cbn [fmap list_fmap concat app length] in *. eapply p_args_cons; [done| |].
  - apply (p_or_lit _ (LStr (rule_reason r))); [lia|done].
  - apply IH. lia.
Qed.

Lemma expect_all_app h ts : expect_all h (h ++ ts) = Some ts.
Proof. induction h as [|t h IH]; [done|]. cbn [app expect_all]. rewrite expect_same. apply IH. Qed.

Lemma length_reason_tokens : length reason_tokens = (2 * length (p_Rules p))%nat.
Proof. unfold reason_tokens. induction (p_Rules p) as [|r rules IH]; [done|]. cbn in *. lia. Qed.

Lemma parse_crate_intro ts t1 t2 t3 t4 t5 rs f1 f2 f3 :
  expect_all reasons_header ts = Some t1 ->
  p_args (parse_fuel ts) "]" t1 = Some (rs, t2) ->
  expect_all last_matched_item t2 = Some t3 ->
  p_fn (parse_fuel ts) "evaluate_process" t3 = Some (f1, t4) ->
  p_fn (parse_fuel ts) "evaluate_file" t4 = Some (f2, t5) ->
  p_fn (parse_fuel ts) "evaluate_network" t5 = Some (f3, []) ->
  parse_crate ts = Some (MkCrate rs [f1; f2; f3]).
Proof.
  intros H1 H2 H3 H4 H5 H6. unfold parse_crate. rewrite H1. cbn [mbind option_bind]. rewrite H2.
  cbn [mbind option_bind]. rewrite H3. cbn [mbind option_bind]. rewrite H4. cbn [mbind option_bind]. rewrite H5.
  cbn [mbind option_bind]. rewrite H6. done.
Qed.

(** The generated text parses to the intended crate. *)
Lemma parse_crate_tokens : parse_crate crate_tokens = Some compiled.
Proof.
  pose proof length_reason_tokens as Hr.
  assert (Hn : (2 * length (p_Rules p) + 64 <= parse_fuel crate_tokens /\
    length (fn_tokens "process") + 60 <= parse_fuel crate_tokens /\
    length (fn_tokens "file") + 60 <= parse_fuel crate_tokens /\
    length (fn_tokens "network") + 60 <= parse_fuel crate_tokens)%nat).
  { unfold parse_fuel, crate_tokens. rewrite !length_app. cbn [length]. rewrite !length_app. lia. }
  destruct Hn as (Hn1 & Hn2 & Hn3 & Hn4).
  eapply parse_crate_intro.
  - apply expect_all_app.
  - apply p_args_reasons. lia.
  - apply expect_all_app.
  - apply (p_fn_evaluator _ "process"); [listed|reflexivity|lia].
  - apply (p_fn_evaluator _ "file"); [listed|reflexivity|lia].
  - pose proof (p_fn_evaluator (parse_fuel crate_tokens) "network" "evaluate_network" []) as Hf.
    rewrite app_nil_r in Hf. apply Hf; [listed|reflexivity|lia].
Qed.
End Crate.
