(* ===== verification/CodegenEval.v ===== *)
(** What the generated program computes: its expressions and evaluators are well-typed
    and return what the policy means, on the bytes of the event. *)

From Stdlib Require Import Numbers.DecimalN.
From S2P Require Import Prelude GoApi GoFmt GoWasm PolicySchema PolicyCodegen RustSyntax RustRuntime.
From S2P Require Import RustModule CodegenText PolicySemantics CodegenCorrect.

Import compiler.

(** ** Literals *)

Lemma num_value_Sprint n : 0 <= n -> num_value (Sprint_d n) = Some n.
Proof.
  intros Hn. rewrite Sprint_d_nat by done. unfold num_value.
  destruct (NilEmpty.string_of_uint (N.to_uint (Z.to_N n))) as [|c s] eqn:He.
  - exfalso. apply (f_equal NilEmpty.uint_of_string) in He. rewrite NilEmpty.usu in He. injection He as He.
    destruct (Z.to_N n) as [|pos]; [done|]. by apply DecimalPos.Unsigned.to_uint_nonnil in He.
  - rewrite <- He, NilEmpty.usu. cbn [mbind option_bind]. rewrite Unsigned.of_to. f_equal. lia.
Qed.

Definition lit_val (t : rty) (l : lit) : rval := match l with LNum n => VInt t n | LStr s => VStr (bstr s) end.

(** A literal that fits a type. *)
Definition fits (t : rty) (l : lit) : Prop :=
  match l with
  | LNum n => exists bound, int_bound t = Some bound /\ 0 <= n < bound
  | LStr _ => t = Str
  end.

Lemma lit_of_fits t v l : t ∈ [U32; U16; Str] -> lit_of t v = Some l -> fits t l.
Proof.
  intros Ht Hl. unfold lit_of in Hl. destruct (int_bound t) as [bound|] eqn:Hb.
  - destruct (num_of v) as [n|]; [|done]. cbn in Hl. destruct (0 <=? n) eqn:H0; [|done].
    destruct (n <? bound) eqn:H1; [|done]. injection Hl as <-. zbool. by exists bound.
  - list_cases Ht; try done. destruct (quotable (Sprint_v v)); [|done]. by injection Hl as <-.
Qed.

Lemma literal_fits t n : fits t (LNum n) -> literal t (Sprint_d n) = Some n.
Proof.
  intros (bound & Hb & Hn). unfold literal. rewrite Hb. cbn [mbind option_bind].
  rewrite num_value_Sprint by lia. cbn [mbind option_bind]. by rewrite (proj2 (Z.ltb_lt _ _)) by lia.
Qed.

Lemma check_lit G t l : fits t l -> check G t (lit_expr l) = true.
Proof.
  destruct l as [n|s]; cbn [lit_expr check]; intros Hf; [|by apply bool_decide_eq_true_2].
  apply bool_decide_eq_true_2. rewrite literal_fits by done. by eexists.
Qed.

Lemma eval_lit m rho t l : fits t l -> eval m rho t (lit_expr l) = Some (lit_val t l).
Proof. destruct l as [n|s]; cbn [lit_expr eval]; intros Hf; [by rewrite literal_fits|done]. Qed.

(** ** Lists of literals *)

Definition arr_type (t : rty) : rty := match t with U32 => ArrU32 | U16 => ArrU16 | _ => ArrStr end.

Lemma elem_arr t : t ∈ [U32; U16; Str] -> elem_type (arr_type t) = Some t.
Proof. intros Ht. by list_cases Ht. Qed.

Lemma check_arr G t ls :
  t ∈ [U32; U16; Str] -> Forall (fits t) ls -> check G (arr_type t) (EArr (lit_expr <$> ls)) = true.
Proof.
  intros Ht Hls. cbn [check]. rewrite elem_arr by done.
  induction Hls as [|l ls Hl _ IH]; [done|]. cbn [fmap list_fmap]. by rewrite check_lit, IH.
Qed.

Lemma eval_arr m rho t ls :
  t ∈ [U32; U16; Str] -> Forall (fits t) ls ->
  eval m rho (arr_type t) (EArr (lit_expr <$> ls)) = pack (arr_type t) (lit_val t <$> ls).
Proof.
  intros Ht Hls. cbn [eval]. rewrite elem_arr by done. cbn [mbind option_bind].
  match goal with |- mbind _ (?F (lit_expr <$> ls)) = _ =>
    assert (HF : F (lit_expr <$> ls) = Some (lit_val t <$> ls)) end.
  { induction Hls as [|l ls Hl _ IH]; [done|]. cbn [fmap list_fmap].
    rewrite eval_lit by done. cbn [mbind option_bind]. rewrite IH. done. }
  by rewrite HF.
Qed.

(** A list of literals at a type packs to an array. *)
Definition arr_val (t : rty) (ls : list lit) : rval :=
  match t with
  | Str => VStrs (omap (fun l => match l with LStr s => Some (bstr s) | _ => None end) ls)
  | _ => VInts (arr_type t) (omap (fun l => match l with LNum n => Some n | _ => None end) ls)
  end.

Lemma pack_lits t ls :
  t ∈ [U32; U16; Str] -> Forall (fits t) ls -> pack (arr_type t) (lit_val t <$> ls) = Some (arr_val t ls).
Proof.
  intros Ht Hls.
  assert (Hnum : forall t', (t' = U32 \/ t' = U16) -> Forall (fits t') ls ->
    mapM as_int (lit_val t' <$> ls) = Some (omap (fun l => match l with LNum n => Some n | _ => None end) ls)).
  { intros t' Ht' Hf. induction Hf as [|[n|s] ls' Hl _ IH]; [done| |cbn in Hl; destruct Ht'; congruence].
    cbn in IH |- *. rewrite IH by (by apply Forall_cons in Hls as [_ ?]). done. }
  list_cases Ht; unfold pack, arr_type, arr_val.
  - rewrite bool_decide_eq_false_2 by done. rewrite Hnum by auto. done.
  - rewrite bool_decide_eq_false_2 by done. rewrite Hnum by auto. done.
  - rewrite bool_decide_eq_true_2 by done.
    replace (mapM as_str (lit_val Str <$> ls)) with
      (Some (omap (fun l => match l with LStr s => Some (bstr s) | _ => None end) ls)); [done|].
    clear Hnum. symmetry. induction Hls as [|[n|s] ls Hl _ IH]; [done| |].
    + destruct Hl as (bound & Hb & _). done.
    + cbn in IH |- *. by rewrite IH.
Qed.

(** ** Atoms *)

(** The value of a field in a variable of type [t]. *)
Definition val_of (t : rty) (fv : fval) : rval := match fv with FNum z => VInt t z | FStr s => VStr s end.
Definition fval_type (t : rty) (fv : fval) : bool := match fv with FNum _ => negb (is_str t) | FStr _ => is_str t end.

Lemma get_types x rho : get x (types rho) = type_of <$> get x rho.
Proof.
  induction rho as [|[y v] rho IH]; [done|]. cbn. by destruct (String.eqb y x).
Qed.

(** The expression is well-typed and its value is the truth of [P]. *)
Definition computes (m : memory) (rho : env) (e : rexpr) (P : Prop) : Prop :=
  check (types rho) Bool e = true /\ exists b, eval m rho Bool e = Some (VBool b) /\ (b = true <-> P).

Lemma lits_fit t vs ls : t ∈ [U32; U16; Str] -> mapM (lit_of t) vs = Some ls -> Forall (fits t) ls.
Proof. intros Ht Hls%mapM_Some. induction Hls; constructor; eauto using lit_of_fits. Qed.

(** What the comparison of a field with a literal gives. *)
Lemma lit_compare t fv v l :
  t ∈ [U32; U16; Str] -> fval_type t fv = true -> lit_of t v = Some l ->
  match fv, l with
  | FNum z, LNum n => num_of v = Some n
  | FStr s, LStr s' => s' = Sprint_v v
  | _, _ => False
  end.
Proof.
  unfold lit_of. intros Ht Hfv Hl. destruct fv as [z|s]; cbn in Hfv.
  - list_cases Ht; try done; cbn [int_bound] in Hl; (destruct (num_of v) as [n|]; [|done]); cbn in Hl;
      destruct ((0 <=? n) && _); try done; by injection Hl as <-.
  - unfold is_str in Hfv. apply bool_decide_eq_true in Hfv. subst t. cbn [int_bound] in Hl.
    destruct (quotable (Sprint_v v)); [|done]. by injection Hl as <-.
Qed.

(** The numbers and the texts of a list of literals. *)
Lemma member_nums t z vs ls :
  t ∈ [U32; U16; Str] -> is_str t = false -> mapM (lit_of t) vs = Some ls ->
  any_of z (omap (fun l => match l with LNum n => Some n | _ => None end) ls) = true <-> Exists (equals (FNum z)) vs.
Proof.
  intros Ht Hs Hls%mapM_Some. rewrite any_of_spec. induction Hls as [|v l vs ls Hl _ IH].
  { rewrite Exists_nil. set_solver. }
  pose proof (lit_compare t (FNum z) v l Ht) as Hc. cbn in Hc. rewrite Hs in Hc. specialize (Hc eq_refl Hl).
  destruct l as [n|]; [|done]. rewrite Exists_cons, <- IH. cbn. rewrite elem_of_cons, Hc. naive_solver.
Qed.

Lemma member_strs s vs ls :
  mapM (lit_of Str) vs = Some ls ->
  any_of s (omap (fun l => match l with LStr s => Some (bstr s) | _ => None end) ls) = true <-> Exists (equals (FStr s)) vs.
Proof.
  intros Hls%mapM_Some. rewrite any_of_spec. induction Hls as [|v l vs ls Hl _ IH].
  { rewrite Exists_nil. set_solver. }
  pose proof (lit_compare Str (FStr s) v l ltac:(listed) eq_refl Hl) as Hc.
  destruct l as [|s']; [done|]. rewrite Exists_cons, <- IH. cbn. rewrite elem_of_cons, Hc. naive_solver.
Qed.

Section Atoms.
Context (m : memory) (rho : env) (x : string) (t : rty) (v : yaml) (fv : fval) (a : atom).
Context (Ht : t ∈ [U32; U16; Str]) (Hx : get x rho = Some (val_of t fv)) (Hfv : fval_type t fv = true).

Lemma type_val : type_of (val_of t fv) = t.
Proof. clear Hx. destruct fv as [z|s]; [done|]. cbn in *. unfold is_str in Hfv. by apply bool_decide_eq_true in Hfv. Qed.

Lemma var_type : get x (types rho) = Some t.
Proof. rewrite get_types, Hx. cbn. by rewrite type_val. Qed.

Lemma check_var : check (types rho) t (EId x) = true.
Proof. cbn. rewrite var_type. by apply bool_decide_eq_true_2. Qed.

Lemma eval_cmp op l :
  fits t l -> comparable op t = true -> forall b, compare_vals op (val_of t fv) (lit_val t l) = Some b ->
  check (types rho) Bool (ECmp op (EId x) (lit_expr l)) = true /\
  eval m rho Bool (ECmp op (EId x) (lit_expr l)) = Some (VBool b).
Proof.
  intros Hf Hc b Hb. pose proof check_var as Hv. pose proof var_type as Hvt. split.
  - change (check (types rho) Bool (ECmp op (EId x) (lit_expr l))) with
      (match operand_type (types rho) (EId x) (lit_expr l) with
       | Some s => comparable op s && check (types rho) s (EId x) && check (types rho) s (lit_expr l)
       | None => false end).
    unfold operand_type. cbn [synth]. by rewrite Hvt, Hc, Hv, check_lit.
  - cbn [eval]. unfold operand_type. cbn [synth]. rewrite Hvt. cbn [mbind option_bind]. rewrite Hx. cbn [mbind option_bind].
    rewrite eval_lit by done. cbn [mbind option_bind]. by rewrite Hb.
Qed.

Lemma computes_cmp op P :
  cmp_atom op x t v = Some a -> comparable op t = true ->
  (forall l, lit_of t v = Some l -> exists b, compare_vals op (val_of t fv) (lit_val t l) = Some b /\ (b = true <-> P)) ->
  computes m rho (atom_expr a) P.
Proof.
  unfold cmp_atom. destruct (lit_of t v) as [l|] eqn:Hl; [|done]. intros [= <-] Hc HP.
  destruct (HP l eq_refl) as (b & Hb & Hbp). destruct (eval_cmp op l (lit_of_fits t v l Ht Hl) Hc b Hb) as [H1 H2].
  split; [exact H1|]. exists b. by split.
Qed.

Lemma computes_eq : cmp_atom "==" x t v = Some a -> computes m rho (atom_expr a) (equals fv v).
Proof.
  intros Ha. apply (computes_cmp "=="); [done|by list_cases Ht|]. intros l Hl. pose proof (lit_compare t fv v l Ht Hfv Hl) as Hlc.
  clear Hx. destruct fv as [z|s], l as [n|s']; try done; eexists; (split; [reflexivity|]); cbn [equals].
  - rewrite Hlc, Z.eqb_eq. naive_solver.
  - by rewrite bool_decide_eq_true, Hlc.
Qed.

Lemma computes_ne : cmp_atom "!=" x t v = Some a -> computes m rho (atom_expr a) (~ equals fv v).
Proof.
  intros Ha. apply (computes_cmp "!="); [done|by list_cases Ht|]. intros l Hl. pose proof (lit_compare t fv v l Ht Hfv Hl) as Hlc.
  clear Hx. destruct fv as [z|s], l as [n|s']; try done; eexists; (split; [reflexivity|]); cbn [equals].
  - rewrite Hlc, negb_true_iff, Z.eqb_neq. naive_solver.
  - by rewrite negb_true_iff, bool_decide_eq_false, Hlc.
Qed.

(** The order comparisons. *)
Lemma computes_order op R :
  order_atom op x t v = Some a ->
  (forall z n, exists b, compare_vals op (VInt t z) (VInt t n) = Some b /\ (b = true <-> R z n)) ->
  computes m rho (atom_expr a) (ordered R fv v).
Proof.
  unfold order_atom. destruct (is_str t) eqn:Hs; [done|]. intros Ha HR.
  apply (computes_cmp op); [done|unfold is_str in Hs; apply bool_decide_eq_false in Hs; by list_cases Ht|].
  intros l Hl. pose proof (lit_compare t fv v l Ht Hfv Hl) as Hlc. unfold ordered. clear Hx.
  destruct fv as [z|s], l as [n|s']; cbn in Hfv; try done; try congruence. rewrite Hlc. apply HR.
Qed.

(** The predicates on strings. *)
Lemma computes_fun f g R :
  fun_atom f x t v = Some a -> fn_sig f = Some ([Str; Str], Bool) ->
  (forall s s', call_fn m f [VStr s; VStr s'] = Some (VBool (g s s'))) ->
  (forall s s', g s s' = true <-> R s s') ->
  computes m rho (atom_expr a) (textual R fv v).
Proof.
  unfold fun_atom. destruct (is_str t) eqn:Hs; [|done]. destruct (quotable (as_string v)); [|done].
  intros [= <-] Hsig Hcall Hg. pose proof check_var as Hv. pose proof Hx as Hx'.
  unfold is_str in Hs. apply bool_decide_eq_true in Hs. cbn [atom_expr]. unfold computes.
  assert (Hstr : exists s, val_of t fv = VStr s /\ fv = FStr s).
  { clear Hx Hx'. destruct fv as [z|s]; [subst t; done|by exists s]. }
  destruct Hstr as (s & Hval & Hfvs). rewrite Hval in Hx'. rewrite Hfvs. cbn [textual]. rewrite Hs in Hv. split.
  - change (check (types rho) Bool (ECall f [EId x; EStr (as_string v)])) with
      (match fn_sig f with
       | Some (params, ret) => bool_decide (ret = Bool) &&
           (fix check_args params args {struct args} :=
             match params, args with
             | [], [] => true
             | p :: params, a :: args => check (types rho) p a && check_args params args
             | _, _ => false
             end) params [EId x; EStr (as_string v)]
       | None => false end).
    rewrite Hsig. by rewrite Hv.
  - cbn [eval]. rewrite Hsig. cbn [mbind option_bind]. rewrite Hx'. cbn [mbind option_bind]. rewrite Hcall.
    exists (g s (bstr (as_string v))). by split.
Qed.

(** Membership of the field in the array is equality with one of the values. *)
Lemma member_lits vs ls :
  mapM (lit_of t) vs = Some ls ->
  exists b, call_fn m ("any_of_" +:+ rust_name t) [val_of t fv; arr_val t ls] = Some (VBool b) /\
            call_fn m ("none_of_" +:+ rust_name t) [val_of t fv; arr_val t ls] = Some (VBool (negb b)) /\
            (b = true <-> Exists (equals fv) vs).
Proof.
  clear Hx a v. intros Hls. destruct fv as [z|s]; cbn in Hfv.
  - pose proof (member_nums t z vs ls Ht) as Hm. list_cases Ht; try done;
      (eexists; split_and!; [reflexivity..|by apply Hm]).
  - unfold is_str in Hfv. apply bool_decide_eq_true in Hfv. subst t.
    eexists; split_and!; [reflexivity..|by apply member_strs].
Qed.

Lemma mem_sig g : g ∈ ["any_of_"; "none_of_"] -> fn_sig (g +:+ rust_name t) = Some ([t; arr_type t], Bool).
Proof. intros Hg. list_cases Ht; by list_cases Hg. Qed.

Lemma eval_mem g ls r :
  g ∈ ["any_of_"; "none_of_"] -> Forall (fits t) ls ->
  call_fn m (g +:+ rust_name t) [val_of t fv; arr_val t ls] = Some r ->
  check (types rho) Bool (atom_expr (AMem (g +:+ rust_name t) x ls)) = true /\
  eval m rho Bool (atom_expr (AMem (g +:+ rust_name t) x ls)) = Some r.
Proof.
  intros Hg Hls Hr. pose proof (mem_sig g Hg) as Hsig. cbn [atom_expr]. split.
  - pose proof (check_arr (types rho) t ls Ht Hls) as Harr. pose proof check_var as Hv.
    remember (EArr (lit_expr <$> ls)) as arr. cbn [check]. rewrite Hsig, Harr. cbn [check] in Hv. by rewrite Hv.
  - pose proof (eval_arr m rho t ls Ht Hls) as Harr. rewrite pack_lits in Harr by done.
    remember (EArr (lit_expr <$> ls)) as arr. cbn [eval]. rewrite Hsig. cbn [mbind option_bind].
    rewrite Hx. cbn [mbind option_bind]. rewrite Harr. cbn [mbind option_bind]. exact Hr.
Qed.

Lemma computes_any_of : mem_atom "any_of_" x t v = Some a -> computes m rho (atom_expr a) (Exists (equals fv) (toSlice v)).
Proof.
  unfold mem_atom. destruct (mapM (lit_of t) (toSlice v)) as [ls|] eqn:Hls; [|done]. intros [= <-].
  destruct (member_lits _ _ Hls) as (b & Hany & _ & Hb).
  edestruct (eval_mem "any_of_") as [H1 H2]; [listed|by eapply lits_fit|exact Hany|].
  split; [done|]. by exists b.
Qed.

Lemma computes_none_of : mem_atom "none_of_" x t v = Some a -> computes m rho (atom_expr a) (~ Exists (equals fv) (toSlice v)).
Proof.
  unfold mem_atom. destruct (mapM (lit_of t) (toSlice v)) as [ls|] eqn:Hls; [|done]. intros [= <-].
  destruct (member_lits _ _ Hls) as (b & _ & Hnone & Hb).
  edestruct (eval_mem "none_of_") as [H1 H2]; [listed|by eapply lits_fit|exact Hnone|].
  split; [done|]. exists (negb b). split; [done|]. rewrite <- Hb. by destruct b.
Qed.
End Atoms.

(** ** Conditions and rules *)

Lemma decides_skip event r rules o : ~ rule_matches event r -> decides event rules o -> decides event (r :: rules) o.
Proof.
  intros Hno [pre r' post -> Hpre Hr'|Hall].
  - apply (decides_rule _ _ (r :: pre) _ post); [done|by constructor|done].
  - apply decides_default. by constructor.
Qed.

Section Rules.
Context (m : memory) (event : ApiEvent) (rho : env).

Definition evname : string := event_name (GetType event).

(** The variables of the evaluator hold the fields of the event. *)
Record env_ok : Prop := {
  eo_fields f t : get f (bound_fields evname) = Some t ->
    get (fieldToRustBinary f evname) rho = Some (val_of t (field_value event f)) /\
    fval_type t (field_value event f) = true;
  eo_actions act z :
    (act, z) ∈ [("ACTION_ALLOW", 0); ("ACTION_DENY", 1); ("ACTION_LOG", 2); ("ACTION_AUDIT_DENY", 3)] ->
    get act rho = Some (VInt I32 z);
}.

Context (Hrho : env_ok).

Lemma evname_events : evname ∈ events.
Proof. unfold evname. destruct (GetType event); listed. Qed.

Lemma computes_condition c a :
  c_Operator c ∈ operators -> atom_of evname c = Some a -> computes m rho (atom_expr a) (holds event c).
Proof.
  destruct c as [f op v]. cbn [c_Operator]. intros Hop Ha. unfold atom_of in Ha. cbn [c_Field c_Operator c_Value] in Ha.
  destruct (get f (bound_fields evname)) as [t|] eqn:Hf; [|done]. cbn [mbind option_bind] in Ha.
  destruct (bound_field _ _ _ evname_events Hf) as [Ht _ _ _]. destruct (eo_fields Hrho f t Hf) as [Hx Hfv].
  unfold holds. cbn [c_Field c_Operator c_Value]. list_cases Hop.
  - exact (computes_eq m rho _ t v _ a Ht Hx Hfv Ha).
  - exact (computes_ne m rho _ t v _ a Ht Hx Hfv Ha).
  - exact (computes_any_of m rho _ t v _ a Ht Hx Hfv Ha).
  - exact (computes_none_of m rho _ t v _ a Ht Hx Hfv Ha).
  - apply (computes_fun m rho _ t v _ a Ht Hx Hfv "matches_glob" matches_glob); [done..|]. intros s s'. apply glob_match_spec.
  - apply (computes_order m rho _ t v _ a Ht Hx Hfv ">"); [done|]. intros z n. eexists. split; [reflexivity|]. lia.
  - apply (computes_order m rho _ t v _ a Ht Hx Hfv "<"); [done|]. intros z n. eexists. split; [reflexivity|]. lia.
  - apply (computes_order m rho _ t v _ a Ht Hx Hfv ">="); [done|]. intros z n. eexists. split; [reflexivity|]. lia.
  - apply (computes_order m rho _ t v _ a Ht Hx Hfv "<="); [done|]. intros z n. eexists. split; [reflexivity|]. lia.
  - apply (computes_fun m rho _ t v _ a Ht Hx Hfv "str_starts_with" str_starts_with); [done..|]. intros. apply starts_with_spec.
  - apply (computes_fun m rho _ t v _ a Ht Hx Hfv "str_contains" str_contains); [done..|]. intros. apply contains_spec.
Qed.

Lemma computes_not e P : computes m rho e P -> computes m rho (ENot e) (~ P).
Proof.
  intros [Hc (b & He & Hb)]. split; [done|]. exists (negb b). cbn [eval]. rewrite He. split; [done|]. rewrite <- Hb. by destruct b.
Qed.

Lemma computes_and e1 e2 P Q : computes m rho e1 P -> computes m rho e2 Q -> computes m rho (EAnd e1 e2) (P /\ Q).
Proof.
  intros [Hc1 (b1 & He1 & Hb1)] [Hc2 (b2 & He2 & Hb2)]. split; [cbn; by rewrite Hc1, Hc2|].
  exists (b1 && b2). cbn [eval]. rewrite He1. cbn [mbind option_bind]. rewrite He2. split; [done|].
  by rewrite andb_true_iff, Hb1, Hb2.
Qed.

Lemma computes_or e1 e2 P Q : computes m rho e1 P -> computes m rho e2 Q -> computes m rho (EOr e1 e2) (P \/ Q).
Proof.
  intros [Hc1 (b1 & He1 & Hb1)] [Hc2 (b2 & He2 & Hb2)]. split; [cbn; by rewrite Hc1, Hc2|].
  exists (b1 || b2). cbn [eval]. rewrite He1. cbn [mbind option_bind]. rewrite He2. split; [done|].
  by rewrite orb_true_iff, Hb1, Hb2.
Qed.

Lemma computes_iff e P Q : (P <-> Q) -> computes m rho e P -> computes m rho e Q.
Proof. intros HPQ [Hc (b & He & Hb)]. split; [done|]. exists b. split; [done|]. by rewrite Hb. Qed.

Lemma computes_ors e P es Ps :
  computes m rho e P -> Forall2 (computes m rho) es Ps -> computes m rho (foldl EOr e es) (P \/ Exists id Ps).
Proof.
  intros He Hes. revert e P He. induction Hes as [|e' P' es Ps He' _ IH]; intros e P He; cbn [foldl].
  - eapply computes_iff; [|exact He]. rewrite Exists_nil. naive_solver.
  - eapply computes_iff; [|apply IH, computes_or; [exact He|exact He']]. rewrite Exists_cons. naive_solver.
Qed.

Lemma computes_ands e P es Ps :
  computes m rho e P -> Forall2 (computes m rho) es Ps -> computes m rho (foldl EAnd e es) (P /\ Forall id Ps).
Proof.
  intros He Hes. revert e P He. induction Hes as [|e' P' es Ps He' _ IH]; intros e P He; cbn [foldl].
  - eapply computes_iff; [|exact He]. rewrite Forall_nil. naive_solver.
  - eapply computes_iff; [|apply IH, computes_and; [exact He|exact He']]. rewrite Forall_cons. naive_solver.
Qed.

Lemma computes_atoms cs l :
  Forall (fun c => c_Operator c ∈ operators) cs -> mapM (atom_of evname) cs = Some l ->
  Forall2 (fun a c => computes m rho (atom_expr a) (holds event c)) l cs.
Proof.
  intros Hops Hl%mapM_Some. induction Hl as [|c a cs l Ha _ IH]; [constructor|].
  apply Forall_cons in Hops as [Hop Hops]. constructor; [by apply computes_condition|by apply IH].
Qed.

Lemma Exists_id_fmap {A} (P : A -> Prop) l : Exists id (P <$> l) <-> Exists P l.
Proof. induction l as [|x l IH]; [by rewrite !Exists_nil|]. cbn [fmap list_fmap]. by rewrite !Exists_cons, <- IH. Qed.
Lemma Forall_id_fmap {A} (P : A -> Prop) l : Forall id (P <$> l) <-> Forall P l.
Proof. induction l as [|x l IH]; [by rewrite !Forall_nil|]. cbn [fmap list_fmap]. by rewrite !Forall_cons, <- IH. Qed.

Lemma computes_any l cs :
  Forall2 (fun a c => computes m rho (atom_expr a) (holds event c)) l cs ->
  exists Ps, Forall2 (computes m rho) (part_expr <$> any_part l) Ps /\
    (Forall id Ps <-> cs = [] \/ Exists (holds event) cs).
Proof.
  intros [|a c l' cs' Ha Hl]; cbn [fmap list_fmap any_part].
  - exists []. split; [constructor|]. naive_solver.
  - exists [holds event c \/ Exists id (holds event <$> cs')]. split.
    + constructor; [|constructor]. apply computes_ors; [done|]. by apply Forall2_fmap_2.
    + rewrite Forall_singleton, Exists_id_fmap, Exists_cons. naive_solver.
Qed.

(** The conjuncts of a rule compute the truth of its conditions. *)
Lemma computes_parts cs ps :
  Forall (fun c => c_Operator c ∈ operators) (conditions cs) -> parts_of evname cs = Some ps ->
  exists Ps, Forall2 (computes m rho) (part_expr <$> ps) Ps /\ (Forall id Ps <-> conditions_hold event cs).
Proof.
  intros Hops Hp. unfold conditions in Hops. rewrite !Forall_app in Hops. destruct Hops as (H1 & H2 & H3).
  unfold parts_of in Hp.
  destruct (mapM (atom_of evname) (c_All cs)) as [all|] eqn:Hall; [|done].
  destruct (mapM (atom_of evname) (c_Any cs)) as [any|] eqn:Hany; [|done].
  destruct (mapM (atom_of evname) (c_Not cs)) as [not|] eqn:Hnot; [|done]. injection Hp as <-.
  apply (computes_atoms _ _ H1) in Hall. apply (computes_atoms _ _ H2) in Hany. apply (computes_atoms _ _ H3) in Hnot.
  destruct (computes_any _ _ Hany) as (Qs & HQ & HQs).
  exists ((holds event <$> c_All cs) ++ Qs ++ ((fun c => ~ holds event c) <$> c_Not cs)). split.
  - rewrite !fmap_app, <- !list_fmap_compose. apply Forall2_app; [by apply Forall2_fmap_2|].
    apply Forall2_app; [done|]. apply Forall2_fmap_2. eapply Forall2_impl; [exact Hnot|].
    intros a c Ha. by apply computes_not.
  - rewrite !Forall_app, HQs, !Forall_id_fmap. split; [intros (? & ? & ?); by split|intros [? ? ?]; by split_and!].
Qed.
(** ** Rules *)

Context (p : Policy) (Hok : policy_ok p) (Hcomp : policy_compiles p = true).

Lemma computes_rule r q qs :
  r ∈ p_Rules p -> r_Event r = evname -> rule_parts r = q :: qs ->
  computes m rho (conj_expr q qs) (rule_matches event r).
Proof.
  intros Hr He Hq. destruct (compiled_rule p Hok Hcomp r Hr) as ([_ _ _ _ _ Hconds] & _ & q' & qs' & Hp & Hq').
  assert (Hqq : q' :: qs' = q :: qs) by congruence. rewrite Hqq, He in Hp.
  apply computes_parts in Hp as (Ps & HPs & Hiff).
  2: { eapply Forall_impl; [exact Hconds|]. by intros c [_ ?]. }
  cbn [fmap list_fmap] in HPs. apply Forall2_cons_inv_l in HPs as (P & Ps' & Hq1 & Hqs & ->).
  eapply computes_iff; [|apply computes_ands; [exact Hq1|exact Hqs]].
  rewrite Forall_cons in Hiff. unfold rule_matches, id in *. rewrite Hiff. fold evname. naive_solver.
Qed.

Lemma action_value act :
  act ∈ ["allow"; "deny"; "log"] -> get (actionConstant act) rho = Some (VInt I32 (action_code act)).
Proof. intros Ha. apply (eo_actions Hrho). list_cases Ha; listed. Qed.

Lemma rule_act_value r : rule_ok r -> get (rule_act r) rho = Some (VInt I32 (rule_code r)).
Proof.
  intros [_ _ Ha _ _ _]. unfold rule_act, rule_code. destruct (_ && _); [apply (eo_actions Hrho); listed|by apply action_value].
Qed.

Lemma globalRuleIndex_lt r : r ∈ p_Rules p -> 0 <= globalRuleIndex p r < NOT_MATCHED.
Proof.
  intros Hr. unfold globalRuleIndex. destruct (list_find_elem_of (fun r' => r_Name r' = r_Name r) (p_Rules p) r Hr eq_refl)
    as [[i r'] Hi]. rewrite Hi. apply list_find_Some in Hi as (Hi & _ & _). apply lookup_lt_Some in Hi.
  unfold policy_compiles in Hcomp. apply andb_prop in Hcomp as [_ Hlen]. zbool. lia.
Qed.

Lemma index_fits r : r ∈ p_Rules p -> fits U32 (LNum (globalRuleIndex p r)).
Proof. intros Hr%globalRuleIndex_lt. exists (2 ^ 32). unfold NOT_MATCHED in Hr. split; [done|lia]. Qed.

Lemma check_act act z : get act rho = Some (VInt I32 z) -> check (types rho) I32 (EId act) = true.
Proof. intros Ha. cbn [check]. rewrite get_types, Ha. by apply bool_decide_eq_true_2. Qed.

Lemma check_rules rules :
  Forall (fun r => r_Event r = evname /\ r ∈ p_Rules p) rules ->
  check_body (types rho) (rule_stmt p <$> rules) (EId (default_act p)) = true.
Proof.
  induction 1 as [|r rules [He Hr] _ IH]; cbn [fmap list_fmap].
  { apply (check_act _ (action_code (p_DefaultAction p))). apply action_value, pok_default, Hok. }
  destruct (compiled_rule p Hok Hcomp r Hr) as (Hrok & _ & q & qs & _ & Hq). unfold rule_stmt at 1. rewrite Hq.
  destruct (computes_rule r q qs Hr He Hq) as [Hc _]. pose proof (check_lit (types rho) U32 _ (index_fits r Hr)) as Hi.
  pose proof (check_act _ _ (rule_act_value r Hrok)) as Ha. cbn [lit_expr] in Hi. cbn [check_body]. by rewrite Hc, Hi, Ha, IH.
Qed.

Lemma run_rules lm rules :
  Forall (fun r => r_Event r = evname /\ r ∈ p_Rules p) rules ->
  exists o, decides event rules o /\
    run_body m rho lm (rule_stmt p <$> rules) (EId (default_act p))
    = Some (verdict_code p o, from_option (globalRuleIndex p) lm o).
Proof.
  induction 1 as [|r rules [He Hr] _ IH]; cbn [fmap list_fmap].
  { exists None. split; [constructor; constructor|]. cbn [run_body]. unfold eval_int, default_act. cbn [eval].
    rewrite (action_value _ (pok_default _ Hok)). done. }
  destruct (compiled_rule p Hok Hcomp r Hr) as (Hrok & _ & q & qs & _ & Hq). unfold rule_stmt at 1. rewrite Hq.
  destruct (computes_rule r q qs Hr He Hq) as [_ (b & Hb & Hbm)]. cbn [run_body]. rewrite Hb. cbn [mbind option_bind as_bool].
  destruct b.
  - exists (Some r). split; [apply (decides_rule _ _ [] r rules); [done|constructor|by apply Hbm]|].
    pose proof (eval_lit m rho U32 _ (index_fits r Hr)) as Hi. cbn [lit_expr] in Hi. unfold eval_int. rewrite Hi.
    cbn [mbind option_bind as_int lit_val eval]. rewrite (rule_act_value r Hrok). done.
  - destruct IH as (o & Ho & Hrun). exists o. split; [|exact Hrun].
    apply decides_skip; [|done]. by intros ?%Hbm.
Qed.
End Rules.

(** The rules of other events never match. *)
Lemma decides_filter event rules o :
  decides event (filter (fun r => r_Event r = event_name (GetType event)) rules) o -> decides event rules o.
Proof.
  revert o. induction rules as [|r rules IH]; intros o; [done|]. rewrite filter_cons. case_decide as He.
  - intros [pre r' post Heq Hpre Hr'|Hall].
    + destruct pre as [|r0 pre]; injection Heq as <- Heq; [by apply (decides_rule _ _ [] r rules)|].
      apply Forall_cons in Hpre as [Hr Hpre]. apply decides_skip; [done|]. by apply IH, (decides_rule _ _ pre _ post).
    + apply Forall_cons in Hall as [Hr Hall]. apply decides_skip; [done|]. by apply IH, decides_default.
  - intros Hd%IH. apply decides_skip; [|done]. by intros [? _].
Qed.
