(* ===== verification/CompiledPolicy.v ===== *)
(** A compiled policy at work: the bytes of an event in the memory of an instance, the
    bindings of the evaluators, and the decision that the exported function returns. *)

From S2P Require Import Prelude GoPolicyMap GoApi GoFmt GoWasm PolicySchema PolicyCodegen RustSyntax.
From S2P Require Import RustRuntime RustModule CodegenText PolicySemantics CodegenCorrect CodegenEval.

Import compiler.

(** ** Memory *)

(** [bs] is in memory from [base] on. *)
Definition holds_at (m : memory) (base : Z) (bs : list Z) : Prop :=
  forall i b, bs !! i = Some b -> load m (base + Z.of_nat i) = Some b.

Lemma mem_store_holds a bs m m' : mem_store a bs m = Some m' -> holds_at m' a bs.
Proof.
  unfold mem_store. destruct (0 <=? a) eqn:Ha; [|done]. destruct (_ <=? mem_size m) eqn:Hs; [|done].
  intros [= <-] i b Hi. zbool. pose proof (lookup_lt_Some _ _ _ Hi) as Hlt. unfold load. cbn [mem_size mem_at].
  rewrite (proj2 (Z.leb_le 0 _)), (proj2 (Z.ltb_lt _ _)), (proj2 (Z.leb_le a _)) by lia. cbn [andb].
  replace (Z.to_nat (a + Z.of_nat i - a)) with i by lia. by rewrite Hi.
Qed.

Lemma mem_store_size a bs m m' : mem_store a bs m = Some m' -> mem_size m' = mem_size m.
Proof. unfold mem_store. destruct (_ && _); [|done]. by intros [= <-]. Qed.

Lemma loads_holds m base bs n : holds_at m base bs -> (n <= length bs)%nat -> loads m base n = Some (take n bs).
Proof.
  revert base bs. induction n as [|n IH]; intros base bs Hb Hn; [done|].
  destruct bs as [|b bs]; [cbn in Hn; lia|]. cbn [loads take].
  pose proof (Hb 0%nat b eq_refl) as H0. rewrite Z.add_0_r in H0. rewrite H0. cbn [mbind option_bind].
  rewrite (IH (base + 1) bs); [done| |cbn in Hn; lia].
  intros i x Hi. replace (base + 1 + Z.of_nat i) with (base + Z.of_nat (S i)) by lia. by apply Hb.
Qed.

Lemma holds_at_drop m base bs off : holds_at m base bs -> holds_at m (base + Z.of_nat off) (drop off bs).
Proof.
  intros Hb i b Hi. rewrite lookup_drop in Hi. replace (base + Z.of_nat off + Z.of_nat i) with (base + Z.of_nat (off + i)) by lia.
  by apply Hb.
Qed.

Lemma lookup_slice off n bs i : (i < n)%nat -> slice off n bs !! i = bs !! (off + i)%nat.
Proof. intros Hi. unfold slice. by rewrite lookup_take_lt, lookup_drop by done. Qed.

Lemma load_slice m base bs off n i b :
  holds_at m base bs -> (i < n)%nat -> slice off n bs !! i = Some b -> load m (base + Z.of_nat off + Z.of_nat i) = Some b.
Proof.
  intros Hb Hi Hs. rewrite lookup_slice in Hs by done.
  replace (base + Z.of_nat off + Z.of_nat i) with (base + Z.of_nat (off + i)) by lia. by apply Hb.
Qed.

Lemma read_u32_holds m base bs off z :
  holds_at m base bs -> slice off 4 bs = le_bytes 4 z -> read_u32 m base (Z.of_nat off) = Some (to_u32 z).
Proof.
  intros Hb Hs. pose proof (le_bytes_is_byte 4 z) as Hby. rewrite <- Hs in Hby.
  assert (Hv : le_val (slice off 4 bs) = to_u32 z) by (rewrite Hs; apply (le_val_le_bytes 4)).
  destruct (slice off 4 bs) as [|b0 [|b1 [|b2 [|b3 [|? ?]]]]] eqn:Hsl; try (by apply (f_equal length) in Hs).
  rewrite !Forall_cons in Hby. destruct Hby as (H0 & H1 & H2 & H3 & _). unfold is_byte in *.
  unfold read_u32. cbn zeta.
  pose proof (load_slice m base bs off 4 0 b0 Hb ltac:(lia)) as L0. pose proof (load_slice m base bs off 4 1 b1 Hb ltac:(lia)) as L1.
  pose proof (load_slice m base bs off 4 2 b2 Hb ltac:(lia)) as L2. pose proof (load_slice m base bs off 4 3 b3 Hb ltac:(lia)) as L3.
  rewrite Hsl in L0, L1, L2, L3. specialize (L0 eq_refl). specialize (L1 eq_refl). specialize (L2 eq_refl). specialize (L3 eq_refl).
  rewrite Z.add_0_r in L0. rewrite L0. cbn [mbind option_bind]. change 1 with (Z.of_nat 1). rewrite L1. cbn [mbind option_bind].
  change 2 with (Z.of_nat 2). rewrite L2. cbn [mbind option_bind]. change 3 with (Z.of_nat 3). rewrite L3. cbn [mbind option_bind].
  rewrite (lor_shiftl_add b0 b1 8), (lor_shiftl_add _ b2 16), (lor_shiftl_add _ b3 24) by lia.
  rewrite <- Hv. cbn [le_val]. f_equal. lia.
Qed.

Lemma read_u16_holds m base bs off z :
  holds_at m base bs -> slice off 2 bs = le_bytes 2 z -> read_u16 m base (Z.of_nat off) = Some (to_u16 z).
Proof.
  intros Hb Hs. pose proof (le_bytes_is_byte 2 z) as Hby. rewrite <- Hs in Hby.
  assert (Hv : le_val (slice off 2 bs) = to_u16 z) by (rewrite Hs; apply (le_val_le_bytes 2)).
  destruct (slice off 2 bs) as [|b0 [|b1 [|? ?]]] eqn:Hsl; try (by apply (f_equal length) in Hs).
  rewrite !Forall_cons in Hby. destruct Hby as (H0 & H1 & _). unfold is_byte in *. unfold read_u16. cbn zeta.
  pose proof (load_slice m base bs off 2 0 b0 Hb ltac:(lia)) as L0. pose proof (load_slice m base bs off 2 1 b1 Hb ltac:(lia)) as L1.
  rewrite Hsl in L0, L1. specialize (L0 eq_refl). specialize (L1 eq_refl).
  rewrite Z.add_0_r in L0. rewrite L0. cbn [mbind option_bind]. change 1 with (Z.of_nat 1). rewrite L1. cbn [mbind option_bind].
  rewrite !lor_shiftl_add by lia. rewrite <- Hv. cbn [le_val]. f_equal. lia.
Qed.

Lemma read_str_loop_holds m base bs n :
  holds_at m base bs -> (n <= length bs)%nat -> read_str_loop m n base = Some (cstr (take n bs)).
Proof.
  revert base bs. induction n as [|n IH]; intros base bs Hb Hn; [done|].
  destruct bs as [|b bs]; [cbn in Hn; lia|]. cbn [read_str_loop take cstr].
  pose proof (Hb 0%nat b eq_refl) as H0. rewrite Z.add_0_r in H0. rewrite H0. cbn [mbind option_bind].
  destruct (b =? 0); [done|]. rewrite (IH (base + 1) bs); [done| |cbn in Hn; lia].
  intros i x Hi. replace (base + 1 + Z.of_nat i) with (base + Z.of_nat (S i)) by lia. by apply Hb.
Qed.

Lemma cstr_zeros s k : cstr (s ++ replicate k 0) = cstr s.
Proof. induction s as [|b s IH]; [by destruct k|]. cbn. by rewrite IH. Qed.

Lemma read_str_holds m base bs off n s :
  holds_at m base bs -> slice off n bs = pad n s -> (off + n <= length bs)%nat ->
  read_str m base (Z.of_nat off) (Z.of_nat n) = Some (seen n s).
Proof.
  intros Hb Hs Hl. unfold read_str. rewrite Nat2Z.id.
  rewrite (read_str_loop_holds m _ (drop off bs)); [|by apply holds_at_drop|rewrite length_drop; lia].
  change (take n (drop off bs)) with (slice off n bs). rewrite Hs. unfold pad, seen. by rewrite cstr_zeros.
Qed.

(** ** The event in memory *)

Lemma slice_concat off n pre f post :
  off = length (concat pre) -> n = length f -> slice off n (concat (pre ++ f :: post)) = f.
Proof.
  intros -> ->. unfold slice. rewrite concat_app. cbn [concat]. by rewrite drop_app_length, take_app_length.
Qed.

Record event_fields (event : ApiEvent) (bs : list Z) : Prop := {
  ef_length : length bs = 256%nat;
  ef_pid : slice 0 4 bs = le_bytes 4 (ae_PID event);
  ef_uid : slice 4 4 bs = le_bytes 4 (ae_UID event);
  ef_gid : slice 8 4 bs = le_bytes 4 (ae_GID event);
  ef_type : slice 12 1 bs = [event_type_byte (GetType event)];
  ef_comm : slice 13 64 bs = pad 64 (ae_Comm event);
  ef_primary : slice 77 128 bs = pad 128 (primary_str event);
  ef_flags : slice 205 4 bs = le_bytes 4 (flags_field event);
  ef_remote : slice 209 2 bs = le_bytes 2 (port_field ne_RemotePort event);
  ef_local : slice 211 2 bs = le_bytes 2 (port_field ne_LocalPort event);
  ef_secondary : slice 213 32 bs = pad 32 (secondary_str event);
}.

Lemma writeEventBinary_fields event : event_fields event (writeEventBinary event).
Proof.
  destruct (wasm_event_layout event) as [Hlen Heq].
  set (a := le_bytes 4 (ae_PID event)) in *. set (b := le_bytes 4 (ae_UID event)) in *.
  set (c := le_bytes 4 (ae_GID event)) in *. set (d := [event_type_byte (GetType event)]) in *.
  set (e := pad 64 (ae_Comm event)) in *. set (f := pad 128 (primary_str event)) in *.
  set (g := le_bytes 4 (flags_field event)) in *. set (h := le_bytes 2 (port_field ne_RemotePort event)) in *.
  set (i := le_bytes 2 (port_field ne_LocalPort event)) in *. set (j := pad 32 (secondary_str event)) in *.
  set (z := replicate 11 0) in *.
  assert (Hl : length a = 4%nat /\ length b = 4%nat /\ length c = 4%nat /\ length d = 1%nat /\ length e = 64%nat /\
    length f = 128%nat /\ length g = 4%nat /\ length h = 2%nat /\ length i = 2%nat /\ length j = 32%nat).
  { subst a b c d e f g h i j. by rewrite !length_pad. }
  destruct Hl as (La & Lb & Lc & Ld & Le & Lf & Lg & Lh & Li & Lj).
  rewrite Heq. rewrite Heq in Hlen.
  assert (Hsl : forall off n pre x post, [a; b; c; d; e; f; g; h; i; j; z] = pre ++ x :: post ->
    off = length (concat pre) -> n = length x -> slice off n (concat [a; b; c; d; e; f; g; h; i; j; z]) = x).
  { intros off n pre x post -> Ho Hn. by apply slice_concat. }
  split; [exact Hlen|
    apply (Hsl _ _ [] a [b; c; d; e; f; g; h; i; j; z])|apply (Hsl _ _ [a] b [c; d; e; f; g; h; i; j; z])|
    apply (Hsl _ _ [a; b] c [d; e; f; g; h; i; j; z])|apply (Hsl _ _ [a; b; c] d [e; f; g; h; i; j; z])|
    apply (Hsl _ _ [a; b; c; d] e [f; g; h; i; j; z])|apply (Hsl _ _ [a; b; c; d; e] f [g; h; i; j; z])|
    apply (Hsl _ _ [a; b; c; d; e; f] g [h; i; j; z])|apply (Hsl _ _ [a; b; c; d; e; f; g] h [i; j; z])|
    apply (Hsl _ _ [a; b; c; d; e; f; g; h] i [j; z])|apply (Hsl _ _ [a; b; c; d; e; f; g; h; i] j [z])];
    rewrite ?length_concat; cbn; lia || done.
Qed.

(** ** The bindings *)

(** The variables of an evaluator, innermost first. *)
Definition event_env (event : ApiEvent) (base : Z) : env :=
  match GetType event with
  | EventTypeProcess => [("path", VStr (seen 128 (primary_str event)))]
  | EventTypeFile =>
      [("operation", VStr (seen 32 (secondary_str event))); ("flags", VInt U32 (to_u32 (flags_field event)));
       ("path", VStr (seen 128 (primary_str event)))]
  | EventTypeNetwork =>
      [("protocol", VStr (seen 32 (secondary_str event)));
       ("local_port", VInt U16 (to_u16 (port_field ne_LocalPort event)));
       ("remote_port", VInt U16 (to_u16 (port_field ne_RemotePort event)));
       ("remote_addr", VStr (seen 128 (primary_str event)))]
  end ++
  [("comm", VStr (seen 64 (ae_Comm event))); ("gid", VInt U32 (to_u32 (ae_GID event)));
   ("uid", VInt U32 (to_u32 (ae_UID event))); ("pid", VInt U32 (to_u32 (ae_PID event)))] ++ entry_env base.

Section Bindings.
Context (m : memory) (rho : env) (lm : Z) (x off : string) (body : list stmt) (tail : rexpr) (base o : Z).
Context (Hbase : get "base" rho = Some (VInt Ptr base)) (Hoff : get off rho = Some (VInt Usize o)).

Lemma run_let_u32 z :
  read_u32 m base o = Some z ->
  run_body m rho lm (SLet x (ECall "read_u32" [EId "base"; EId off]) :: body) tail
  = run_body m ((x, VInt U32 z) :: rho) lm body tail.
Proof.
  intros Hz. cbn [run_body synth fn_sig fmap option_fmap option_map snd mbind option_bind eval].
  rewrite Hbase. cbn [mbind option_bind]. rewrite Hoff. cbn [mbind option_bind call_fn]. by rewrite Hz.
Qed.

Lemma run_let_u16 z :
  read_u16 m base o = Some z ->
  run_body m rho lm (SLet x (ECall "read_u16" [EId "base"; EId off]) :: body) tail
  = run_body m ((x, VInt U16 z) :: rho) lm body tail.
Proof.
  intros Hz. cbn [run_body synth fn_sig fmap option_fmap option_map snd mbind option_bind eval].
  rewrite Hbase. cbn [mbind option_bind]. rewrite Hoff. cbn [mbind option_bind call_fn]. by rewrite Hz.
Qed.

Lemma run_let_str len n s :
  get len rho = Some (VInt Usize n) -> read_str m base o n = Some s ->
  run_body m rho lm (SLet x (ECall "read_str" [EId "base"; EId off; EId len]) :: body) tail
  = run_body m ((x, VStr s) :: rho) lm body tail.
Proof.
  intros Hn Hs. cbn [run_body synth fn_sig fmap option_fmap option_map snd mbind option_bind eval].
  rewrite Hbase. cbn [mbind option_bind]. rewrite Hoff. cbn [mbind option_bind]. rewrite Hn.
  cbn [mbind option_bind call_fn]. by rewrite Hs.
Qed.
End Bindings.

(** Runs the binding at the front, whose read is [R]. *)
Ltac bind_u32 R := erewrite run_let_u32; [|reflexivity|reflexivity|exact R].
Ltac bind_u16 R := erewrite run_let_u16; [|reflexivity|reflexivity|exact R].
Ltac bind_str R := erewrite run_let_str; [|reflexivity|reflexivity|reflexivity|exact R].

(** The bindings read the fields of the event. *)
Lemma run_bindings m base event lm body tail :
  holds_at m base (writeEventBinary event) ->
  run_body m (entry_env base) lm ((let_stmt <$> bindings (evname event)) ++ body) tail
  = run_body m (event_env event base) lm body tail.
Proof.
  intros Hb. destruct (writeEventBinary_fields event) as [Hl H1 H2 H3 _ H5 H6 H7 H8 H9 H10].
  set (bs := writeEventBinary event) in *. clearbody bs.
  pose proof (read_u32_holds m base bs 0 _ Hb H1) as R1. pose proof (read_u32_holds m base bs 4 _ Hb H2) as R2.
  pose proof (read_u32_holds m base bs 8 _ Hb H3) as R3. pose proof (read_str_holds m base bs 13 64 _ Hb H5 ltac:(lia)) as R5.
  pose proof (read_str_holds m base bs 77 128 _ Hb H6 ltac:(lia)) as R6. pose proof (read_u32_holds m base bs 205 _ Hb H7) as R7.
  pose proof (read_u16_holds m base bs 209 _ Hb H8) as R8. pose proof (read_u16_holds m base bs 211 _ Hb H9) as R9.
  pose proof (read_str_holds m base bs 213 32 _ Hb H10 ltac:(lia)) as R10.
  unfold evname, event_env, bindings.
  destruct (GetType event); cbn [event_name app fmap list_fmap let_stmt];
    bind_u32 R1; bind_u32 R2; bind_u32 R3; bind_str R5; bind_str R6.
  - done.
  - bind_u32 R7. by bind_str R10.
  - bind_u16 R8. bind_u16 R9. by bind_str R10.
Qed.

Lemma event_env_ok event base : env_ok event (event_env event base).
Proof.
  split.
  - intros f t Hf. unfold evname, event_env, field_value in *. destruct (GetType event); cbn [event_name bound_fields get] in Hf;
      repeat (match type of Hf with context [String.eqb ?a ?b] => destruct (String.eqb_spec a b) as [<-|_] end;
        [injection Hf as <-; split; reflexivity|]); discriminate Hf.
  - intros act z Hact. unfold event_env. repeat (apply elem_of_cons in Hact as [[= -> ->]|Hact]; [by destruct (GetType event)|]).
    by apply not_elem_of_nil in Hact.
Qed.

(** ** The module of a policy *)

(** Some event of each type. *)
Definition blank_event (t : ApiEventType) : ApiEvent := {|
  ae_PID := 0; ae_UID := 0; ae_GID := 0; ae_Comm := []; ae_Filename := []; ae_Timestamp := 0; ae_Type := t;
  ae_CgroupID := 0; ae_Process := None; ae_File := None; ae_Network := None; ae_LSMEvent := false |}.

Lemma GetType_blank t : GetType (blank_event t) = t.
Proof. by destruct t. Qed.

Lemma check_bindings t rules tail :
  check_body (types (entry_env 0))
    ((let_stmt <$> bindings (event_name t)) ++ SDiscard (EId <$> discarded (event_name t)) :: rules) tail
  = check_body (types (event_env (blank_event t) 0)) rules tail.
Proof. by destruct t. Qed.

Lemma load_event_type event base (s : rust_inst) :
  holds_at (ri_mem s) base (writeEventBinary event) ->
  load (ri_mem s) (base + 12) = Some (event_type_byte (GetType event)).
Proof.
  intros Hb. destruct (writeEventBinary_fields event) as [_ _ _ _ Ht _ _ _ _ _ _].
  apply (Hb 12%nat). rewrite <- (lookup_slice 12 1 _ 0) by lia. by rewrite Ht.
Qed.

Section Policy.
Context (IsPrint : Z -> bool) (p : Policy) (Hok : policy_ok p) (Hcomp : policy_compiles p = true).

Lemma rules_for event : Forall (fun r => r_Event r = event /\ r ∈ p_Rules p) (rulesForEvent p event).
Proof. apply Forall_forall. intros r Hr. by apply list_elem_of_filter in Hr. Qed.

Lemma check_evaluator t :
  check_body (types (entry_env 0)) (fn_body (evaluator p (event_name t))) (fn_tail (evaluator p (event_name t))) = true.
Proof.
  unfold evaluator. cbn [fn_body fn_tail]. rewrite check_bindings.
  apply (check_rules (MkMem 0 (fun _ => 0)) (blank_event t)); [apply event_env_ok|done..|].
  unfold evname. rewrite GetType_blank. apply rules_for.
Qed.

Lemma compiled_typed : well_typed (compiled p) = true.
Proof.
  unfold well_typed. apply andb_true_intro. split.
  - unfold compiled. cbn [cr_reasons]. rewrite forallb_fmap. apply forallb_forall. intros r _. reflexivity.
  - cbn [cr_fns compiled forallb].
    pose proof (check_evaluator EventTypeProcess) as H1. pose proof (check_evaluator EventTypeFile) as H2.
    pose proof (check_evaluator EventTypeNetwork) as H3. cbn [event_name] in H1, H2, H3. by rewrite H1, H2, H3.
Qed.

(** The generated program compiles. *)
Lemma rustc_compiled : rustc (GenerateRust IsPrint p) = Some (compiled p).
Proof.
  unfold rustc. rewrite decide_True by done. rewrite (source_tokens IsPrint p Hok Hcomp). cbn [mbind option_bind].
  rewrite (parse_crate_tokens p Hok Hcomp). cbn [mbind option_bind]. by rewrite compiled_typed.
Qed.

Lemma find_evaluator event : event ∈ events -> find_fn ("evaluate_" +:+ event) (compiled p) = Some (evaluator p event).
Proof. intros He. by list_cases He. Qed.

(** The exported function decides as the policy does and remembers the rule. *)
Lemma evaluate_event_decides event base (s : rust_inst) :
  ri_crate s = compiled p -> holds_at (ri_mem s) base (writeEventBinary event) ->
  exists o, decides event (p_Rules p) o /\
    evaluate_event base s
    = Some (verdict_code p o, with_last_matched (from_option (globalRuleIndex p) NOT_MATCHED o) s).
Proof.
  intros Hc Hb. set (s0 := with_last_matched NOT_MATCHED s).
  assert (Hrun : exists o, decides event (p_Rules p) o /\ run_fn ("evaluate_" +:+ evname event) base s0
    = Some (verdict_code p o, with_last_matched (from_option (globalRuleIndex p) NOT_MATCHED o) s)).
  { unfold run_fn. change (ri_crate s0) with (ri_crate s). rewrite Hc, find_evaluator by apply evname_events.
    cbn [mbind option_bind evaluator fn_body fn_tail]. change (ri_mem s0) with (ri_mem s).
    rewrite (run_bindings _ _ _ _ _ _ Hb). cbn [run_body].
    destruct (run_rules (ri_mem s) event (event_env event base) (event_env_ok event base) p Hok Hcomp NOT_MATCHED _ (rules_for _))
      as (o & Ho & Hr).
    exists o. split; [by apply decides_filter|]. change (LAST_MATCHED s0) with NOT_MATCHED. by rewrite Hr. }
  destruct Hrun as (o & Ho & Hr). exists o. split; [done|]. unfold evaluate_event. fold s0.
  rewrite (load_event_type event base s Hb). cbn [mbind option_bind]. unfold evname in Hr. destruct (GetType event); exact Hr.
Qed.
End Policy.
