(* ===== verification/PolicyEvaluation.v ===== *)
(** A policy from its document to the daemon's decisions: the compiled module in the
    instance pool of internal/wasm, and what every evaluation returns. *)

From S2P Require Import Prelude CTypes GoApi GoFmt GoWasm PolicySchema PolicyCodegen RustSyntax RustModule.
From S2P Require Import PolicySemantics CodegenCorrect CodegenEval CompiledPolicy.

Import compiler.

(** ** The allocator *)

Section Alloc.
Context (ly : layout).

(** A request that fits is served from the end of the used part; one that does not
    gets a null pointer; nothing is ever given back. *)
Lemma rust_malloc_spec size s :
  0 <= HEAP_POS s <= HEAP_LEN -> 0 <= size <= HEAP_LEN ->
  rust_malloc ly size s =
    if HEAP_POS s + size <=? HEAP_LEN then (heap_base ly + HEAP_POS s, with_heap_pos (HEAP_POS s + size) s)
    else (0, s).
Proof.
  intros Hp Hs. unfold HEAP_LEN in *. unfold rust_malloc, bump_alloc. cbn zeta.
  assert (Hm : to_u32 (1 - 1) = 0) by done. rewrite Hm. rewrite Z.add_0_r.
  rewrite (to_u_id 32 (HEAP_POS s)) by (unfold is_u; lia).
  assert (Hl : Z.land (HEAP_POS s) (to_u32 (- 0 - 1)) = HEAP_POS s).
  { change (to_u32 (- 0 - 1)) with (Z.ones 32). rewrite Z.land_ones by lia. apply Z.mod_small. lia. }
  rewrite Hl, (to_u_id 32) by (unfold is_u; lia). unfold HEAP_LEN.
  destruct (Z.leb_spec (HEAP_POS s + size) 65536), (Z.ltb_spec 65536 (HEAP_POS s + size)); try lia; done.
Qed.
End Alloc.

(** ** Instances *)

Section Evaluation.
Context (IsPrint : Z -> bool) (ly : layout) (marshal : list (string * json) -> list Z) (p : Policy).

#[local] Instance module_wasm : Wasm crate rust_inst := rust_wasm ly marshal.

(** What holds of an instance between two evaluations. *)
Record inst_ok (s : rust_inst) : Prop := {
  io_crate : ri_crate s = compiled p;
  io_size : mem_size (ri_mem s) = memory_size ly;
  io_heap : 0 <= HEAP_POS s <= HEAP_LEN;
}.

Record instance_ok (pol : GoWasm.Policy rust_inst) : Prop := {
  po_inst : inst_ok (instance pol);
  po_abi : useBinaryABI pol = true;
  po_buf : 0 <= eventBufPtr pol /\ eventBufPtr pol + 256 <= memory_size ly;
}.

(** The rule whose reason is reported for [r]: the first one of its name. *)
Definition reported (r : Rule) : Rule :=
  match list_find (fun r' => r_Name r' = r_Name r) (p_Rules p) with Some (_, r') => r' | None => r end.

Definition reported_text (o : option Rule) : list Z :=
  match o with Some r => take 512 (bstr (rule_reason (reported r))) | None => [] end.

Context (Hly : layout_ok ly) (Hok : policy_ok p) (Hcomp : policy_compiles p = true).

Lemma verdict_range o : 0 <= verdict_code p o <= 3.
Proof.
  assert (Ha : forall a, 0 <= action_code a <= 2) by (intros a; unfold action_code; repeat case_match; lia).
  destruct o as [r|]; cbn; [unfold rule_code; destruct (_ && _)|]; [lia|specialize (Ha (r_Action r)); lia|].
  specialize (Ha (p_DefaultAction p)). lia.
Qed.

Lemma mem_store_ok a bs m :
  0 <= a -> a + Z.of_nat (length bs) <= mem_size m -> exists m', mem_store a bs m = Some m'.
Proof.
  intros Ha Hs. unfold mem_store. rewrite (proj2 (Z.leb_le 0 a)), (proj2 (Z.leb_le _ (mem_size m))) by lia. by eexists.
Qed.

(** The event is written, decided on, and the rule remembered. *)
Lemma evaluateBinary_decides event pol :
  instance_ok pol ->
  exists o pol', decides event (p_Rules p) o /\ evaluateBinary event pol = (Ret (verdict_code p o), pol') /\
    instance_ok pol' /\ LAST_MATCHED (instance pol') = from_option (globalRuleIndex p) NOT_MATCHED o /\
    HEAP_POS (instance pol') = HEAP_POS (instance pol).
Proof.
  intros [[Hc Hs Hh] Habi [Hb0 Hb1]]. destruct (wasm_event_layout event) as [Hlen _]. destruct Hly as [Hl1 Hl2 Hl3].
  destruct (mem_store_ok (eventBufPtr pol) (writeEventBinary event) (ri_mem (instance pol))) as [m' Hm]; [done| |].
  { rewrite Hlen, Hs. unfold eventStructSize. lia. }
  set (s1 := with_mem m' (instance pol)).
  destruct (evaluate_event_decides p Hok Hcomp event (eventBufPtr pol) s1) as (o & Ho & He);
    [done|by eapply mem_store_holds|].
  unfold evaluateBinary. cbn [memory_write module_wasm rust_wasm]. rewrite Hm. cbn [fmap option_fmap option_map].
  unfold call0. cbn [call module_wasm rust_wasm with_instance instance rust_call fmap list_fmap].
  rewrite (to_u_id 32 (eventBufPtr pol)) by (unfold is_u; lia). fold s1. rewrite He. cbn [export_call go_bind result0].
  pose proof (verdict_range o) as Hv. rewrite (to_u_id 32 (verdict_code p o)) by (unfold is_u; lia).
  exists o. eexists. split; [done|]. split; [f_equal; f_equal; unfold to_s; rewrite Z.mod_small by lia;
    by rewrite (proj2 (Z.ltb_lt _ _)) by lia|].
  split; [|by split]. split; [split|..]; cbn; try done. by rewrite (mem_store_size _ _ _ _ Hm).
Qed.

Lemma decides_in event rules r : decides event rules (Some r) -> r ∈ rules.
Proof. inversion 1; subst. set_solver. Qed.

Lemma reasons_compiled : reasons (compiled p) = (fun r => bstr (rule_reason r)) <$> p_Rules p.
Proof.
  unfold reasons, compiled. cbn [cr_reasons]. induction (p_Rules p) as [|r rules IH]; [done|]. cbn in *. by rewrite IH.
Qed.

Lemma reason_at r :
  r ∈ p_Rules p ->
  reasons (compiled p) !! Z.to_nat (globalRuleIndex p r) = Some (bstr (rule_reason (reported r))) /\
  bstr (rule_reason (reported r)) <> [].
Proof.
  intros Hr. unfold globalRuleIndex, reported.
  destruct (list_find_elem_of (fun r' => r_Name r' = r_Name r) (p_Rules p) r Hr eq_refl) as [[i r'] Hi]. rewrite Hi.
  apply list_find_Some in Hi as (Hi & _ & _). rewrite Nat2Z.id, reasons_compiled, list_lookup_fmap, Hi. split; [done|].
  unfold rule_reason. destruct (String.eqb_spec (r_Reason r') ""); [done|]. by destruct (r_Reason r').
Qed.

(** The end of the used part of the heap after a request for a buffer. *)
Definition after_buffer (pos : Z) : Z := if pos + 512 <=? HEAP_LEN then pos + 512 else pos.

(** A buffer of 512 bytes, also when the heap is used up: address 0 is writable. *)
Lemma malloc_buffer s :
  inst_ok s -> exists ptr s', rust_malloc ly 512 s = (ptr, s') /\ inst_ok s' /\
    HEAP_POS s' = after_buffer (HEAP_POS s) /\ LAST_MATCHED s' = LAST_MATCHED s /\ 0 <= ptr /\ ptr + 512 <= memory_size ly /\ to_u32 ptr = ptr.
Proof.
  intros [Hc Hs Hh]. destruct Hly as [Hl1 Hl2 Hl3]. unfold HEAP_LEN in *.
  rewrite rust_malloc_spec by (unfold HEAP_LEN; lia). unfold after_buffer, HEAP_LEN.
  destruct (Z.leb_spec (HEAP_POS s + 512) 65536); do 2 eexists; (split; [reflexivity|]);
    split_and!; try done; try (split; unfold HEAP_LEN; cbn; done || lia); cbn; try lia.
  apply to_u_id. unfold is_u. lia.
Qed.

(** The reason is copied into the buffer, cut at its size. *)
Lemma get_last_matched_reason s ptr r :
  inst_ok s -> r ∈ p_Rules p -> LAST_MATCHED s = globalRuleIndex p r -> 0 <= ptr -> ptr + 512 <= memory_size ly ->
  let text := take 512 (bstr (rule_reason (reported r))) in
  exists m', get_last_matched_rule ptr 512 s = Some (Z.of_nat (length text), with_mem m' s) /\
    inst_ok (with_mem m' s) /\ mem_load ptr (Z.of_nat (length text)) m' = Some text.
Proof.
  intros [Hc Hs Hh] Hr Hlm H0 H1. cbn zeta. destruct (reason_at r Hr) as [Hat _].
  set (bytes := bstr (rule_reason (reported r))) in *. clearbody bytes.
  pose proof (globalRuleIndex_lt p Hcomp r Hr) as Hlt.
  unfold get_last_matched_rule. rewrite Hlm, (proj2 (Z.eqb_neq _ _)) by lia. rewrite Hc, Hat.
  assert (Hlen : (if Z.of_nat (length bytes) <? 512 then Z.of_nat (length bytes) else 512) = Z.of_nat (length (take 512 bytes))).
  { rewrite length_take. destruct (Z.ltb_spec (Z.of_nat (length bytes)) 512); lia. }
  rewrite Hlen, Nat2Z.id. rewrite length_take, take_min_length.
  destruct (mem_store_ok ptr (take 512 bytes) (ri_mem s)) as [m' Hm]; [done|rewrite Hs, length_take; lia|].
  rewrite Hm. cbn [mbind option_bind]. exists m'. split; [done|]. split.
  - split; cbn; [done| |done]. by rewrite (mem_store_size _ _ _ _ Hm).
  - unfold mem_load. rewrite Nat2Z.id. apply mem_store_holds in Hm.
    rewrite (loads_holds _ _ _ _ Hm) by (rewrite length_take; lia). f_equal. apply take_ge. rewrite length_take. lia.
Qed.

Lemma GetMatchedRule_reports pol o :
  instance_ok pol -> (forall r, o = Some r -> r ∈ p_Rules p) ->
  LAST_MATCHED (instance pol) = from_option (globalRuleIndex p) NOT_MATCHED o ->
  exists pol', GetMatchedRule pol = (reported_text o, pol') /\ instance_ok pol' /\
    HEAP_POS (instance pol') = after_buffer (HEAP_POS (instance pol)).
Proof.
  intros [Hi Habi Hbuf] Hin Hlm. unfold GetMatchedRule, free_buffer, call0.
  cbn [exports call module_wasm rust_wasm existsb rust_exports String.eqb Ascii.eqb Bool.eqb negb orb andb].
  cbn [rust_call fmap list_fmap]. change (to_u32 512) with 512.
  destruct (malloc_buffer _ Hi) as (ptr & s' & Hmal & Hi' & Hpos & Hlm' & H0 & H1 & Hptr).
  rewrite Hmal. cbn [export_call go_bind result0 instance with_instance]. rewrite !Hptr.
  destruct o as [r|]; cbn [from_option reported_text] in *.
  - destruct (get_last_matched_reason s' ptr r Hi' (Hin r eq_refl) ltac:(congruence) H0 H1) as (m' & Hg & Hi'' & Hload).
    rewrite Hg. cbn [export_call go_bind result0 instance with_instance rust_free memory_read].
    set (text := take 512 (bstr (rule_reason (reported r)))) in *.
    assert (Hlen : 0 < Z.of_nat (length text) < 2 ^ 32).
    { destruct (reason_at r (Hin r eq_refl)) as [_ Hne]. subst text. rewrite length_take.
      destruct (bstr (rule_reason (reported r))); [done|]. cbn [length]. lia. }
    rewrite !(to_u_id 32 (Z.of_nat (length text))) by (unfold is_u; lia).
    rewrite (proj2 (Z.eqb_neq _ _)) by lia. eexists. split.
    + cbn [memory_read module_wasm rust_wasm instance ri_mem with_mem]. rewrite Hload. reflexivity.
    + split; [by split|exact Hpos].
  - assert (Hg : get_last_matched_rule ptr 512 s' = Some (0, s'))
      by (unfold get_last_matched_rule; by rewrite Hlm', Hlm).
    rewrite Hg. cbn. eexists. split; [reflexivity|]. split; [by split|exact Hpos].
Qed.

(** ** The pool *)

Record pool_ok (pl : Pool crate rust_inst) : Prop := {
  plo_ready : pool_ready pl;
  plo_instances : Forall instance_ok (instances pl);
}.

Lemma pool_instantiate_ok (pl : Pool crate rust_inst) :
  pmodule pl = compiled p ->
  exists pol, pool_instantiate pl
    = (Ret pol, MkPool (instances pl) (closed pl) (psize pl) (to_u64 (counter pl + 1)) (pmodule pl)) /\
    instance_ok pol /\ HEAP_POS (instance pol) = 256 + 512 * 0.
Proof.
  intros Hm. unfold pool_instantiate. cbn [InstantiateModule module_wasm rust_wasm pmodule]. rewrite Hm.
  unfold call0. cbn [exports call module_wasm rust_wasm existsb rust_exports String.eqb Ascii.eqb Bool.eqb negb orb andb].
  cbn [rust_call fmap list_fmap instance]. change (to_u32 256) with 256.
  rewrite (rust_malloc_spec ly 256) by (unfold HEAP_LEN; cbn; lia). cbn [rust_instantiate HEAP_POS].
  change (0 + 256 <=? HEAP_LEN) with true. cbn [export_call go_bind result0 with_instance instance fst snd].
  destruct Hly as [Hl1 Hl2 Hl3]. unfold HEAP_LEN in *. rewrite Z.add_0_r.
  rewrite !(to_u_id 32 (heap_base ly)) by (unfold is_u; lia).
  eexists. split; [reflexivity|]. split; [|done]. split; [split; unfold HEAP_LEN; cbn; done || lia|done|cbn; lia].
Qed.

Lemma fill_pool_ok n i (pl : Pool crate rust_inst) :
  pmodule pl = compiled p -> Forall instance_ok (instances pl) ->
  exists pl', fill_pool n i pl = Ret pl' /\ Forall instance_ok (instances pl') /\ closed pl' = closed pl /\
    psize pl' = psize pl /\ length (instances pl') = (length (instances pl) + n)%nat.
Proof.
  revert i pl. induction n as [|n IH]; intros i pl Hm Hi; cbn [fill_pool].
  { exists pl. split_and!; [done..|lia]. }
  destruct (pool_instantiate_ok pl Hm) as (pol & Heq & Hpol & _). rewrite Heq.
  match goal with |- exists _, fill_pool _ _ ?q = _ /\ _ => destruct (IH (i + 1) q) as (pl' & Hf & Ha & Hb & Hd & He) end.
  { exact Hm. }
  { cbn. apply Forall_app. split; [done|]. by constructor. }
  exists pl'. rewrite Hf. cbn [instances closed psize] in *. rewrite length_app in He. cbn in He. split_and!; [done..|lia].
Qed.

Lemma NewPool_ok size : exists pl, NewPool (Some (compiled p)) size = Ret pl /\ pool_ok pl.
Proof.
  unfold NewPool. set (n := if size <=? 0 then 1 else size).
  assert (Hn : 0 < n) by (subst n; destruct (Z.leb_spec size 0); lia).
  destruct (fill_pool_ok (Z.to_nat n) 0 (MkPool [] false n 0 (compiled p)) eq_refl) as (pl & Hf & Ha & Hb & Hd & He); [constructor|].
  exists pl. split; [done|]. split; [|done]. cbn in *. split_and!; [done| |rewrite He, Hd; lia].
  intros Hnil. rewrite Hnil in He. cbn in He. lia.
Qed.

(** ** Decisions *)

(** What the evaluator returns when [o] decides. *)
Definition policy_result (event : ApiEvent) (start latency : Z) (o : option Rule) : ActionResult :=
  let audit := verdict_code p o =? ActionAuditDeny in
  let action := if audit then api.ActionDeny else verdict_code p o in
  let reason := match o with
                | Some r => Sprintf "%s" [AStr (take 512 (bstr (rule_reason (reported r))))]
                | None => buildReason action event
                end in
  MkResult action reason start false latency audit.

Lemma Evaluate_decides event start latency (pl : Pool crate rust_inst) :
  pool_ok pl ->
  exists o pl', decides event (p_Rules p) o /\
    Evaluate false start latency event pl = (Ret (policy_result event start latency o), pl') /\ pool_ok pl'.
Proof.
  intros [(Hc & Hne & Hsz) Hi]. unfold Evaluate, Pool_Get. destruct (instances pl) as [|pol rest] eqn:Hin; [done|].
  apply Forall_cons in Hi as [Hpol Hrest].
  destruct (evaluateBinary_decides event pol Hpol) as (o & pol1 & Ho & He & Hpol1 & Hlm & _).
  unfold Policy_Evaluate. rewrite (po_abi _ Hpol), He.
  assert (Hino : forall r, o = Some r -> r ∈ p_Rules p) by (intros r ->; by eapply decides_in).
  destruct (GetMatchedRule_reports pol1 o Hpol1 Hino Hlm) as (pol2 & Hg & Hpol2 & _).
  exists o. eexists. split; [done|].
  assert (Hreason : forall action, (if bool_decide (reported_text o = []) then buildReason action event
      else Sprintf "%s" [AStr (reported_text o)]) =
    match o with Some r => Sprintf "%s" [AStr (take 512 (bstr (rule_reason (reported r))))]
    | None => buildReason action event end).
  { intros action. destruct o as [r|]; [|done]. rewrite bool_decide_eq_false_2; [done|]. cbn.
    destruct (reason_at r (Hino r eq_refl)) as [_ Hr]. by destruct (bstr _). }
  unfold policy_result. destruct (verdict_code p o =? ActionAuditDeny); rewrite Hg, Hreason;
    (unfold Pool_Put; cbn [closed instances psize counter pmodule]; rewrite Hc; cbn [length] in Hsz;
     rewrite (proj2 (Z.ltb_lt _ _)) by lia; split; [reflexivity|]);
    (split; [split_and!; cbn; [done|by destruct rest|rewrite length_app; cbn; lia]|
             cbn; apply Forall_app; split; [done|by constructor]]).
Qed.

Lemma Evaluate_canceled event start latency (pl : Pool crate rust_inst) :
  (Evaluate true start latency event pl).2 = pl.
Proof. done. Qed.

(** The pools that evaluations can lead to. *)
Inductive pool_reachable (c : crate) (size : Z) : Pool crate rust_inst -> Prop :=
  | reach_new pl : NewPool (Some c) size = Ret pl -> pool_reachable c size pl
  | reach_evaluate pl canceled start latency event :
      pool_reachable c size pl -> pool_reachable c size (Evaluate canceled start latency event pl).2.

Lemma reachable_ok size pl : pool_reachable (compiled p) size pl -> pool_ok pl.
Proof.
  induction 1 as [pl Hnew|pl canceled start latency event _ IH].
  - destruct (NewPool_ok size) as (pl' & Hnew' & Hpl). congruence.
  - destruct canceled; [done|]. destruct (Evaluate_decides event start latency pl IH) as (o & pl' & _ & -> & Hpl). exact Hpl.
Qed.

(** ** The heap *)

(** One evaluation on an instance, with the report of the rule. *)
Definition evaluate_once (pol : GoWasm.Policy rust_inst) (event : ApiEvent) : GoWasm.Policy rust_inst :=
  (GetMatchedRule (Policy_Evaluate event pol).2).2.

Lemma evaluate_once_heap event pol :
  instance_ok pol -> instance_ok (evaluate_once pol event) /\
  HEAP_POS (instance (evaluate_once pol event)) = after_buffer (HEAP_POS (instance pol)).
Proof.
  intros Hpol. unfold evaluate_once, Policy_Evaluate. rewrite (po_abi _ Hpol).
  destruct (evaluateBinary_decides event pol Hpol) as (o & pol1 & Ho & -> & Hpol1 & Hlm & Hpos). cbn [snd].
  destruct (GetMatchedRule_reports pol1 o Hpol1) as (pol2 & -> & Hpol2 & Hpos2); [intros r ->; by eapply decides_in|done|].
  cbn [snd]. split; [done|]. by rewrite Hpos2, Hpos.
Qed.

Lemma evaluations_heap events : forall pol k,
  instance_ok pol -> 0 <= k <= 127 -> HEAP_POS (instance pol) = 256 + 512 * k ->
  instance_ok (foldl evaluate_once pol events) /\
  HEAP_POS (instance (foldl evaluate_once pol events)) = 256 + 512 * Z.min (k + Z.of_nat (length events)) 127.
Proof.
  induction events as [|event events IH]; intros pol k Hpol Hk Hpos; cbn [foldl length].
  { split; [done|]. rewrite Hpos. lia. }
  destruct (evaluate_once_heap event pol Hpol) as [Hpol' Hpos']. rewrite Hpos in Hpos'.
  unfold after_buffer, HEAP_LEN in Hpos'. destruct (Z.leb_spec (256 + 512 * k + 512) 65536).
  - destruct (IH _ (k + 1) Hpol' ltac:(lia) ltac:(lia)) as [? Hp]. split; [done|]. rewrite Hp. lia.
  - destruct (IH _ k Hpol' Hk Hpos') as [? Hp]. split; [done|]. rewrite Hp. lia.
Qed.
End Evaluation.

(** C32: the bump allocator of a compiled policy never gives memory back: every
    evaluation takes another 512 bytes for the reason, after 127 evaluations the heap
    of 64 KiB is used up for good and the host gets null pointers, but the instance
    stays in order and never uses more than its heap. *)
Theorem heap_usage_bounded ly marshal p pl pol pl' events :
  layout_ok ly -> policy_ok p -> policy_compiles p = true -> pmodule pl = compiled p ->
  @pool_instantiate _ _ (rust_wasm ly marshal) pl = (Ret pol, pl') ->
  let after := foldl (evaluate_once ly marshal) pol events in
  HEAP_POS (instance after) = 256 + 512 * Z.min (Z.of_nat (length events)) 127 /\
  0 <= HEAP_POS (instance after) <= HEAP_LEN /\
  ((127 <= length events)%nat -> (rust_malloc ly 512 (instance after)).1 = 0).
Proof.
  intros Hly Hok Hcomp Hm Hpol. cbn zeta.
  destruct (pool_instantiate_ok ly marshal p Hly pl Hm) as (pol0 & Heq & Hpol0 & Hpos).
  change (rust_wasm ly marshal) with (module_wasm ly marshal) in Hpol. rewrite Heq in Hpol.
  injection Hpol as <- _.
  destruct (evaluations_heap ly marshal p Hly Hok Hcomp events pol0 0 Hpol0 ltac:(lia) Hpos) as [Hi Hp].
  set (after := foldl _ _ _) in *. clearbody after. destruct Hi as [[_ _ Hh] _ _].
  split; [exact Hp|]. split; [exact Hh|]. intros Hl. rewrite rust_malloc_spec by (unfold HEAP_LEN in *; lia).
  rewrite Hp. by rewrite (proj2 (Z.leb_gt _ _)) by (unfold HEAP_LEN; lia).
Qed.

(** C2: a YAML policy decides what it says.  For every document the parser accepts
    and whose values fit their fields, the generated program compiles, an instance
    pool can be made of it, and from then on, whatever was evaluated before, every
    evaluation of an event returns the decision of the first rule of the policy that
    matches it, audit mode included, or the default action if none matches.  The reason
    returned is that of the first rule with the name of the deciding rule, names need not
    be unique, cut after 512 bytes. *)
Theorem yaml_policy_decides IsPrint ly marshal raw p size :
  Parse_raw raw = Ret p -> policy_compiles p = true -> layout_ok ly ->
  exists c, rustc (GenerateRust IsPrint p) = Some c /\
    (exists pl, @NewPool _ _ (rust_wasm ly marshal) (Some c) size = Ret pl) /\
    forall pl, pool_reachable ly marshal c size pl -> forall event start latency,
      exists o pl', decides event (p_Rules p) o /\
        @Evaluate _ _ (rust_wasm ly marshal) false start latency event pl
        = (Ret (policy_result p event start latency o), pl').
Proof.
  intros Hp Hcomp Hly. apply parse_ok in Hp. exists (compiled p). split; [by apply rustc_compiled|]. split.
  - destruct (NewPool_ok ly marshal p Hly size) as (pl & Hpl & _). by exists pl.
  - intros pl Hpl event start latency.
    apply reachable_ok in Hpl; [|done..].
    destruct (Evaluate_decides ly marshal p Hly Hp Hcomp event start latency pl Hpl) as (o & pl' & ? & ? & _).
    by exists o, pl'.
Qed.
