(* ===== verification/Streaming.v ===== *)
(** internal/streaming/event.go and pipeline.go: the record of a decision and the
    pipeline that hands records to the sinks.

    [transform] is a function of the event, the decision and the surroundings (an
    identifier, the clock, the host's name).  The pipeline is a step relation over the
    atomic actions of its goroutines: callers of [Emit], the loop, and callers of [Close].
    The loop receives a pair, makes its record, hands it to one sink after the other and
    counts it, each in a step of its own.  Sinks and enrichers are interfaces of the source:
    a sink is the list of records it was asked to write, whatever it answers. *)

From S2P Require Import Prelude GoApi GoCache GoActions.

(** ** Records *)

Record LineageEntry : Type := MkLineageEntry {
  le_PID : Z;
  le_Comm : list Z;
  le_Filename : list Z;
}.

Record SecurityEvent : Type := {
  se_ID : list Z;
  se_Timestamp : Z;
  se_Hostname : list Z;
  se_EventType : string;
  se_CgroupID : Z;
  se_PID : Z;
  se_PPID : Z;
  se_UID : Z;
  se_GID : Z;
  se_Comm : list Z;
  se_Filename : list Z;
  se_RemoteAddr : list Z;
  se_RemotePort : Z;
  se_LocalPort : Z;
  se_Protocol : list Z;
  se_MountType : list Z;
  se_PtraceComm : list Z;
  se_Decision : string;
  se_Reason : message;
  se_PolicyRule : list Z;
  se_Cached : bool;
  se_Enforced : bool;
  se_AuditOnly : bool;
  se_LatencyUS : Z;
  se_Lineage : list LineageEntry;
  se_Labels : list (string * string);
}.

(** What [transform] reads besides the event and the decision. *)
Record surroundings : Type := MkSurroundings {
  su_id : list Z;
  su_now : Z;
  su_hostname : list Z;
  su_labels : list (string * string);
}.

(** The first of January of the year 1, in nanoseconds since the epoch. *)
Definition zero_time : Z := -62135596800 * 10 ^ 9.
Definition IsZero (t : Z) : bool := t =? zero_time.

Definition decision_text (a : Z) : string :=
  if a =? api.ActionAllow then "allow"
  else if a =? api.ActionDeny then "deny"
  else if a =? api.ActionLog then "log"
  else "".

Definition event_type_text (t : ApiEventType) : string :=
  match t with EventTypeProcess => "exec" | EventTypeFile => "file" | EventTypeNetwork => "network" end.

Definition transform (su : surroundings) (event : ApiEvent) (result : option ActionResult) : SecurityEvent :=
  let net {A} (get : NetworkEvent -> A) (zero : A) : A :=
    match GetType event with EventTypeNetwork => from_option get zero (ae_Network event) | _ => zero end in
  {| se_ID := su_id su;
     se_Timestamp := if IsZero (ae_Timestamp event) then su_now su else ae_Timestamp event;
     se_Hostname := su_hostname su;
     se_EventType := event_type_text (GetType event);
     se_CgroupID := ae_CgroupID event;
     se_PID := ae_PID event; se_PPID := 0; se_UID := ae_UID event; se_GID := ae_GID event;
     se_Comm := ae_Comm event;
     se_Filename :=
       match GetType event with
       | EventTypeProcess => from_option pe_Filename (ae_Filename event) (ae_Process event)
       | EventTypeFile => from_option fe_Path (ae_Filename event) (ae_File event)
       | EventTypeNetwork => ae_Filename event
       end;
     se_RemoteAddr := net ne_RemoteAddr [];
     se_RemotePort := net ne_RemotePort 0;
     se_LocalPort := net ne_LocalPort 0;
     se_Protocol := net ne_Protocol [];
     se_MountType := []; se_PtraceComm := [];
     se_Decision := from_option (fun r => decision_text (Action r)) "" result;
     se_Reason := from_option Reason (Text "") result;
     se_PolicyRule := [];
     se_Cached := from_option Cached false result;
     se_Enforced := from_option (fun r => (Action r =? api.ActionDeny) && negb (Audit r)) false result;
     se_AuditOnly := from_option Audit false result;
     se_LatencyUS := from_option (fun r => Latency r ÷ 1000) 0 result;
     se_Lineage := []; se_Labels := su_labels su |}.

(** ** The pipeline *)

(** The decision is a pointer into a store that its owner may still change. *)
Definition eventPair : Type := (ApiEvent * pointer).

(** A caller of [Emit] that found the pipeline open, before and after it counted. *)
Inductive emitter : Type := Checked (p : eventPair) | Counted (p : eventPair).

(** Where [Close] is: not called, the flag set, the channel closed, returned. *)
Inductive closer : Type := NotClosing | Swapped | Waiting | Finished.

(** Where the loop is with a pair: between two pairs, after receiving one, or with its
    record made and handed to the first [i] sinks. *)
Inductive progress : Type := Idle | Received (pair : eventPair) | Writing (pair : eventPair) (se : SecurityEvent) (i : nat).

(** Counters of 64 bits. *)
Record pipelineCounters : Type := MkCounters {
  eventsReceived : Z;
  eventsEmitted : Z;
  eventsDropped : Z;
  sinkErrors : Z;
}.

Definition add_received (c : pipelineCounters) : pipelineCounters :=
  MkCounters (to_u64 (eventsReceived c + 1)) (eventsEmitted c) (eventsDropped c) (sinkErrors c).
Definition add_emitted (c : pipelineCounters) : pipelineCounters :=
  MkCounters (eventsReceived c) (to_u64 (eventsEmitted c + 1)) (eventsDropped c) (sinkErrors c).
Definition add_dropped (c : pipelineCounters) : pipelineCounters :=
  MkCounters (eventsReceived c) (eventsEmitted c) (to_u64 (eventsDropped c + 1)) (sinkErrors c).
Definition add_errors (n : nat) (c : pipelineCounters) : pipelineCounters :=
  MkCounters (eventsReceived c) (eventsEmitted c) (eventsDropped c) (to_u64 (sinkErrors c + Z.of_nat n)).

(** The last two fields are history and not part of the code's state. *)
Record Pipeline : Type := MkPipeline {
  bufferSize : Z;
  pclosed : bool;
  eventCh : list eventPair;
  ch_closed : bool;
  looping : bool;
  handling : progress;
  emitters : list emitter;
  closing : closer;
  store : gmap Z ActionResult;
  stats : pipelineCounters;
  sinks : list (list SecurityEvent);
  panicked : option string;
  accepted : list eventPair;
  processed : list (eventPair * SecurityEvent);
}.

Definition set_flag b (p : Pipeline) : Pipeline :=
  MkPipeline (bufferSize p) b (eventCh p) (ch_closed p) (looping p) (handling p) (emitters p) (closing p) (store p) (stats p) (sinks p) (panicked p) (accepted p) (processed p).
Definition set_ch_closed b (p : Pipeline) : Pipeline :=
  MkPipeline (bufferSize p) (pclosed p) (eventCh p) b (looping p) (handling p) (emitters p) (closing p) (store p) (stats p) (sinks p) (panicked p) (accepted p) (processed p).
Definition set_queue q (p : Pipeline) : Pipeline :=
  MkPipeline (bufferSize p) (pclosed p) q (ch_closed p) (looping p) (handling p) (emitters p) (closing p) (store p) (stats p) (sinks p) (panicked p) (accepted p) (processed p).
Definition set_looping b (p : Pipeline) : Pipeline :=
  MkPipeline (bufferSize p) (pclosed p) (eventCh p) (ch_closed p) b (handling p) (emitters p) (closing p) (store p) (stats p) (sinks p) (panicked p) (accepted p) (processed p).
Definition set_handling h (p : Pipeline) : Pipeline :=
  MkPipeline (bufferSize p) (pclosed p) (eventCh p) (ch_closed p) (looping p) h (emitters p) (closing p) (store p) (stats p) (sinks p) (panicked p) (accepted p) (processed p).
Definition set_emitters es (p : Pipeline) : Pipeline :=
  MkPipeline (bufferSize p) (pclosed p) (eventCh p) (ch_closed p) (looping p) (handling p) es (closing p) (store p) (stats p) (sinks p) (panicked p) (accepted p) (processed p).
Definition set_closing c (p : Pipeline) : Pipeline :=
  MkPipeline (bufferSize p) (pclosed p) (eventCh p) (ch_closed p) (looping p) (handling p) (emitters p) c (store p) (stats p) (sinks p) (panicked p) (accepted p) (processed p).
Definition set_store st (p : Pipeline) : Pipeline :=
  MkPipeline (bufferSize p) (pclosed p) (eventCh p) (ch_closed p) (looping p) (handling p) (emitters p) (closing p) st (stats p) (sinks p) (panicked p) (accepted p) (processed p).
Definition set_stats c (p : Pipeline) : Pipeline :=
  MkPipeline (bufferSize p) (pclosed p) (eventCh p) (ch_closed p) (looping p) (handling p) (emitters p) (closing p) (store p) c (sinks p) (panicked p) (accepted p) (processed p).
Definition set_sinks l (p : Pipeline) : Pipeline :=
  MkPipeline (bufferSize p) (pclosed p) (eventCh p) (ch_closed p) (looping p) (handling p) (emitters p) (closing p) (store p) (stats p) l (panicked p) (accepted p) (processed p).
Definition set_panicked why (p : Pipeline) : Pipeline :=
  MkPipeline (bufferSize p) (pclosed p) (eventCh p) (ch_closed p) (looping p) (handling p) (emitters p) (closing p) (store p) (stats p) (sinks p) (Some why) (accepted p) (processed p).
Definition add_accepted pair (p : Pipeline) : Pipeline :=
  MkPipeline (bufferSize p) (pclosed p) (eventCh p) (ch_closed p) (looping p) (handling p) (emitters p) (closing p) (store p) (stats p) (sinks p) (panicked p) (accepted p ++ [pair]) (processed p).
Definition add_processed x (p : Pipeline) : Pipeline :=
  MkPipeline (bufferSize p) (pclosed p) (eventCh p) (ch_closed p) (looping p) (handling p) (emitters p) (closing p) (store p) (stats p) (sinks p) (panicked p) (accepted p) (processed p ++ [x]).

Definition NewPipeline (BufferSize : Z) (nsinks : nat) (st : gmap Z ActionResult) : Pipeline :=
  MkPipeline (if BufferSize <=? 0 then 4096 else BufferSize) false [] false true Idle [] NotClosing st (MkCounters 0 0 0 0)
    (replicate nsinks []) None [] [].

(** The select of [Emit]: a send on a closed channel panics, also with a default case. *)
Definition send (pair : eventPair) (p : Pipeline) : Pipeline :=
  if ch_closed p then set_panicked "send on closed channel" p
  else if Z.of_nat (length (eventCh p)) <? bufferSize p then add_accepted pair (set_queue (eventCh p ++ [pair]) p)
  else set_stats (add_dropped (stats p)) p.

(** The result a pair points to, now. *)
Definition result_of (pair : eventPair) (p : Pipeline) : option ActionResult := a ← pair.2; store p !! a.

Section Steps.
Context (Enrich : SecurityEvent -> SecurityEvent).

(** [process], step by step: the record is made, handed to a sink, which may fail, and
    counted when all sinks have it. *)
Definition make_record (su : surroundings) (pair : eventPair) (p : Pipeline) : Pipeline :=
  set_handling (Writing pair (Enrich (transform su pair.1 (result_of pair p))) 0) p.
Definition write_sink (pair : eventPair) (se : SecurityEvent) (i : nat) (failed : bool) (p : Pipeline) : Pipeline :=
  set_handling (Writing pair se (S i))
    (set_stats (add_errors (if failed then 1 else 0) (stats p)) (set_sinks (alter (fun l => l ++ [se]) i (sinks p)) p)).
Definition finish_record (pair : eventPair) (se : SecurityEvent) (p : Pipeline) : Pipeline :=
  add_processed (pair, se) (set_handling Idle (set_stats (add_emitted (stats p)) p)).

(** One atomic action.  A panic ends the program.  A call of [Emit], or of [Close], that
    finds the flag set returns. *)
Inductive pipe_step (p : Pipeline) : Pipeline -> Prop :=
  | emit_check pair : panicked p = None -> pclosed p = false ->
      pipe_step p (set_emitters (Checked pair :: emitters p) p)
  | emit_count es pair es' : panicked p = None -> emitters p = es ++ Checked pair :: es' ->
      pipe_step p (set_stats (add_received (stats p)) (set_emitters (es ++ Counted pair :: es') p))
  | emit_send es pair es' : panicked p = None -> emitters p = es ++ Counted pair :: es' ->
      pipe_step p (send pair (set_emitters (es ++ es') p))
  | loop_receive pair q : panicked p = None -> looping p = true -> handling p = Idle -> eventCh p = pair :: q ->
      pipe_step p (set_handling (Received pair) (set_queue q p))
  | loop_make su pair : panicked p = None -> handling p = Received pair -> pipe_step p (make_record su pair p)
  | loop_write pair se i failed : panicked p = None -> handling p = Writing pair se i -> (i < length (sinks p))%nat ->
      pipe_step p (write_sink pair se i failed p)
  | loop_count pair se : panicked p = None -> handling p = Writing pair se (length (sinks p)) ->
      pipe_step p (finish_record pair se p)
  | loop_tick errors : panicked p = None -> looping p = true -> handling p = Idle ->
      pipe_step p (set_stats (add_errors errors (stats p)) p)
  | loop_done : panicked p = None -> looping p = true -> handling p = Idle -> eventCh p = [] -> ch_closed p = true ->
      pipe_step p (set_looping false p)
  | close_swap : panicked p = None -> pclosed p = false -> pipe_step p (set_closing Swapped (set_flag true p))
  | close_channel : panicked p = None -> closing p = Swapped -> pipe_step p (set_closing Waiting (set_ch_closed true p))
  | close_return : panicked p = None -> closing p = Waiting -> looping p = false -> pipe_step p (set_closing Finished p)
  | closed_return : panicked p = None -> pclosed p = true -> pipe_step p p
  | owner_writes a r : panicked p = None -> pipe_step p (set_store (<[a := r]> (store p)) p).

(** The pipelines that actions in any order can lead to. *)
Definition pipe_reachable (BufferSize : Z) (nsinks : nat) (p : Pipeline) : Prop :=
  exists st, rtc pipe_step (NewPipeline BufferSize nsinks st) p.

Definition counted (e : emitter) : bool := match e with Counted _ => true | Checked _ => false end.
Definition in_flight (p : Pipeline) : list emitter := List.filter counted (emitters p).

(** The pair the loop is handling, and what the sinks hold while it does. *)
Definition current (p : Pipeline) : list eventPair :=
  match handling p with Idle => [] | Received x | Writing x _ _ => [x] end.
Definition made_of (pair : eventPair) (se : SecurityEvent) : Prop := exists su r, se = Enrich (transform su pair.1 r).
Definition sinks_ok (nsinks : nat) (h : progress) (records : list SecurityEvent) (l : list (list SecurityEvent)) : Prop :=
  match h with
  | Writing x se i => made_of x se /\ (i <= nsinks)%nat /\
      l = replicate i (records ++ [se]) ++ replicate (nsinks - i) records
  | _ => l = replicate nsinks records
  end.

Record pipe_inv (nsinks : nat) (p : Pipeline) : Prop := {
  pi_fifo : accepted p = (processed p).*1 ++ current p ++ eventCh p;
  pi_sinks : sinks_ok nsinks (handling p) (processed p).*2 (sinks p);
  pi_count : panicked p = None ->
    eventsReceived (stats p) =
    to_u64 (eventsEmitted (stats p) + eventsDropped (stats p) + Z.of_nat (length (current p)) +
            Z.of_nat (length (eventCh p)) + Z.of_nat (length (in_flight p)));
  pi_capacity : Z.of_nat (length (eventCh p)) <= bufferSize p;
  pi_returned : looping p = false -> handling p = Idle /\ eventCh p = [] /\ ch_closed p = true;
  pi_finished : closing p = Finished -> looping p = false;
  pi_flag : closing p <> NotClosing -> pclosed p = true;
  pi_records : Forall (fun x => made_of x.1 x.2) (processed p);
}.

Lemma in_flight_middle p es e es' :
  emitters p = es ++ e :: es' ->
  length (in_flight p) = (length (in_flight (set_emitters (es ++ es') p)) + if counted e then 1 else 0)%nat.
Proof.
  intros He. unfold in_flight. rewrite He. cbn [emitters set_emitters]. rewrite !List.filter_app, !length_app. cbn.
  destruct (counted e); cbn; lia.
Qed.

Lemma NewPipeline_inv BufferSize nsinks st : pipe_inv nsinks (NewPipeline BufferSize nsinks st).
Proof. split; cbn; try done. destruct (Z.leb_spec BufferSize 0); lia. Qed.

(** A counter that wrapped counts the same modulo its size. *)
Lemma to_u64_wrapped x y k : y = x + k -> to_u64 (to_u64 x + k) = to_u64 y.
Proof. intros ->. apply to_u_add_l. Qed.

Lemma send_inv nsinks p es pair es' :
  pipe_inv nsinks p -> panicked p = None -> emitters p = es ++ Counted pair :: es' ->
  pipe_inv nsinks (send pair (set_emitters (es ++ es') p)).
Proof.
  intros [Hf Hs Hc Hcap Hr Hfin Hfl Hrec] Hp He. specialize (Hc Hp). rewrite (in_flight_middle _ _ _ _ He) in Hc. cbn [counted] in Hc.
  unfold send. cbn [ch_closed set_emitters eventCh bufferSize stats].
  destruct (ch_closed p) eqn:Hch; [split; cbn; rewrite ?Hch; done|].
  destruct (Z.ltb_spec (Z.of_nat (length (eventCh p))) (bufferSize p)).
  - split; cbn; try done.
    + by rewrite Hf, !app_assoc.
    + intros _. rewrite length_app. cbn. rewrite Hc. f_equal. unfold current. cbn in *. lia.
    + rewrite length_app. cbn. lia.
    + intros Hl. destruct (Hr Hl) as (_ & _ & ?). congruence.
  - split; cbn; rewrite ?Hch; try done. intros _. rewrite Hc. cbn. symmetry.
    match goal with |- to_u64 (?e + to_u64 ?d + ?c + ?l + ?f) = _ =>
      replace (e + to_u64 d + c + l + f) with (to_u64 d + (e + c + l + f)) by lia end.
    apply to_u64_wrapped. unfold current. cbn in *. lia.
Qed.

Lemma receive_inv nsinks p pair q :
  pipe_inv nsinks p -> panicked p = None -> looping p = true -> handling p = Idle -> eventCh p = pair :: q ->
  pipe_inv nsinks (set_handling (Received pair) (set_queue q p)).
Proof.
  intros [Hf Hs Hc Hcap Hr Hfin Hfl Hrec] Hp Hl Hh Hq. specialize (Hc Hp). unfold current in *. rewrite Hh, Hq in *.
  split; cbn; try done.
  - intros _. rewrite Hc. f_equal. unfold in_flight in *. cbn in *. lia.
  - cbn in Hcap. lia.
  - intros Hl'. congruence.
Qed.

Lemma make_record_inv nsinks p su pair :
  pipe_inv nsinks p -> handling p = Received pair -> pipe_inv nsinks (make_record su pair p).
Proof.
  intros [Hf Hs Hc Hcap Hr Hfin Hfl Hrec] Hh. unfold current in *. rewrite Hh in *.
  split; cbn; try done.
  - split; [by eexists _, _|]. split; [lia|]. by rewrite Nat.sub_0_r, Hs.
  - intros Hl. by destruct (Hr Hl).
Qed.

(** Handing the record to the next sink. *)
Lemma alter_next_sink {A} (f : A -> A) x y i n :
  (i < n)%nat -> f x = y ->
  alter f i (replicate i y ++ replicate (n - i) x) = replicate (S i) y ++ replicate (n - S i) x.
Proof.
  intros Hi <-. rewrite alter_app_r_alt by (rewrite length_replicate; lia). rewrite length_replicate, Nat.sub_diag.
  replace (n - i)%nat with (S (n - S i)) by lia. change (replicate (S i) (f x)) with (f x :: replicate i (f x)).
  by rewrite (replicate_cons_app i), <- app_assoc.
Qed.

Lemma write_sink_inv nsinks p pair se i failed :
  pipe_inv nsinks p -> panicked p = None -> handling p = Writing pair se i -> (i < length (sinks p))%nat ->
  pipe_inv nsinks (write_sink pair se i failed p).
Proof.
  intros [Hf Hs Hc Hcap Hr Hfin Hfl Hrec] Hp Hh Hi. unfold current in *. rewrite Hh in *. destruct Hs as (Hm & Hle & Hs).
  assert (Hin : (i < nsinks)%nat) by (rewrite Hs, length_app, !length_replicate in Hi; lia).
  split; cbn; try done.
  - split; [done|]. split; [lia|]. rewrite Hs. by apply alter_next_sink.
  - intros Hl. by destruct (Hr Hl).
Qed.

Lemma finish_record_inv nsinks p pair se :
  pipe_inv nsinks p -> panicked p = None -> handling p = Writing pair se (length (sinks p)) ->
  pipe_inv nsinks (finish_record pair se p).
Proof.
  intros [Hf Hs Hc Hcap Hr Hfin Hfl Hrec] Hp Hh. specialize (Hc Hp). unfold current in *. rewrite Hh in *.
  destruct Hs as (Hm & Hle & Hs).
  assert (Hn : length (sinks p) = nsinks) by (rewrite Hs at 1; rewrite length_app, !length_replicate; lia).
  split; cbn; try done.
  - by rewrite fmap_app, Hf, <- app_assoc.
  - rewrite Hs, Hn, Nat.sub_diag, app_nil_r, fmap_app. done.
  - intros _. rewrite Hc. symmetry.
    match goal with |- to_u64 (to_u64 ?e + ?d + ?c + ?l + ?f) = _ =>
      replace (to_u64 e + d + c + l + f) with (to_u64 e + (d + c + l + f)) by lia end.
    apply to_u64_wrapped. unfold in_flight in *. cbn in *. lia.
  - intros Hl. by destruct (Hr Hl).
  - apply Forall_app. split; [done|]. constructor; [done|constructor].
Qed.

Lemma pipe_step_inv nsinks p q : pipe_inv nsinks p -> pipe_step p q -> pipe_inv nsinks q.
Proof.
  intros Hi Hs.
  destruct Hs as [pair Hp Hc|es pair es' Hp He|es pair es' Hp He|pair q Hp Hl Hh Hq|su pair Hp Hh|pair se i failed Hp Hh Hi'
                 |pair se Hp Hh|errors Hp Hl Hh|Hp Hl Hh Hq Hc|Hp Hc|Hp Hc|Hp Hc Hl|Hp Hc|a r Hp];
    eauto using send_inv, receive_inv, make_record_inv, write_sink_inv, finish_record_inv.
  all: destruct Hi as [Hf Hsk Hcnt Hcap Hr Hfin Hfl Hrec].
  2: { specialize (Hcnt Hp). rewrite (in_flight_middle _ _ _ _ He) in Hcnt. split; cbn; try done. intros _. rewrite Hcnt.
       apply to_u64_wrapped. unfold in_flight, current. cbn. rewrite !List.filter_app, !length_app. cbn. lia. }
  all: split; cbn; try done; intros; try (by apply Hcnt); auto; try congruence.
  - by destruct (Hr ltac:(done)) as (? & ? & _).
  - apply Hfl. congruence.
  - apply Hfl. congruence.
Qed.

Lemma pipe_reachable_inv BufferSize nsinks p : pipe_reachable BufferSize nsinks p -> pipe_inv nsinks p.
Proof.
  intros [st Hr]. revert Hr. generalize (NewPipeline_inv BufferSize nsinks st).
  generalize (NewPipeline BufferSize nsinks st). intros p0 H0 Hr. induction Hr; eauto using pipe_step_inv.
Qed.
End Steps.

(** C20: the pipeline loses nothing silently.  Consider every state that any interleaving
    of emitters, the loop, ticks, calls of [Close] and changes to the decisions can reach,
    the states in the middle of handing a record to the sinks included.  The accepted
    events are, in order, those whose records are finished, the one the loop is handling
    (if any), and those in the channel, at most its capacity.  Every sink has been given the
    records of the finished events, one for each in the order of acceptance and made of it,
    and a first part of the sinks also the record in progress; between two records all
    sinks hold the same.  The counters account for every event (modulo their width).  Once
    the call of [Close] that closed the channel has returned, every accepted event has been
    written to every sink. *)
Theorem pipeline_accounts_for_events Enrich BufferSize nsinks p :
  pipe_reachable Enrich BufferSize nsinks p ->
  exists records, accepted p = take (length records) (accepted p) ++ current p ++ eventCh p /\
    Forall2 (fun pair se => exists su r, se = Enrich (transform su pair.1 r))
      (take (length records) (accepted p)) records /\
    (current p = [] /\ sinks p = replicate nsinks records \/
     exists pair se i, current p = [pair] /\ (exists su r, se = Enrich (transform su pair.1 r)) /\ (i <= nsinks)%nat /\
       sinks p = replicate i (records ++ [se]) ++ replicate (nsinks - i) records) /\
    Z.of_nat (length (eventCh p)) <= bufferSize p /\
    (panicked p = None -> eventsReceived (stats p) = to_u64 (eventsEmitted (stats p) + eventsDropped (stats p) +
       Z.of_nat (length (current p)) + Z.of_nat (length (eventCh p)) + Z.of_nat (length (in_flight p)))) /\
    (closing p = Finished -> length records = length (accepted p) /\ sinks p = replicate nsinks records).
Proof.
  intros [Hf Hs Hc Hcap Hr Hfin Hfl Hrec]%pipe_reachable_inv. exists (processed p).*2.
  assert (Ht : take (length (processed p).*2) (accepted p) = (processed p).*1).
  { rewrite Hf, length_fmap, <- (length_fmap fst). apply take_app_length. }
  rewrite Ht. split_and!; [done| | |done|done|].
  - clear -Hrec. induction Hrec as [|[pair se] l Hx _ IH]; constructor; done.
  - unfold current in *. destruct (handling p) as [|pair|pair se i]; [by left|right..].
    + exists pair, (Enrich (transform (MkSurroundings [] 0 [] []) pair.1 None)), 0%nat. cbn.
      rewrite Nat.sub_0_r. split_and!; [done|by eexists _, _|lia|done].
    + destruct Hs as (Hm & Hle & Hs). by exists pair, se, i.
  - intros Hdone. destruct (Hr (Hfin Hdone)) as (Hh & He & _). unfold current in *. rewrite Hh in *.
    by rewrite Hf, He, !app_nil_r, !length_fmap.
Qed.

(** An event is emitted, written to two sinks, and the pipeline closed. *)
Definition demo_event : ApiEvent := {|
  ae_PID := 1; ae_UID := 0; ae_GID := 0; ae_Comm := bstr "sh"; ae_Filename := bstr "/bin/ls"; ae_Timestamp := zero_time;
  ae_Type := EventTypeProcess; ae_CgroupID := 0; ae_Process := None; ae_File := None; ae_Network := None;
  ae_LSMEvent := false |}.
Definition demo_result : ActionResult := MkResult api.ActionDeny (Text "no") 5 false 2500 false.
Definition demo_store : gmap Z ActionResult := {[0 := demo_result]}.
Definition demo_surroundings : surroundings := MkSurroundings (bstr "id") 7 (bstr "host") [].

Definition demo_pair : eventPair := (demo_event, Some 0).
Definition demo_se : SecurityEvent := transform demo_surroundings demo_event (Some demo_result).
(** The record is with the first of two sinks, which failed. *)
Definition demo_halfway : Pipeline :=
  write_sink demo_pair demo_se 0 true (make_record id demo_surroundings demo_pair (set_handling (Received demo_pair) (set_queue []
    (send demo_pair (set_emitters [] (set_stats (MkCounters 1 0 0 0) (NewPipeline 0 2 demo_store))))))).
Definition demo_closed : Pipeline :=
  set_closing Finished (set_looping false (set_closing Waiting (set_ch_closed true (set_closing Swapped
    (set_flag true (finish_record demo_pair demo_se (write_sink demo_pair demo_se 1 false demo_halfway))))))).

Lemma demo_halfway_reachable : pipe_reachable id 0 2 demo_halfway.
Proof.
  exists demo_store. eapply rtc_l; [by apply (emit_check _ _ demo_pair)|].
  eapply rtc_l; [by apply (emit_count _ _ [] demo_pair [])|].
  eapply rtc_l; [by apply (emit_send _ _ [] demo_pair [])|].
  eapply rtc_l; [by apply (loop_receive _ _ demo_pair [])|].
  eapply rtc_l; [by apply (loop_make _ _ demo_surroundings demo_pair)|].
  eapply rtc_l; [apply (loop_write _ _ demo_pair demo_se 0 true); [done|done|vm_compute; lia]|]. apply rtc_refl.
Qed.

Lemma demo_reachable : pipe_reachable id 0 2 demo_closed.
Proof.
  destruct demo_halfway_reachable as [st Hr]. exists st. etransitivity; [exact Hr|].
  eapply rtc_l; [apply (loop_write _ _ demo_pair demo_se 1 false); [done|done|vm_compute; lia]|].
  eapply rtc_l; [by apply (loop_count _ _ demo_pair demo_se)|].
  eapply rtc_l; [by apply close_swap|]. eapply rtc_l; [by apply closed_return|]. eapply rtc_l; [by apply close_channel|].
  eapply rtc_l; [by apply loop_done|]. eapply rtc_l; [by apply close_return|]. apply rtc_refl.
Qed.

Lemma pipeline_accounts_for_events_witness :
  (exists records, sinks demo_closed = replicate 2 records /\ length records = 1%nat) /\
  eventsReceived (stats demo_closed) = 1 /\ eventsEmitted (stats demo_closed) = 1 /\
  eventsReceived (stats demo_halfway) = to_u64 (eventsEmitted (stats demo_halfway) + 1).
Proof.
  destruct (pipeline_accounts_for_events id 0 2 demo_closed demo_reachable)
    as (records & _ & _ & _ & _ & _ & Hfin).
  destruct (pipeline_accounts_for_events id 0 2 demo_halfway demo_halfway_reachable)
    as (records' & _ & _ & _ & _ & Hcount & _).
  split; [exists records; split; [exact (proj2 (Hfin eq_refl))|exact (proj1 (Hfin eq_refl))]|].
  split; [vm_compute; reflexivity|]. split; [vm_compute; reflexivity|exact (Hcount eq_refl)].
Defined.

(** A step that does not set the flag while a call of [Emit] is under way, as when the
    daemon waits for its event loop before it closes the pipeline. *)
Definition quiet_step (Enrich : SecurityEvent -> SecurityEvent) (p q : Pipeline) : Prop :=
  pipe_step Enrich p q /\ (pclosed p = false -> pclosed q = true -> emitters p = []).

Lemma quiet_step_calm Enrich p q :
  panicked p = None /\ (pclosed p = true -> emitters p = []) /\ (ch_closed p = true -> pclosed p = true) /\
    (closing p = Swapped -> pclosed p = true) ->
  quiet_step Enrich p q ->
  panicked q = None /\ (pclosed q = true -> emitters q = []) /\ (ch_closed q = true -> pclosed q = true) /\
    (closing q = Swapped -> pclosed q = true).
Proof.
  intros (Hp & He & Hc & Hs) [Hstep Hq].
  destruct Hstep as [pair _ Ho|es pair es' _ Hes|es pair es' _ Hes|pair l _ Hl Hh Hch|su pair _ Hh|pair se i failed _ Hh Hi
                    |pair se _ Hh|errors _ Hl Hh|_ Hl Hh Hch Hcl|_ Ho|_ Hcl|_ Hcl Hl|_ Hcl|a r _]; cbn in *; try (by split_and!); try (split_and!; auto; congruence).
  - split_and!; auto. intros Ho. by rewrite (He Ho) in Hes; destruct es.
  - assert (Hopen : pclosed p = false) by (destruct (pclosed p); [by rewrite (He eq_refl) in Hes; destruct es|done]).
    unfold send. cbn. destruct (ch_closed p) eqn:Hcl; [by rewrite Hc in Hopen|]. rewrite Hopen in *.
    destruct (_ <? _); cbn; rewrite ?Hcl, ?Hopen; split_and!; done.
Qed.

(** The actions of one emitter and of [Close], with the emitter overtaken between its
    check of the flag and its send. *)
Lemma overtaken_panics Enrich BufferSize nsinks (pair : eventPair) :
  exists p, pipe_reachable Enrich BufferSize nsinks p /\ panicked p = Some "send on closed channel".
Proof.
  eexists. split.
  - exists ∅. eapply rtc_l; [by apply (emit_check _ _ pair)|]. eapply rtc_l; [by apply (emit_count _ _ [] pair [])|].
    eapply rtc_l; [by apply close_swap|]. eapply rtc_l; [by apply close_channel|].
    eapply rtc_l; [by apply (emit_send _ _ [] pair [])|]. apply rtc_refl.
  - reflexivity.
Qed.

(** The check of the flag in [Emit] does not protect the send.  A call that is
    overtaken by [Close] between the check and the send panics, although [Emit] is
    documented not to block and the select has a default case; when [Close] is only
    called with no [Emit] under way, no interleaving panics. *)
Lemma emit_races_with_close Enrich BufferSize nsinks (pair : eventPair) :
  (exists p, pipe_reachable Enrich BufferSize nsinks p /\ panicked p = Some "send on closed channel") /\
  (forall st p, rtc (quiet_step Enrich) (NewPipeline BufferSize nsinks st) p -> panicked p = None).
Proof.
  split; [by apply overtaken_panics|]. intros st p Hr.
  assert (Hcalm : forall p0, panicked p0 = None /\ (pclosed p0 = true -> emitters p0 = []) /\
      (ch_closed p0 = true -> pclosed p0 = true) /\ (closing p0 = Swapped -> pclosed p0 = true) ->
    rtc (quiet_step Enrich) p0 p -> panicked p = None).
  { intros p0 H0 Hrun. induction Hrun; [apply H0|eauto using quiet_step_calm]. }
  eapply Hcalm; [|exact Hr]. by split_and!.
Qed.
