(* ===== verification/Simulator.v ===== *)
(** internal/simulator/replay.go: recorded decisions replayed against another policy.

    [Replay] asks a pool for each recorded event, as the daemon does, and compares the
    answer with the decision in the record.  The two maps are keyed by the text of the
    event; the source returns their values in no particular order. *)

From S2P Require Import Prelude CTypes GoApi GoFmt GoCache GoActions GoWasm Streaming PolicySchema.
From S2P Require Import PolicyCodegen RustSyntax RustModule PolicySemantics CompiledPolicy PolicyEvaluation.

Record DenialDetail : Type := MkDenial {
  dd_EventType : string;
  dd_Comm : list Z;
  dd_Target : list Z;
  dd_Count : Z;
  dd_Reason : message;
}.

Record AllowDetail : Type := MkAllow {
  ad_EventType : string;
  ad_Comm : list Z;
  ad_Target : list Z;
  ad_Count : Z;
}.

Record SimulationResult : Type := MkSim {
  TotalEvents : Z;
  WouldAllow : Z;
  WouldDeny : Z;
  WouldLog : Z;
  UniqueNewDenials : gmap (list Z) DenialDetail;
  UniqueNewAllows : gmap (list Z) AllowDetail;
}.

(** ** Events from records *)

Definition record_base (t : ApiEventType) (e : SecurityEvent) : BaseEvent := {|
  be_Type := t; be_PID := se_PID e; be_UID := se_UID e; be_GID := se_GID e; be_Comm := se_Comm e;
  be_Timestamp := se_Timestamp e; be_CgroupID := se_CgroupID e |}.

Definition record_event (t : ApiEventType) (p : option ProcessEvent) (f : option FileEvent) (n : option NetworkEvent)
    (e : SecurityEvent) : ApiEvent := {|
  ae_PID := se_PID e; ae_UID := se_UID e; ae_GID := se_GID e; ae_Comm := se_Comm e; ae_Filename := se_Filename e;
  ae_Timestamp := se_Timestamp e; ae_Type := t; ae_CgroupID := se_CgroupID e; ae_Process := p; ae_File := f;
  ae_Network := n; ae_LSMEvent := false |}.

(** A record of no known type becomes an event with the zero value of its type. *)
Definition securityEventToAPIEvent (e : SecurityEvent) : ApiEvent :=
  match se_EventType e with
  | "exec" =>
      record_event EventTypeProcess
        (Some {| pe_Base := record_base EventTypeProcess e; pe_Filename := se_Filename e; pe_Args := [] |}) None None e
  | "file" =>
      record_event EventTypeFile None
        (Some {| fe_Base := record_base EventTypeFile e; fe_Operation := []; fe_Path := se_Filename e;
                 fe_Flags := 0; fe_Mode := 0 |}) None e
  | "network" | "bind" | "listen" =>
      record_event EventTypeNetwork None None
        (Some {| ne_Base := record_base EventTypeNetwork e; ne_Operation := []; ne_Protocol := se_Protocol e;
                 ne_RemoteAddr := se_RemoteAddr e; ne_RemotePort := se_RemotePort e; ne_LocalAddr := [];
                 ne_LocalPort := se_LocalPort e; ne_DataSize := 0 |}) e
  | _ => record_event EventTypeProcess None None None e
  end.

Definition eventTarget (e : SecurityEvent) : list Z :=
  match se_EventType e with
  | "exec" | "file" => se_Filename e
  | "network" => se_RemoteAddr e ++ bstr ":" ++ bstr (Sprint_d (se_RemotePort e))
  | "bind" | "listen" => bstr ":" ++ bstr (Sprint_d (se_LocalPort e))
  | _ => se_Filename e
  end.

Definition eventKey (e : SecurityEvent) : list Z :=
  bstr (se_EventType e) ++ bstr ":" ++ se_Comm e ++ bstr ":" ++ eventTarget e.

(** ** Replay *)

(** What is read from the context and the clock for one event. *)
Record replay_moment : Type := MkReplayMoment {
  rm_done : bool;
  rm_canceled : bool;
  rm_start : Z;
  rm_latency : Z;
}.

Definition count_action (a : Z) (r : SimulationResult) : SimulationResult :=
  let 'MkSim total allow deny log denials allows := r in
  if a =? api.ActionAllow then MkSim total (allow + 1) deny log denials allows
  else if a =? api.ActionDeny then MkSim total allow (deny + 1) log denials allows
  else if a =? api.ActionLog then MkSim total allow deny (log + 1) denials allows
  else r.

Definition note_denial (e : SecurityEvent) (reason : message) (r : SimulationResult) : SimulationResult :=
  let 'MkSim total allow deny log denials allows := r in
  let d := match denials !! eventKey e with
           | Some d => MkDenial (dd_EventType d) (dd_Comm d) (dd_Target d) (dd_Count d + 1) (dd_Reason d)
           | None => MkDenial (se_EventType e) (se_Comm e) (eventTarget e) 1 reason
           end in
  MkSim total allow deny log (<[eventKey e := d]> denials) allows.

Definition note_allow (e : SecurityEvent) (r : SimulationResult) : SimulationResult :=
  let 'MkSim total allow deny log denials allows := r in
  let a := match allows !! eventKey e with
           | Some a => MkAllow (ad_EventType a) (ad_Comm a) (ad_Target a) (ad_Count a + 1)
           | None => MkAllow (se_EventType e) (se_Comm e) (eventTarget e) 1
           end in
  MkSim total allow deny log denials (<[eventKey e := a]> allows).

(** The body of the loop after the evaluation. *)
Definition compare (e : SecurityEvent) (a : ActionResult) (r : SimulationResult) : SimulationResult :=
  let r := count_action (Action a) r in
  let newDecision := Action_String (Action a) in
  let r := if String.eqb (se_Decision e) "ALLOW" && bool_decide (newDecision = bstr "DENY")
           then note_denial e (Reason a) r else r in
  if String.eqb (se_Decision e) "DENY" && bool_decide (newDecision = bstr "ALLOW") then note_allow e r else r.

Section Replay.
Context {M S : Type} `{Wasm M S}.

Fixpoint replay_loop (events : list (replay_moment * SecurityEvent)) (r : SimulationResult) (pl : Pool M S)
    : go SimulationResult * Pool M S :=
  match events with
  | [] => (Ret r, pl)
  | (m, e) :: events =>
      if rm_done m then (Fail (Text "context canceled"), pl)
      else
        let '(res, pl) := Evaluate (rm_canceled m) (rm_start m) (rm_latency m) (securityEventToAPIEvent e) pl in
        match res with
        | Ret a => replay_loop events (compare e a r) pl
        | Fail _ => replay_loop events (count_action api.ActionDeny r) pl
        | Panic why => (Panic why, pl)
        | Block => (Block, pl)
        end
  end.

Definition Replay (events : list (replay_moment * SecurityEvent)) (pl : Pool M S) : go SimulationResult * Pool M S :=
  replay_loop events (MkSim (Z.of_nat (length events)) 0 0 0 ∅ ∅) pl.

(** ** Records of the pipeline *)

Lemma decision_text_lower a : decision_text a <> "ALLOW" /\ decision_text a <> "DENY".
Proof. unfold decision_text. repeat case_match; done. Qed.

Lemma compare_recorded su event result a r :
  compare (transform su event result) a r = count_action (Action a) r.
Proof.
  unfold compare. cbn [se_Decision transform].
  assert (Hd : from_option (fun r => decision_text (Action r)) "" result <> "ALLOW" /\
               from_option (fun r => decision_text (Action r)) "" result <> "DENY").
  { destruct result as [res|]; [apply decision_text_lower|done]. }
  destruct Hd as [H1 H2]. by rewrite (proj2 (String.eqb_neq _ _) H1), (proj2 (String.eqb_neq _ _) H2).
Qed.

Lemma count_action_details a r :
  UniqueNewDenials (count_action a r) = UniqueNewDenials r /\ UniqueNewAllows (count_action a r) = UniqueNewAllows r.
Proof. destruct r. unfold count_action. by repeat case_match. Qed.

Definition recorded (e : SecurityEvent) : Prop := exists su event result, e = transform su event result.

Lemma replay_loop_details events r pl r' pl' :
  Forall (fun x => recorded x.2) events ->
  replay_loop events r pl = (Ret r', pl') ->
  UniqueNewDenials r' = UniqueNewDenials r /\ UniqueNewAllows r' = UniqueNewAllows r.
Proof.
  intros Hev. revert r pl. induction Hev as [|[m e] events (su & event & result & He) _ IH]; intros r pl; cbn [replay_loop].
  { by intros [= <- _]. }
  destruct (rm_done m); [done|]. destruct (Evaluate _ _ _ _ _) as [[a|err| |] pl1]; [| |done..].
  all: intros Hr; apply IH in Hr as [-> ->]; cbn in He; subst.
  - rewrite compare_recorded. apply count_action_details.
  - apply count_action_details.
Qed.
End Replay.

(** A replay of what the pipeline recorded never reports a difference, whatever the
    candidate policy decides: the records spell their decisions in lower case, the
    replay compares them with upper-case names, and so both lists of changes are empty
    and the report says that nothing changes. *)
Lemma replay_reports_no_change {M S} `{Wasm M S} events (pl : Pool M S) r pl' :
  Forall (fun x => recorded x.2) events ->
  Replay events pl = (Ret r, pl') ->
  UniqueNewDenials r = ∅ /\ UniqueNewAllows r = ∅.
Proof. intros Hev Hr. apply (replay_loop_details _ _ _ _ _ Hev Hr). Qed.

(** ** What a replay counts *)

Import compiler.

(** The action that the rule [o] makes the evaluator return. *)
Definition verdict_action (p : Policy) (o : option Rule) : Z :=
  if verdict_code p o =? ActionAuditDeny then api.ActionDeny else verdict_code p o.

Definition tally (p : Policy) (a : Z) (os : list (option Rule)) : Z :=
  Z.of_nat (length (List.filter (fun o => verdict_action p o =? a) os)).

Section Policy.
Context (ly : layout) (marshal : list (string * json) -> list Z) (p : Policy).
Context (Hly : layout_ok ly) (Hok : policy_ok p) (Hcomp : policy_compiles p = true).

#[local] Instance replay_wasm : Wasm crate rust_inst := module_wasm ly marshal.

(** The context of a replay is not canceled. *)
Definition uninterrupted (m : replay_moment) : Prop := rm_done m = false /\ rm_canceled m = false.

Lemma count_action_tally o r :
  let r' := count_action (verdict_action p o) r in
  TotalEvents r' = TotalEvents r /\
  WouldAllow r' = WouldAllow r + tally p api.ActionAllow [o] /\
  WouldDeny r' = WouldDeny r + tally p api.ActionDeny [o] /\
  WouldLog r' = WouldLog r + tally p api.ActionLog [o].
Proof.
  destruct r as [total allow deny log denials allows]. cbn zeta. unfold tally. cbn [List.filter].
  generalize (verdict_action p o). intros a. unfold count_action, api.ActionAllow, api.ActionDeny, api.ActionLog.
  destruct (Z.eqb_spec a 0), (Z.eqb_spec a 1), (Z.eqb_spec a 2); subst; try done; cbn; lia.
Qed.

Lemma tally_cons a o os : tally p a (o :: os) = tally p a [o] + tally p a os.
Proof. unfold tally. cbn. destruct (_ =? a); cbn [length]; lia. Qed.

Lemma note_counts e reason r :
  (let r' := note_denial e reason r in
   TotalEvents r' = TotalEvents r /\ WouldAllow r' = WouldAllow r /\ WouldDeny r' = WouldDeny r /\ WouldLog r' = WouldLog r) /\
  (let r' := note_allow e r in
   TotalEvents r' = TotalEvents r /\ WouldAllow r' = WouldAllow r /\ WouldDeny r' = WouldDeny r /\ WouldLog r' = WouldLog r).
Proof. by destruct r. Qed.

Lemma compare_tally e a o r :
  Action a = verdict_action p o ->
  let r' := compare e a r in
  TotalEvents r' = TotalEvents r /\
  WouldAllow r' = WouldAllow r + tally p api.ActionAllow [o] /\
  WouldDeny r' = WouldDeny r + tally p api.ActionDeny [o] /\
  WouldLog r' = WouldLog r + tally p api.ActionLog [o].
Proof.
  intros Ha. cbn zeta. destruct (count_action_tally o r) as (H1 & H2 & H3 & H4). unfold compare. rewrite Ha.
  set (r1 := count_action _ _) in *. clearbody r1.
  set (r2 := if String.eqb (se_Decision e) "ALLOW" && _ then _ else r1).
  assert (H5 : TotalEvents r2 = TotalEvents r1 /\ WouldAllow r2 = WouldAllow r1 /\ WouldDeny r2 = WouldDeny r1 /\
               WouldLog r2 = WouldLog r1).
  { subst r2. destruct (_ && _); [apply note_counts|done]. }
  clearbody r2. destruct H5 as (E1 & E2 & E3 & E4).
  destruct (_ && _).
  - destruct (note_counts e (Text "") r2) as [_ (F1 & F2 & F3 & F4)]. rewrite F1, F2, F3, F4. by split_and!; congruence.
  - by split_and!; congruence.
Qed.

Lemma replay_loop_tally events : forall r pl,
  Forall (fun x => uninterrupted x.1) events -> pool_ok ly p pl ->
  exists os r' pl', Forall2 (fun x o => decides (securityEventToAPIEvent x.2) (p_Rules p) o) events os /\
    replay_loop events r pl = (Ret r', pl') /\ pool_ok ly p pl' /\
    TotalEvents r' = TotalEvents r /\
    WouldAllow r' = WouldAllow r + tally p api.ActionAllow os /\
    WouldDeny r' = WouldDeny r + tally p api.ActionDeny os /\
    WouldLog r' = WouldLog r + tally p api.ActionLog os.
Proof.
  induction events as [|[m e] events IH]; intros r pl Hm Hpl.
  { exists [], r, pl. unfold tally. cbn. split_and!; try done; lia. }
  apply Forall_cons in Hm as [[Hd Hc] Hm]. cbn [fst] in *. cbn [replay_loop]. rewrite Hd, Hc.
  destruct (Evaluate_decides ly marshal p Hly Hok Hcomp (securityEventToAPIEvent e) (rm_start m) (rm_latency m) pl Hpl)
    as (o & pl1 & Ho & He & Hpl1).
  change replay_wasm with (module_wasm ly marshal). rewrite He.
  destruct (IH (compare e (policy_result p (securityEventToAPIEvent e) (rm_start m) (rm_latency m) o) r) pl1 Hm Hpl1)
    as (os & r' & pl' & Hos & Hr & Hpl' & H1 & H2 & H3 & H4).
  destruct (compare_tally e (policy_result p (securityEventToAPIEvent e) (rm_start m) (rm_latency m) o) o r eq_refl)
    as (E1 & E2 & E3 & E4).
  exists (o :: os), r', pl'. split; [by constructor|]. split; [done|]. split; [done|].
  rewrite !(tally_cons _ o os), H1, H2, H3, H4, E1, E2, E3, E4. split_and!; lia.
Qed.

(** Every event is counted once. *)
Lemma tally_total os :
  tally p api.ActionAllow os + tally p api.ActionDeny os + tally p api.ActionLog os = Z.of_nat (length os).
Proof.
  induction os as [|o os IH]; [done|]. rewrite !(tally_cons _ o os). cbn [length].
  assert (Ho : tally p api.ActionAllow [o] + tally p api.ActionDeny [o] + tally p api.ActionLog [o] = 1).
  { pose proof (verdict_range p o) as Hv. unfold tally, verdict_action. cbn [List.filter].
    unfold ActionAuditDeny, api.ActionAllow, api.ActionDeny, api.ActionLog.
    assert (Hc : verdict_code p o = 0 \/ verdict_code p o = 1 \/ verdict_code p o = 2 \/ verdict_code p o = 3) by lia.
    by destruct Hc as [ -> | [ -> | [ -> | -> ]]]. }
  lia.
Qed.
End Policy.

(** C33: a replay against a compiled document counts what the document says.  With the
    context not canceled it returns, every record is counted exactly once, and the
    three counts are the numbers of records whose event the first matching rule (or the
    default action) of the document allows, denies, audited denials included, or logs. *)
Theorem replay_tallies_policy IsPrint ly marshal raw p c size pl events :
  Parse_raw raw = Ret p -> policy_compiles p = true -> layout_ok ly ->
  rustc (GenerateRust IsPrint p) = Some c -> pool_reachable ly marshal c size pl ->
  Forall (fun x => uninterrupted x.1) events ->
  exists os r pl', Forall2 (fun x o => decides (securityEventToAPIEvent x.2) (p_Rules p) o) events os /\
    @Replay _ _ (rust_wasm ly marshal) events pl = (Ret r, pl') /\
    TotalEvents r = Z.of_nat (length events) /\
    WouldAllow r = tally p api.ActionAllow os /\
    WouldDeny r = tally p api.ActionDeny os /\
    WouldLog r = tally p api.ActionLog os /\
    WouldAllow r + WouldDeny r + WouldLog r = TotalEvents r.
Proof.
  intros Hp Hcomp Hly Hc Hpl Hm. apply parse_ok in Hp. rewrite rustc_compiled in Hc by done. injection Hc as <-.
  apply reachable_ok in Hpl; [|done..].
  destruct (replay_loop_tally ly marshal p Hly Hp Hcomp events (MkSim (Z.of_nat (length events)) 0 0 0 ∅ ∅) pl Hm Hpl)
    as (os & r & pl' & Hos & Hr & _ & H1 & H2 & H3 & H4). cbn in *.
  exists os, r, pl'. pose proof (tally_total p os) as Ht. pose proof (Forall2_length _ _ _ Hos) as Hlen.
  split_and!; try done. rewrite H1, H2, H3, H4. cbn [Z.add]. rewrite Hlen. lia.
Qed.

(** ** What a record keeps of its event *)

(** A condition that a replay can decide: not one on the operation or the flags of a
    file event. *)
Definition replayable (event : ApiEvent) (c : Condition) : Prop :=
  GetType event = EventTypeFile -> c_Field c ∈ ["pid"; "uid"; "gid"; "comm"; "path"].

Definition replayed (su : surroundings) (event : ApiEvent) (result : option ActionResult) : ApiEvent :=
  securityEventToAPIEvent (transform su event result).

Lemma replayed_type su event result : GetType (replayed su event result) = GetType event.
Proof.
  unfold replayed, securityEventToAPIEvent. cbn [se_EventType transform].
  by destruct (GetType event).
Qed.

Lemma replayed_field su event result c :
  replayable event c -> field_value (replayed su event result) (c_Field c) = field_value event (c_Field c).
Proof.
  unfold replayable. intros Hc.
  assert (Hbase : let e := replayed su event result in
    ae_PID e = ae_PID event /\ ae_UID e = ae_UID event /\ ae_GID e = ae_GID event /\ ae_Comm e = ae_Comm event).
  { unfold replayed, securityEventToAPIEvent. cbn [se_EventType transform]. by destruct (GetType event). }
  assert (Hprim : primary_str (replayed su event result) = primary_str event).
  { unfold primary_str. rewrite replayed_type. unfold replayed, securityEventToAPIEvent. cbn [se_EventType transform].
    destruct (GetType event) eqn:Ht; cbn; by rewrite ?Ht. }
  destruct Hbase as (H1 & H2 & H3 & H4).
  destruct (GetType event) eqn:Ht.
  2: { specialize (Hc eq_refl). unfold field_value. list_cases Hc; cbn; congruence. }
  all: assert (Hsec : secondary_str (replayed su event result) = secondary_str event /\
      flags_field (replayed su event result) = flags_field event /\
      port_field ne_RemotePort (replayed su event result) = port_field ne_RemotePort event /\
      port_field ne_LocalPort (replayed su event result) = port_field ne_LocalPort event).
  1, 3: unfold secondary_str, flags_field, port_field; rewrite replayed_type, Ht; try done;
    unfold replayed, securityEventToAPIEvent; cbn [se_EventType transform]; rewrite Ht; cbn; by rewrite Ht.
  all: destruct Hsec as (H5 & H6 & H7 & H8); unfold field_value; rewrite H1, H2, H3, H4, H5, H6, H7, H8, Hprim; done.
Qed.

Lemma holds_field event event' c :
  field_value event (c_Field c) = field_value event' (c_Field c) -> holds event c <-> holds event' c.
Proof. intros Hf. unfold holds. by rewrite Hf. Qed.

Lemma conditions_hold_ext event event' cs :
  Forall (fun c => holds event c <-> holds event' c) (conditions cs) ->
  conditions_hold event cs <-> conditions_hold event' cs.
Proof.
  unfold conditions. rewrite !Forall_app. intros (Ha & Hy & Hn).
  assert (Hall : forall l (P Q : Condition -> Prop), Forall (fun c => P c <-> Q c) l -> Forall P l <-> Forall Q l).
  { intros l P Q Hl. induction Hl; [done|]. rewrite !Forall_cons. by f_equiv. }
  assert (Hex : forall l (P Q : Condition -> Prop), Forall (fun c => P c <-> Q c) l -> Exists P l <-> Exists Q l).
  { intros l P Q Hl. induction Hl; [by rewrite !Exists_nil|]. rewrite !Exists_cons. by f_equiv. }
  assert (Hn' : Forall (fun c => ~ holds event c <-> ~ holds event' c) (c_Not cs))
    by (eapply Forall_impl; [exact Hn|]; cbn; tauto).
  split; intros [H1 H2 H3]; split;
    rewrite ?(Hall _ _ _ Ha), ?(Hall _ _ _ Hn'), ?(Hex _ _ _ Hy) in *; done.
Qed.

Lemma decides_ext event event' rules o :
  Forall (fun r => rule_matches event r <-> rule_matches event' r) rules ->
  decides event rules o -> decides event' rules o.
Proof.
  intros Hr [pre r post -> Hpre Hm|Hall].
  - apply Forall_app in Hr as [Hp [Hr _]%Forall_cons]. apply (decides_rule _ _ pre _ post); [done| |by apply Hr].
    rewrite Forall_forall in *. intros r' Hin Hm'. apply (Hpre r' Hin). by apply Hp.
  - apply decides_default. rewrite Forall_forall in *. intros r Hin Hm. apply (Hall r Hin). by apply Hr.
Qed.

(** A record is enough to decide again.  For process and network events every
    document decides the event made of the record as it decides the event itself; for
    file events this holds of documents whose rules do not ask for the operation or the
    flags, which are not in the record. *)
Lemma replay_decides_alike su event result rules o :
  Forall (fun r => Forall (replayable event) (conditions (r_Conditions r))) rules ->
  decides (replayed su event result) rules o <-> decides event rules o.
Proof.
  intros Hr.
  assert (Hm : Forall (fun r => rule_matches (replayed su event result) r <-> rule_matches event r) rules).
  { eapply Forall_impl; [exact Hr|]. cbn. intros r Hc. unfold rule_matches. rewrite replayed_type. f_equiv.
    apply conditions_hold_ext. eapply Forall_impl; [exact Hc|]. intros c Hrep. by apply holds_field, replayed_field. }
  split; apply decides_ext; [done|]. eapply Forall_impl; [exact Hm|]. cbn. tauto.
Qed.
