(* ===== verification/PolicyRuntime.v ===== *)
(** internal/wasm/runtime.go and internal/compiler/build.go: how a policy file becomes
    the module that the daemon runs.

    The operating system, the Rust toolchain and the compiler of the WASM engine are an
    interface: each operation may fail, and only what it returns is used.  Paths are the
    slash-separated ones of Unix. *)

From S2P Require Import Prelude GoApi GoFmt GoWasm PolicySchema PolicyCodegen.

Import compiler.

(** ** Paths *)

Definition has_slash (s : string) : bool := negb (string_forallb (fun c => negb (code c =? 47)) s).

(** filepath.Ext: from the last dot of the last element on. *)
Fixpoint Ext (path : string) : string :=
  match path with
  | EmptyString => ""
  | String c rest =>
      match Ext rest with
      | EmptyString => if (code c =? 46) && negb (has_slash rest) then String c rest else ""
      | e => e
      end
  end.

Definition TrimSuffix (s suffix : string) : string :=
  let n := (String.length s - String.length suffix)%nat in
  if String.eqb (String.substring n (String.length suffix) s) suffix && (String.length suffix <=? String.length s)%nat
  then String.substring 0 n s else s.

Definition to_lower (c : Ascii.ascii) : Ascii.ascii := if between 65 90 (code c) then chr (code c + 32) else c.
Fixpoint ToLower (s : string) : string :=
  match s with EmptyString => "" | String c s' => String (to_lower c) (ToLower s') end.

Definition IsAbs (path : string) : bool := match path with String c _ => code c =? 47 | EmptyString => false end.

(** The elements between the slashes. *)
Fixpoint elements (path : string) : list string :=
  match path with
  | EmptyString => [""]
  | String c rest =>
      if code c =? 47 then "" :: elements rest
      else match elements rest with e :: es => String c e :: es | [] => [String c ""] end
  end.

(** One element of Clean; [out] is what is kept so far, the last element first. *)
Definition clean_step (rooted : bool) (out : list string) (e : string) : list string :=
  if String.eqb e "" || String.eqb e "." then out
  else if String.eqb e ".." then
    match out with
    | [] => if rooted then [] else [e]
    | prev :: out' => if String.eqb prev ".." then e :: out else out'
    end
  else e :: out.

Definition Clean (path : string) : string :=
  let out := reverse (foldl (clean_step (IsAbs path)) [] (elements path)) in
  let text := Join "/" out in
  if IsAbs path then "/" +:+ text else if String.eqb text "" then "." else text.

(** filepath.Join *)
Definition JoinPath (elems : list string) : string :=
  match List.filter (fun e => negb (String.eqb e "")) elems with
  | [] => ""
  | es => Clean (Join "/" es)
  end.

(** ** The surroundings *)

Class OS (W : Type) : Type := {
  Stat : string -> W -> go Z;
  ReadFile : string -> W -> go (list Z);
  WriteFile : string -> list Z -> W -> go unit * W;
  MkdirTemp : string -> W -> go string * W;
  MkdirAll : string -> W -> go unit * W;
  RemoveAll : string -> W -> W;
  Getwd : W -> go string;
  LookPath : string -> W -> go string;
  (* the output of: rustup target list --installed *)
  rustup_targets : W -> go string;
  (* cargo build --target wasm32-unknown-unknown --release, in the given directory *)
  cargo_build : string -> W -> go unit * W;
  (* what the last run of cargo wrote to its standard error *)
  cargo_stderr : W -> list Z;
}.

Record BuildOptions : Type := MkBuildOptions {
  OutputPath : string;
  RustOnly : bool;
  Verbose : bool;
}.

Record BuildResult : Type := MkBuildResult {
  WasmPath : string;
  RustSource : list fragment;
  CratePath : string;
}.

Definition toml_line (key value : string) : string := key +:+ " = " +:+ value +:+ nl.
Definition quoted (s : string) : string := String dquote s +:+ String dquote "".

Definition GenerateCargoToml (policyName : string) : string :=
  "[package]" +:+ nl +:+ toml_line "name" (quoted ("warmor-policy-" +:+ safeName policyName)) +:+
  toml_line "version" (quoted "0.1.0") +:+ toml_line "edition" (quoted "2021") +:+ nl +:+
  "[lib]" +:+ nl +:+ toml_line "crate-type" ("[" +:+ quoted "cdylib" +:+ "]") +:+ nl +:+
  "[dependencies]" +:+ nl +:+ nl +:+
  "[profile.release]" +:+ nl +:+ toml_line "opt-level" (quoted "z") +:+ toml_line "lto" "true" +:+
  toml_line "codegen-units" "1" +:+ toml_line "strip" "true".

(** strings.Contains *)
Fixpoint Contains (s sub : string) : bool :=
  String.prefix sub s || match s with EmptyString => false | String _ s' => Contains s' sub end.

(** ** Building *)

Section Runtime.
Context {W M : Type} `{OS W}.
(** The text of the constant items of the generated program, the YAML decoder, the
    printable runes, and the engine's compiler. *)
Context (item_text : string -> list Z) (Unmarshal : list Z -> go rawPolicy) (IsPrint : Z -> bool)
  (CompileModule : list Z -> go M).

(** Operations that change the surroundings and may fail. *)
Definition io (A : Type) : Type := W -> go A * W.
Definition io_bind {A B} (m : io A) (k : A -> io B) : io B := fun w =>
  match m w with
  | (Ret a, w) => k a w
  | (Fail err, w) => (Fail err, w)
  | (Panic why, w) => (Panic why, w)
  | (Block, w) => (Block, w)
  end.
Definition io_wrap {A} (format : string) (m : io A) : io A := fun w => let '(r, w) := m w in (wrap format r, w).
Definition ask {A} (f : W -> go A) : io A := fun w => (f w, w).
Definition done_with {A} (a : A) : io A := fun w => (Ret a, w).

Notation "'do!' x := m 'in' k" := (io_bind m (fun x => k)) (at level 10, x name, m at level 100, k at level 200).

Definition source_bytes (fs : list fragment) : list Z :=
  concat ((fun f => match f with Emit t => bstr t | Verbatim w => item_text w end) <$> fs).

Definition checkCargo : io unit :=
  do! _ := (fun w => match LookPath "cargo" w with
                     | Ret _ => (Ret tt, w)
                     | _ => (Fail (Text "cargo not found in PATH. Install Rust from https://rustup.rs and run: rustup target add wasm32-unknown-unknown"), w)
                     end) in
  do! output := io_wrap "failed to check rust targets (is rustup installed?): %w" (ask rustup_targets) in
  if negb (Contains output "wasm32-unknown-unknown")
  then ask (fun _ => Fail (Text "wasm32-unknown-unknown target not installed. Run: rustup target add wasm32-unknown-unknown"))
  else done_with tt.

Definition cargoBuild (crateDir policyName : string) (opts : BuildOptions) : io string :=
  do! _ := (fun w => match cargo_build crateDir w with
                     | (Fail err, w) =>
                         (Fail (Sprintf "cargo build failed: %w\n%s"
                            [AErr err; AStr (if Verbose opts then [] else cargo_stderr w)]), w)
                     | r => r
                     end) in
  let wasmFile := "warmor_policy_" +:+ safeName policyName +:+ ".wasm" in
  let builtPath := JoinPath [crateDir; "target"; "wasm32-unknown-unknown"; "release"; wasmFile] in
  do! _ := (fun w => match Stat builtPath w with
                     | Ret _ => (Ret tt, w)
                     | _ => (Fail (Sprintf "expected wasm output not found at %s" [AStr (bstr builtPath)]), w)
                     end) in
  let outputPath := if String.eqb (OutputPath opts) "" then "policy.wasm" else OutputPath opts in
  do! outputPath := (if IsAbs outputPath then done_with outputPath
                     else do! wd := io_wrap "get working directory: %w" (ask Getwd) in
                          done_with (JoinPath [wd; outputPath])) in
  do! data := io_wrap "read built wasm: %w" (ask (ReadFile builtPath)) in
  do! _ := io_wrap "write output wasm: %w" (WriteFile outputPath data) in
  done_with outputPath.

(** [GenerateRust] returns no error. *)
Definition Build (policy : Policy) (opts : BuildOptions) : io BuildResult :=
  let rustSource := GenerateRust IsPrint policy in
  if RustOnly opts then done_with (MkBuildResult "" rustSource "")
  else
    do! _ := checkCargo in
    do! crateDir := io_wrap "create temp dir: %w" (MkdirTemp "warmor-compile-*") in
    let srcDir := JoinPath [crateDir; "src"] in
    do! _ := io_wrap "create src dir: %w" (MkdirAll srcDir) in
    do! _ := io_wrap "write Cargo.toml: %w"
               (WriteFile (JoinPath [crateDir; "Cargo.toml"]) (bstr (GenerateCargoToml (p_Name policy)))) in
    do! _ := io_wrap "write lib.rs: %w" (WriteFile (JoinPath [srcDir; "lib.rs"]) (source_bytes rustSource)) in
    do! wasmPath := io_wrap "cargo build: %w" (cargoBuild crateDir (p_Name policy) opts) in
    done_with (MkBuildResult wasmPath rustSource crateDir).

Definition Cleanup (result : BuildResult) (w : W) : W :=
  if String.eqb (CratePath result) "" then w else RemoveAll (CratePath result) w.

(** ** Loading *)

Definition maxPolicySize : Z := 64 * 1024 * 1024.

(** The module becomes that of the runtime when nothing failed. *)
Definition LoadPolicy (path : string) : io M :=
  do! size := io_wrap "stat policy file: %w" (ask (Stat path)) in
  if maxPolicySize <? size
  then ask (fun _ => Fail (Sprintf "policy file too large: %d bytes (max %d)" [ANum size; ANum maxPolicySize]))
  else
    do! wasmBytes := io_wrap "read policy file: %w" (ask (ReadFile path)) in
    io_wrap "compile module: %w" (ask (fun _ => CompileModule wasmBytes)).

Definition wasmPath (yamlPath : string) : string := TrimSuffix yamlPath (Ext yamlPath) +:+ ".wasm".

Definition LoadPolicyFromYAML (yamlPath : string) : io M := fun w =>
  match Stat (wasmPath yamlPath) w with
  | Ret _ => LoadPolicy (wasmPath yamlPath) w
  | _ =>
      (do! policy := io_wrap "parse YAML policy: %w" (ask (fun w => ParseFile Unmarshal (ReadFile yamlPath w))) in
       do! result := io_wrap "compile YAML policy: %w" (Build policy (MkBuildOptions (wasmPath yamlPath) false false)) in
       fun w => LoadPolicy (wasmPath yamlPath) (Cleanup result w)) w
  end.

Definition IsYAMLPolicy (path : string) : bool :=
  let ext := ToLower (Ext path) in String.eqb ext ".yaml" || String.eqb ext ".yml".

(** What [New] and [ReloadPolicy] of the enforcer do with the policy's path. *)
Definition load_policy (path : string) : io M :=
  if IsYAMLPolicy path then io_wrap "load YAML policy: %w" (LoadPolicyFromYAML path)
  else io_wrap "load policy: %w" (LoadPolicy path).

(** ** Facts *)

Lemma io_bind_Ret {A B} (m : io A) (k : A -> io B) w b w' :
  io_bind m k w = (Ret b, w') -> exists a w1, m w = (Ret a, w1) /\ k a w1 = (Ret b, w').
Proof. unfold io_bind. destruct (m w) as [[a| | |] w1] eqn:Hm; try done. intros Hk. by exists a, w1. Qed.

Lemma io_wrap_Ret {A} format (m : io A) w a w' : io_wrap format m w = (Ret a, w') -> m w = (Ret a, w').
Proof. unfold io_wrap. destruct (m w) as [[]]; cbn; by intros [= <- <-]. Qed.

(** Loading a module reads two things of a file and changes nothing. *)
Lemma LoadPolicy_Ret path w m w' :
  LoadPolicy path w = (Ret m, w') <->
  exists size bytes, Stat path w = Ret size /\ size <= maxPolicySize /\ ReadFile path w = Ret bytes /\
    CompileModule bytes = Ret m /\ w' = w.
Proof.
  split.
  - unfold LoadPolicy. intros (size & w1 & Hs%io_wrap_Ret & Hk)%io_bind_Ret. unfold ask in Hs. injection Hs as Hs <-.
    destruct (Z.ltb_spec maxPolicySize size) as [|Hle]; [done|].
    apply io_bind_Ret in Hk as (bytes & w2 & Hb%io_wrap_Ret & Hm%io_wrap_Ret). unfold ask in *.
    injection Hb as Hb <-. injection Hm as Hm <-. by exists size, bytes.
  - intros (size & bytes & Hs & Hle & Hb & Hm & ->). unfold LoadPolicy, io_bind, io_wrap, ask. rewrite Hs. cbn.
    rewrite (proj2 (Z.ltb_ge _ _)) by done. rewrite Hb. cbn. by rewrite Hm.
Qed.

(** However the module came about, a successful load leaves a file that gives it. *)
Lemma yaml_load_leaves_module y w m w' :
  LoadPolicyFromYAML y w = (Ret m, w') -> LoadPolicy (wasmPath y) w' = (Ret m, w').
Proof.
  unfold LoadPolicyFromYAML. intros Hl.
  assert (Hlast : exists w1, LoadPolicy (wasmPath y) w1 = (Ret m, w')).
  { destruct (Stat (wasmPath y) w); [by exists w|..];
      apply io_bind_Ret in Hl as (p & w1 & _ & Hl); apply io_bind_Ret in Hl as (res & w2 & _ & Hl); by eexists. }
  destruct Hlast as [w1 Hw]. pose proof Hw as Hw'. apply LoadPolicy_Ret in Hw as (? & ? & _ & _ & _ & _ & ->). exact Hw'.
Qed.

Lemma yaml_reload y w m w' :
  LoadPolicy (wasmPath y) w = (Ret m, w') -> LoadPolicyFromYAML y w = (Ret m, w).
Proof.
  intros Hl. pose proof Hl as Hl'. apply LoadPolicy_Ret in Hl as (size & bytes & Hs & _ & _ & _ & ->).
  unfold LoadPolicyFromYAML. by rewrite Hs.
Qed.

(** A build that fails after cargo ran leaves its directory behind: [Cleanup] is only
    called with the result of a build that succeeded. *)
Lemma failed_build_keeps_crate crateDir policyName opts w w' err :
  cargo_build crateDir w = (Fail err, w') ->
  cargoBuild crateDir policyName opts w
  = (Fail (Sprintf "cargo build failed: %w\n%s" [AErr err; AStr (if Verbose opts then [] else cargo_stderr w')]), w').
Proof. intros Hc. unfold cargoBuild, io_bind at 1. by rewrite Hc. Qed.
End Runtime.

(** ** Names *)

Lemma substring_suffix a b : String.substring (String.length a) (String.length b) (a +:+ b) = b.
Proof.
  induction a as [|c a IH]; [|exact IH]. change ("" +:+ b) with b. change (String.length "") with 0%nat.
  induction b as [|c b IH]; [done|]. cbn. by f_equal.
Qed.

Lemma substring_prefix a b : String.substring 0 (String.length a) (a +:+ b) = a.
Proof. induction a as [|c a IH]; [by destruct b|]. rewrite append_cons. cbn. by f_equal. Qed.

Lemma length_append (a b : string) : String.length (a +:+ b) = (String.length a + String.length b)%nat.
Proof. induction a as [|c a IH]; [done|]. rewrite append_cons. cbn. by f_equal. Qed.

Lemma TrimSuffix_app a b : TrimSuffix (a +:+ b) b = a.
Proof.
  unfold TrimSuffix. rewrite length_append, Nat.add_sub, substring_suffix, String.eqb_refl.
  rewrite (proj2 (Nat.leb_le _ _)) by lia. apply substring_prefix.
Qed.

Lemma Ext_suffix path : exists stem, path = stem +:+ Ext path.
Proof.
  induction path as [|c path [stem IH]]; [by exists ""|]. cbn [Ext]. destruct (Ext path) as [|d e] eqn:He.
  - destruct (_ && _); [by exists ""|]. exists (String c path). by rewrite append_nil_r.
  - exists (String c stem). rewrite append_cons. by rewrite <- IH.
Qed.

Lemma append_inj_l (a b c : string) : a +:+ b = a +:+ c -> b = c.
Proof. induction a as [|x a IH]; [done|]. rewrite !append_cons. intros [= Hbc]. by apply IH. Qed.

(** The compiled file of a document is not the document. *)
Lemma wasmPath_ne y : IsYAMLPolicy y = true -> wasmPath y <> y.
Proof.
  unfold IsYAMLPolicy, wasmPath. destruct (Ext_suffix y) as [stem Hy]. set (e := Ext y) in *. clearbody e. subst y.
  rewrite TrimSuffix_app. intros Hext <-%append_inj_l. done.
Qed.

(** ** Edits *)

(** A name that no other name stands for, links apart. *)
Definition canonical (path : string) : bool := IsAbs path && String.eqb (Clean path) path.

(** Writing a file leaves the files of other names alone. *)
Class OSOk (W : Type) `{OS W} : Prop := {
  write_frame path data path' (w : W) :
    canonical path = true -> canonical path' = true -> path' <> path ->
    Stat path' (WriteFile path data w).2 = Stat path' w /\ ReadFile path' (WriteFile path data w).2 = ReadFile path' w;
}.

Section Edits.
Context {W M : Type} `{OSOk W}.
Context (item_text : string -> list Z) (Unmarshal : list Z -> go rawPolicy) (IsPrint : Z -> bool)
  (CompileModule : list Z -> go M).

#[local] Abbreviation load_yaml := (LoadPolicyFromYAML item_text Unmarshal IsPrint CompileModule).

(** The document is edited and the policy loaded again, by a restart of the daemon or by
    a reload. *)
Definition edit_and_load (y : string) (w : W) (data : list Z) : W := (load_yaml y (WriteFile y data w).2).2.

Lemma edit_keeps_module y m data w :
  IsYAMLPolicy y = true -> canonical y = true -> canonical (wasmPath y) = true ->
  LoadPolicy CompileModule (wasmPath y) w = (Ret m, w) ->
  load_yaml y (WriteFile y data w).2 = (Ret m, (WriteFile y data w).2) /\
  LoadPolicy CompileModule (wasmPath y) (WriteFile y data w).2 = (Ret m, (WriteFile y data w).2).
Proof.
  intros Hy Hc Hc' Hl.
  destruct (write_frame y data (wasmPath y) w Hc Hc' (wasmPath_ne y Hy)) as [Hs Hr].
  assert (Hl' : LoadPolicy CompileModule (wasmPath y) (WriteFile y data w).2 = (Ret m, (WriteFile y data w).2)).
  { apply LoadPolicy_Ret. apply LoadPolicy_Ret in Hl as (size & bytes & ? & ? & ? & ? & _).
    exists size, bytes. rewrite Hs, Hr. by split_and!. }
  split; [|done]. by eapply yaml_reload.
Qed.

(** Editing a YAML policy has no effect once it has been loaded.  The first load
    writes the compiled module next to the document and every later load prefers that
    file, whatever its age: after any number of edits and loads, also with documents
    that do not parse or without a Rust toolchain, the policy that is loaded is still
    the module of the first load. *)
Lemma yaml_edits_are_ignored y w m w' (edits : list (list Z)) data :
  IsYAMLPolicy y = true -> canonical y = true -> canonical (wasmPath y) = true ->
  load_yaml y w = (Ret m, w') ->
  (load_yaml y (WriteFile y data (foldl (edit_and_load y) w' edits)).2).1 = Ret m.
Proof.
  intros Hy Hc Hc' Hl. apply yaml_load_leaves_module in Hl.
  assert (Hk : LoadPolicy CompileModule (wasmPath y) (foldl (edit_and_load y) w' edits)
               = (Ret m, foldl (edit_and_load y) w' edits)).
  { revert w' Hl. induction edits as [|d edits IH]; intros w' Hl; [done|]. cbn [foldl]. apply IH.
    destruct (edit_keeps_module y m d w' Hy Hc Hc' Hl) as [He Hl']. unfold edit_and_load. by rewrite He. }
  destruct (edit_keeps_module y m data _ Hy Hc Hc' Hk) as [-> _]. done.
Qed.
End Edits.

(** ** A file system *)

(** Files by name; the toolchain builds a module whose bytes are those of the source. *)
Abbreviation sim_files := (gmap string (list Z)).
Definition no_file : message := Text "no such file or directory".
Definition sim_read (path : string) (w : sim_files) : go (list Z) :=
  match w !! path with Some d => Ret d | None => Fail no_file end.

#[export] Instance sim_os : OS sim_files := {
  Stat path w := match w !! path with Some d => Ret (Z.of_nat (length d)) | None => Fail no_file end;
  ReadFile := sim_read;
  WriteFile path data w := (Ret tt, <[path := data]> w);
  MkdirTemp pattern w := (Ret "/tmp/warmor-compile-1", w);
  MkdirAll path w := (Ret tt, w);
  RemoveAll path w := filter (fun kv => String.prefix (path +:+ "/") kv.1 = false) w;
  Getwd w := Ret "/root";
  LookPath file w := Ret ("/usr/bin/" +:+ file);
  rustup_targets w := Ret "wasm32-unknown-unknown";
  cargo_build dir w :=
    match sim_read (dir +:+ "/src/lib.rs") w with
    | Ret d => (Ret tt, <[dir +:+ "/target/wasm32-unknown-unknown/release/warmor_policy_p.wasm" := d]> w)
    | _ => (Fail (Text "exit status 101"), w)
    end;
  cargo_stderr w := [];
}.

#[export] Instance sim_os_ok : OSOk sim_files.
Proof. split. intros path data path' w _ _ Hne. cbn. unfold sim_read. by rewrite !lookup_insert_ne by done. Qed.

(** Two documents, told apart by their first byte. *)
Definition sim_rule (action : string) : rawRule :=
  MkRawRule "r" "process" (MkRawConditions [[("uid", YInt 0)]] [] []) action "" "".
Definition sim_decode (data : list Z) : go rawPolicy :=
  match data with
  | [1] => Ret (MkRawPolicy "p" 1 "" [] [sim_rule "allow"] "allow")
  | [2] => Ret (MkRawPolicy "p" 1 "" [] [sim_rule "deny"] "allow")
  | _ => Fail (Text "yaml: unexpected character")
  end.

(** A module is told apart by the sum of its bytes. *)
Definition sim_load : string -> sim_files -> go Z * sim_files :=
  LoadPolicyFromYAML (fun _ => []) sim_decode (fun _ => false) (fun d => Ret (foldr Z.add 0 d)).

Definition sim_start (doc : list Z) : sim_files := {["/etc/warmor/p.yaml" := doc]}.
Definition sim_loaded : sim_files := (sim_load "/etc/warmor/p.yaml" (sim_start [1])).2.

Definition sim_module (doc : list Z) : Z :=
  match (sim_load "/etc/warmor/p.yaml" (sim_start doc)).1 with Ret m => m | _ => 0 end.

Lemma sim_loads : sim_load "/etc/warmor/p.yaml" (sim_start [1]) = (Ret (sim_module [1]), sim_loaded).
Proof.
  rewrite (surjective_pairing (sim_load _ _)). by f_equal; vm_compute.
Qed.

(** The second document compiles to another module, but is not compiled. *)
Lemma yaml_edits_are_ignored_witness :
  sim_module [1] <> sim_module [2] /\
  (sim_load "/etc/warmor/p.yaml" (WriteFile "/etc/warmor/p.yaml" [2] sim_loaded).2).1 = Ret (sim_module [1]).
Proof.
  split; [vm_compute; discriminate|].
  apply (yaml_edits_are_ignored (fun _ => []) sim_decode (fun _ => false) (fun d => Ret (foldr Z.add 0 d))
    "/etc/warmor/p.yaml" (sim_start [1]) (sim_module [1]) sim_loaded [] [2]); [reflexivity..|].
  exact sim_loads.
Defined.
