(* ===== verification/PolicyEndToEnd.v ===== *)
(** From the rule of a document to the verdict of the kernel.

    The decisions of a compiled policy ([PolicyEvaluation.v]) put under the enforcer
    and the kernel of [DaemonEndToEnd.v]: what a YAML rule does to the next execution. *)

From S2P Require Import Prelude CTypes Bpf SimKernel VmlinuxTypes WarmorLsm LsmPolicy Fnv.
From S2P Require Import TracepointDefs ExecveMonitor GoEvents Demo LsmHooks GoPolicyMap EndToEnd Monitors.
From S2P Require Import GoApi GoFmt GoCache GoLineage GoNet GoNetFilter GoSandbox GoActions GoWasm GoEnforcer.
From S2P Require Import EnforcerFacts EnforcerLife LinuxPlatform DaemonEndToEnd.
From S2P Require Import PolicySchema PolicyCodegen RustSyntax RustModule PolicySemantics CompiledPolicy PolicyEvaluation.

Import compiler.

(** The result for a matching deny rule: audited or not, it denies. *)
Lemma deny_rule_result p event start latency r :
  r_Action r = "deny" ->
  Action (policy_result p event start latency (Some r)) = api.ActionDeny /\
  Audit (policy_result p event start latency (Some r)) = String.eqb (r_Mode r) "audit".
Proof.
  intros Hr. unfold policy_result, verdict_code, rule_code. rewrite Hr. cbn [Action Audit].
  by destruct (String.eqb (r_Mode r) "audit").
Qed.

Section Daemon.
Context {K : Type} `{BpfKernelOk K}.
Context (ly : layout) (marshal : list (string * json) -> list Z).

#[local] Existing Instance rust_wasm_ok.
#[local] Instance engine : Wasm crate rust_inst := rust_wasm ly marshal.
#[local] Instance engine_ok : WasmOk crate rust_inst := rust_wasm_ok ly marshal.

(** The evaluator's answer when a deny rule of the document is the first match. *)
Lemma document_denies IsPrint raw p c size pl event start latency r :
  Parse_raw raw = Ret p -> policy_compiles p = true -> layout_ok ly ->
  rustc (GenerateRust IsPrint p) = Some c -> pool_reachable ly marshal c size pl ->
  decides event (p_Rules p) (Some r) ->
  (Evaluate false start latency event pl).1 = Ret (policy_result p event start latency (Some r)).
Proof.
  intros Hp Hcomp Hly Hc Hpl Hr. apply parse_ok in Hp. rewrite rustc_compiled in Hc by done. injection Hc as <-.
  apply reachable_ok in Hpl; [|done..].
  destruct (Evaluate_decides ly marshal p Hly Hp Hcomp event start latency pl Hpl) as (o & pl' & Ho & He & _).
  rewrite (decides_unique _ _ _ _ Hr Ho). change engine with (module_wasm ly marshal). by rewrite He.
Qed.

End Daemon.
