(* ===== verification/PolicyDemo.v ===== *)
(** Concrete policies: the example of policies/yaml-example compiled and run, and
    documents on which the compiler does not do what their author means. *)

From S2P Require Import Prelude CTypes Bpf SimKernel LsmPolicy TracepointDefs Demo LsmHooks GoPolicyMap EndToEnd Monitors.
From S2P Require Import GoApi GoFmt GoCache GoLineage GoNet GoNetFilter GoSandbox GoActions GoWasm GoEnforcer.
From S2P Require Import EnforcerFacts EnforcerLife LinuxPlatform DaemonEndToEnd EnforcerDemo.
From S2P Require Import PolicySchema PolicyCodegen RustSyntax RustRuntime RustModule.
From S2P Require Import CodegenText PolicySemantics CodegenCorrect CodegenEval CompiledPolicy PolicyEvaluation.
From S2P Require Import Streaming Simulator PolicyEndToEnd.

Import compiler.

(** ** The example policy *)

Definition op (o : string) (v : yaml) : yaml := YMap [(o, v)].
Definition strs (l : list string) : yaml := YList (YStr <$> l).
Definition all_of (l : list (string * yaml)) : rawConditions := MkRawConditions ((fun c => [c]) <$> l) [] [].
Definition raw_rule (name event : string) (cs : rawConditions) (action reason : string) : rawRule :=
  MkRawRule name event cs action "" reason.

Definition example_raw : rawPolicy :=
  MkRawPolicy "example-security-policy" 1 "Example warmor YAML policy demonstrating all condition types"
    [("blocked_bins", strs ["/usr/bin/nc"; "/usr/bin/ncat"; "/usr/bin/socat"; "/usr/bin/curl"]);
     ("sensitive_ports", YList (YInt <$> [22; 23; 3389; 4444; 5900]));
     ("temp_dirs", strs ["/tmp/**"; "/var/tmp/**"; "/private/tmp/**"])]
    [raw_rule "block-tmp-exec" "process" (all_of [("path", op "glob" (YStr "/tmp/**"))]) "deny"
       "Execution from temp directory";
     raw_rule "block-vartmp-exec" "process" (all_of [("path", op "glob" (YStr "/var/tmp/**"))]) "deny"
       "Execution from /var/tmp";
     raw_rule "block-network-tools" "process"
       (all_of [("uid", op "not" (YInt 0)); ("path", op "any_of" (YStr "$blocked_bins"))]) "deny"
       "Blocked network reconnaissance tool";
     raw_rule "log-sensitive-ports" "network"
       (all_of [("uid", op "not" (YInt 0)); ("remote_port", op "any_of" (YStr "$sensitive_ports"))]) "log"
       "Connection to sensitive port";
     raw_rule "block-etc-write" "file"
       (all_of [("uid", op "not" (YInt 0)); ("path", op "glob" (YStr "/etc/**"));
                ("operation", op "any_of" (strs ["write"; "unlink"]))]) "deny"
       "Write to /etc by non-root user";
     raw_rule "log-ssh-config-read" "file"
       (all_of [("path", op "glob" (YStr "/home/**/.ssh/**")); ("operation", YStr "read")]) "log" "SSH key access"]
    "allow".

(** The policy of a document that parses. *)
Definition policy_of (raw : rawPolicy) : Policy :=
  match Parse_raw raw with Ret p => p | _ => MkPolicy "" 0 "" [] [] "" end.

Definition example_policy : Policy := policy_of example_raw.

Definition demo_layout : layout := MkLayout 1048576 1179648.
Definition no_json (_ : list (string * json)) : list Z := [].
Definition no_print (_ : Z) : bool := false.

Lemma demo_layout_ok : layout_ok demo_layout.
Proof. split; unfold HEAP_LEN; cbn; lia. Qed.

Definition process_event (uid : Z) (path : string) : ApiEvent := {|
  ae_PID := 100; ae_UID := uid; ae_GID := uid; ae_Comm := bstr "sh"; ae_Filename := bstr path; ae_Timestamp := 0;
  ae_Type := EventTypeProcess; ae_CgroupID := 0; ae_Process := None; ae_File := None; ae_Network := None;
  ae_LSMEvent := false |}.

Definition policy_pool (p : Policy) : go (Pool crate rust_inst) :=
  @NewPool _ _ (rust_wasm demo_layout no_json) (rustc (GenerateRust no_print p)) 1.

(** The action and the reason for an event, evaluated. *)
Definition demo_decision (p : Policy) (event : ApiEvent) : option (Z * message * bool) :=
  match policy_pool p with
  | Ret pl =>
      match (@Evaluate _ _ (rust_wasm demo_layout no_json) false 0 0 event pl).1 with
      | Ret r => Some (Action r, Reason r, Audit r)
      | _ => None
      end
  | _ => None
  end.

Example example_denies_tmp :
  demo_decision example_policy (process_event 0 "/tmp/x/y")
  = Some (1, Sprintf "%s" [AStr (bstr "Execution from temp directory")], false).
Proof. vm_compute. reflexivity. Qed.

Example example_allows_root_curl :
  demo_decision example_policy (process_event 0 "/usr/bin/curl") = Some (0, Text "Policy allows execution", false).
Proof. vm_compute. reflexivity. Qed.

Lemma parse_accepts_iff_example : elaborates example_raw example_policy /\ policy_ok example_policy.
Proof. apply Parse_raw_Ret. vm_compute. reflexivity. Qed.

Lemma yaml_policy_decides_witness :
  exists c, rustc (GenerateRust no_print example_policy) = Some c /\
    (exists pl, @NewPool _ _ (rust_wasm demo_layout no_json) (Some c) 4 = Ret pl) /\
    forall pl, pool_reachable demo_layout no_json c 4 pl -> forall event start latency,
      exists o pl', decides event (p_Rules example_policy) o /\
        @Evaluate _ _ (rust_wasm demo_layout no_json) false start latency event pl
        = (Ret (policy_result example_policy event start latency o), pl').
Proof.
  apply (yaml_policy_decides no_print demo_layout no_json example_raw example_policy 4).
  - vm_compute. reflexivity.
  - vm_compute. reflexivity.
  - exact demo_layout_ok.
Defined.

(** ** Text that becomes code *)

Definition one_rule (name event : string) (cs : rawConditions) (action reason : string) : rawPolicy :=
  MkRawPolicy "p" 1 "" [] [raw_rule name event cs action reason] "allow".

(** A rule that should deny root only. *)
Definition injected_raw : rawPolicy :=
  one_rule "deny-root" "process" (all_of [("uid", YStr "0 || true")]) "deny" "".

Definition injected_crate : crate :=
  match rustc (GenerateRust no_print (policy_of injected_raw)) with Some c => c | None => MkCrate [] [] end.

Lemma injected_process :
  find_fn "evaluate_process" injected_crate
  = Some (MkFn "evaluate_process"
      ((let_stmt <$> bindings "process") ++
       [SDiscard [EId "pid"; EId "gid"; EId "comm"];
        SIf (EOr (ECmp "==" (EId "uid") (ENum "0")) (EId "true")) (ENum "0") (EId "ACTION_DENY")])
      (EId "ACTION_ALLOW")).
Proof. vm_compute. reflexivity. Qed.

(** The values of a document are not only data.  A string on a numeric field is
    accepted by the parser and copied into the generated program as it is, so that the
    condition [uid: 0 || true] compiles to a test that always holds: the rule denies
    every process, whatever its uid. *)
Lemma policy_text_is_code event base (s : rust_inst) :
  GetType event = EventTypeProcess ->
  ri_crate s = injected_crate -> holds_at (ri_mem s) base (writeEventBinary event) ->
  Parse_raw injected_raw = Ret (policy_of injected_raw) /\
  rustc (GenerateRust no_print (policy_of injected_raw)) = Some injected_crate /\
  evaluate_event base s = Some (1, with_last_matched 0 s).
Proof.
  intros Ht Hc Hb. split; [vm_compute; reflexivity|]. split; [vm_compute; reflexivity|].
  unfold evaluate_event. rewrite (load_event_type event base s Hb), Ht. cbn [mbind option_bind event_type_byte].
  change (0 =? 0) with true. cbn iota. unfold run_fn. cbn [ri_crate with_last_matched]. rewrite Hc, injected_process.
  cbn [mbind option_bind fn_body fn_tail ri_mem with_last_matched].
  pose proof (run_bindings (ri_mem s) base event) as Hr. unfold evname in Hr. rewrite Ht in Hr. cbn [event_name] in Hr.
  rewrite Hr by done. unfold event_env. rewrite Ht.
  generalize (seen 128 (primary_str event)) (seen 64 (ae_Comm event)) (to_u32 (ae_GID event))
    (to_u32 (ae_UID event)) (to_u32 (ae_PID event)). intros path comm gid uid pid.
  cbn [app entry_env globals run_body].
  match goal with |- context [eval (ri_mem s) ?rho Bool ?e] =>
    assert (He : eval (ri_mem s) rho Bool e = Some (VBool ((uid =? 0) || true))) by reflexivity end.
  rewrite He, orb_true_r. reflexivity.
Qed.

(** The memory of an instance into which the host wrote an event. *)
Definition demo_instance (c : crate) (event : ApiEvent) : rust_inst :=
  MkInst c (MkMem 256 (fun a => default 0 (writeEventBinary event !! Z.to_nat a))) 0 NOT_MATCHED.

Lemma demo_instance_holds c event : holds_at (ri_mem (demo_instance c event)) 0 (writeEventBinary event).
Proof.
  intros i b Hi. destruct (wasm_event_layout event) as [Hlen _]. pose proof (lookup_lt_Some _ _ _ Hi) as Hlt.
  unfold load. cbn [ri_mem demo_instance mem_size mem_at].
  rewrite (proj2 (Z.leb_le 0 _)), (proj2 (Z.ltb_lt _ _)) by (unfold eventStructSize in *; lia).
  cbn [andb]. by rewrite Z.add_0_l, Nat2Z.id, Hi.
Qed.

Lemma policy_text_is_code_witness :
  evaluate_event 0 (demo_instance injected_crate (process_event 1000 "/bin/ls"))
  = Some (1, with_last_matched 0 (demo_instance injected_crate (process_event 1000 "/bin/ls"))).
Proof.
  apply (policy_text_is_code (process_event 1000 "/bin/ls") 0); [reflexivity|reflexivity|apply demo_instance_holds].
Defined.

(** ** Documents that are accepted and do not build *)

Definition unbuildable : list rawPolicy :=
  [ (* the evaluator of network events has no variable for the operation *)
    one_rule "r" "network" (all_of [("operation", YStr "connect")]) "deny" "";
    (* not a 16-bit number *)
    one_rule "r" "network" (all_of [("remote_port", YInt 70000)]) "deny" "";
    (* not an unsigned number *)
    one_rule "r" "process" (all_of [("uid", op "not" (YInt (-1)))]) "deny" "";
    (* an order on text, a pattern on a number *)
    one_rule "r" "process" (all_of [("comm", op "gt" (YInt 5))]) "deny" "";
    one_rule "r" "process" (all_of [("uid", op "glob" (YStr "10*"))]) "deny" "";
    (* a truth value for a number *)
    one_rule "r" "process" (all_of [("uid", YBool true)]) "deny" "";
    (* a character that only Go has an escape for *)
    one_rule "r" "process" (all_of [("path", YStr (String (chr 7) ""))]) "deny" "";
    (* a name of two lines: the second one is no comment *)
    one_rule ("r" +:+ String (chr 10) "s") "process" (all_of [("uid", YInt 0)]) "deny" "" ].

(** Validation does not catch every mistake: the parser accepts a condition on a
    field that the evaluator of the event does not have, a number that does not fit its
    field, an operator that does not fit the type of its field, text that Rust cannot
    read and names of several lines; the program generated for each of them is not
    accepted by the Rust compiler. *)
Lemma accepted_documents_that_do_not_build IsPrint :
  Forall (fun raw => exists p, Parse_raw raw = Ret p /\ rustc (GenerateRust IsPrint p) = None) unbuildable.
Proof.
  assert (Hall : forallb (fun raw => match Parse_raw raw with
      | Ret p => match rustc (GenerateRust IsPrint p) with None => true | Some _ => false end
      | _ => false end) unbuildable = true) by (vm_compute; reflexivity).
  apply Forall_forall. intros raw Hraw%list_elem_of_In. rewrite forallb_forall in Hall. specialize (Hall _ Hraw).
  destruct (Parse_raw raw) as [p| | |]; try done. exists p. split; [done|]. by destruct (rustc _).
Qed.

(** ** Rules that decide less, or more, than they say *)

(** The reason of a rule is looked up by its name: of two rules of the same name the
    reason of the first is reported. *)
Definition twins_raw : rawPolicy :=
  MkRawPolicy "p" 1 "" []
    [raw_rule "r" "process" (all_of [("uid", YInt 7)]) "log" "seven";
     raw_rule "r" "process" (all_of [("uid", YInt 8)]) "deny" "eight"] "allow".

Example twin_reason :
  demo_decision (policy_of twins_raw) (process_event 8 "/x") = Some (1, Sprintf "%s" [AStr (bstr "seven")], false).
Proof. vm_compute. reflexivity. Qed.

(** A double star followed by a slash does not need a directory boundary before what
    follows it. *)
Example glob_no_boundary : matches_glob (bstr "/home/alice.ssh/key") (bstr "/home/**/.ssh/**") = true.
Proof. vm_compute. reflexivity. Qed.

(** Operators, fields and actions of the documentation that the parser refuses. *)
Definition documented_raw : list rawPolicy :=
  [one_rule "r" "process" (all_of [("path", op "equals" (YStr "/bin/nc"))]) "deny" "";
   one_rule "r" "process" (all_of [("path", op "prefix" (YStr "/tmp"))]) "deny" "";
   one_rule "r" "network" (all_of [("remote_ip", YStr "10.0.0.1")]) "deny" "";
   one_rule "r" "process" (all_of [("uid", YInt 0)]) "audit" ""].

Example documented_refused : Forall (fun raw => exists err, Parse_raw raw = Fail err) documented_raw.
Proof.
  unfold documented_raw. do 4 (apply Forall_cons_2; [eexists; vm_compute; reflexivity|]). apply Forall_nil_2.
Qed.

Definition fresh_pool : Pool crate rust_inst := MkPool [] false 1 0 (compiled example_policy).

Lemma example_policy_ok : policy_ok example_policy.
Proof. apply (parse_ok example_raw). vm_compute. reflexivity. Qed.

Lemma heap_usage_bounded_witness :
  exists pol pl', @pool_instantiate _ _ (rust_wasm demo_layout no_json) fresh_pool = (Ret pol, pl') /\
    let events := replicate 200 (process_event 0 "/bin/ls") in
    let after := foldl (evaluate_once demo_layout no_json) pol events in
    HEAP_POS (instance after) = 256 + 512 * Z.min (Z.of_nat (length events)) 127 /\
    (rust_malloc demo_layout 512 (instance after)).1 = 0.
Proof.
  destruct (pool_instantiate_ok demo_layout no_json example_policy demo_layout_ok fresh_pool eq_refl) as (pol & Hpol & _).
  eexists pol, _. split; [exact Hpol|].
  destruct (heap_usage_bounded demo_layout no_json example_policy fresh_pool pol _ (replicate 200 (process_event 0 "/bin/ls"))
    demo_layout_ok example_policy_ok eq_refl eq_refl Hpol) as (Hpos & _ & Hnull).
  split; [exact Hpos|]. apply Hnull. apply Nat.leb_le. reflexivity.
Defined.

(** ** The daemon of EnforcerDemo.v with a compiled policy *)

Definition deny_rule_raw : rawPolicy :=
  one_rule "no-bin" "process" (all_of [("path", op "glob" (YStr "/**")); ("uid", op "gt" (YInt 40))]) "deny" "".

Definition deny_rule : Rule := default (MkRule "" "" (MkConditions [] [] []) "" "" "") (head (p_Rules (policy_of deny_rule_raw))).
Definition deny_crate : crate := compiled (policy_of deny_rule_raw).

#[local] Instance demo_engine : Wasm crate rust_inst := rust_wasm demo_layout no_json.
#[local] Instance demo_engine_ok : WasmOk crate rust_inst := rust_wasm_ok demo_layout no_json.

Lemma deny_rule_decides : decides (exec_by 44) (p_Rules (policy_of deny_rule_raw)) (Some deny_rule).
Proof.
  apply (decides_rule _ _ [] _ []); [vm_compute; reflexivity|constructor|]. split; [reflexivity|].
  assert (Hc : r_Conditions deny_rule = MkConditions
    [MkCondition "path" "glob" (YStr "/**"); MkCondition "uid" "gt" (YInt 40)] [] []) by (vm_compute; reflexivity).
  rewrite Hc. split; [|by left|constructor]. apply Forall_cons_2; [|by apply Forall_singleton].
  cbn [holds c_Operator c_Field c_Value textual field_value]. apply glob_match_spec. vm_compute. reflexivity.
Qed.

(** In audit mode and with a new pool. *)
Definition policy_machine (pl : Pool crate rust_inst) : Enforcer sim_kernel crate rust_inst := {|
  platform := true; GoEnforcer.evaluator := Some 0; pool := Some 0;
  cache := NewDecisionCache 10000 (5 * minute);
  actionHandler := NewActionHandler true;
  policyMap := true; pipeline := false;
  lineageTracker := NewTracker (MkTrackerConfig 0 0);
  netFilter := None;
  sandbox := Some (NewSandboxManager DefaultProfiles);
  learningMode := false;
  results := ∅; pools := {[0 := pl]}; next := 1; kernel := demo_host; out := [] |}.

Lemma policy_machine_new pl :
  NewPool (Some deny_crate) 2 = Ret pl ->
  New (Ret (demo_host, true)) (Ret (Some deny_crate)) 2 (demo_options true) = Ret (policy_machine pl) /\
  enforcer_ok (policy_machine pl) pl.
Proof.
  intros Hpl. assert (Hnew : New (Ret (demo_host, true)) (Ret (Some deny_crate)) 2 (demo_options true) = Ret (policy_machine pl)).
  { unfold New. cbn [wrap go_bind]. rewrite Hpl. reflexivity. }
  split; [done|]. destruct (New_live _ _ _ _ _ Hnew) as (pl' & ([? ? (a & [= <-] & Ha) ?] & _) & _).
  cbn in Ha. rewrite lookup_singleton_eq in Ha. injection Ha as <-. split; eauto.
Qed.


(** ** Replays *)

Definition now : replay_moment := MkReplayMoment false false 0 0.
Definition allowed : ActionResult := MkResult api.ActionAllow (Text "Policy allows execution") 0 false 0 false.

(** The daemon allowed both; the example policy denies the first. *)
Definition recorded_events : list (replay_moment * SecurityEvent) :=
  (fun path => (now, transform demo_surroundings (process_event 0 path) (Some allowed))) <$> ["/tmp/x"; "/bin/ls"].

Definition example_crate : crate := compiled example_policy.

Lemma example_rustc : rustc (GenerateRust no_print example_policy) = Some example_crate.
Proof. apply rustc_compiled; [exact example_policy_ok|vm_compute; reflexivity]. Qed.

Lemma replay_tallies_policy_witness :
  exists pl os r pl', NewPool (Some example_crate) 1 = Ret pl /\
    Forall2 (fun x o => decides (securityEventToAPIEvent x.2) (p_Rules example_policy) o) recorded_events os /\
    Replay recorded_events pl = (Ret r, pl') /\ WouldDeny r = tally example_policy api.ActionDeny os /\
    WouldAllow r + WouldDeny r + WouldLog r = 2.
Proof.
  destruct (NewPool_ok demo_layout no_json example_policy demo_layout_ok 1) as (pl & Hpl & _).
  destruct (replay_tallies_policy no_print demo_layout no_json example_raw example_policy example_crate 1 pl recorded_events)
    as (os & r & pl' & Hos & Hr & Ht & _ & Hd & _ & Hsum).
  - vm_compute. reflexivity.
  - vm_compute. reflexivity.
  - exact demo_layout_ok.
  - exact example_rustc.
  - apply reach_new. exact Hpl.
  - repeat constructor.
  - exists pl, os, r, pl'. split; [exact Hpl|]. split; [exact Hos|]. split; [exact Hr|]. split; [exact Hd|].
    rewrite Hsum. exact Ht.
Defined.

(** A denial that the replay counts and does not report. *)
Lemma replay_reports_no_change_witness :
  match policy_pool example_policy with
  | Ret pl => exists r pl', Replay recorded_events pl = (Ret r, pl') /\ WouldDeny r = 1 /\ WouldAllow r = 1 /\
      UniqueNewDenials r = ∅ /\ UniqueNewAllows r = ∅
  | _ => False
  end.
Proof.
  assert (Hrec : Forall (fun x => recorded x.2) recorded_events).
  { repeat constructor; eexists _, _, _; reflexivity. }
  pose proof (fun pl r pl' => replay_reports_no_change recorded_events pl r pl' Hrec) as Hno.
  destruct (policy_pool example_policy) as [pl| | |] eqn:Hpl; [|discriminate Hpl..].
  assert (Hc : match Replay recorded_events pl with (Ret r, _) => WouldDeny r = 1 /\ WouldAllow r = 1 | _ => False end).
  { injection Hpl as <-. vm_compute. split; reflexivity. }
  destruct (Replay recorded_events pl) as [[r| | |] pl'] eqn:Hr; [|contradiction Hc..].
  exists r, pl'. split; [reflexivity|]. split; [apply Hc|]. split; [apply Hc|]. exact (Hno pl r pl' Hr).
Defined.

Lemma replay_decides_alike_witness :
  decides (replayed demo_surroundings (exec_by 44) None) (p_Rules (policy_of deny_rule_raw)) (Some deny_rule).
Proof.
  apply (replay_decides_alike demo_surroundings (exec_by 44) None).
  - repeat constructor; intros Hf; discriminate Hf.
  - exact deny_rule_decides.
Defined.

(** The operation of a file event is not replayed. *)
Definition open_event : ApiEvent := {|
  ae_PID := 1; ae_UID := 5; ae_GID := 5; ae_Comm := bstr "sh"; ae_Filename := bstr "/etc/shadow"; ae_Timestamp := 0;
  ae_Type := EventTypeFile; ae_CgroupID := 0; ae_Process := None; ae_File := None; ae_Network := None;
  ae_LSMEvent := false |}.

Definition open_raw : rawPolicy := one_rule "no-open" "file" (all_of [("operation", YStr "open")]) "deny" "".

Example replay_loses_operation :
  (fun x => x.1.1) <$> demo_decision (policy_of open_raw) open_event = Some 1 /\
  (fun x => x.1.1) <$> demo_decision (policy_of open_raw) (replayed demo_surroundings open_event None) = Some 0.
Proof. split; vm_compute; reflexivity. Qed.
