(* ===== verification/BlastRadius.v ===== *)
(** internal/blastradius: the graph of container relations (graph.go) and the
    breadth-first searches over it (analyzer.go).

    [nodes] maps a cgroup id to what is known of its container, [edges] are kept in
    the order of their first observation.  The two searches of the source differ only
    in the neighbour they take of an edge, which is the argument [neighbor] here.
    Timestamps are [Z]; the order in which [MostConnected] visits its map is an
    argument.  The search loop is given fuel, one iteration for every vertex that can
    be queued, and the theorems show that it suffices. *)

From stdpp Require Import relations sorting.
From S2P Require Import Prelude GoApi GoFmt.

(** ** The graph *)

Definition EdgeNetwork : list Z := bstr "network".
Definition EdgeSharedVolume : list Z := bstr "shared_volume".
Definition EdgeSharedPID : list Z := bstr "shared_pid_ns".
Definition EdgeSharedIPC : list Z := bstr "shared_ipc_ns".

Record ContainerNode : Type := MkContainerNode {
  cn_CgroupID : Z;
  cn_Image : list Z;
  cn_Namespace : list Z;
  cn_Name : list Z;
  cn_Labels : gmap (list Z) (list Z);
  cn_FirstSeen : Z;
  cn_LastSeen : Z;
}.

Record ContainerEdge : Type := MkContainerEdge {
  ce_From : Z;
  ce_To : Z;
  ce_Type : list Z;
  ce_Details : list Z;
  ce_LastSeen : Z;
  ce_Count : Z;
}.

Record Graph : Type := MkGraph {
  nodes : gmap Z ContainerNode;
  edges : list ContainerEdge;
}.

Definition NewGraph : Graph := MkGraph ∅ [].

(** A string field that is only overwritten by a non-empty value. *)
Definition keep_if_empty (new old : list Z) : list Z := match new with [] => old | _ => new end.

Definition AddNode (node : ContainerNode) (g : Graph) : Graph :=
  let stored :=
    match nodes g !! cn_CgroupID node with
    | Some existing =>
        MkContainerNode (cn_CgroupID existing) (keep_if_empty (cn_Image node) (cn_Image existing))
          (cn_Namespace existing) (keep_if_empty (cn_Name node) (cn_Name existing))
          (cn_Labels existing) (cn_FirstSeen existing) (cn_LastSeen node)
    | None => node
    end in
  MkGraph (<[cn_CgroupID node := stored]> (nodes g)) (edges g).

Definition RemoveNode (cgroupID : Z) (g : Graph) : Graph :=
  MkGraph (delete cgroupID (nodes g))
    (filter (fun e => ce_From e ≠ cgroupID ∧ ce_To e ≠ cgroupID) (edges g)).

Definition same_edge (from to : Z) (edgeType : list Z) (e : ContainerEdge) : bool :=
  (ce_From e =? from) && (ce_To e =? to) && bool_decide (ce_Type e = edgeType).

(** The loop of [AddEdge]: the first edge of the same kind is updated, otherwise a
    new one is appended.  [Count] is an [int]. *)
Fixpoint add_edge (from to : Z) (edgeType details : list Z) (timestamp : Z) (es : list ContainerEdge)
    : list ContainerEdge :=
  match es with
  | [] => [MkContainerEdge from to edgeType details timestamp 1]
  | e :: es' =>
      if same_edge from to edgeType e then
        MkContainerEdge (ce_From e) (ce_To e) (ce_Type e) (keep_if_empty details (ce_Details e)) timestamp
          (to_s 64 (ce_Count e + 1)) :: es'
      else e :: add_edge from to edgeType details timestamp es'
  end.

Definition AddEdge (from to : Z) (edgeType details : list Z) (timestamp : Z) (g : Graph) : Graph :=
  MkGraph (nodes g) (add_edge from to edgeType details timestamp (edges g)).

Definition NodeCount (g : Graph) : Z := Z.of_nat (size (nodes g)).
Definition EdgeCount (g : Graph) : Z := Z.of_nat (length (edges g)).
Definition GetNode (cgroupID : Z) (g : Graph) : option ContainerNode := nodes g !! cgroupID.
Definition EdgesFrom (cgroupID : Z) (g : Graph) : list ContainerEdge :=
  filter (fun e => ce_From e = cgroupID) (edges g).
Definition EdgesTo (cgroupID : Z) (g : Graph) : list ContainerEdge :=
  filter (fun e => ce_To e = cgroupID) (edges g).

(** ** The searches *)

Record PathEdge : Type := MkPathEdge {
  pe_From : Z;
  pe_To : Z;
  pe_Type : list Z;
  pe_Details : list Z;
}.

Record ReachableNode : Type := MkReachableNode {
  rn_CgroupID : Z;
  rn_Image : list Z;
  rn_Name : list Z;
  rn_Hops : Z;
  rn_Path : list PathEdge;
}.

Record BlastRadius : Type := MkBlastRadius {
  br_Source : Z;
  br_Reachable : list ReachableNode;
  br_TotalHops : Z;
}.

Record bfsItem : Type := MkBfsItem { bi_cgroupID : Z; bi_hops : Z; bi_path : list PathEdge }.

(** The variables of a search. *)
Record bfs_state : Type := MkBfs {
  visited : gset Z;
  queue : list bfsItem;
  result : BlastRadius;
}.

(** The vertex at the other end of an edge: [Reach] looks at both ends, and
    [ReachDirected] at outgoing edges only. *)
Definition any_end (edge : ContainerEdge) (id : Z) : option Z :=
  if ce_From edge =? id then Some (ce_To edge)
  else if ce_To edge =? id then Some (ce_From edge)
  else None.
Definition outgoing_end (edge : ContainerEdge) (id : Z) : option Z :=
  if ce_From edge =? id then Some (ce_To edge) else None.

Definition new_reachable (g : Graph) (item : bfsItem) (edge : ContainerEdge) (neighbor : Z) : ReachableNode :=
  let newPath := bi_path item ++
    [MkPathEdge (bi_cgroupID item) neighbor (ce_Type edge) (ce_Details edge)] in
  match nodes g !! neighbor with
  | Some node => MkReachableNode neighbor (cn_Image node) (cn_Name node) (bi_hops item + 1) newPath
  | None => MkReachableNode neighbor [] [] (bi_hops item + 1) newPath
  end.

Definition item_of (r : ReachableNode) : bfsItem := MkBfsItem (rn_CgroupID r) (rn_Hops r) (rn_Path r).

(** One iteration of the loop over the edges. *)
Definition visit_edge (neighbor : ContainerEdge -> Z -> option Z) (g : Graph) (item : bfsItem)
    (s : bfs_state) (edge : ContainerEdge) : bfs_state :=
  match neighbor edge (bi_cgroupID item) with
  | None => s
  | Some v =>
      if bool_decide (v ∈ visited s) then s
      else
        let r := new_reachable g item edge v in
        MkBfs ({[v]} ∪ visited s) (queue s ++ [item_of r])
          (MkBlastRadius (br_Source (result s)) (br_Reachable (result s) ++ [r])
             (if br_TotalHops (result s) <? bi_hops item + 1 then bi_hops item + 1
              else br_TotalHops (result s)))
  end.

(** The loop over the queue; [None] when the fuel runs out. *)
Fixpoint bfs (neighbor : ContainerEdge -> Z -> option Z) (g : Graph) (maxHops : Z) (fuel : nat)
    (s : bfs_state) : option BlastRadius :=
  match queue s with
  | [] => Some (result s)
  | item :: rest =>
      match fuel with
      | O => None
      | S fuel' =>
          let s := MkBfs (visited s) rest (result s) in
          if (0 <? maxHops) && (maxHops <=? bi_hops item) then bfs neighbor g maxHops fuel' s
          else bfs neighbor g maxHops fuel' (fold_left (visit_edge neighbor g item) (edges g) s)
      end
  end.

Definition bfs_fuel (g : Graph) : nat := S (2 * length (edges g)).

Definition search (neighbor : ContainerEdge -> Z -> option Z) (g : Graph) (source maxHops : Z)
    : option BlastRadius :=
  match nodes g !! source with
  | None => Some (MkBlastRadius source [] 0)
  | Some _ =>
      bfs neighbor g maxHops (bfs_fuel g)
        (MkBfs {[source]} [MkBfsItem source 0 []] (MkBlastRadius source [] 0))
  end.

Definition Reach (g : Graph) (source maxHops : Z) : option BlastRadius := search any_end g source maxHops.
Definition ReachDirected (g : Graph) (source maxHops : Z) : option BlastRadius :=
  search outgoing_end g source maxHops.

Definition ImpactScore (g : Graph) (source : Z) : option float64 :=
  if NodeCount g <=? 1 then Some (float_of_int 0)
  else reach ← Reach g source 0;
    Some (fdiv (float_of_int (Z.of_nat (length (br_Reachable reach)))) (float_of_int (NodeCount g - 1))).

(** The loop of [MostConnected] over the edges, and the one over the map. *)
Definition bump (id : Z) (m : gmap Z Z) : gmap Z Z := <[id := default 0 (m !! id) + 1]> m.
Definition connections (es : list ContainerEdge) : gmap Z Z :=
  fold_left (fun m e => bump (ce_To e) (bump (ce_From e) m)) es ∅.
Definition most_connected (counts : list (Z * Z)) : Z * Z :=
  fold_left (fun best c => if best.2 <? c.2 then c else best) counts (0, 0).
(** [order] is the order in which the map is visited. *)
Definition MostConnected (order : list (Z * Z) -> list (Z * Z)) (g : Graph) : Z * Z :=
  most_connected (order (map_to_list (connections (edges g)))).

(** ** What a search promises

    [adjacent] is one hop; [at_distance] is the length of a shortest walk; [is_path]
    are the lists of path edges that are walks of the graph. *)

Definition adjacent (neighbor : ContainerEdge -> Z -> option Z) (g : Graph) (x y : Z) : Prop :=
  ∃ e, e ∈ edges g ∧ neighbor e x = Some y.

Definition at_distance (R : relation Z) (source y : Z) (h : nat) : Prop :=
  nsteps R h source y ∧ ∀ k, (k < h)%nat -> ~ nsteps R k source y.

Inductive is_path (neighbor : ContainerEdge -> Z -> option Z) (g : Graph) (source : Z)
    : list PathEdge -> Z -> Prop :=
| path_nil : is_path neighbor g source [] source
| path_snoc p x e y :
    is_path neighbor g source p x -> e ∈ edges g -> neighbor e x = Some y ->
    is_path neighbor g source (p ++ [MkPathEdge x y (ce_Type e) (ce_Details e)]) y.

(** What the report says of a container that is not registered: nothing. *)
Definition describes (g : Graph) (r : ReachableNode) : Prop :=
  (rn_Image r, rn_Name r) =
    match nodes g !! rn_CgroupID r with Some n => (cn_Image n, cn_Name n) | None => ([], []) end.

Definition within (maxHops h : Z) : Prop := maxHops <= 0 ∨ h <= maxHops.

Record search_spec (neighbor : ContainerEdge -> Z -> option Z) (g : Graph) (source maxHops : Z)
    (b : BlastRadius) : Prop := {
  sp_source : br_Source b = source;
  sp_exact : ∀ y h, (y, Z.of_nat h) ∈ ((fun r => (rn_CgroupID r, rn_Hops r)) <$> br_Reachable b) <->
    y ≠ source ∧ at_distance (adjacent neighbor g) source y h ∧ within maxHops (Z.of_nat h);
  sp_once : NoDup (rn_CgroupID <$> br_Reachable b);
  sp_sorted : StronglySorted Z.le (rn_Hops <$> br_Reachable b);
  sp_path : Forall (fun r => is_path neighbor g source (rn_Path r) (rn_CgroupID r) ∧
    Z.of_nat (length (rn_Path r)) = rn_Hops r ∧ describes g r) (br_Reachable b);
  sp_total : br_TotalHops b = foldl Z.max 0 (rn_Hops <$> br_Reachable b);
}.

Lemma is_path_nsteps neighbor g source p y :
  is_path neighbor g source p y -> nsteps (adjacent neighbor g) (length p) source y.
Proof.
  induction 1 as [|p x e y _ IH He Hn]; [constructor|].
  rewrite length_app, Nat.add_comm. eapply nsteps_r; [done|]. by exists e.
Qed.

Section search.
Context (neighbor : ContainerEdge -> Z -> option Z) (g : Graph) (source maxHops : Z).

Abbreviation R := (adjacent neighbor g).
Abbreviation path_to := (is_path neighbor g source).

(** The containers an iteration discovers through the edges [es]. *)
Definition discovers (item : bfsItem) (es : list ContainerEdge) (seen : gset Z) (new : list ReachableNode) : Prop :=
  Forall (fun r => ∃ e v, e ∈ es ∧ neighbor e (bi_cgroupID item) = Some v ∧ r = new_reachable g item e v) new ∧
  NoDup (rn_CgroupID <$> new) ∧ (∀ v, v ∈ rn_CgroupID <$> new -> v ∉ seen) ∧
  (∀ e v, e ∈ es -> neighbor e (bi_cgroupID item) = Some v -> v ∈ rn_CgroupID <$> new ∨ v ∈ seen).

Lemma new_reachable_fields item e v :
  rn_CgroupID (new_reachable g item e v) = v ∧ rn_Hops (new_reachable g item e v) = bi_hops item + 1 ∧
  rn_Path (new_reachable g item e v) =
    bi_path item ++ [MkPathEdge (bi_cgroupID item) v (ce_Type e) (ce_Details e)] ∧
  describes g (new_reachable g item e v).
Proof. unfold describes, new_reachable. by destruct (nodes g !! v) eqn:Hn; simpl; rewrite Hn. Qed.

Lemma visit_edges item es s :
  ∃ new, discovers item es (visited s) new ∧
    fold_left (visit_edge neighbor g item) es s =
      MkBfs (list_to_set (rn_CgroupID <$> new) ∪ visited s) (queue s ++ (item_of <$> new))
        (MkBlastRadius (br_Source (result s)) (br_Reachable (result s) ++ new)
           (foldl Z.max (br_TotalHops (result s)) (rn_Hops <$> new))).
Proof.
  revert s. induction es as [|e es IH]; intros s; simpl.
  { exists []. destruct s as [V q []]. simpl. rewrite !app_nil_r. split; [|f_equal; set_solver].
    split_and!; [constructor|constructor|set_solver|set_solver]. }
  destruct (neighbor e (bi_cgroupID item)) as [v|] eqn:Hn.
  2: { destruct (IH s) as (new & (Hf & Hnd & Hd & Hc) & Hs). exists new.
       replace (visit_edge neighbor g item s e) with s by (unfold visit_edge; by rewrite Hn).
       split; [|done]. split_and!; [|done|done|set_solver].
       eapply Forall_impl; [done|]. set_solver. }
  destruct (decide (v ∈ visited s)) as [Hv|Hv].
  { destruct (IH s) as (new & (Hf & Hnd & Hd & Hc) & Hs). exists new.
    replace (visit_edge neighbor g item s e) with s
      by (unfold visit_edge; rewrite Hn; by rewrite bool_decide_eq_true_2).
    split; [|done]. split_and!; [|done|done|set_solver].
    eapply Forall_impl; [done|]. set_solver. }
  destruct (new_reachable_fields item e v) as (Hid & Hh & _).
  destruct (IH (visit_edge neighbor g item s e)) as (new & (Hf & Hnd & Hd & Hc) & ->).
  unfold visit_edge in *. rewrite Hn, bool_decide_eq_false_2 in * by done. cbn [visited queue result br_Source br_Reachable br_TotalHops] in *.
  exists (new_reachable g item e v :: new). rewrite !fmap_cons, Hid, Hh. split.
  - split_and!.
    + constructor; [|eapply Forall_impl; [done|]; set_solver]. exists e, v. set_solver.
    + rewrite fmap_cons, Hid. constructor; [|done]. intros Hin. apply Hd in Hin. set_solver.
    + rewrite fmap_cons, Hid. set_solver.
    + rewrite fmap_cons, Hid. set_solver.
  - simpl. rewrite <- !(assoc_L (++)). f_equal; [set_solver|]. f_equal. f_equal.
    destruct (_ <? _) eqn:Hlt; zbool; lia.
Qed.

(** The loop invariant: [past] are the items already taken from the queue. *)
Record bfs_inv (past : list bfsItem) (s : bfs_state) : Prop := {
  inv_seen : past ++ queue s = MkBfsItem source 0 [] :: (item_of <$> br_Reachable (result s));
  inv_nodup : NoDup (bi_cgroupID <$> past ++ queue s);
  inv_visited : ∀ v, v ∈ visited s <-> v ∈ bi_cgroupID <$> past ++ queue s;
  inv_path : ∀ i, i ∈ past ++ queue s ->
    path_to (bi_path i) (bi_cgroupID i) ∧ Z.of_nat (length (bi_path i)) = bi_hops i;
  inv_within : ∀ i, i ∈ past ++ queue s -> within maxHops (bi_hops i);
  inv_sorted : StronglySorted Z.le (bi_hops <$> past ++ queue s);
  inv_near : ∀ i rest j, queue s = i :: rest -> j ∈ past ++ queue s -> bi_hops j <= bi_hops i + 1;
  inv_past : ∀ i y, i ∈ past -> within maxHops (bi_hops i + 1) -> R (bi_cgroupID i) y ->
    ∃ j, j ∈ past ++ queue s ∧ bi_cgroupID j = y ∧ bi_hops j <= bi_hops i + 1;
  inv_source : br_Source (result s) = source;
  inv_info : Forall (describes g) (br_Reachable (result s));
  inv_total : br_TotalHops (result s) = foldl Z.max 0 (rn_Hops <$> br_Reachable (result s));
}.

Lemma sorted_constant h hs : Forall (eq h) hs -> StronglySorted Z.le hs.
Proof.
  induction 1 as [|h' hs <- Hall IH]; constructor; [done|]. eapply Forall_impl; [done|]. simpl. lia.
Qed.

(** The first item of a sorted queue has the fewest hops of it. *)
Lemma sorted_head past item rest i :
  StronglySorted Z.le (bi_hops <$> past ++ item :: rest) -> i ∈ rest -> bi_hops item <= bi_hops i.
Proof.
  rewrite fmap_app. intros [_ Hle]%StronglySorted_app_1_r%StronglySorted_inv Hi.
  rewrite Forall_forall in Hle. by apply Hle, list_elem_of_fmap_2.
Qed.

Lemma bfs_inv_init :
  bfs_inv [] (MkBfs {[source]} [MkBfsItem source 0 []] (MkBlastRadius source [] 0)).
Proof.
  split; simpl; try done.
  - apply NoDup_singleton.
  - set_solver.
  - intros i ->%list_elem_of_singleton. split; [constructor|done].
  - intros i ->%list_elem_of_singleton. unfold within. simpl. lia.
  - repeat constructor.
  - intros i rest j [= <- <-] ->%list_elem_of_singleton. simpl. lia.
  - by intros i y ?%not_elem_of_nil.
Qed.

Lemma bfs_inv_skip past item rest V b :
  bfs_inv past (MkBfs V (item :: rest) b) -> ~ within maxHops (bi_hops item + 1) ->
  bfs_inv (past ++ [item]) (MkBfs V rest b).
Proof.
  intros [] Hcut; simpl in *. split; simpl; rewrite <- ?(assoc_L (++)); try done.
  - intros i rest' j -> Hj. transitivity (bi_hops item + 1); [by eapply inv_near0|].
    apply Zplus_le_compat_r. eapply sorted_head; [done|]. set_solver.
  - intros i y [Hi| ->%list_elem_of_singleton]%elem_of_app; [by apply inv_past0|done].
Qed.

(** What the discovered containers look like to the queue. *)
Lemma discovered_items item es seen new i :
  discovers item es seen new -> i ∈ item_of <$> new -> es ⊆ edges g -> path_to (bi_path item) (bi_cgroupID item) ->
  bi_hops i = bi_hops item + 1 ∧ path_to (bi_path i) (bi_cgroupID i) ∧
  length (bi_path i) = S (length (bi_path item)).
Proof.
  intros (Hf & _) (r & -> & Hr)%list_elem_of_fmap Hes Hp. rewrite Forall_forall in Hf.
  destruct (Hf _ Hr) as (e & v & He & Hn & ->).
  destruct (new_reachable_fields item e v) as (Hid & Hh & Hpath & _).
  unfold item_of. simpl. rewrite Hid, Hh, Hpath. split_and!; [done| |rewrite length_app; simpl; lia].
  econstructor; [done|by apply Hes|done].
Qed.

Lemma bfs_inv_expand past item rest V b new :
  bfs_inv past (MkBfs V (item :: rest) b) -> within maxHops (bi_hops item + 1) ->
  discovers item (edges g) V new ->
  bfs_inv (past ++ [item])
    (MkBfs (list_to_set (rn_CgroupID <$> new) ∪ V) (rest ++ (item_of <$> new))
       (MkBlastRadius (br_Source b) (br_Reachable b ++ new) (foldl Z.max (br_TotalHops b) (rn_Hops <$> new)))).
Proof.
  intros [] Hin Hd; simpl in *.
  assert (Hids : bi_cgroupID <$> (item_of <$> new) = rn_CgroupID <$> new)
    by (rewrite <- list_fmap_compose; by apply list_fmap_ext).
  destruct (inv_path0 item) as [Hpath Hlen]; [set_solver|].
  pose proof (fun i Hi => discovered_items _ _ _ _ i Hd Hi (reflexivity _) Hpath) as Hnew.
  assert (Hnear : ∀ j, j ∈ past ++ item :: rest -> bi_hops j <= bi_hops item + 1) by (intros; by eapply inv_near0).
  destruct Hd as (Hf & Hnd & Hdis & Hcl).
  assert (Happ : (past ++ [item]) ++ rest ++ (item_of <$> new) = (past ++ item :: rest) ++ (item_of <$> new))
    by (by rewrite <- !(assoc_L (++))).
  split; simpl; rewrite ?Happ.
  - rewrite inv_seen0. simpl. by rewrite fmap_app.
  - rewrite fmap_app, Hids. apply NoDup_app. split_and!; [done| |done].
    intros v Hv Hv'. apply Hdis in Hv'. apply Hv'. by apply inv_visited0.
  - intros v. rewrite elem_of_union, elem_of_list_to_set, inv_visited0, (fmap_app _ (past ++ item :: rest)), Hids, elem_of_app. tauto.
  - intros i [Hi|Hi]%elem_of_app; [by apply inv_path0|]. destruct (Hnew i Hi) as (-> & ? & ->).
    split; [done|]. lia.
  - intros i [Hi|Hi]%elem_of_app; [by apply inv_within0|]. by destruct (Hnew i Hi) as (-> & _).
  - rewrite fmap_app. apply StronglySorted_app_2; [|done|].
    + intros h h' (j & -> & Hj)%list_elem_of_fmap (i & -> & Hi)%list_elem_of_fmap.
      destruct (Hnew i Hi) as (-> & _). by apply Hnear.
    + eapply sorted_constant, Forall_fmap, Forall_forall. intros i Hi. by destruct (Hnew i Hi) as (? & _).
  - intros i rest' j Hq Hj.
    assert (bi_hops item <= bi_hops i).
    { assert (Hi : i ∈ rest ++ (item_of <$> new)) by (rewrite Hq; set_solver).
      apply elem_of_app in Hi as [Hi|Hi]; [|destruct (Hnew i Hi) as (-> & _); lia].
      by eapply sorted_head. }
    apply elem_of_app in Hj as [Hj%Hnear|Hj]; [lia|]. destruct (Hnew j Hj) as (-> & _). lia.
  - intros i y [Hi| ->%list_elem_of_singleton]%elem_of_app Hw Hr.
    + destruct (inv_past0 i y Hi Hw Hr) as (j & Hj & ?). exists j. split; [|done]. apply elem_of_app. by left.
    + destruct Hr as (e & He & Hn).
      assert (Hy : y ∈ bi_cgroupID <$> (past ++ item :: rest) ++ (item_of <$> new)).
      { rewrite fmap_app, Hids, elem_of_app. destruct (Hcl e y He Hn) as [|Hv%inv_visited0]; tauto. }
      apply list_elem_of_fmap in Hy as (j & -> & Hj). exists j. split_and!; [done|done|].
      apply elem_of_app in Hj as [Hj%Hnear|Hj]; [done|]. destruct (Hnew j Hj) as (-> & _). lia.
  - done.
  - apply Forall_app. split; [done|]. eapply Forall_impl; [done|].
    intros r (e & v & _ & _ & ->). by destruct (new_reachable_fields item e v) as (_ & _ & _ & ?).
  - by rewrite fmap_app, foldl_app, inv_total0.
Qed.

(** *** Termination: every iteration takes an item, and an item is queued only for an
    end of an edge that was not visited before. *)

Definition endpoints : gset Z := list_to_set ((ce_From <$> edges g) ++ (ce_To <$> edges g)).
Definition bfs_measure (s : bfs_state) : nat := (length (queue s) + size (endpoints ∖ visited s))%nat.

Context (neighbor_end : ∀ e x v, neighbor e x = Some v -> v = ce_From e ∨ v = ce_To e).

Lemma size_list_to_set_le (l : list Z) : (size (list_to_set l : gset Z) <= length l)%nat.
Proof.
  induction l as [|x l IH]; [apply Nat.eq_le_incl, (size_empty (C:=gset Z))|]. simpl.
  pose proof (size_union_alt {[x]} (list_to_set l : gset Z)).
  assert (size ((list_to_set l : gset Z) ∖ {[x]}) <= size (list_to_set l : gset Z))%nat
    by (apply subseteq_size; set_solver).
  rewrite size_singleton in *. lia.
Qed.

Lemma discovers_measure item rest V new :
  discovers item (edges g) V new ->
  (length (rest ++ (item_of <$> new)) + size (endpoints ∖ (list_to_set (rn_CgroupID <$> new) ∪ V)) =
    length rest + size (endpoints ∖ V))%nat.
Proof.
  intros (Hf & Hnd & Hdis & _). rewrite length_app, length_fmap.
  assert (Hsub : ∀ v, v ∈ rn_CgroupID <$> new -> v ∈ endpoints).
  { intros v (r & -> & Hr)%list_elem_of_fmap. rewrite Forall_forall in Hf.
    destruct (Hf r Hr) as (e & v & He & Hn & ->).
    destruct (new_reachable_fields item e v) as (-> & _). unfold endpoints.
    rewrite elem_of_list_to_set, elem_of_app, !list_elem_of_fmap.
    destruct (neighbor_end e _ _ Hn); eauto. }
  replace (endpoints ∖ V)
    with (list_to_set (rn_CgroupID <$> new) ∪ endpoints ∖ (list_to_set (rn_CgroupID <$> new) ∪ V)).
  2: { apply set_eq. intros v. rewrite !elem_of_union, !elem_of_difference, elem_of_union, elem_of_list_to_set.
       destruct (decide (v ∈ rn_CgroupID <$> new)); naive_solver. }
  pose proof (size_union (list_to_set (rn_CgroupID <$> new) : gset Z)
    (endpoints ∖ (list_to_set (rn_CgroupID <$> new) ∪ V))) as ->; [|set_solver].
  pose proof (size_list_to_set (C:=gset Z) (rn_CgroupID <$> new) Hnd) as ->. rewrite length_fmap. lia.
Qed.

Lemma bfs_ends fuel past s :
  bfs_inv past s -> (bfs_measure s <= fuel)%nat ->
  ∃ b past' V, bfs neighbor g maxHops fuel s = Some b ∧ bfs_inv past' (MkBfs V [] b).
Proof.
  revert past s. induction fuel as [|fuel IH]; intros past [V [|item rest] b] Hinv Hm; unfold bfs_measure in Hm; simpl in *.
  1,3: by eexists _, _, _. { lia. }
  destruct ((0 <? maxHops) && (maxHops <=? bi_hops item)) eqn:Hcut.
  - eapply IH; [apply bfs_inv_skip; [done|]|unfold bfs_measure; simpl; lia].
    apply andb_true_iff in Hcut as [? ?]. zbool. unfold within. lia.
  - destruct (visit_edges item (edges g) (MkBfs V rest b)) as (new & Hd & ->). simpl in *.
    eapply IH; [apply bfs_inv_expand; [done| |done]|].
    + apply andb_false_iff in Hcut as [|]; zbool; unfold within; lia.
    + unfold bfs_measure. simpl. rewrite (discovers_measure item) by done. lia.
Qed.

(** *** Completeness, when the queue is empty *)

Lemma bfs_complete past V b n y :
  bfs_inv past (MkBfs V [] b) -> nsteps R n source y -> within maxHops (Z.of_nat n) ->
  ∃ i, i ∈ past ∧ bi_cgroupID i = y ∧ bi_hops i <= Z.of_nat n.
Proof.
  intros Hinv. pose proof (inv_seen _ _ Hinv) as Hseen. simpl in Hseen. rewrite app_nil_r in Hseen.
  revert y. induction n as [|n IH]; intros y Hst Hw.
  { assert (y = source) as -> by (by inversion Hst). exists (MkBfsItem source 0 []). rewrite Hseen.
    split_and!; [by left|done|done]. }
  apply nsteps_inv_r in Hst as (x & Hx & Hxy).
  destruct (IH x Hx) as (i & Hi & <- & Hle); [unfold within in *; lia|].
  destruct (inv_past _ _ Hinv i y Hi) as (j & Hj & <- & Hjle); [unfold within in *; lia|done|].
  simpl in Hj. rewrite app_nil_r in Hj. exists j. split_and!; [done|done|lia].
Qed.

(** The number of hops of an item is the distance of its container. *)
Lemma bfs_distance past V b i h :
  bfs_inv past (MkBfs V [] b) -> i ∈ past -> bi_hops i = Z.of_nat h ->
  at_distance R source (bi_cgroupID i) h.
Proof.
  intros Hinv Hi Hh.
  pose proof (inv_nodup _ _ Hinv) as Hnd. pose proof (inv_within _ _ Hinv i) as Hw.
  destruct (inv_path _ _ Hinv i) as [Hp Hlen]; simpl in *; rewrite app_nil_r in *; [done|].
  assert (h = length (bi_path i)) as -> by lia. split; [by apply is_path_nsteps|].
  intros k Hk Hst. destruct (bfs_complete _ _ _ k _ Hinv Hst) as (j & Hj & Heq & Hle).
  { specialize (Hw Hi). unfold within in *. lia. }
  assert (j = i) as ->; [|lia].
  apply list_elem_of_lookup in Hi as [a Ha]. apply list_elem_of_lookup in Hj as [c Hc].
  assert (a = c) as ->; [|congruence].
  eapply NoDup_lookup; [done| |]; rewrite list_lookup_fmap; [by rewrite Ha|by rewrite Hc; simpl; rewrite Heq].
Qed.

Lemma bfs_inv_spec past V b :
  bfs_inv past (MkBfs V [] b) -> search_spec neighbor g source maxHops b.
Proof.
  intros Hinv. pose proof (inv_seen _ _ Hinv) as Hseen. pose proof (inv_nodup _ _ Hinv) as Hnd.
  pose proof (inv_sorted _ _ Hinv) as Hso. pose proof (inv_path _ _ Hinv) as Hp.
  pose proof (inv_within _ _ Hinv) as Hw. simpl in *. rewrite app_nil_r in *. subst past. simpl in *.
  rewrite <- !list_fmap_compose in Hnd, Hso. apply NoDup_cons in Hnd as [Hnin Hnd].
  apply StronglySorted_inv in Hso as [Hso _].
  split; [by destruct Hinv| |done|done| |by destruct Hinv].
  - intros y h. rewrite list_elem_of_fmap. split.
    + intros (r & [= -> Hh] & Hr).
      assert (Hin : item_of r ∈ MkBfsItem source 0 [] :: (item_of <$> br_Reachable b)) by set_solver.
      split_and!.
      * intros Heq. apply Hnin. rewrite <- Heq. apply list_elem_of_fmap. by exists r.
      * by apply (bfs_distance _ _ _ (item_of r) h Hinv).
      * rewrite Hh. by apply (Hw (item_of r)).
    + intros (Hne & [Hst Hmin] & Hwi). destruct (bfs_complete _ _ _ h y Hinv Hst Hwi) as (i & Hi & <- & Hle).
      destruct (Hp i Hi) as [Hpi Hlen]. apply elem_of_cons in Hi as [->|Hi]; [done|].
      apply list_elem_of_fmap in Hi as (r & -> & Hr). exists r. split; [|done]. f_equal. simpl in *.
      destruct (decide (length (rn_Path r) < h)%nat) as [Hlt|]; [|lia].
      destruct (Hmin _ Hlt). by apply (is_path_nsteps neighbor g source (rn_Path r)).
  - apply Forall_forall. intros r Hr.
    destruct (Hp (item_of r)) as [? ?]; [set_solver|]. split_and!; [done|done|].
    pose proof (inv_info _ _ Hinv) as Hi. rewrite Forall_forall in Hi. by apply Hi.
Qed.

Lemma search_ends :
  is_Some (nodes g !! source) -> ∃ b, search neighbor g source maxHops = Some b ∧ search_spec neighbor g source maxHops b.
Proof.
  intros [n Hn]. unfold search. rewrite Hn.
  destruct (bfs_ends (bfs_fuel g) [] _ bfs_inv_init) as (b & past' & V & -> & Hinv).
  { unfold bfs_measure, bfs_fuel. simpl.
    assert (size (endpoints ∖ {[source]}) <= size endpoints)%nat by (apply subseteq_size; set_solver).
    pose proof (size_list_to_set_le ((ce_From <$> edges g) ++ (ce_To <$> edges g))) as Hle.
    rewrite length_app, !length_fmap in Hle. fold endpoints in Hle. lia. }
  exists b. split; [done|]. by eapply bfs_inv_spec.
Qed.
End search.

(** ** The graph over a run *)

Inductive graph_op : Type :=
| OpAddNode (node : ContainerNode)
| OpRemoveNode (cgroupID : Z)
| OpAddEdge (from to : Z) (edgeType details : list Z) (timestamp : Z).

Definition graph_do (g : Graph) (op : graph_op) : Graph :=
  match op with
  | OpAddNode node => AddNode node g
  | OpRemoveNode id => RemoveNode id g
  | OpAddEdge from to ty details ts => AddEdge from to ty details ts g
  end.

Definition graph_run (ops : list graph_op) : Graph := fold_left graph_do ops NewGraph.

(** The specification: how often a relation was observed since one of its containers
    was last removed, and whether a container was registered since. *)
Definition edge_key (e : ContainerEdge) : Z * Z * list Z := (ce_From e, ce_To e, ce_Type e).

Definition observe (k : Z * Z * list Z) (n : nat) (op : graph_op) : nat :=
  match op with
  | OpAddNode _ => n
  | OpRemoveNode id => if (k.1.1 =? id) || (k.1.2 =? id) then O else n
  | OpAddEdge from to ty _ _ => if bool_decide (k = (from, to, ty)) then S n else n
  end.
Definition observed (ops : list graph_op) (k : Z * Z * list Z) : nat := fold_left (observe k) ops O.

Definition register (id : Z) (b : bool) (op : graph_op) : bool :=
  match op with
  | OpAddNode node => if cn_CgroupID node =? id then true else b
  | OpRemoveNode id' => if id =? id' then false else b
  | OpAddEdge _ _ _ _ _ => b
  end.
Definition registered (ops : list graph_op) (id : Z) : bool := fold_left (register id) ops false.

(** The [Count] of the first edge with key [k]. *)
Fixpoint count_of (k : Z * Z * list Z) (es : list ContainerEdge) : option Z :=
  match es with
  | [] => None
  | e :: es' => if decide (edge_key e = k) then Some (ce_Count e) else count_of k es'
  end.

Lemma same_edge_key from to ty e : same_edge from to ty e = bool_decide (edge_key e = (from, to, ty)).
Proof.
  unfold same_edge, edge_key. apply eq_true_iff_eq. rewrite !andb_true_iff, !bool_decide_eq_true, !Z.eqb_eq.
  naive_solver.
Qed.

Lemma count_of_add k from to ty d ts es :
  count_of k (add_edge from to ty d ts es) =
    if decide (k = (from, to, ty))
    then Some (match count_of k es with Some c => to_s 64 (c + 1) | None => 1 end) else count_of k es.
Proof.
  induction es as [|e es IH]; simpl.
  { unfold edge_key. simpl. repeat case_decide; naive_solver. }
  rewrite same_edge_key. case_bool_decide as He; simpl; rewrite ?IH; unfold edge_key in *; simpl;
    repeat case_decide; naive_solver.
Qed.

Lemma count_of_filter k id es :
  count_of k (filter (fun e => ce_From e ≠ id ∧ ce_To e ≠ id) es) =
    if (k.1.1 =? id) || (k.1.2 =? id) then None else count_of k es.
Proof.
  induction es as [|e es IH]; [by destruct (_ || _)|].
  rewrite filter_cons. destruct (decide (_ ∧ _)) as [[Hf Ht]|Hf]; simpl; rewrite IH.
  - case_decide as Hk; [|done]. subst k. simpl. by rewrite (proj2 (Z.eqb_neq _ _) Hf), (proj2 (Z.eqb_neq _ _) Ht).
  - destruct ((k.1.1 =? id) || (k.1.2 =? id)) eqn:Hb; [done|]. apply orb_false_iff in Hb as [? ?]. zbool.
    rewrite decide_False; [done|]. intros <-. by apply Hf.
Qed.

Lemma add_edge_keys k from to ty d ts es :
  k ∈ edge_key <$> add_edge from to ty d ts es -> k = (from, to, ty) ∨ k ∈ edge_key <$> es.
Proof.
  induction es as [|e es IH]; simpl; [intros ->%list_elem_of_singleton; by left|].
  destruct (same_edge from to ty e); rewrite !fmap_cons, !elem_of_cons; [by right|]. naive_solver.
Qed.

Lemma NoDup_add_edge from to ty d ts es :
  NoDup (edge_key <$> es) -> NoDup (edge_key <$> add_edge from to ty d ts es).
Proof.
  induction es as [|e es IH]; simpl; intros Hnd; [apply NoDup_singleton|].
  apply NoDup_cons in Hnd as [Hnin Hnd]. rewrite same_edge_key. case_bool_decide as He.
  { simpl. by constructor. }
  rewrite fmap_cons. constructor; [|by apply IH]. by intros [|]%add_edge_keys.
Qed.

Lemma graph_run_snoc ops op : graph_run (ops ++ [op]) = graph_do (graph_run ops) op.
Proof. apply fold_left_app. Qed.

Lemma count_exact ops k :
  count_of k (edges (graph_run ops)) =
    match observed ops k with O => None | n => Some (to_s 64 (Z.of_nat n)) end.
Proof.
  induction ops as [|op ops IH] using rev_ind; [done|].
  unfold observed. rewrite graph_run_snoc, fold_left_app. fold (observed ops k). simpl.
  destruct op as [node|id|from to ty d ts]; simpl; [done| |].
  - rewrite count_of_filter. by destruct (_ || _).
  - rewrite count_of_add, IH. case_decide as Hk; [rewrite bool_decide_eq_true_2 by done|by rewrite bool_decide_eq_false_2].
    f_equal. destruct (observed ops k); [done|apply to_s_of_nat_succ].
Qed.

Lemma keys_unique ops : NoDup (edge_key <$> edges (graph_run ops)).
Proof.
  induction ops as [|op ops IH] using rev_ind; [constructor|]. rewrite graph_run_snoc.
  destruct op; simpl; [done| |by apply NoDup_add_edge].
  eapply sublist_NoDup; [done|]. apply fmap_sublist, sublist_filter.
Qed.

Lemma registered_exact ops id :
  registered ops id = bool_decide (is_Some (nodes (graph_run ops) !! id)).
Proof.
  induction ops as [|op ops IH] using rev_ind; [done|].
  unfold registered. rewrite graph_run_snoc, fold_left_app. fold (registered ops id). simpl.
  destruct op as [node|id'|from to ty d ts]; simpl; [| |done].
  - destruct (Z.eqb_spec (cn_CgroupID node) id) as [->|Hne].
    + by rewrite lookup_insert_eq.
    + by rewrite lookup_insert_ne.
  - destruct (Z.eqb_spec id id') as [->|Hne]; [by rewrite lookup_delete_eq|by rewrite lookup_delete_ne].
Qed.

Lemma any_end_end e x v : any_end e x = Some v -> v = ce_From e ∨ v = ce_To e.
Proof. unfold any_end. repeat case_match; naive_solver. Qed.

Lemma outgoing_end_end e x v : outgoing_end e x = Some v -> v = ce_From e ∨ v = ce_To e.
Proof. unfold outgoing_end. repeat case_match; naive_solver. Qed.

Lemma any_end_adjacent g x y :
  adjacent any_end g x y <-> adjacent outgoing_end g x y ∨ adjacent outgoing_end g y x.
Proof.
  unfold adjacent, any_end, outgoing_end. split.
  - intros (e & He & Hn). repeat case_match; zbool; simplify_eq; [left|right]; exists e; (split; [done|]);
      by rewrite Z.eqb_refl.
  - intros [(e & He & Hn)|(e & He & Hn)]; exists e; (split; [done|]); repeat case_match; zbool; congruence.
Qed.

(** C15: from a registered source the breadth-first searches of the blast radius analysis return, and report
    exactly the containers within the hop limit (0 or less for none), each once and in
    order of distance, with the length of a shortest walk as hops, a walk of that length
    over existing relations as path, and the name and image that are registered; the
    total is the largest number of hops.  [Reach] walks relations in both directions,
    [ReachDirected] only forwards. *)
Theorem blast_radius_exact g source maxHops :
  is_Some (nodes g !! source) ->
  (∃ b, Reach g source maxHops = Some b ∧ search_spec any_end g source maxHops b) ∧
  (∃ b, ReachDirected g source maxHops = Some b ∧ search_spec outgoing_end g source maxHops b) ∧
  (∀ x y, adjacent any_end g x y <-> adjacent outgoing_end g x y ∨ adjacent outgoing_end g y x).
Proof.
  intros Hs. split_and!.
  - by apply search_ends; [apply any_end_end|].
  - by apply search_ends; [apply outgoing_end_end|].
  - apply any_end_adjacent.
Qed.

(** ** Consequences *)

Lemma spec_reported neighbor g source maxHops b r :
  search_spec neighbor g source maxHops b -> r ∈ br_Reachable b ->
  rn_CgroupID r ≠ source ∧ is_path neighbor g source (rn_Path r) (rn_CgroupID r).
Proof.
  intros Hsp Hr. pose proof (sp_path _ _ _ _ _ Hsp) as Hp. rewrite Forall_forall in Hp.
  destruct (Hp r Hr) as (Hpath & Hlen & _). split; [|done].
  apply (sp_exact _ _ _ _ _ Hsp _ (length (rn_Path r))), list_elem_of_fmap.
  exists r. by rewrite Hlen.
Qed.

Lemma spec_not_mentioned neighbor g source maxHops b id :
  (∀ e x v, neighbor e x = Some v -> v = ce_From e ∨ v = ce_To e) ->
  search_spec neighbor g source maxHops b -> id ∈ rn_CgroupID <$> br_Reachable b -> id ∈ endpoints g.
Proof.
  intros Hend Hsp (r & -> & Hr)%list_elem_of_fmap. destruct (spec_reported _ _ _ _ _ _ Hsp Hr) as [Hne Hpath].
  unfold endpoints. rewrite elem_of_list_to_set, elem_of_app, !list_elem_of_fmap.
  inversion Hpath as [Hnil Heq|p x e y _ He Hn Hpe Heq].
  - done.
  - destruct (Hend _ _ _ Hn); eauto.
Qed.

(** When every relation is between registered containers, at most all of them but the
    source are reported. *)
Lemma reach_count neighbor g source maxHops b :
  (∀ e x v, neighbor e x = Some v -> v = ce_From e ∨ v = ce_To e) -> is_Some (nodes g !! source) ->
  search_spec neighbor g source maxHops b -> endpoints g ⊆ dom (nodes g) ->
  Z.of_nat (length (br_Reachable b)) <= NodeCount g - 1.
Proof.
  intros Hend Hs Hsp Hcl. unfold NodeCount.
  pose proof (size_list_to_set (C:=gset Z) _ (sp_once _ _ _ _ _ Hsp)) as Hsz. rewrite length_fmap in Hsz.
  assert (Hsub : list_to_set (rn_CgroupID <$> br_Reachable b) ∪ {[source]} ⊆ dom (nodes g)).
  { intros id. rewrite elem_of_union, elem_of_list_to_set, elem_of_singleton. intros [Hid| ->]; [|by apply elem_of_dom].
    by eapply Hcl, spec_not_mentioned. }
  apply subseteq_size in Hsub. rewrite size_dom in Hsub.
  rewrite size_union, size_singleton in Hsub; [lia|].
  intros id. rewrite elem_of_list_to_set, elem_of_singleton. intros (r & -> & Hr)%list_elem_of_fmap Heq.
  by apply (spec_reported _ _ _ _ _ _ Hsp Hr).
Qed.

(** After any sequence of operations the graph is what was observed: a relation is
    stored once, with the number of its observations since one of its two containers
    was last removed as count (wrapping at 64 bits), and not at all when there is none;
    a container is registered exactly when it was added after its last removal; and a
    removed container is reported by no search until it is seen in a relation again. *)
Lemma graph_run_exact ops :
  (∀ k, count_of k (edges (graph_run ops)) =
     match observed ops k with O => None | n => Some (to_s 64 (Z.of_nat n)) end) ∧
  NoDup (edge_key <$> edges (graph_run ops)) ∧
  (∀ id, registered ops id = bool_decide (is_Some (GetNode id (graph_run ops)))) ∧
  (∀ id source maxHops b, Reach (graph_run (ops ++ [OpRemoveNode id])) source maxHops = Some b ->
     id ∉ rn_CgroupID <$> br_Reachable b).
Proof.
  split_and!; [apply count_exact|apply keys_unique|apply registered_exact|].
  intros id source maxHops b. rewrite graph_run_snoc. simpl. set (g := RemoveNode id (graph_run ops)).
  destruct (nodes g !! source) as [n|] eqn:Hn.
  - destruct (search_ends any_end g source maxHops any_end_end) as (b' & Hb & Hsp); [by exists n|].
    unfold Reach. rewrite Hb. intros [= <-] Hid. eapply spec_not_mentioned in Hid; [|apply any_end_end|done].
    unfold endpoints in Hid. rewrite elem_of_list_to_set, elem_of_app, !list_elem_of_fmap in Hid.
    unfold g in Hid. simpl in Hid.
    destruct Hid as [(e & -> & [[] ?]%list_elem_of_filter)|(e & -> & [[] ?]%list_elem_of_filter)]; done.
  - unfold Reach, search. rewrite Hn. intros [= <-]. simpl. set_solver.
Qed.

(** *** The most connected container *)

Definition degree (es : list ContainerEdge) (id : Z) : Z :=
  foldr (fun e n => (if ce_From e =? id then 1 else 0) + (if ce_To e =? id then 1 else 0) + n) 0 es.

Lemma bump_lookup id id' m :
  default 0 (bump id m !! id') = default 0 (m !! id') + (if id =? id' then 1 else 0).
Proof.
  unfold bump. destruct (Z.eqb_spec id id') as [->|]; [by rewrite lookup_insert_eq|].
  rewrite lookup_insert_ne by done. lia.
Qed.

Lemma connections_degree es id : default 0 (connections es !! id) = degree es id.
Proof.
  unfold connections. rewrite <- (Z.add_0_l (degree es id)).
  change 0 with (default 0 ((∅ : gmap Z Z) !! id)) at 2. generalize (∅ : gmap Z Z) as m.
  induction es as [|e es IH]; intros m; simpl; [lia|]. rewrite IH, !bump_lookup. lia.
Qed.

Lemma degree_nonneg es id : 0 <= degree es id.
Proof. induction es; simpl; repeat case_match; lia. Qed.

Lemma most_connected_spec counts :
  Forall (fun c => c.2 <= (most_connected counts).2) counts ∧
  (most_connected counts = (0, 0) ∨ most_connected counts ∈ counts).
Proof.
  unfold most_connected. generalize (0, 0) as best. induction counts as [|c counts IH]; intros best; simpl.
  { split; [constructor|by left]. }
  assert (Hmono : ∀ l b, b.2 <= (fold_left (fun best c : Z * Z => if best.2 <? c.2 then c else best) l b).2).
  { clear. induction l as [|c l IH]; intros b; simpl; [done|]. pose proof (IH (if b.2 <? c.2 then c else b)).
    destruct (b.2 <? c.2) eqn:?; zbool; lia. }
  destruct (IH (if best.2 <? c.2 then c else best)) as [Hall Hin].
  pose proof (Hmono counts (if best.2 <? c.2 then c else best)) as Hc. split.
  - constructor; [|done]. destruct (best.2 <? c.2) eqn:?; zbool; lia.
  - destruct Hin as [Heq|Hin]; [|right; by right]. rewrite Heq. destruct (best.2 <? c.2); [right; by left|by left].
Qed.

(** Whatever order the map is visited in, a container with the most relation ends and
    their number are returned; with no relation, 0 and 0. *)
Lemma most_connected_max order g :
  (∀ l, order l ≡ₚ l) ->
  let (id, n) := MostConnected order g in
  n = degree (edges g) id ∧ ∀ id', degree (edges g) id' <= n.
Proof.
  intros Hperm. unfold MostConnected. set (m := connections (edges g)).
  destruct (most_connected_spec (order (map_to_list m))) as [Hall Hin].
  destruct (most_connected _) as [id n]. simpl in *. rewrite Forall_forall in Hall.
  assert (Hmax : ∀ id', degree (edges g) id' <= n ∨ degree (edges g) id' = 0).
  { intros id'. rewrite <- connections_degree. fold m. destruct (m !! id') as [c|] eqn:Hc; [left|by right].
    apply (Hall (id', c)). rewrite Hperm. by apply elem_of_map_to_list. }
  destruct Hin as [[= -> ->]|Hin].
  - split; [|intros id'; destruct (Hmax id'); lia]. pose proof (degree_nonneg (edges g) 0).
    destruct (Hmax 0); lia.
  - rewrite Hperm, elem_of_map_to_list in Hin.
    assert (Hn : n = degree (edges g) id) by (rewrite <- connections_degree; fold m; by rewrite Hin).
    split; [done|]. pose proof (degree_nonneg (edges g) id).
    intros id'. destruct (Hmax id'); lia.
Qed.

(** ** A concrete graph: a frontend talks to an application, which shares a volume with
    a backup job and talks to a database that was never registered. *)

Definition demo_node (id : Z) (name : string) : ContainerNode :=
  MkContainerNode id (bstr "app:1") (bstr "default") (bstr name) ∅ 100 100.

Definition demo_graph_ops : list graph_op :=
  [OpAddNode (demo_node 1 "frontend"); OpAddNode (demo_node 2 "app"); OpAddNode (demo_node 3 "backup");
   OpAddEdge 1 2 EdgeNetwork (bstr "tcp/8080") 110; OpAddEdge 3 2 EdgeSharedVolume (bstr "/data") 111;
   OpAddEdge 2 4 EdgeNetwork (bstr "tcp/5432") 112; OpAddEdge 1 2 EdgeNetwork [] 113].

Definition demo_graph : Graph := graph_run demo_graph_ops.

Definition reported (b : option BlastRadius) : list (Z * Z) :=
  match b with Some b => (fun r => (rn_CgroupID r, rn_Hops r)) <$> br_Reachable b | None => [] end.

Example demo_reach :
  reported (Reach demo_graph 1 0) = [(2, 1); (3, 2); (4, 2)] ∧ reported (Reach demo_graph 1 1) = [(2, 1)] ∧
  reported (ReachDirected demo_graph 1 0) = [(2, 1); (4, 2)] ∧ reported (Reach demo_graph 4 0) = [] ∧
  MostConnected (fun l => l) demo_graph = (2, 3).
Proof. split_and!; vm_compute; reflexivity. Qed.

Lemma blast_radius_exact_witness :
  is_Some (nodes demo_graph !! 1) ∧
  ∃ b, Reach demo_graph 1 0 = Some b ∧ search_spec any_end demo_graph 1 0 b.
Proof.
  assert (Hs : is_Some (nodes demo_graph !! 1)) by (vm_compute; by eexists).
  destruct (blast_radius_exact demo_graph 1 0 Hs) as [Hb _]. by split.
Defined.

(** A score that is meant as a fraction exceeds one, because relations may mention
    containers that are not registered, which are counted only above the line. *)
Example impact_score_exceeds_one :
  option_map (flt (float_of_int 1)) (ImpactScore demo_graph 1) = Some true.
Proof. vm_compute. reflexivity. Qed.
