(* ===== verification/PolicyMerge.v ===== *)
(** internal/policymerge: merging policy documents (merge.go, types.go) and the check
    of a merged document (validate.go).

    A document is [rawPolicy], the same fields that the compiler decodes.  A value of
    type []string is a list of YAML strings, and the nil slice is the empty list.  The
    JSON encoder behind the fingerprint of a rule is an argument, [None] where it fails;
    so is the order in which the map of [applyIntersection] is visited.  The search of
    [uniqueName] for a free name is unbounded in the source: it is given one more
    iteration than there are names, [Block] stands for running out of them, and
    [Merge_returns] shows that this never happens. *)

From stdpp Require Import sorting.
From S2P Require Import Prelude GoApi GoFmt PolicySchema.

Import compiler.

(** ** types.go *)

Abbreviation PolicyYAML := rawPolicy.
Abbreviation RuleYAML := rawRule.

Record MergeOptions : Type := MkMergeOptions {
  mo_Name : string;
  mo_Description : string;
  mo_Strategy : string;
  mo_Annotate : bool;
  mo_Dedup : bool;
}.

Record MergeResult : Type := MkMergeResult {
  mr_Policy : PolicyYAML;
  mr_TotalRules : Z;
  mr_DedupedRules : Z;
  mr_Sources : Z;
}.

Record sourcedRule : Type := MkSourcedRule { sr_rule : RuleYAML; sr_source : string }.

Definition with_Name (name : string) (r : RuleYAML) : RuleYAML :=
  MkRawRule name (rr_Event r) (rr_Conditions r) (rr_Action r) (rr_Mode r) (rr_Reason r).
Definition with_Action (action : string) (r : RuleYAML) : RuleYAML :=
  MkRawRule (rr_Name r) (rr_Event r) (rr_Conditions r) action (rr_Mode r) (rr_Reason r).
Definition with_Reason (reason : string) (r : RuleYAML) : RuleYAML :=
  MkRawRule (rr_Name r) (rr_Event r) (rr_Conditions r) (rr_Action r) (rr_Mode r) reason.

(** ** Variables *)

#[global] Instance string_leb_dec : RelDecision (fun a b : string => String.leb a b = true) :=
  fun a b => decide (String.leb a b = true).

(** The strings of a list; nothing of other values. *)
Definition toStringSlice (v : yaml) : list string :=
  match v with
  | YList l => omap (fun item => match item with YStr s => Some s | _ => None end) l
  | _ => []
  end.

(** The loop of [dedupStrings] keeps the first occurrence; sort.Strings follows. *)
Fixpoint distinct (seen : gset string) (items : list string) : list string :=
  match items with
  | [] => []
  | item :: items' =>
      if bool_decide (item ∈ seen) then distinct seen items'
      else item :: distinct ({[item]} ∪ seen) items'
  end.
Definition dedupStrings (items : list string) : list string :=
  merge_sort (fun a b => String.leb a b = true) (distinct ∅ items).

Definition strings (l : list string) : yaml := YList (YStr <$> l).

Definition mergeVariableValues (a b : yaml) : yaml :=
  match toStringSlice a, toStringSlice b with
  | [], [] => b
  | aSlice, bSlice => strings (dedupStrings (aSlice ++ bSlice))
  end.

Definition dedupVariable (v : yaml) : yaml :=
  match toStringSlice v with [] => v | sl => strings (dedupStrings sl) end.

(** [merged.Variables[k] = v], with the merging of an existing value. *)
Fixpoint add_variable (k : string) (v : yaml) (variables : list (string * yaml)) : list (string * yaml) :=
  match variables with
  | [] => [(k, v)]
  | (k', existing) :: variables' =>
      if String.eqb k' k then (k', mergeVariableValues existing v) :: variables'
      else (k', existing) :: add_variable k v variables'
  end.

Definition merge_variables (policies : list PolicyYAML) : list (string * yaml) :=
  fold_left (fun m p => fold_left (fun m kv => add_variable kv.1 kv.2 m) (rp_Variables p) m) policies [].

(** ** Names and actions *)

Definition strictestAction (policies : list PolicyYAML) : string :=
  if existsb (fun p => String.eqb (rp_DefaultAction p) "deny") policies then "deny"
  else if existsb (fun p => String.eqb (rp_DefaultAction p) "log") policies then "log"
  else "deny".

(** The candidates from number [i] on. *)
Definition candidate (name : string) (i : Z) : string := name +:+ "-" +:+ Sprint_d i.
Fixpoint free_name (name : string) (taken : list string) (i : Z) (fuel : nat) : go string :=
  match fuel with
  | O => Block
  | S fuel' =>
      if bool_decide (candidate name i ∈ taken) then free_name name taken (i + 1) fuel'
      else Ret (candidate name i)
  end.

Definition uniqueName (name : string) (existing : list RuleYAML) : go string :=
  let taken := rr_Name <$> existing in
  if bool_decide (name ∈ taken) then free_name name taken 2 (S (length existing)) else Ret name.

(** ** The strategies *)

(** A map with string keys whose entries are kept in the order of insertion: an entry
    that exists is updated, otherwise [new] is added. *)
Fixpoint upsert {A} (key : A -> string) (k : string) (update : A -> A) (new : A) (m : list A) : list A :=
  match m with
  | [] => [new]
  | entry :: m' =>
      if String.eqb (key entry) k then update entry :: m' else entry :: upsert key k update new m'
  end.

Section Merge.
Context (json : string -> rawConditions -> option string).

(** The event and the conditions; not the action and not the mode.  An encoding error
    leaves the empty string. *)
Definition ruleFingerprint (r : RuleYAML) : string := default "" (json (rr_Event r) (rr_Conditions r)).

Definition Contains (s sub : string) : bool := bool_decide (is_Some (String.index 0 sub s)).

Definition annotate_union (opts : MergeOptions) (sr : sourcedRule) : RuleYAML :=
  let r := sr_rule sr in
  if mo_Annotate opts && negb (String.eqb (sr_source sr) "") then
    with_Reason (if String.eqb (rr_Reason r) "" then "Source: " +:+ sr_source sr
                 else rr_Reason r +:+ " [" +:+ sr_source sr +:+ "]") r
  else r.

(** The reason of a rule whose duplicate [sr] is dropped. *)
Definition annotate_duplicate (opts : MergeOptions) (sr : sourcedRule) (r : RuleYAML) : RuleYAML :=
  if mo_Annotate opts && negb (String.eqb (sr_source sr) "") && negb (Contains (rr_Reason r) (sr_source sr))
  then with_Reason (rr_Reason r +:+ " + " +:+ sr_source sr) r else r.

Fixpoint union_loop (opts : MergeOptions) (rules : list sourcedRule) (seen : gmap string nat)
    (result : list RuleYAML) (dedupCount : Z) : go (list RuleYAML * Z) :=
  match rules with
  | [] => Ret (result, dedupCount)
  | sr :: rules' =>
      let fp := ruleFingerprint (sr_rule sr) in
      match seen !! fp, mo_Dedup opts with
      | Some idx, true =>
          union_loop opts rules' seen (alter (annotate_duplicate opts sr) idx result) (dedupCount + 1)
      | _, _ =>
          let r := annotate_union opts sr in
          let! name := uniqueName (rr_Name r) result in
          union_loop opts rules' (<[fp := length result]> seen) (result ++ [with_Name name r]) dedupCount
      end
  end.
Definition applyUnion (rules : list sourcedRule) (opts : MergeOptions) : go (list RuleYAML * Z) :=
  union_loop opts rules ∅ [] 0.

(** The maps of the two other strategies, in the order of first insertion. *)
Record fpSource : Type := MkFpSource { fs_fp : string; fs_sources : list string; fs_rule : RuleYAML }.

(** A source is added once. *)
Definition add_source (source : string) (entry : fpSource) : fpSource :=
  if bool_decide (source ∈ fs_sources entry) then entry
  else MkFpSource (fs_fp entry) (fs_sources entry ++ [source]) (fs_rule entry).

Definition group_sources (sr : sourcedRule) : list fpSource -> list fpSource :=
  upsert fs_fp (ruleFingerprint (sr_rule sr)) (add_source (sr_source sr))
    (MkFpSource (ruleFingerprint (sr_rule sr)) [sr_source sr] (sr_rule sr)).

Fixpoint intersection_loop (opts : MergeOptions) (entries : list fpSource) (result : list RuleYAML)
    (totalSkipped : Z) : go (list RuleYAML * Z) :=
  match entries with
  | [] => Ret (result, totalSkipped)
  | entry :: entries' =>
      if Z.of_nat (length (fs_sources entry)) <? 2 then
        intersection_loop opts entries' result (totalSkipped + 1)
      else
        let r := if mo_Annotate opts
                 then with_Reason ("Confirmed by: " +:+ Join ", " (fs_sources entry)) (fs_rule entry)
                 else fs_rule entry in
        let! name := uniqueName (rr_Name r) result in
        intersection_loop opts entries' (result ++ [with_Name name r]) totalSkipped
  end.
Definition applyIntersection (order : list fpSource -> list fpSource) (rules : list sourcedRule)
    (opts : MergeOptions) : go (list RuleYAML * Z) :=
  intersection_loop opts (order (fold_left (fun m sr => group_sources sr m) rules [])) [] 0.

Record fpEntry : Type := MkFpEntry {
  fe_fp : string;
  fe_rule : RuleYAML;
  fe_sources : list string;
  fe_hasDeny : bool;
  fe_hasAllow : bool;
}.

(** The entry after another rule with its fingerprint. *)
Definition add_entry (sr : sourcedRule) (e : fpEntry) : fpEntry :=
  MkFpEntry (fe_fp e) (fe_rule e) (fe_sources e ++ [sr_source sr])
    (fe_hasDeny e || String.eqb (rr_Action (sr_rule sr)) "deny")
    (fe_hasAllow e || String.eqb (rr_Action (sr_rule sr)) "allow").

Definition group_entry (sr : sourcedRule) : list fpEntry -> list fpEntry :=
  upsert fe_fp (ruleFingerprint (sr_rule sr)) (add_entry sr)
    (MkFpEntry (ruleFingerprint (sr_rule sr)) (sr_rule sr) [sr_source sr]
       (String.eqb (rr_Action (sr_rule sr)) "deny") (String.eqb (rr_Action (sr_rule sr)) "allow")).

Fixpoint deny_wins_loop (opts : MergeOptions) (entries : list fpEntry) (result : list RuleYAML) : go (list RuleYAML) :=
  match entries with
  | [] => Ret result
  | e :: entries' =>
      let r := if fe_hasDeny e then with_Action "deny" (fe_rule e) else fe_rule e in
      let r := if mo_Annotate opts
               then with_Reason ("Source: " +:+ Join ", " (fe_sources e) +:+
                                 (if fe_hasDeny e && fe_hasAllow e then " (deny wins)" else "")) r
               else r in
      let! name := uniqueName (rr_Name r) result in
      deny_wins_loop opts entries' (result ++ [with_Name name r])
  end.
(** The loop over the rules: a rule whose fingerprint is known counts as a duplicate. *)
Fixpoint group_all (rules : list sourcedRule) (m : list fpEntry) (dedupCount : Z) : list fpEntry * Z :=
  match rules with
  | [] => (m, dedupCount)
  | sr :: rules' =>
      group_all rules' (group_entry sr m)
        (if existsb (fun e => String.eqb (fe_fp e) (ruleFingerprint (sr_rule sr))) m
         then dedupCount + 1 else dedupCount)
  end.
Definition applyDenyWins (rules : list sourcedRule) (opts : MergeOptions) : go (list RuleYAML * Z) :=
  let (entries, dedupCount) := group_all rules [] 0 in
  let! result := deny_wins_loop opts entries [] in
  Ret (result, dedupCount).

(** ** Merge *)

(** [src] is [sources[i]] where there is one. *)
Fixpoint all_rules (policies : list PolicyYAML) (sources : list string) : list sourcedRule :=
  match policies with
  | [] => []
  | p :: policies' =>
      ((fun r => MkSourcedRule r (from_option id "" (head sources))) <$> rp_Rules p) ++ all_rules policies' (tail sources)
  end.

Definition strategy_of (opts : MergeOptions) : string :=
  if String.eqb (mo_Strategy opts) "" then "union" else mo_Strategy opts.

Definition max_version (policies : list PolicyYAML) : Z :=
  fold_left (fun v p => if v <? rp_Version p then rp_Version p else v) policies 1.

Definition merged_description (opts : MergeOptions) (sources rules deduped : Z) : string :=
  if String.eqb (mo_Description opts) "" then
    "Merged policy from " +:+ Sprint_d sources +:+ " sources (" +:+ Sprint_d rules +:+ " rules, " +:+
    Sprint_d deduped +:+ " deduplicated)"
  else mo_Description opts.

Definition merge_rules (order : list fpSource -> list fpSource) (rules : list sourcedRule) (opts : MergeOptions)
    : go (list RuleYAML * Z) :=
  match strategy_of opts with
  | "union" => applyUnion rules opts
  | "intersection" => applyIntersection order rules opts
  | "deny-wins" => applyDenyWins rules opts
  | strategy => Fail (Sprintf "unknown strategy %q (use union, intersection, or deny-wins)" [AStr (bstr strategy)])
  end.

Definition Merge (order : list fpSource -> list fpSource) (policies : list PolicyYAML) (sources : list string)
    (opts : MergeOptions) : go MergeResult :=
  if Z.of_nat (length policies) <? 2
  then Fail (Sprintf "at least 2 policies required to merge, got %d" [ANum (Z.of_nat (length policies))])
  else
    let allRules := all_rules policies sources in
    let variables := merge_variables policies in
    let! (rules, dedupedCount) := merge_rules order allRules opts in
    let variables := if mo_Dedup opts then (fun kv => (kv.1, dedupVariable kv.2)) <$> variables else variables in
    Ret (MkMergeResult
           (MkRawPolicy (if String.eqb (mo_Name opts) "" then "merged-policy" else mo_Name opts)
              (max_version policies)
              (merged_description opts (Z.of_nat (length policies)) (Z.of_nat (length rules)) dedupedCount)
              variables rules (strictestAction policies))
           (Z.of_nat (length allRules)) dedupedCount (Z.of_nat (length policies))).
End Merge.

(** ** validate.go *)

Definition validEvents : list string := ["process"; "file"; "network"].
Definition validActions : list string := ["allow"; "deny"; "log"].

Definition eventFields (event : string) : list string :=
  match event with
  | "process" => ["pid"; "uid"; "gid"; "comm"; "path"; "args"]
  | "file" => ["pid"; "uid"; "gid"; "comm"; "path"; "operation"; "flags"]
  | "network" => ["pid"; "uid"; "gid"; "comm"; "operation"; "protocol"; "remote_addr"; "remote_port";
                  "local_port"]
  | _ => []
  end.

(** The fields of an entry, in the order of its map's iteration. *)
Fixpoint validateConditionFields (cond : list (string * yaml)) (allowed : list string) (idx : Z) (ruleName : string)
    : go unit :=
  match cond with
  | [] => Ret tt
  | (field, _) :: cond' =>
      if bool_decide (field ∈ allowed) then validateConditionFields cond' allowed idx ruleName
      else Fail (Sprintf "rule[%d] %q: field %q is not valid for this event type"
                   [ANum idx; AStr (bstr ruleName); AStr (bstr field)])
  end.

Fixpoint validateConditionList (conds : list (list (string * yaml))) (allowed : list string) (idx : Z)
    (ruleName : string) : go unit :=
  match conds with
  | [] => Ret tt
  | cond :: conds' =>
      let! _ := validateConditionFields cond allowed idx ruleName in
      validateConditionList conds' allowed idx ruleName
  end.

Definition validateRule (r : RuleYAML) (idx : Z) : go unit :=
  let invalid format arg := Fail (Sprintf format [ANum idx; AStr (bstr (rr_Name r)); AStr (bstr arg)]) in
  if String.eqb (rr_Name r) "" then Fail (Sprintf "rule[%d]: name is required" [ANum idx])
  else if negb (bool_decide (rr_Event r ∈ validEvents))
  then invalid "rule[%d] %q: invalid event %q (must be process, file, or network)" (rr_Event r)
  else if negb (bool_decide (rr_Action r ∈ validActions))
  then invalid "rule[%d] %q: invalid action %q (must be allow, deny, or log)" (rr_Action r)
  else if negb (String.eqb (rr_Mode r) "") && negb (String.eqb (rr_Mode r) "enforce")
          && negb (String.eqb (rr_Mode r) "audit")
  then invalid "rule[%d] %q: invalid mode %q (must be enforce or audit)" (rr_Mode r)
  else
    match rc_All (rr_Conditions r), rc_Any (rr_Conditions r), rc_Not (rr_Conditions r) with
    | [], [], [] =>
        Fail (Sprintf "rule[%d] %q: must have at least one condition" [ANum idx; AStr (bstr (rr_Name r))])
    | all, any, not =>
        let allowed := eventFields (rr_Event r) in
        let! _ := validateConditionList all allowed idx (rr_Name r) in
        let! _ := validateConditionList any allowed idx (rr_Name r) in
        validateConditionList not allowed idx (rr_Name r)
    end.

Fixpoint validateRules (rules : list RuleYAML) (idx : Z) : go unit :=
  match rules with
  | [] => Ret tt
  | r :: rules' => let! _ := validateRule r idx in validateRules rules' (idx + 1)
  end.

Definition Validate (p : PolicyYAML) : go unit :=
  if String.eqb (rp_Name p) "" then Fail (Text "policy name is required")
  else if rp_Version p <? 1 then Fail (Text "policy version must be >= 1")
  else match rp_Rules p with
  | [] => Fail (Text "policy must have at least one rule")
  | rules =>
      if negb (String.eqb (rp_DefaultAction p) "") && negb (bool_decide (rp_DefaultAction p ∈ validActions))
      then Fail (Sprintf "invalid default_action %q (must be allow, deny, or log)"
                   [AStr (bstr (rp_DefaultAction p))])
      else validateRules rules 0
  end.

(** ** Free names *)

Lemma Sprint_d_inj a b : Sprint_d a = Sprint_d b -> a = b.
Proof.
  unfold Sprint_d. intros H. apply (f_equal NilEmpty.int_of_string) in H.
  rewrite !NilEmpty.isi in H. injection H as H.
  rewrite <- (DecimalZ.of_to a), <- (DecimalZ.of_to b). by rewrite H.
Qed.

#[global] Instance candidate_inj name : Inj (=) (=) (candidate name).
Proof. intros i j H. unfold candidate in H. apply Sprint_d_inj. by repeat apply String.app_inj in H. Qed.

Lemma free_name_spec name taken i fuel :
  match free_name name taken i fuel with
  | Ret n => (n ∉ taken) ∧ (∃ j, n = candidate name j)
  | Block => ∀ j, i <= j < i + Z.of_nat fuel -> candidate name j ∈ taken
  | _ => False
  end.
Proof.
  revert i. induction fuel as [|fuel IH]; intros i; simpl; [lia|].
  case_bool_decide as Hin; [|by eauto]. specialize (IH (i + 1)).
  destruct (free_name name taken (i + 1) fuel); try done.
  intros j Hj. destruct (decide (j = i)) as [->|]; [done|]. apply IH. lia.
Qed.

(** A free name is found: there are more candidates than names. *)
Lemma uniqueName_returns name existing :
  ∃ n, uniqueName name existing = Ret n ∧ (n ∉ rr_Name <$> existing) ∧ (name ≠ "" -> n ≠ "").
Proof.
  unfold uniqueName. case_bool_decide as Hin; [|by exists name].
  set (taken := rr_Name <$> existing). set (fuel := S (length existing)).
  pose proof (free_name_spec name taken 2 fuel) as Hs.
  destruct (free_name name taken 2 fuel) as [n|err|why|]; try done.
  - destruct Hs as (Hn & j & ->). eexists. split_and!; [done|done|]. intros Hne. unfold candidate. by destruct name.
  - exfalso.
    assert (Hsub : (candidate name <$> seqZ 2 (Z.of_nat fuel)) ⊆+ taken).
    { apply NoDup_submseteq; [apply (NoDup_fmap_2 _), NoDup_seqZ|].
      intros x (j & -> & Hj)%list_elem_of_fmap. apply elem_of_seqZ in Hj. by apply Hs. }
    apply submseteq_length in Hsub. unfold taken in Hsub. rewrite !length_fmap, length_seqZ in Hsub.
    rewrite Nat2Z.id in Hsub. by apply Nat.nle_succ_diag_l in Hsub.
Qed.

(** ** What a merge produces *)

(** Two rules that differ at most in name and reason. *)
Definition alike (r r' : RuleYAML) : Prop :=
  rr_Event r' = rr_Event r ∧ rr_Conditions r' = rr_Conditions r ∧ rr_Action r' = rr_Action r ∧
  rr_Mode r' = rr_Mode r ∧ (rr_Name r ≠ "" -> rr_Name r' ≠ "").

Lemma alike_refl r : alike r r.
Proof. done. Qed.

Lemma alike_trans r1 r2 r3 : alike r1 r2 -> alike r2 r3 -> alike r1 r3.
Proof. unfold alike. intuition congruence. Qed.

Lemma alike_reason r reason : alike r (with_Reason reason r).
Proof. done. Qed.

Lemma alike_named r r' name : alike r r' -> (rr_Name r' ≠ "" -> name ≠ "") -> alike r (with_Name name r').
Proof. unfold alike. simpl. intuition congruence. Qed.

#[local] Hint Resolve alike_refl alike_reason alike_named : warmor.

Lemma alike_annotate_union opts sr : alike (sr_rule sr) (annotate_union opts sr).
Proof. unfold annotate_union. case_match; auto with warmor. Qed.

Lemma alike_annotate_duplicate opts sr r : alike r (annotate_duplicate opts sr r).
Proof. unfold annotate_duplicate. case_match; auto with warmor. Qed.

Lemma annotate_duplicate_name opts sr r : rr_Name (annotate_duplicate opts sr r) = rr_Name r.
Proof. unfold annotate_duplicate. by case_match. Qed.

Lemma NoDup_snoc_name result name r :
  NoDup (rr_Name <$> result) -> name ∉ rr_Name <$> result -> NoDup (rr_Name <$> result ++ [with_Name name r]).
Proof.
  intros Hnd Hn. rewrite fmap_app. apply NoDup_app. split_and!; [done| |apply NoDup_singleton].
  intros x Hx ->%list_elem_of_singleton. done.
Qed.

Lemma fmap_alter_name (f : RuleYAML -> RuleYAML) (idx : nat) (result : list RuleYAML) :
  (∀ r, rr_Name (f r) = rr_Name r) -> rr_Name <$> alter f idx result = rr_Name <$> result.
Proof.
  intros Hf. revert idx. induction result as [|r result IH]; intros [|idx]; simpl; [done..| |].
  - by rewrite Hf.
  - f_equal. apply IH.
Qed.

Lemma Forall2_alter_alike (f : RuleYAML -> RuleYAML) (idx : nat) (l l' : list RuleYAML) :
  (∀ r, alike r (f r)) -> Forall2 alike (alter f idx l) l' -> Forall2 alike l l'.
Proof.
  intros Hf. revert idx l'. induction l as [|r l IH]; intros [|idx] l'; simpl; [done..| |];
    intros (r' & l'' & Hr & Hl & ->)%Forall2_cons_inv_l; constructor; eauto using alike_trans.
Qed.

Lemma Forall2_alike_refl l : Forall2 alike l l.
Proof. induction l; constructor; auto with warmor. Qed.

(** *** Maps in insertion order *)

Section upsert.
Context {A : Type} (key : A -> string) (k : string) (update : A -> A) (new : A).
Context (key_update : ∀ e, key (update e) = key e) (key_new : key new = k).

Lemma upsert_fmap {B} (f : A -> B) m :
  (∀ e, f (update e) = f e) ->
  f <$> upsert key k update new m = (f <$> m) ++ (if bool_decide (k ∈ key <$> m) then [] else [f new]).
Proof.
  intros Hf. induction m as [|e m IH]; cbn [upsert]; [done|]. rewrite !fmap_cons.
  destruct (String.eqb_spec (key e) k) as [He|He].
  - rewrite bool_decide_eq_true_2 by (rewrite He; by left). by rewrite fmap_cons, Hf, app_nil_r.
  - rewrite fmap_cons, IH.
    by rewrite (bool_decide_ext (k ∈ key e :: (key <$> m)) (k ∈ key <$> m))
      by (rewrite elem_of_cons; intuition congruence).
Qed.

Lemma upsert_nodup m : NoDup (key <$> m) -> NoDup (key <$> upsert key k update new m).
Proof.
  intros Hnd. rewrite (upsert_fmap key) by done. rewrite key_new.
  case_bool_decide as Hk; [by rewrite app_nil_r|].
  apply NoDup_app. split_and!; [done| |apply NoDup_singleton]. by intros x Hx ->%list_elem_of_singleton.
Qed.

Lemma upsert_elem e m :
  NoDup (key <$> m) -> e ∈ upsert key k update new m ->
  (e ∈ m ∧ key e ≠ k) ∨ ((k ∉ key <$> m) ∧ e = new) ∨ (∃ e0, e0 ∈ m ∧ key e0 = k ∧ e = update e0).
Proof.
  induction m as [|e0 m IH]; cbn [upsert].
  { intros _ ->%list_elem_of_singleton. right. left. split; [apply not_elem_of_nil|done]. }
  rewrite fmap_cons. intros [Hnin Hnd]%NoDup_cons.
  destruct (String.eqb_spec (key e0) k) as [He|He].
  - intros [->|Hin]%elem_of_cons; [right; right; exists e0; split; [by left|done]|].
    left. split; [by right|]. intros Heq. apply Hnin. rewrite He, <- Heq. by apply list_elem_of_fmap_2.
  - intros [->|Hin]%elem_of_cons; [left; split; [by left|done]|].
    destruct (IH Hnd Hin) as [[? ?]|[[? ?]|(e1 & ? & ?)]].
    + left. split; [by right|done].
    + right. left. split; [|done]. rewrite elem_of_cons. intuition congruence.
    + right. right. exists e1. split; [by right|done].
Qed.
End upsert.

Section results.
Context (json : string -> rawConditions -> option string).

Abbreviation fp sr := (ruleFingerprint json (sr_rule sr)).

(** The rules that survive de-duplication: the first of every fingerprint. *)
Fixpoint kept (dedup : bool) (seen : gset string) (rules : list sourcedRule) : list sourcedRule :=
  match rules with
  | [] => []
  | sr :: rules' =>
      if dedup && bool_decide (fp sr ∈ seen) then kept dedup seen rules'
      else sr :: kept dedup ({[fp sr]} ∪ seen) rules'
  end.

Lemma union_loop_returns opts rules seen result n :
  NoDup (rr_Name <$> result) ->
  ∃ old new n', union_loop json opts rules seen result n = Ret (old ++ new, n') ∧ NoDup (rr_Name <$> old ++ new) ∧
    Forall2 alike result old ∧ Forall2 alike (sr_rule <$> kept (mo_Dedup opts) (dom seen) rules) new.
Proof.
  revert seen result n. induction rules as [|sr rules IH]; intros seen result n Hnd; simpl.
  { exists result, [], n. rewrite app_nil_r. split_and!; [done|done|apply Forall2_alike_refl|constructor]. }
  destruct (mo_Dedup opts && bool_decide (fp sr ∈ dom seen)) eqn:Hd.
  - apply andb_true_iff in Hd as [Hd [idx Hidx]%bool_decide_eq_true%elem_of_dom]. rewrite Hidx, Hd in *.
    destruct (IH seen (alter (annotate_duplicate opts sr) idx result) (n + 1)) as (old & new & n' & -> & Hn & Ho & Hk).
    { by rewrite fmap_alter_name by apply annotate_duplicate_name. }
    exists old, new, n'. split_and!; [done|done| |done].
    eapply Forall2_alter_alike; [|done]. apply alike_annotate_duplicate.
  - set (r := annotate_union opts sr).
    destruct (uniqueName_returns (rr_Name r) result) as (name & Hname & Hnin & Hne).
    destruct (IH (<[fp sr := length result]> seen) (result ++ [with_Name name r]) n) as (old & new & n' & Heq & Hn & Ho & Hk).
    { by apply NoDup_snoc_name. }
    apply Forall2_app_inv_l in Ho as (old1 & old2 & Ho1 & (r' & ? & Hr & ->%Forall2_nil_inv_l & ->)%Forall2_cons_inv_l & ->).
    exists old1, (r' :: new), n'. rewrite <- (assoc_L (++)) in Heq, Hn. split_and!; [|done|done|].
    + rewrite Hname. destruct (seen !! fp sr) as [idx|] eqn:Hs; [|done].
      destruct (mo_Dedup opts); [|done]. apply bool_decide_eq_false in Hd. destruct Hd. by apply elem_of_dom.
    + rewrite dom_insert_L in Hk. rewrite fmap_cons. constructor; [|done].
      eapply alike_trans; [|done]. apply alike_named; [apply alike_annotate_union|done].
Qed.

Lemma intersection_loop_returns opts entries result n :
  NoDup (rr_Name <$> result) ->
  ∃ new n', intersection_loop opts entries result n = Ret (result ++ new, n') ∧
    NoDup (rr_Name <$> result ++ new) ∧
    Forall2 alike (fs_rule <$> filter (fun e => 2 <= Z.of_nat (length (fs_sources e))) entries) new.
Proof.
  revert result n. induction entries as [|e entries IH]; intros result n Hnd; simpl.
  { exists [], n. rewrite app_nil_r. split_and!; [done|done|constructor]. }
  rewrite filter_cons. destruct (Z.ltb_spec (Z.of_nat (length (fs_sources e))) 2).
  { destruct (IH result (n + 1) Hnd) as (new & n' & ?). rewrite decide_False by lia. by exists new, n'. }
  rewrite decide_True by lia. set (r := if mo_Annotate opts then _ else _).
  destruct (uniqueName_returns (rr_Name r) result) as (name & -> & Hnin & Hne). simpl.
  destruct (IH (result ++ [with_Name name r]) n) as (new & n' & Heq & Hn & Hk); [by apply NoDup_snoc_name|].
  exists (with_Name name r :: new), n'. rewrite <- (assoc_L (++)) in Heq, Hn. split_and!; [done|done|].
  constructor; [|done]. apply alike_named; [|done]. unfold r. case_match; auto with warmor.
Qed.

Definition deny_if (b : bool) (r : RuleYAML) : RuleYAML := if b then with_Action "deny" r else r.

Lemma deny_wins_loop_returns opts entries result :
  NoDup (rr_Name <$> result) ->
  ∃ new, deny_wins_loop opts entries result = Ret (result ++ new) ∧ NoDup (rr_Name <$> result ++ new) ∧
    Forall2 alike ((fun e => deny_if (fe_hasDeny e) (fe_rule e)) <$> entries) new.
Proof.
  revert result. induction entries as [|e entries IH]; intros result Hnd; simpl.
  { exists []. rewrite app_nil_r. split_and!; [done|done|constructor]. }
  set (r := if mo_Annotate opts then _ else _).
  destruct (uniqueName_returns (rr_Name r) result) as (name & -> & Hnin & Hne). simpl.
  destruct (IH (result ++ [with_Name name r])) as (new & Heq & Hn & Hk); [by apply NoDup_snoc_name|].
  exists (with_Name name r :: new). rewrite <- (assoc_L (++)) in Heq, Hn. split_and!; [done|done|].
  constructor; [|done]. apply alike_named; [|done]. unfold r, deny_if. destruct (mo_Annotate opts); auto with warmor.
Qed.

(** *** Grouping by fingerprint *)

Definition fps (rules : list sourcedRule) : gset string := list_to_set ((fun sr => fp sr) <$> rules).

Lemma kept_snoc seen rules sr :
  kept true seen (rules ++ [sr]) =
    kept true seen rules ++ (if bool_decide (fp sr ∈ fps rules ∪ seen) then [] else [sr]).
Proof.
  revert seen. induction rules as [|sr' rules IH]; intros seen; simpl.
  { unfold fps. simpl. rewrite (left_id_L ∅ (∪)). by case_bool_decide. }
  assert (Hfps : fps (sr' :: rules) = {[fp sr']} ∪ fps rules) by done. rewrite Hfps.
  case_bool_decide as Hs; rewrite IH; simpl.
  - by rewrite (bool_decide_ext (fp sr ∈ {[fp sr']} ∪ fps rules ∪ seen) (fp sr ∈ fps rules ∪ seen))
      by (rewrite !elem_of_union, elem_of_singleton; intuition congruence).
  - by rewrite (bool_decide_ext (fp sr ∈ {[fp sr']} ∪ fps rules ∪ seen) (fp sr ∈ fps rules ∪ ({[fp sr']} ∪ seen)))
      by (rewrite !elem_of_union; tauto).
Qed.

(** Some rule with the fingerprint [f] denies; rules with it come from two sources. *)
Definition denied_by (rules : list sourcedRule) (f : string) : bool :=
  existsb (fun sr => String.eqb (fp sr) f && String.eqb (rr_Action (sr_rule sr)) "deny") rules.
Definition confirmed (rules : list sourcedRule) (f : string) : bool :=
  existsb (fun sr => String.eqb (fp sr) f &&
    existsb (fun sr' => String.eqb (fp sr') f && negb (String.eqb (sr_source sr) (sr_source sr'))) rules) rules.

Lemma confirmed_true rules f :
  confirmed rules f = true <->
  ∃ sr sr', sr ∈ rules ∧ sr' ∈ rules ∧ fp sr = f ∧ fp sr' = f ∧ sr_source sr ≠ sr_source sr'.
Proof.
  unfold confirmed. rewrite existsb_exists. setoid_rewrite andb_true_iff. setoid_rewrite existsb_exists.
  setoid_rewrite andb_true_iff. setoid_rewrite negb_true_iff. setoid_rewrite String.eqb_eq.
  setoid_rewrite String.eqb_neq. setoid_rewrite list_elem_of_In. split.
  - intros (sr & ? & ? & sr' & ? & ? & ?). by exists sr, sr'.
  - intros (sr & sr' & ? & ? & ? & ? & ?). exists sr. split_and!; [done|done|]. by exists sr'.
Qed.

(** The entries of a map that groups the rules by fingerprint, with [P] what the other
    fields of an entry say of the rules so far. *)
Record grouped {A} (key : A -> string) (rule : A -> RuleYAML) (P : list sourcedRule -> A -> Prop)
    (rules : list sourcedRule) (m : list A) : Prop := {
  gr_rules : rule <$> m = sr_rule <$> kept true ∅ rules;
  gr_fp : ∀ e, e ∈ m -> key e = ruleFingerprint json (rule e);
  gr_nodup : NoDup (key <$> m);
  gr_fps : ∀ f, f ∈ key <$> m <-> f ∈ fps rules;
  gr_info : ∀ e, e ∈ m -> P rules e;
}.

Lemma elem_of_fps f rules : f ∈ fps rules <-> ∃ sr, sr ∈ rules ∧ fp sr = f.
Proof. unfold fps. rewrite elem_of_list_to_set, list_elem_of_fmap. naive_solver. Qed.

Lemma grouped_snoc {A} (key : A -> string) rule P rules sr update new (m : list A) :
  (∀ e, key (update e) = key e) -> (∀ e, rule (update e) = rule e) -> key new = fp sr -> rule new = sr_rule sr ->
  (∀ e, P rules e -> key e ≠ fp sr -> P (rules ++ [sr]) e) ->
  (fp sr ∉ fps rules -> P (rules ++ [sr]) new) ->
  (∀ e, P rules e -> key e = fp sr -> P (rules ++ [sr]) (update e)) ->
  grouped key rule P rules m -> grouped key rule P (rules ++ [sr]) (upsert key (fp sr) update new m).
Proof.
  intros Hku Hru Hkn Hrn Hold Hnew Hupd [Hr Hf Hnd Hfps Hi]. split.
  - rewrite (upsert_fmap key (fp sr) update new rule) by done. rewrite kept_snoc, fmap_app, Hr, Hrn. f_equal.
    rewrite (bool_decide_ext (fp sr ∈ fps rules ∪ ∅) (fp sr ∈ key <$> m))
      by (rewrite (right_id_L ∅ (∪)); symmetry; apply Hfps).
    by case_bool_decide.
  - intros e [[? ?]|[[? ->]|(e0 & ? & ? & ->)]]%upsert_elem; [by apply Hf|by rewrite Hkn, Hrn| |done].
    rewrite Hku, Hru. by apply Hf.
  - by apply upsert_nodup.
  - intros f. rewrite (upsert_fmap key (fp sr) update new key) by done. rewrite Hkn, elem_of_app, Hfps.
    rewrite !elem_of_fps. setoid_rewrite elem_of_app. case_bool_decide as Hk.
    + rewrite Hfps, elem_of_fps in Hk. destruct Hk as (sr0 & Hsr0 & Hfp). split.
      * intros [(sr1 & ? & ?)|[]%not_elem_of_nil]. eauto.
      * intros (sr1 & [?| ->%list_elem_of_singleton] & <-); left; eauto.
    + split.
      * intros [(sr1 & ? & ?)| ->%list_elem_of_singleton]; [by eauto|]. exists sr. split; [right; by left|done].
      * intros (sr1 & [?| ->%list_elem_of_singleton] & <-); [left; eauto|right; by left].
  - intros e [[? ?]|[[Hk ->]|(e0 & ? & ? & ->)]]%upsert_elem; [by apply Hold; [apply Hi|]| |by apply Hupd; [apply Hi|]|done].
    apply Hnew. by rewrite <- Hfps.
Qed.

Lemma grouped_nil {A} key rule P : @grouped A key rule P [] [].
Proof.
  split; [done|by intros e ?%not_elem_of_nil|apply NoDup_nil_2| |by intros e ?%not_elem_of_nil].
  intros f. unfold fps. by rewrite elem_of_list_to_set.
Qed.

(** *** deny-wins *)

Definition says_deny (rules : list sourcedRule) (e : fpEntry) : Prop :=
  fe_hasDeny e = denied_by rules (fe_fp e).

Lemma denied_by_snoc rules sr f :
  denied_by (rules ++ [sr]) f =
    denied_by rules f || (String.eqb (fp sr) f && String.eqb (rr_Action (sr_rule sr)) "deny").
Proof. unfold denied_by. rewrite existsb_app. simpl. by rewrite orb_false_r. Qed.

Lemma denied_by_new rules f : f ∉ fps rules -> denied_by rules f = false.
Proof.
  intros Hf. unfold denied_by. apply not_true_iff_false. rewrite existsb_exists.
  intros (sr & Hin & [Heq%String.eqb_eq _]%andb_true_iff). apply Hf, elem_of_fps. exists sr.
  split; [by apply list_elem_of_In|done].
Qed.

Lemma group_all_fst rules m n : (group_all json rules m n).1 = fold_left (fun m sr => group_entry json sr m) rules m.
Proof. revert m n. induction rules as [|sr rules IH]; intros m n; simpl; [done|apply IH]. Qed.

Lemma grouped_deny rules : grouped fe_fp fe_rule says_deny rules (group_all json rules [] 0).1.
Proof.
  rewrite group_all_fst. induction rules as [|sr rules IH] using rev_ind; [apply grouped_nil|].
  rewrite fold_left_app. simpl. apply grouped_snoc; try done; unfold says_deny.
  - intros e -> Hne. rewrite denied_by_snoc. destruct (String.eqb_spec (fp sr) (fe_fp e)); [congruence|].
    simpl. by rewrite orb_false_r.
  - intros Hnew. simpl. by rewrite denied_by_snoc, denied_by_new, String.eqb_refl.
  - intros e He Heq. simpl. by rewrite denied_by_snoc, He, Heq, String.eqb_refl.
Qed.

(** *** Intersection *)

Definition says_sources (rules : list sourcedRule) (e : fpSource) : Prop :=
  NoDup (fs_sources e) ∧ ∀ s, s ∈ fs_sources e <-> ∃ sr, sr ∈ rules ∧ fp sr = fs_fp e ∧ sr_source sr = s.

Lemma grouped_sources rules :
  grouped fs_fp fs_rule says_sources rules (fold_left (fun m sr => group_sources json sr m) rules []).
Proof.
  induction rules as [|sr rules IH] using rev_ind; [apply grouped_nil|].
  rewrite fold_left_app. simpl. apply grouped_snoc; try done; unfold says_sources, add_source.
  1,2: intros; by case_bool_decide.
  - intros e [Hnd Hs] Hne. split; [done|]. intros s. rewrite Hs. setoid_rewrite elem_of_app.
    setoid_rewrite list_elem_of_singleton. naive_solver.
  - intros Hnew. simpl. split; [apply NoDup_singleton|]. intros s. rewrite list_elem_of_singleton.
    setoid_rewrite elem_of_app. setoid_rewrite list_elem_of_singleton. split; [naive_solver|].
    intros (sr' & [Hin| ->] & Hfp & <-); [|done]. destruct Hnew. apply elem_of_fps. eauto.
  - intros e [Hnd Hs] Heq. case_bool_decide as Hin; simpl; (split; [|intros s]).
    + done.
    + rewrite Hs. setoid_rewrite elem_of_app. setoid_rewrite list_elem_of_singleton.
      apply Hs in Hin as (sr0 & ? & ? & ?). naive_solver.
    + apply NoDup_app. split_and!; [done| |apply NoDup_singleton]. by intros x Hx ->%list_elem_of_singleton.
    + rewrite elem_of_app, Hs, list_elem_of_singleton. setoid_rewrite elem_of_app.
      setoid_rewrite list_elem_of_singleton. naive_solver.
Qed.

Lemma two_sources rules e :
  says_sources rules e -> 2 <= Z.of_nat (length (fs_sources e)) <-> confirmed rules (fs_fp e) = true.
Proof.
  intros [Hnd Hs]. rewrite confirmed_true. split.
  - destruct (fs_sources e) as [|a [|b l]]; simpl; [lia|lia|]. intros _.
    destruct (proj1 (Hs a)) as (sr & ? & ? & ?); [by left|].
    destruct (proj1 (Hs b)) as (sr' & ? & ? & ?); [right; by left|].
    exists sr, sr'. split_and!; try done. apply NoDup_cons in Hnd as [Hnin _]. intros Heq. apply Hnin.
    apply elem_of_cons. left. congruence.
  - intros (sr & sr' & ? & ? & ? & ? & Hne).
    assert (sr_source sr ∈ fs_sources e) as Ha by (apply Hs; eauto).
    assert (sr_source sr' ∈ fs_sources e) as Hb by (apply Hs; eauto).
    destruct (fs_sources e) as [|a [|b l]]; simpl; [by apply not_elem_of_nil in Ha| |lia].
    apply list_elem_of_singleton in Ha, Hb. congruence.
Qed.

Lemma applyUnion_returns rules opts :
  ∃ res n, applyUnion json rules opts = Ret (res, n) ∧ NoDup (rr_Name <$> res) ∧
    Forall2 alike (sr_rule <$> kept (mo_Dedup opts) ∅ rules) res.
Proof.
  destruct (union_loop_returns opts rules ∅ [] 0) as (old & new & n & Heq & Hnd & ->%Forall2_nil_inv_l & Hk).
  { apply NoDup_nil_2. }
  rewrite dom_empty_L in Hk. by exists new, n.
Qed.

Lemma applyDenyWins_returns rules opts :
  ∃ res n, applyDenyWins json rules opts = Ret (res, n) ∧ NoDup (rr_Name <$> res) ∧
    Forall2 alike ((fun r => deny_if (denied_by rules (ruleFingerprint json r)) r) <$> (sr_rule <$> kept true ∅ rules)) res.
Proof.
  unfold applyDenyWins. pose proof (grouped_deny rules) as Hg. destruct (group_all json rules [] 0) as [m n].
  simpl in Hg. destruct (deny_wins_loop_returns opts m []) as (new & -> & Hnd & Hk); [apply NoDup_nil_2|].
  exists new, n. split_and!; [done|done|]. rewrite <- (gr_rules _ _ _ _ _ Hg), <- list_fmap_compose.
  erewrite list_fmap_ext; [exact Hk|]. intros i e He%list_elem_of_lookup_2. simpl.
  by rewrite (gr_info _ _ _ _ _ Hg e He), (gr_fp _ _ _ _ _ Hg e He).
Qed.

Lemma filter_fmap_iff {A B} (f : A -> B) (P : A -> Prop) (Q : B -> Prop) `{!∀ x, Decision (P x), !∀ y, Decision (Q y)} (l : list A) :
  (∀ x, x ∈ l -> P x <-> Q (f x)) -> f <$> filter P l = filter Q (f <$> l).
Proof.
  induction l as [|x l IH]; intros Hl; [done|]. rewrite fmap_cons, !filter_cons.
  assert (Hx : P x <-> Q (f x)) by (apply Hl; by left).
  assert (IH' : f <$> filter P l = filter Q (f <$> l)) by (apply IH; intros y Hy; apply Hl; by right).
  destruct (decide (P x)), (decide (Q (f x))); try tauto. by rewrite fmap_cons, IH'.
Qed.

Lemma applyIntersection_returns order rules opts :
  (∀ l, order l ≡ₚ l) ->
  ∃ res n l, applyIntersection json order rules opts = Ret (res, n) ∧ NoDup (rr_Name <$> res) ∧
    l ≡ₚ filter (fun r => confirmed rules (ruleFingerprint json r) = true) (sr_rule <$> kept true ∅ rules) ∧
    Forall2 alike l res.
Proof.
  intros Hperm. unfold applyIntersection. pose proof (grouped_sources rules) as Hg.
  set (m := fold_left _ rules []) in *.
  destruct (intersection_loop_returns opts (order m) [] 0) as (new & n & -> & Hnd & Hk); [apply NoDup_nil_2|].
  exists new, n. eexists. split_and!; [done|done| |done].
  rewrite Hperm, <- (gr_rules _ _ _ _ _ Hg).
  erewrite filter_fmap_iff; [done|]. intros e He. simpl. rewrite <- (gr_fp _ _ _ _ _ Hg e He).
  apply two_sources, (gr_info _ _ _ _ _ Hg e He).
Qed.
End results.

(** ** Merging *)

Lemma strategy_cases opts :
  (strategy_of opts = "union" ∨ strategy_of opts = "intersection" ∨ strategy_of opts = "deny-wins") ∨
  (strategy_of opts ∉ ["union"; "intersection"; "deny-wins"]) ∧
  ∀ json order rules, ∃ err, merge_rules json order rules opts = Fail err.
Proof.
  unfold merge_rules. generalize (strategy_of opts). intros s.
  destruct (decide (s = "union")) as [->|]; [by left; left|].
  destruct (decide (s = "intersection")) as [->|]; [by left; right; left|].
  destruct (decide (s = "deny-wins")) as [->|]; [by left; right; right|].
  right. split; [rewrite !not_elem_of_cons; auto using not_elem_of_nil|].
  intros. eexists. repeat (case_match; try done).
Qed.

(** C25: a merge of at least two policies with a known strategy returns, whatever the
    iteration order of its map; the names of the merged rules are distinct; and up to
    name and reason the rules are those the strategy stands for.  Two rules count as the
    same when the encodings of their event and conditions agree.  A union keeps every
    rule in order, with de-duplication the first of equal ones; deny-wins keeps the first
    of equal rules and turns it into a denial when one of them denies; an intersection
    keeps the first of equal rules that two different sources contain, in any order.
    Fewer policies or another strategy are an error. *)
Theorem merge_rules_exact json order policies sources opts :
  (∀ l, order l ≡ₚ l) ->
  let rules := all_rules policies sources in
  let same := ruleFingerprint json in
  let first := sr_rule <$> kept json true ∅ rules in
  (length policies < 2)%nat ∧ (∃ err, Merge json order policies sources opts = Fail err) ∨
  (2 <= length policies)%nat ∧
  ((∃ res, Merge json order policies sources opts = Ret res ∧
      NoDup (rr_Name <$> rp_Rules (mr_Policy res)) ∧
      (strategy_of opts = "union" ∧
         Forall2 alike (sr_rule <$> kept json (mo_Dedup opts) ∅ rules) (rp_Rules (mr_Policy res)) ∨
       strategy_of opts = "deny-wins" ∧
         Forall2 alike ((fun r => deny_if (denied_by json rules (same r)) r) <$> first) (rp_Rules (mr_Policy res)) ∨
       strategy_of opts = "intersection" ∧
         ∃ l, l ≡ₚ filter (fun r => confirmed json rules (same r) = true) first ∧
           Forall2 alike l (rp_Rules (mr_Policy res)))) ∨
   (strategy_of opts ∉ ["union"; "intersection"; "deny-wins"]) ∧
     ∃ err, Merge json order policies sources opts = Fail err).
Proof.
  intros Hperm rules same first. unfold Merge.
  destruct (Z.ltb_spec (Z.of_nat (length policies)) 2) as [Hlt|Hge]; [left; split; [lia|by eexists]|].
  right. split; [lia|]. fold rules.
  destruct (strategy_cases opts) as [[Hs|[Hs|Hs]]|[Hnin Hf]].
  - left. unfold merge_rules. rewrite Hs.
    destruct (applyUnion_returns json rules opts) as (res & n & -> & Hnd & Hk). simpl. eexists. split_and!; [done|done|].
    by left.
  - left. unfold merge_rules. rewrite Hs.
    destruct (applyIntersection_returns json order rules opts Hperm) as (res & n & l & -> & Hnd & Hl & Hk). simpl.
    eexists. split_and!; [done|done|]. right. right. split; [done|]. by exists l.
  - left. unfold merge_rules. rewrite Hs.
    destruct (applyDenyWins_returns json rules opts) as (res & n & -> & Hnd & Hk). simpl. eexists.
    split_and!; [done|done|]. right. by left.
  - right. destruct (Hf json order rules) as [err Herr]. rewrite Herr. split; [done|by eexists].
Qed.
