(* ===== verification/MergedPolicy.v ===== *)
(** What a merged policy decides, and what its check and its difference to another
    policy say about it. *)

From S2P Require Import Prelude GoApi GoFmt PolicySchema PolicySemantics PolicyMerge.

Import compiler.

(** ** First matches *)

Inductive first {A} (P : A -> Prop) (l : list A) : option A -> Prop :=
| first_some pre x post : l = pre ++ x :: post -> Forall (fun y => ~ P y) pre -> P x -> first P l (Some x)
| first_none : Forall (fun y => ~ P y) l -> first P l None.

Lemma first_cons {A} (P : A -> Prop) x l o :
  first P (x :: l) o <-> (P x ∧ o = Some x) ∨ (~ P x ∧ first P l o).
Proof.
  split.
  - intros [pre y post Heq Hpre Hy|Hall].
    + destruct pre as [|z pre]; injection Heq as -> ->; [by left|]. apply Forall_cons in Hpre as [? ?].
      right. split; [done|]. by econstructor.
    + apply Forall_cons in Hall as [? ?]. right. split; [done|]. by constructor.
  - intros [[Hx ->]|[Hx [pre y post -> Hpre Hy|Hall]]].
    + by apply (first_some _ _ [] _ l).
    + apply (first_some _ _ (x :: pre) _ post); [done|by constructor|done].
    + by constructor; constructor.
Qed.

Lemma decides_first event rules o : decides event rules o <-> first (rule_matches event) rules o.
Proof. split; intros []; econstructor; done. Qed.

(** First matches carry over to a list that agrees element by element. *)
Lemma first_Forall2 {A B} (R : A -> B -> Prop) (P : A -> Prop) (Q : B -> Prop) l l' o :
  Forall2 R l l' -> (∀ x y, R x y -> P x <-> Q y) -> first P l o ->
  ∃ o', first Q l' o' ∧ option_Forall2 R o o'.
Proof.
  intros HR HPQ. revert o. induction HR as [|x y l l' Hxy _ IH]; intros o.
  - intros [pre ? ? Heq ? ?|_]; [by destruct pre|]. exists None. by split; constructor.
  - setoid_rewrite first_cons. pose proof (HPQ x y Hxy) as Hxyiff. intros [[Hx ->]|[Hx Hf]].
    + exists (Some y). split; [left; tauto|by constructor].
    + destruct (IH _ Hf) as (o' & ? & ?). exists o'. split; [right; tauto|done].
Qed.

Section merged.
Context (json : string -> rawConditions -> option string).

(** Rules whose fingerprints agree have the same event and conditions. *)
Definition faithful (rules : list sourcedRule) : Prop :=
  ∀ sr sr', sr ∈ rules -> sr' ∈ rules -> ruleFingerprint json (sr_rule sr) = ruleFingerprint json (sr_rule sr') ->
    rr_Event (sr_rule sr) = rr_Event (sr_rule sr') ∧ rr_Conditions (sr_rule sr) = rr_Conditions (sr_rule sr').

(** Dropping the later ones of equal rules does not change the first match. *)
Lemma first_kept (P : RuleYAML -> Prop) dedup seen rules o :
  (∀ r r', rr_Event r = rr_Event r' -> rr_Conditions r = rr_Conditions r' -> P r -> P r') ->
  faithful rules ->
  (∀ sr, sr ∈ rules -> ruleFingerprint json (sr_rule sr) ∈ seen -> ~ P (sr_rule sr)) ->
  first (P ∘ sr_rule) rules o -> first (P ∘ sr_rule) (kept json dedup seen rules) o.
Proof.
  intros HP. revert seen. induction rules as [|sr rules IH]; intros seen Hf Hseen; simpl; [done|].
  assert (Hf' : faithful rules) by (intros ? ? ? ?; apply Hf; by right).
  rewrite first_cons. simpl. destruct (dedup && bool_decide (_ ∈ seen)) eqn:Hd.
  - apply andb_true_iff in Hd as [_ Hd%bool_decide_eq_true].
    intros [[Hx _]|[_ Hfirst]]; [by apply Hseen in Hx; [|left|]|].
    apply IH; [done| |done]. intros sr' Hin. apply Hseen. by right.
  - rewrite first_cons. intros [[Hx ->]|[Hx Hfirst]]; [by left|]. right. split; [done|].
    apply IH; [done| |done]. intros sr' Hin [Heq%elem_of_singleton|Hs]%elem_of_union Hp; [|by eapply Hseen; [right| |]].
    apply Hx. destruct (Hf sr' sr) as [? ?]; [by right|by left|done|]. by eapply HP.
Qed.

(** *** From documents to rules *)

Definition raw_matches (variables : list (string * yaml)) (event : ApiEvent) (rr : RuleYAML) : Prop :=
  ∃ r, elaborates_rule variables rr r ∧ rule_matches event r.

Lemma elaborates_rule_unique variables rr r r' :
  elaborates_rule variables rr r -> elaborates_rule variables rr r' -> r = r'.
Proof. rewrite <- !parseRule_Ret. congruence. Qed.

(** A rule with the same event and conditions elaborates to the same conditions. *)
Lemma elaborates_rule_same variables rr rr' r :
  elaborates_rule variables rr r -> rr_Event rr = rr_Event rr' -> rr_Conditions rr = rr_Conditions rr' ->
  elaborates_rule variables rr'
    (MkRule (rr_Name rr') (rr_Event rr') (r_Conditions r) (rr_Action rr') (rr_Mode rr') (rr_Reason rr')).
Proof. intros [Hall Hany Hnot _] _ Hc. rewrite Hc in *. by split. Qed.

Lemma raw_matches_same variables event rr rr' :
  rr_Event rr = rr_Event rr' -> rr_Conditions rr = rr_Conditions rr' ->
  raw_matches variables event rr -> raw_matches variables event rr'.
Proof.
  intros He Hc (r & Hr & [Hev Hm]). eexists. split; [by eapply elaborates_rule_same|].
  split; [|done]. simpl. rewrite <- He, <- Hev. by rewrite (er_rest _ _ _ Hr).
Qed.

Lemma raw_matches_elaborated variables event rr r :
  elaborates_rule variables rr r -> rule_matches event r <-> raw_matches variables event rr.
Proof.
  intros Hr. split; [by exists r|]. intros (r' & Hr' & Hm).
  by rewrite (elaborates_rule_unique _ _ _ _ Hr Hr').
Qed.

(** A rule that differs in name and reason only elaborates to a rule with the same code. *)
Lemma alike_elaborates variables rr rr' r :
  alike rr rr' -> elaborates_rule variables rr r -> rule_ok r ->
  ∃ r', elaborates_rule variables rr' r' ∧ rule_ok r'.
Proof.
  intros (He & Hc & Ha & Hm & Hn) Hr Hok. eexists. split; [by eapply elaborates_rule_same|].
  pose proof (er_rest _ _ _ Hr) as Heq. destruct Hok. rewrite Heq in *. simpl in *.
  split; simpl; rewrite ?He, ?Ha, ?Hm; auto.
Qed.

Lemma alike_code variables rr rr' r r' :
  alike rr rr' -> elaborates_rule variables rr r -> elaborates_rule variables rr' r' -> rule_code r' = rule_code r.
Proof.
  intros (He & Hc & Ha & Hm & Hn) Hr Hr'. unfold rule_code.
  rewrite (er_rest _ _ _ Hr), (er_rest _ _ _ Hr'). simpl. by rewrite Ha, Hm.
Qed.

Lemma all_rules_rules policies sources :
  sr_rule <$> all_rules policies sources = concat (rp_Rules <$> policies).
Proof.
  revert sources. induction policies as [|p policies IH]; intros sources; simpl; [done|].
  rewrite fmap_app, IH, <- list_fmap_compose. f_equal. apply list_fmap_id.
Qed.

(** No rule refers to a variable that means something else after the merge. *)
Definition unchanged (policies : list PolicyYAML) (variables : list (string * yaml)) : Prop :=
  Forall (fun p => Forall (fun rr => parseRule (rp_Variables p) rr = parseRule variables rr) (rp_Rules p)) policies.

Lemma policies_elaborate policies Ps variables :
  Forall2 (fun raw P => Parse_raw raw = Ret P) policies Ps -> unchanged policies variables ->
  Forall2 (fun rr r => elaborates_rule variables rr r ∧ rule_ok r)
    (concat (rp_Rules <$> policies)) (concat (p_Rules <$> Ps)).
Proof.
  intros HPs. induction HPs as [|raw P policies Ps HP _ IH]; simpl; [constructor|].
  intros [Hu Hus]%Forall_cons. apply Forall2_app; [|by apply IH].
  apply Parse_raw_Ret in HP as [[Hel _] [_ _ _ Hok _]]. clear -Hel Hok Hu.
  revert Hu Hok. induction Hel as [|rr r rrs rs Hr _ IH]; [constructor|].
  intros [Hu Hus]%Forall_cons [Hok Hoks]%Forall_cons. constructor; [|by apply IH].
  split; [|done]. apply parseRule_Ret. rewrite <- Hu. by apply parseRule_Ret.
Qed.

Lemma strictestAction_valid policies : strictestAction policies ∈ ["allow"; "deny"; "log"].
Proof. unfold strictestAction. repeat case_match; (lia || listed). Qed.

Lemma max_version_ge policies : 1 <= max_version policies.
Proof.
  unfold max_version. assert (Hg : ∀ v, 1 <= v ->
    1 <= fold_left (fun v p => if v <? rp_Version p then rp_Version p else v) policies v); [|by apply Hg].
  induction policies as [|p policies IH]; intros v Hv; simpl; [done|]. apply IH.
  destruct (Z.ltb_spec v (rp_Version p)); lia.
Qed.

Lemma Merge_union order policies sources opts res :
  strategy_of opts = "union" -> Merge json order policies sources opts = Ret res ->
  rp_Name (mr_Policy res) ≠ "" ∧ 1 <= rp_Version (mr_Policy res) ∧
  rp_DefaultAction (mr_Policy res) = strictestAction policies ∧ (2 <= length policies)%nat ∧
  Forall2 alike (sr_rule <$> kept json (mo_Dedup opts) ∅ (all_rules policies sources)) (rp_Rules (mr_Policy res)).
Proof.
  intros Hs. unfold Merge. destruct (Z.ltb_spec (Z.of_nat (length policies)) 2); [done|].
  unfold merge_rules. rewrite Hs.
  destruct (applyUnion_returns json (all_rules policies sources) opts) as (rules & n & -> & _ & Hk). simpl.
  intros [= <-]. simpl. split_and!; [|apply max_version_ge|done|lia|done].
  by destruct (String.eqb_spec (mo_Name opts) "").
Qed.

Lemma kept_nonempty dedup rules : rules ≠ [] -> kept json dedup ∅ rules ≠ [].
Proof.
  destruct rules as [|sr rules]; [done|]. intros _. cbn [kept].
  rewrite bool_decide_eq_false_2 by apply not_elem_of_empty. by rewrite andb_false_r.
Qed.

Lemma kept_subset dedup seen rules sr : sr ∈ kept json dedup seen rules -> sr ∈ rules.
Proof.
  revert seen. induction rules as [|sr' rules IH]; intros seen; cbn [kept]; [done|].
  case_match; rewrite ?elem_of_cons; [eauto|]. intros [->|]; eauto.
Qed.

(** Every rule of the merged document elaborates, because its original does. *)
Lemma merged_elaborates variables rules merged :
  Forall (fun sr => ∃ r, elaborates_rule variables (sr_rule sr) r ∧ rule_ok r) rules ->
  Forall2 alike (sr_rule <$> rules) merged ->
  ∃ rs, Forall2 (elaborates_rule variables) merged rs ∧ Forall rule_ok rs.
Proof.
  intros Hr. revert merged. induction Hr as [|sr rules (r & Hr & Hok) _ IH]; intros merged; simpl.
  - intros ->%Forall2_nil_inv_l. exists []. by split.
  - intros (rr & merged' & Ha & Hm & ->)%Forall2_cons_inv_l.
    destruct (IH _ Hm) as (rs & ? & ?). destruct (alike_elaborates _ _ _ _ Ha Hr Hok) as (r' & ? & ?).
    exists (r' :: rs). by split; constructor.
Qed.

Lemma policies_nonempty policies Ps :
  Forall2 (fun raw P => Parse_raw raw = Ret P) policies Ps -> (2 <= length policies)%nat ->
  concat (rp_Rules <$> policies) ≠ [].
Proof.
  intros [|raw P ? ? HP _] Hlen; simpl in *; [lia|].
  apply Parse_raw_Ret in HP as [[Hel _] [_ _ Hne _ _]].
  destruct (rp_Rules raw) eqn:Hr; [|done]. by apply Forall2_nil_inv_l in Hel.
Qed.

Lemma rules_elaborate policies sources Ps variables :
  Forall2 (fun raw P => Parse_raw raw = Ret P) policies Ps -> unchanged policies variables ->
  Forall2 (fun r sr => elaborates_rule variables (sr_rule sr) r ∧ rule_ok r)
    (concat (p_Rules <$> Ps)) (all_rules policies sources).
Proof.
  intros HPs Hu. pose proof (policies_elaborate _ _ _ HPs Hu) as Hel.
  rewrite <- (all_rules_rules policies sources) in Hel. apply Forall2_fmap_l in Hel. by apply Forall2_flip.
Qed.

(** The first match among the rules of the policies and the one of the merged rules. *)
Lemma merged_first variables dedup policies sources Ps merged rs event o :
  Forall2 (fun raw P => Parse_raw raw = Ret P) policies Ps -> unchanged policies variables ->
  faithful (all_rules policies sources) ->
  Forall2 alike (sr_rule <$> kept json dedup ∅ (all_rules policies sources)) merged ->
  Forall2 (elaborates_rule variables) merged rs ->
  decides event (concat (p_Rules <$> Ps)) o ->
  ∃ o', decides event rs o' ∧ rule_code <$> o' = rule_code <$> o.
Proof.
  intros HPs Hu Hf Hk Hrs Ho%decides_first.
  pose proof (rules_elaborate policies sources Ps variables HPs Hu) as Hel.
  eapply (first_Forall2 _ _ (raw_matches variables event ∘ sr_rule)) in Ho as (o1 & Ho1 & Hr1); [|exact Hel|].
  2: { intros r sr [Hr _]. by apply raw_matches_elaborated. }
  apply (first_kept _ dedup ∅) in Ho1; [|intros *; apply raw_matches_same|done|by intros ? _ ?%not_elem_of_empty].
  rewrite Forall2_fmap_l in Hk.
  eapply (first_Forall2 _ _ (raw_matches variables event)) in Ho1 as (o2 & Ho2 & Hr2); [|exact Hk|].
  2: { intros sr rr (He & Hc & _). split; apply raw_matches_same; congruence. }
  eapply (first_Forall2 _ _ (rule_matches event)) in Ho2 as (o3 & Ho3 & Hr3); [|exact Hrs|].
  2: { intros rr r Hr. symmetry. by apply raw_matches_elaborated. }
  exists o3. split; [by apply decides_first|].
  destruct Hr1 as [r sr [Hr _]|]; inversion Hr2; subst; inversion Hr3; subst; [|done].
  simpl. f_equal. by eapply alike_code.
Qed.

(** C11: when joining the variables of the policies leaves every rule its meaning, and the
    fingerprints of their rules tell different events and conditions apart, a union decides
    every event as its policies do, tried one after the other: the merged document is
    accepted by the compiler's parser, and its first matching rule has the verdict of the
    first matching rule of all policies, de-duplication, renaming and annotation
    notwithstanding; without a match the strictest default applies.  The first condition
    cannot be dropped, see [variables_are_joined]. *)
Theorem union_merge_decides order policies sources opts res Ps :
  strategy_of opts = "union" -> Merge json order policies sources opts = Ret res ->
  Forall2 (fun raw P => Parse_raw raw = Ret P) policies Ps ->
  unchanged policies (rp_Variables (mr_Policy res)) -> faithful (all_rules policies sources) ->
  ∃ M, Parse_raw (mr_Policy res) = Ret M ∧ p_DefaultAction M = strictestAction policies ∧
    ∀ event o, decides event (concat (p_Rules <$> Ps)) o ->
      ∃ o', decides event (p_Rules M) o' ∧ rule_code <$> o' = rule_code <$> o.
Proof.
  intros Hs Hm HPs Hu Hf.
  destruct (Merge_union _ _ _ _ _ Hs Hm) as (Hname & Hver & Hdef & Hlen & Hk).
  pose proof (rules_elaborate policies sources Ps _ HPs Hu) as Hel.
  destruct (merged_elaborates (rp_Variables (mr_Policy res)) (kept json (mo_Dedup opts) ∅ (all_rules policies sources))
              (rp_Rules (mr_Policy res))) as (rs & Hrs & Hoks); [|done|].
  { apply Forall_forall. intros sr [i Hi]%kept_subset%list_elem_of_lookup.
    destruct (Forall2_lookup_r _ _ _ _ _ Hel Hi) as (r & _ & ?). by exists r. }
  exists (MkPolicy (rp_Name (mr_Policy res)) (rp_Version (mr_Policy res)) (rp_Description (mr_Policy res))
            (rp_Variables (mr_Policy res)) rs (strictestAction policies)).
  split_and!; [|done|intros event o Ho; by eapply merged_first].
  apply Parse_raw_Ret. pose proof (strictestAction_valid policies) as Hact. split; split; simpl; try done.
  - rewrite Hdef. f_equal. unfold strictestAction. by repeat case_match.
  - intros ->. apply Forall2_nil_inv_r in Hrs. rewrite Hrs in Hk. apply Forall2_nil_inv_r, fmap_nil_inv in Hk.
    revert Hk. apply kept_nonempty. intros Hnil. apply (policies_nonempty _ _ HPs Hlen).
    rewrite <- (all_rules_rules policies sources). by rewrite Hnil.
Qed.
End merged.

(** ** The check of a merged document *)

Lemma validateConditionFields_Ret cond allowed idx name :
  validateConditionFields cond allowed idx name = Ret tt <-> Forall (fun kv => kv.1 ∈ allowed) cond.
Proof.
  induction cond as [|[field v] cond IH]; simpl; [done|]. rewrite Forall_cons. simpl.
  case_bool_decide; [rewrite IH|]; naive_solver.
Qed.

Lemma validateConditionList_Ret conds allowed idx name :
  validateConditionList conds allowed idx name = Ret tt <-> Forall (Forall (fun kv => kv.1 ∈ allowed)) conds.
Proof.
  induction conds as [|cond conds IH]; simpl; [done|].
  rewrite Forall_cons, go_bind_Ret, <- IH, <- (validateConditionFields_Ret cond allowed idx name).
  split; [by intros ([] & ? & ?)|]. intros [? ?]. by exists tt.
Qed.

Lemma eventFields_same event : eventFields event = fieldsForEvent event.
Proof. done. Qed.

Lemma elaborated_fields variables (allowed : list string) entries cs :
  Forall2 (elaborates_condition variables) entries cs -> Forall (fun c => c_Field c ∈ allowed) cs ->
  Forall (Forall (fun kv => kv.1 ∈ allowed)) entries.
Proof.
  induction 1 as [|entry c entries cs Hc _ IH]; [constructor|].
  intros [Hf Hfs]%Forall_cons. constructor; [|by apply IH]. destruct Hc; by constructor.
Qed.

Lemma validateRule_elaborated variables rr r idx :
  elaborates_rule variables rr r -> rule_ok r -> validateRule rr idx = Ret tt.
Proof.
  intros Hr [Hn He Ha Hm Hsome Hc]. destruct Hr as [Hall Hany Hnot Heq]. rewrite Heq in Hn, He, Ha, Hm. simpl in *.
  assert (Hrev : r_Event r = rr_Event rr) by (by rewrite Heq). rewrite Hrev in Hc.
  unfold conditions, condition_ok in Hc. rewrite !Forall_app in Hc. rewrite !Forall_and in Hc.
  destruct Hc as ([Ca _] & [Cy _] & [Cn _]). unfold validateRule.
  destruct (String.eqb_spec (rr_Name rr) ""); [done|].
  rewrite (bool_decide_eq_true_2 (rr_Event rr ∈ validEvents)) by done.
  rewrite (bool_decide_eq_true_2 (rr_Action rr ∈ validActions)) by done. cbn [negb].
  assert (Hmode : negb (String.eqb (rr_Mode rr) "") && negb (String.eqb (rr_Mode rr) "enforce")
                  && negb (String.eqb (rr_Mode rr) "audit") = false).
  { rewrite !andb_false_iff, !negb_false_iff, !String.eqb_eq. list_cases Hm; auto. }
  rewrite Hmode.
  assert (Hl : ∀ entries cs, Forall2 (elaborates_condition variables) entries cs ->
    Forall (fun c => c_Field c ∈ fieldsForEvent (rr_Event rr)) cs ->
    validateConditionList entries (eventFields (rr_Event rr)) idx (rr_Name rr) = Ret tt).
  { intros entries cs H1 H2. apply validateConditionList_Ret. rewrite eventFields_same. by eapply elaborated_fields. }
  pose proof (Hl _ _ Hall Ca) as H1. pose proof (Hl _ _ Hany Cy) as H2. pose proof (Hl _ _ Hnot Cn) as H3.
  destruct (rc_All (rr_Conditions rr)), (rc_Any (rr_Conditions rr)), (rc_Not (rr_Conditions rr));
    [|by rewrite H1, ?H2, ?H3; simpl; rewrite ?H2; simpl..].
  apply Forall2_nil_inv_l in Hall, Hany, Hnot. unfold conditions in Hsome. by rewrite Hall, Hany, Hnot in Hsome.
Qed.

(** Whatever the compiler accepts passes the check; it does not look at operators and
    at the number of fields of an entry, so the converse fails. *)
Lemma accepted_validates raw P : Parse_raw raw = Ret P -> PolicyMerge.Validate raw = Ret tt.
Proof.
  intros [[Hel Heq] [Hn Hv Hs Hok Hd]]%Parse_raw_Ret. rewrite Heq in Hn, Hv, Hd. cbn [p_Name p_Version p_DefaultAction] in *. unfold PolicyMerge.Validate.
  destruct (String.eqb_spec (rp_Name raw) ""); [done|].
  destruct (Z.ltb_spec (rp_Version raw) 1); [lia|].
  assert (Hrules : ∀ idx, validateRules (rp_Rules raw) idx = Ret tt).
  { clear -Hel Hok. revert Hok. induction Hel as [|rr r rrs rs Hr _ IH]; intros Hok idx; [done|].
    apply Forall_cons in Hok as [Hok Hoks]. simpl.
    rewrite (validateRule_elaborated _ _ _ idx Hr Hok). by apply IH. }
  destruct (rp_Rules raw) eqn:Hr; [by apply Forall2_nil_inv_l in Hel|]. rewrite <- Hr.
  destruct (String.eqb_spec (rp_DefaultAction raw) "") as [He|He]; [|].
  - rewrite Hr. apply Hrules.
  - rewrite (bool_decide_eq_true_2 (rp_DefaultAction raw ∈ validActions)) by done. rewrite Hr. apply Hrules.
Qed.

(** ** Concrete documents *)

(** An encoder that is injective on the documents below. *)
Definition demo_json (event : string) (c : rawConditions) : option string :=
  Some (event +:+ Sprint_v (YList [YList (YMap <$> rc_All c); YList (YMap <$> rc_Any c); YList (YMap <$> rc_Not c)])).

Definition path_is (name path action mode : string) : RuleYAML :=
  MkRawRule name "process" (MkRawConditions [[("path", YStr path)]] [] []) action mode "".
Definition comm_in (name variable action : string) : RuleYAML :=
  MkRawRule name "process" (MkRawConditions [[("comm", YMap [("any_of", YStr variable)])]] [] []) action "" "".

Definition demo_base : PolicyYAML :=
  MkRawPolicy "base" 1 "" [] [path_is "no-shell" "/bin/sh" "deny" ""] "allow".
Definition demo_extra : PolicyYAML :=
  MkRawPolicy "extra" 3 "" []
    [path_is "shell" "/bin/sh" "allow" ""; path_is "no-shell" "/bin/nc" "log" ""] "allow".

Definition demo_opts (strategy : string) : MergeOptions := MkMergeOptions "" "" strategy true true.
Definition demo_sources : list string := ["base.yaml"; "extra.yaml"].

Definition merged_rules (m : go MergeResult) : list (string * string * string) :=
  match m with
  | Ret res => (fun r => (rr_Name r, rr_Action r, rr_Mode r)) <$> rp_Rules (mr_Policy res)
  | _ => []
  end.

(** The strategies on the two documents; an intersection keeps the action of the first. *)
Example demo_strategies :
  let merge s := Merge demo_json (fun l => l) [demo_base; demo_extra] demo_sources (demo_opts s) in
  merged_rules (merge "") = [("no-shell", "deny", ""); ("no-shell-2", "log", "")] ∧
  merged_rules (merge "intersection") = [("no-shell", "deny", "")] ∧
  merged_rules (Merge demo_json (fun l => l) [demo_extra; demo_base] demo_sources (demo_opts "intersection")) =
    [("shell", "allow", "")] ∧
  merged_rules (Merge demo_json (fun l => l) [demo_extra; demo_base] demo_sources (demo_opts "deny-wins")) =
    [("shell", "deny", ""); ("no-shell", "log", "")].
Proof. split_and!; vm_compute; reflexivity. Qed.

Lemma merge_rules_exact_witness :
  (∀ l : list fpSource, l ≡ₚ l) ∧
  ∃ res, Merge demo_json (fun l => l) [demo_base; demo_extra] demo_sources (demo_opts "union") = Ret res ∧
    NoDup (rr_Name <$> rp_Rules (mr_Policy res)).
Proof.
  assert (Hp : ∀ l : list fpSource, l ≡ₚ l) by done. split; [exact Hp|].
  destruct (merge_rules_exact demo_json (fun l => l) [demo_base; demo_extra] demo_sources (demo_opts "union") Hp)
    as [[Hlt _]|[_ [(res & Hres & Hnd & _)|[Hnin _]]]].
  - simpl in Hlt. lia.
  - by exists res.
  - destruct Hnin. by left.
Defined.

Definition demo_merged : MergeResult :=
  match Merge demo_json (fun l => l) [demo_base; demo_extra] demo_sources (demo_opts "") with
  | Ret res => res
  | _ => MkMergeResult demo_base 0 0 0
  end.
Definition parsed (raw : PolicyYAML) : Policy :=
  match Parse_raw raw with Ret P => P | _ => MkPolicy "" 0 "" [] [] "" end.

Lemma demo_faithful : faithful demo_json (all_rules [demo_base; demo_extra] demo_sources).
Proof.
  intros sr sr' Hsr Hsr'. simpl in Hsr, Hsr'.
  list_cases Hsr; list_cases Hsr'; vm_compute; intros Heq; (done || discriminate Heq).
Qed.

Lemma union_merge_decides_witness :
  ∃ M, Parse_raw (mr_Policy demo_merged) = Ret M ∧ p_DefaultAction M = strictestAction [demo_base; demo_extra] ∧
    ∀ event o, decides event (concat (p_Rules <$> [parsed demo_base; parsed demo_extra])) o ->
      ∃ o', decides event (p_Rules M) o' ∧ rule_code <$> o' = rule_code <$> o.
Proof.
  apply (union_merge_decides demo_json (fun l => l) [demo_base; demo_extra] demo_sources (demo_opts "")).
  - reflexivity.
  - vm_compute. reflexivity.
  - repeat constructor.
  - repeat constructor.
  - apply demo_faithful.
Defined.

(** Policies that all allow by default merge to one that denies by default. *)
Example merged_default_denies :
  rp_DefaultAction demo_base = "allow" ∧ rp_DefaultAction demo_extra = "allow" ∧
  rp_DefaultAction (mr_Policy demo_merged) = "deny".
Proof. split_and!; vm_compute; reflexivity. Qed.

(** A denial that wins over a rule in audit mode is not enforced. *)
Example deny_wins_in_audit_mode :
  merged_rules (Merge demo_json (fun l => l)
    [MkRawPolicy "a" 1 "" [] [path_is "observe" "/bin/sh" "log" "audit"] ""; demo_base] demo_sources
    (demo_opts "deny-wins")) = [("observe", "deny", "audit")].
Proof. vm_compute. reflexivity. Qed.

(** Variables of the same name are joined, so that a rule of one policy applies to the
    values of the other: an allowance for alice now covers bob, and the rule with which
    the second policy denies bob is dropped as a duplicate, because both rules say
    $users.  Lists of numbers are not joined: the last one wins, and numbers in a list
    that also has strings are lost. *)
Definition demo_alice : PolicyYAML :=
  MkRawPolicy "alice" 1 "" [("users", YList [YStr "alice"])] [comm_in "allow-users" "$users" "allow"] "deny".
Definition demo_bob : PolicyYAML :=
  MkRawPolicy "bob" 1 "" [("users", YList [YStr "bob"])] [comm_in "deny-users" "$users" "deny"] "deny".

Definition comm_values (P : Policy) : list (string * yaml) :=
  (fun r => (r_Action r, from_option c_Value YNull (head (c_All (r_Conditions r))))) <$> p_Rules P.

Example variables_are_joined :
  comm_values (parsed demo_alice) = [("allow", YList [YStr "alice"])] ∧
  match Merge demo_json (fun l => l) [demo_alice; demo_bob] demo_sources (demo_opts "") with
  | Ret res => comm_values (parsed (mr_Policy res))
  | _ => []
  end = [("allow", YList [YStr "alice"; YStr "bob"])] ∧
  mergeVariableValues (YList [YInt 22]) (YList [YInt 80]) = YList [YInt 80] ∧
  mergeVariableValues (YList [YStr "a"; YInt 22]) (YList [YInt 80]) = YList [YStr "a"].
Proof. split_and!; vm_compute; reflexivity. Qed.

(** The check of merged documents accepts an operator that the compiler does not know. *)
Example check_is_weaker :
  let raw := MkRawPolicy "p" 1 "" []
    [MkRawRule "r" "process" (MkRawConditions [[("path", YMap [("matches", YStr "sh")])]] [] []) "deny" "" ""] "" in
  PolicyMerge.Validate raw = Ret tt ∧ ∃ err, Parse_raw raw = Fail err.
Proof. split; [vm_compute; reflexivity|]. eexists. vm_compute. reflexivity. Qed.
