(* ===== verification/PolicyDiff.v ===== *)
(** internal/policydiff/diff.go: the difference of two policy documents.

    A rule is identified by the first eight bytes of the SHA-256 sum of the JSON encoding
    of its event and conditions; the encoder is an argument, and an error leaves it empty.
    [orderA] and [orderB] are the iteration orders of the two maps; as they are arbitrary,
    they also stand for what the unstable sort of the source does with equal names. *)

From stdpp Require Import sorting.
From S2P Require Import Prelude GoApi GoFmt Sha256 PolicySchema PolicySemantics PolicyMerge MergedPolicy.

Import compiler.

Record DiffResult : Type := MkDiffResult {
  OnlyA : list RuleYAML;
  OnlyB : list RuleYAML;
  Both : list RuleYAML;
}.

Section Diff.
Context (json : string -> rawConditions -> option (list Z)).

Definition fingerprint (r : RuleYAML) : list Z :=
  hex_EncodeToString (take 8 (Sha256.Sum (default [] (json (rr_Event r) (rr_Conditions r))))).

(** A later rule with the same fingerprint replaces an earlier one. *)
Definition fingerprints (rules : list RuleYAML) : gmap (list Z) RuleYAML :=
  fold_left (fun m r => <[fingerprint r := r]> m) rules ∅.

Definition by_name (r r' : RuleYAML) : Prop := String.leb (rr_Name r) (rr_Name r') = true.
#[global] Instance by_name_dec : RelDecision by_name.
Proof. intros r r'. unfold by_name. apply _. Defined.

(** The rules of the entries whose fingerprint the other map has, or does not have. *)
Definition shared (other : gmap (list Z) RuleYAML) (b : bool) (entries : list (list Z * RuleYAML)) : list RuleYAML :=
  snd <$> filter (fun e => bool_decide (is_Some (other !! e.1)) = b) entries.

Definition Diff (orderA orderB : list (list Z * RuleYAML) -> list (list Z * RuleYAML)) (a b : PolicyYAML) : DiffResult :=
  let fpA := fingerprints (rp_Rules a) in
  let fpB := fingerprints (rp_Rules b) in
  MkDiffResult (merge_sort by_name (shared fpB false (orderA (map_to_list fpA))))
    (merge_sort by_name (shared fpA false (orderB (map_to_list fpB))))
    (merge_sort by_name (shared fpB true (orderA (map_to_list fpA)))).

Definition FormatSummary (r : DiffResult) (nameA nameB : string) : string :=
  "Only in " +:+ nameA +:+ ": " +:+ Sprint_d (Z.of_nat (length (OnlyA r))) +:+ " rules" +:+ nl +:+
  "Only in " +:+ nameB +:+ ": " +:+ Sprint_d (Z.of_nat (length (OnlyB r))) +:+ " rules" +:+ nl +:+
  "In both:    " +:+ Sprint_d (Z.of_nat (length (Both r))) +:+ " rules" +:+ nl.

(** A section is written only for a list that is not empty. *)
Definition format_section (title : string) (rules : list RuleYAML) : string :=
  match rules with
  | [] => ""
  | _ => "=== " +:+ title +:+ " (" +:+ Sprint_d (Z.of_nat (length rules)) +:+ " rules) ===" +:+ nl +:+
         String.concat "" ((fun rule => "  - [" +:+ rr_Event rule +:+ "] " +:+ rr_Name rule +:+
                                        " (" +:+ rr_Action rule +:+ ")" +:+ nl) <$> rules) +:+ nl
  end.
Definition FormatDetailed (r : DiffResult) (nameA nameB : string) : string :=
  format_section ("Only in " +:+ nameA) (OnlyA r) +:+ format_section ("Only in " +:+ nameB) (OnlyB r) +:+
  format_section "In both" (Both r).

(** ** What a difference says *)

Lemma fingerprints_lookup rules f :
  fingerprints rules !! f = last (filter (fun r => fingerprint r = f) rules).
Proof.
  induction rules as [|r rules IH] using rev_ind; [done|].
  unfold fingerprints. rewrite fold_left_app. fold (fingerprints rules). simpl.
  rewrite filter_app, filter_cons, filter_nil. destruct (decide (fingerprint r = f)) as [<-|Hne].
  - by rewrite lookup_insert_eq, last_snoc.
  - by rewrite lookup_insert_ne, app_nil_r.
Qed.

Lemma elem_of_shared other b m entries r :
  entries ≡ₚ map_to_list m ->
  r ∈ shared other b entries <-> ∃ f, m !! f = Some r ∧ bool_decide (is_Some (other !! f)) = b.
Proof.
  intros Hperm. unfold shared. rewrite list_elem_of_fmap. setoid_rewrite list_elem_of_filter.
  setoid_rewrite Hperm. split.
  - intros ([f r'] & -> & Hb & Hin%elem_of_map_to_list). by exists f.
  - intros (f & Hf%elem_of_map_to_list & Hb). by exists (f, r).
Qed.

Lemma length_shared other entries :
  (length (shared other false entries) + length (shared other true entries) = length entries)%nat.
Proof.
  unfold shared. rewrite !length_fmap. induction entries as [|e entries IH]; [done|].
  rewrite !filter_cons. destruct (bool_decide _); simpl; lia.
Qed.

#[local] Instance by_name_total : Total by_name.
Proof.
  intros r r'. unfold by_name, String.leb. rewrite (String.compare_antisym (rr_Name r') (rr_Name r)).
  destruct (String.compare _ _); auto.
Qed.

(** The difference of two policies lists every fingerprint of either once, on the
    side or sides that have it: a rule is listed as only in the first policy exactly when
    it is the last with its fingerprint there and the second has none with it, likewise
    for the second, and as in both with the rule of the first.  The lists are sorted by
    name and their lengths add up, whatever order the maps are iterated in. *)
Lemma diff_lists orderA orderB a b :
  (∀ l, orderA l ≡ₚ l) -> (∀ l, orderB l ≡ₚ l) ->
  let last_of p f := last (filter (fun r => fingerprint r = f) (rp_Rules p)) in
  let d := Diff orderA orderB a b in
  (∀ r, r ∈ OnlyA d <-> ∃ f, last_of a f = Some r ∧ last_of b f = None) ∧
  (∀ r, r ∈ OnlyB d <-> ∃ f, last_of b f = Some r ∧ last_of a f = None) ∧
  (∀ r, r ∈ Both d <-> ∃ f, last_of a f = Some r ∧ is_Some (last_of b f)) ∧
  Sorted by_name (OnlyA d) ∧ Sorted by_name (OnlyB d) ∧ Sorted by_name (Both d) ∧
  (length (OnlyA d) + length (Both d) = size (fingerprints (rp_Rules a)))%nat.
Proof.
  intros HA HB last_of d. unfold d, Diff. simpl.
  split_and!; try apply (Sorted_merge_sort _).
  1-3: intros r; rewrite merge_sort_Permutation, elem_of_shared by eauto; unfold last_of;
    setoid_rewrite <- fingerprints_lookup; apply exist_proper; intros f;
    rewrite ?bool_decide_eq_false, ?bool_decide_eq_true, <- ?eq_None_not_Some; done.
  rewrite !merge_sort_Permutation, length_shared, HA. apply length_map_to_list.
Qed.
End Diff.

Definition demo_json_bytes (event : string) (c : rawConditions) : option (list Z) := bstr <$> demo_json event c.

Lemma diff_lists_witness :
  (∀ l : list (list Z * RuleYAML), l ≡ₚ l) ∧
  (length (OnlyA (Diff demo_json_bytes (fun l => l) (fun l => l) demo_base demo_extra)) +
     length (Both (Diff demo_json_bytes (fun l => l) (fun l => l) demo_base demo_extra)) =
   size (fingerprints demo_json_bytes (rp_Rules demo_base)))%nat.
Proof.
  assert (Hp : ∀ l : list (list Z * RuleYAML), l ≡ₚ l) by done. split; [exact Hp|].
  destruct (diff_lists demo_json_bytes (fun l => l) (fun l => l) demo_base demo_extra Hp Hp)
    as (_ & _ & _ & _ & _ & _ & Hlen). exact Hlen.
Defined.

(** Two policies with no difference may decide differently: one denies what the other
    allows, because actions, modes and the default are not compared. *)
Example no_difference_but_other_decisions :
  let a := demo_base in
  let b := MkRawPolicy "other" 1 "" [] [path_is "shell" "/bin/sh" "allow" ""] "allow" in
  let d := Diff demo_json_bytes (fun l => l) (fun l => l) a b in
  OnlyA d = [] ∧ OnlyB d = [] ∧ length (Both d) = 1%nat ∧
  (rule_code <$> p_Rules (parsed a)) = [1] ∧ (rule_code <$> p_Rules (parsed b)) = [0].
Proof. split_and!; vm_compute; reflexivity. Qed.
