(* ===== verification/Jwt.v ===== *)
(** internal/crypto/jwt.go: tokens signed with HMAC-SHA256 or Ed25519, and what they use of
    crypto/hmac, encoding/base64 and strings.

    Texts are byte strings.  The JSON encoding of the claims is an argument, because it
    escapes strings; that of the header is constant.  Clock readings and durations are
    nanoseconds; issuing reads the clock twice. *)

From S2P Require Import Prelude GoApi Sha256.

(** ** crypto/hmac over SHA-256 *)

Definition hmac_key (secret : list Z) : list Z :=
  let k := if 64 <? Z.of_nat (length secret) then Sha256.Sum secret else secret in
  k ++ replicate (64 - length k) 0.

Definition hmac_Sum (secret data : list Z) : list Z :=
  let k := hmac_key secret in
  Sha256.Sum ((Z.lxor 92 <$> k) ++ Sha256.Sum ((Z.lxor 54 <$> k) ++ data)).

(** ** base64.RawURLEncoding *)

Definition base64_alphabet : list Z :=
  bstr "ABCDEFGHIJKLMNOPQRSTUVWXYZabcdefghijklmnopqrstuvwxyz0123456789-_".

Definition symbol (v : Z) : Z := nth (Z.to_nat v) base64_alphabet 0.
Definition symbol_value (c : Z) : option Z :=
  (fun iv => Z.of_nat iv.1) <$> list_find (eq c) base64_alphabet.

Fixpoint EncodeToString (bs : list Z) : list Z :=
  match bs with
  | [] => []
  | [a] => [symbol (a / 4); symbol (a mod 4 * 16)]
  | [a; b] => [symbol (a / 4); symbol (a mod 4 * 16 + b / 16); symbol (b mod 16 * 4)]
  | a :: b :: c :: bs' =>
      symbol (a / 4) :: symbol (a mod 4 * 16 + b / 16) :: symbol (b mod 16 * 4 + c / 64) :: symbol (c mod 64) ::
      EncodeToString bs'
  end.

(** The values of the symbols; line ends are skipped wherever they are. *)
Fixpoint symbol_values (s : list Z) : option (list Z) :=
  match s with
  | [] => Some []
  | c :: s' =>
      if (c =? 10) || (c =? 13) then symbol_values s'
      else v ← symbol_value c; vs ← symbol_values s'; Some (v :: vs)
  end.

(** Four symbols are three bytes; two or three at the end are one or two, and the bits
    that are left over are ignored. *)
Fixpoint unpack (vs : list Z) : option (list Z) :=
  match vs with
  | [] => Some []
  | [_] => None
  | [v; w] => Some [v * 4 + w / 16]
  | [v; w; x] => Some [v * 4 + w / 16; w mod 16 * 16 + x / 4]
  | v :: w :: x :: y :: vs' =>
      bs ← unpack vs'; Some (v * 4 + w / 16 :: w mod 16 * 16 + x / 4 :: x mod 4 * 64 + y :: bs)
  end.

Definition DecodeString (s : list Z) : option (list Z) := vs ← symbol_values s; unpack vs.

(** ** strings.Split at a dot *)

Fixpoint split_dots (s : list Z) : list (list Z) :=
  match s with
  | [] => [[]]
  | c :: s' =>
      if c =? 46 then [] :: split_dots s'
      else match split_dots s' with
           | part :: parts => (c :: part) :: parts
           | [] => [[c]]
           end
  end.

(** ** Claims *)

Record JWTClaims : Type := MkJWTClaims {
  Subject : list Z;
  IssuedAt : Z;
  ExpiresAt : Z;
  Role : list Z;
}.

(** [t.Unix()]. *)
Definition Unix (t : Z) : Z := t / 1000000000.

Definition IsExpired (now : Z) (c : JWTClaims) : bool := ExpiresAt c <? Unix now.

Definition quoted (s : string) : list Z := 34 :: bstr s ++ [34].
(** The header, with the keys in the order of the encoder. *)
Definition header_json (alg : string) : list Z :=
  123 :: quoted "alg" ++ 58 :: quoted alg ++ 44 :: quoted "typ" ++ 58 :: quoted "JWT" ++ [125].

Section JWT.
Context (marshal : JWTClaims -> list Z) (unmarshal : list Z -> go JWTClaims).

(** The issuer and the validator of a token, for a way to sign and to verify. *)
Definition issue_with (alg : string) (sign : list Z -> list Z) (now now' : Z) (subject role : list Z) (ttl : Z) : list Z :=
  let claims := MkJWTClaims subject (Unix now) (Unix (now' + ttl)) role in
  let payload := EncodeToString (header_json alg) ++ 46 :: EncodeToString (marshal claims) in
  payload ++ 46 :: EncodeToString (sign payload).

Definition validate_with (verify : list Z -> list Z -> bool) (now : Z) (token : list Z) : go JWTClaims :=
  match split_dots token with
  | [header; body; signature] =>
      match DecodeString signature with
      | None => Fail (Sprintf "decode signature: %w" [AErr (Text "illegal base64 data")])
      | Some sig =>
          if negb (verify (header ++ 46 :: body) sig) then Fail (Text "invalid signature")
          else match DecodeString body with
          | None => Fail (Sprintf "decode claims: %w" [AErr (Text "illegal base64 data")])
          | Some claimsJSON =>
              let! claims := wrap "parse claims: %w" (unmarshal claimsJSON) in
              if IsExpired now claims then Fail (Text "token expired") else Ret claims
          end
      end
  | _ => Fail (Text "invalid token format")
  end.

(** hmac.Equal compares in constant time. *)
Definition hmac_verify (secret payload sig : list Z) : bool := bool_decide (sig = hmac_Sum secret payload).

Definition Issue (secret : list Z) : Z -> Z -> list Z -> list Z -> Z -> list Z := issue_with "HS256" (hmac_Sum secret).
Definition Validate (secret : list Z) : Z -> list Z -> go JWTClaims := validate_with (hmac_verify secret).

(** The Ed25519 issuer, with the two functions of crypto/ed25519 for one key pair. *)
Context (ed25519_Sign : list Z -> list Z) (ed25519_Verify : list Z -> list Z -> bool).
Definition Ed25519_Issue : Z -> Z -> list Z -> list Z -> Z -> list Z := issue_with "EdDSA" ed25519_Sign.
Definition Ed25519_Validate : Z -> list Z -> go JWTClaims := validate_with ed25519_Verify.
End JWT.

(** RFC 4231, test case 2, and RFC 4648 examples without padding. *)
Example hmac_rfc4231 :
  hex_EncodeToString (hmac_Sum (bstr "Jefe") (bstr "what do ya want for nothing?")) =
  bstr "5bdcc146bf60754e6a042426089575c75a003f089d2739839dec58b964ec3843".
Proof. vm_compute. reflexivity. Qed.

Example base64_rfc4648 :
  EncodeToString (bstr "foob") = bstr "Zm9vYg" ∧ EncodeToString (bstr "fooba") = bstr "Zm9vYmE" ∧
  DecodeString (bstr "Zm9vYmFy") = Some (bstr "foobar") ∧ DecodeString (bstr "Zm9vY") = None.
Proof. split_and!; vm_compute; reflexivity. Qed.

(** ** Encoding and decoding *)

Definition symbol_ok (v : Z) : bool :=
  bool_decide (symbol_value (symbol v) = Some v) && negb ((symbol v =? 10) || (symbol v =? 13)) &&
  negb (symbol v =? 46).

Lemma symbols_ok v : 0 <= v < 64 -> symbol_ok v = true.
Proof.
  intros Hv. assert (Hall : forallb symbol_ok (seqZ 0 64) = true) by (vm_compute; reflexivity).
  rewrite forallb_forall in Hall. apply Hall, list_elem_of_In, elem_of_seqZ. lia.
Qed.

Lemma symbol_values_cons v s :
  0 <= v < 64 -> symbol_values (symbol v :: s) = (vs ← symbol_values s; Some (v :: vs)).
Proof.
  intros Hv. pose proof (symbols_ok v Hv) as [[Hd Hn]%andb_true_iff _]%andb_true_iff.
  apply bool_decide_eq_true in Hd. apply negb_true_iff in Hn. cbn [symbol_values]. by rewrite Hn, Hd.
Qed.

Lemma symbol_not_dot v : 0 <= v < 64 -> symbol v ≠ 46.
Proof. intros Hv. pose proof (symbols_ok v Hv) as [_ Hd]%andb_true_iff. zbool. done. Qed.

(** Induction over groups of three bytes. *)
Lemma triples_ind (P : list Z -> Prop) :
  P [] -> (∀ a, P [a]) -> (∀ a b, P [a; b]) -> (∀ a b c bs, P bs -> P (a :: b :: c :: bs)) -> ∀ bs, P bs.
Proof.
  intros H0 H1 H2 H3 bs. assert (Hn : P bs ∧ ∀ a, P (a :: bs) ∧ ∀ b, P (a :: b :: bs)); [|apply Hn].
  induction bs as [|c bs (IH0 & IH1)]; [by split_and!; [|split]|].
  destruct (IH1 c) as [IHc IHcb]. split; [done|]. intros a. destruct (IH1 a) as [_ IHab]. split; [apply IHab|].
  intros b. by apply H3.
Qed.

Lemma sextets a b c :
  is_byte a -> is_byte b -> is_byte c ->
  0 <= a / 4 < 64 ∧ 0 <= a mod 4 * 16 + b / 16 < 64 ∧ 0 <= b mod 16 * 4 + c / 64 < 64 ∧ 0 <= c mod 64 < 64.
Proof. unfold is_byte. intros. Z.to_euclidean_division_equations. lia. Qed.

Lemma octets a b c :
  is_byte a -> is_byte b -> is_byte c ->
  a / 4 * 4 + (a mod 4 * 16 + b / 16) / 16 = a ∧
  (a mod 4 * 16 + b / 16) mod 16 * 16 + (b mod 16 * 4 + c / 64) / 4 = b ∧
  (b mod 16 * 4 + c / 64) mod 4 * 64 + c mod 64 = c.
Proof. unfold is_byte. intros. Z.to_euclidean_division_equations. lia. Qed.

Lemma sextet_alone a : is_byte a -> 0 <= a mod 4 * 16 < 64 ∧ 0 <= a mod 16 * 4 < 64.
Proof. unfold is_byte. intros. Z.to_euclidean_division_equations. lia. Qed.

Lemma decode_encode bs : Forall is_byte bs -> DecodeString (EncodeToString bs) = Some bs.
Proof.
  unfold DecodeString. induction bs as [|a|a b|a b c bs IH] using triples_ind.
  - done.
  - intros [Ha _]%Forall_cons. destruct (sextets a 0 0) as (H1 & _); [done|done..|].
    cbn [EncodeToString]. rewrite !symbol_values_cons by (done || by apply sextet_alone).
    simpl. destruct (octets a 0 0) as (Ho & _); [done|done..|]. rewrite Z.add_0_r in Ho. by rewrite Ho.
  - intros [Ha [Hb _]%Forall_cons]%Forall_cons. destruct (sextets a b 0) as (? & ? & _); [done|done|done|].
    cbn [EncodeToString]. rewrite !symbol_values_cons by (done || by apply sextet_alone).
    simpl. destruct (octets a b 0) as (Ho & Ho' & _); [done|done|done|]. rewrite Z.add_0_r in Ho'. by rewrite Ho, Ho'.
  - intros [Ha [Hb [Hc Hbs]%Forall_cons]%Forall_cons]%Forall_cons.
    destruct (sextets a b c) as (? & ? & ? & ?); [done..|].
    cbn [EncodeToString]. rewrite !symbol_values_cons by done.
    specialize (IH Hbs). destruct (symbol_values (EncodeToString bs)) as [vs|]; [|done]. simpl in *. rewrite IH. simpl.
    destruct (octets a b c) as (-> & -> & ->); [done..|]. done.
Qed.

Lemma encode_no_dot bs : Forall is_byte bs -> 46 ∉ EncodeToString bs.
Proof.
  assert (Hd : ∀ v s, 0 <= v < 64 -> 46 ∉ s -> 46 ∉ symbol v :: s).
  { intros v s Hv Hs [Heq|]%elem_of_cons; [|done]. by apply (symbol_not_dot v Hv). }
  induction bs as [|a|a b|a b c bs IH] using triples_ind; cbn [EncodeToString].
  - intros _. apply not_elem_of_nil.
  - intros [Ha _]%Forall_cons. destruct (sextets a 0 0) as (H1 & _); [done|done..|].
    repeat apply Hd; [done|by apply sextet_alone|apply not_elem_of_nil].
  - intros [Ha [Hb _]%Forall_cons]%Forall_cons. destruct (sextets a b 0) as (? & ? & _); [done|done|done|].
    repeat apply Hd; [done|done|by apply sextet_alone|apply not_elem_of_nil].
  - intros [Ha [Hb [Hc Hbs]%Forall_cons]%Forall_cons]%Forall_cons.
    destruct (sextets a b c) as (? & ? & ? & ?); [done..|]. repeat apply Hd; try done. by apply IH.
Qed.

(** ** Tokens *)

Lemma split_dots_nonempty s : split_dots s ≠ [].
Proof. destruct s as [|c s]; simpl; [done|]. destruct (c =? 46); [done|]. by destruct (split_dots s). Qed.

Lemma split_dots_part a s : 46 ∉ a -> split_dots (a ++ 46 :: s) = a :: split_dots s.
Proof.
  induction a as [|c a IH]; intros Hd; simpl; [done|].
  rewrite not_elem_of_cons in Hd. destruct Hd as [Hc Hd].
  destruct (Z.eqb_spec c 46); [congruence|]. by rewrite IH.
Qed.

Lemma split_dots_last a : 46 ∉ a -> split_dots a = [a].
Proof.
  induction a as [|c a IH]; intros Hd; simpl; [done|].
  rewrite not_elem_of_cons in Hd. destruct Hd as [Hc Hd].
  destruct (Z.eqb_spec c 46); [congruence|]. by rewrite IH.
Qed.

Lemma split_dots_three s a b c :
  split_dots s = [a; b; c] <-> s = a ++ 46 :: b ++ 46 :: c ∧ (46 ∉ a) ∧ (46 ∉ b) ∧ (46 ∉ c).
Proof.
  assert (Hj : ∀ s part parts, split_dots s = part :: parts ->
    (46 ∉ part) ∧ match parts with [] => s = part | _ => ∃ rest, s = part ++ 46 :: rest ∧ split_dots rest = parts end).
  { clear. induction s as [|x s IH]; intros part parts; simpl.
    - intros [= <- <-]. split; [apply not_elem_of_nil|done].
    - destruct (Z.eqb_spec x 46) as [->|Hx].
      + intros [= <- <-]. split; [apply not_elem_of_nil|].
        destruct (split_dots s) eqn:Hs; [by apply split_dots_nonempty in Hs|]. exists s. by rewrite Hs.
      + destruct (split_dots s) as [|p ps] eqn:Hs; [by apply split_dots_nonempty in Hs|].
        intros [= <- <-]. destruct (IH _ _ eq_refl) as [Hd Hrest].
        split; [rewrite not_elem_of_cons; by split|]. destruct ps as [|p' ps]; [by rewrite Hrest|].
        destruct Hrest as (rest & -> & Hr). by exists rest. }
  split.
  - intros [Ha (s1 & -> & [Hb (s2 & -> & [Hc ->]%Hj)]%Hj)]%Hj. done.
  - intros (-> & Ha & Hb & Hc). rewrite split_dots_part by done. f_equal.
    rewrite split_dots_part by done. f_equal. by apply split_dots_last.
Qed.

Lemma sha256_is_byte msg : Forall is_byte (Sha256.Sum msg).
Proof.
  unfold Sha256.Sum. apply Forall_forall. intros x Hx%list_elem_of_In%in_flat_map.
  destruct Hx as (w & _ & Hx). apply list_elem_of_In in Hx. unfold be_bytes in Hx.
  pose proof (le_bytes_is_byte 4 w) as Hb. rewrite Forall_forall in Hb. apply Hb.
  apply list_elem_of_In, in_rev. by apply list_elem_of_In.
Qed.

Section tokens.
Context (marshal : JWTClaims -> list Z) (unmarshal : list Z -> go JWTClaims).

(** The tokens a validator accepts, and as what. *)
Lemma validate_with_Ret verify now token c :
  validate_with unmarshal verify now token = Ret c <->
  ∃ header body signature sig bytes,
    token = header ++ 46 :: body ++ 46 :: signature ∧ (46 ∉ header) ∧ (46 ∉ body) ∧ (46 ∉ signature) ∧
    DecodeString signature = Some sig ∧ verify (header ++ 46 :: body) sig = true ∧
    DecodeString body = Some bytes ∧ unmarshal bytes = Ret c ∧ Unix now <= ExpiresAt c.
Proof.
  unfold validate_with, IsExpired. split.
  - destruct (split_dots token) as [|h [|b [|g [|? ?]]]] eqn:Hs; try done.
    apply split_dots_three in Hs as (-> & ? & ? & ?).
    destruct (DecodeString g) as [sig|] eqn:Hg; [|done].
    destruct (verify _ sig) eqn:Hv; [|done]. destruct (DecodeString b) as [bytes|] eqn:Hb; [|done]. simpl.
    destruct (unmarshal bytes) as [claims|err|why|] eqn:Hu; try done. simpl.
    destruct (Z.ltb_spec (ExpiresAt claims) (Unix now)); [done|]. intros [= <-]. naive_solver.
  - intros (h & b & g & sig & bytes & -> & ? & ? & ? & Hg & Hv & Hb & Hu & He).
    rewrite (proj2 (split_dots_three _ h b g)) by done. rewrite Hg, Hv, Hb. simpl. rewrite Hu. simpl.
    destruct (Z.ltb_spec (ExpiresAt c) (Unix now)); [lia|done].
Qed.

Lemma header_bytes alg : Forall is_byte (header_json alg).
Proof.
  assert (Hb : ∀ s, Forall is_byte (bstr s)).
  { intros s. unfold bstr. apply Forall_fmap, Forall_forall. intros a _. simpl. unfold is_byte.
    pose proof (Ascii.N_ascii_bounded a). lia. }
  unfold header_json, quoted. repeat ((apply Forall_cons; split; [unfold is_byte; lia|]) || (apply Forall_app; split)); auto.
Qed.

Lemma issue_validate alg sign verify now now' later subject role ttl :
  let claims := MkJWTClaims subject (Unix now) (Unix (now' + ttl)) role in
  (∀ payload, Forall is_byte (sign payload)) -> (∀ payload, verify payload (sign payload) = true) ->
  Forall is_byte (marshal claims) -> unmarshal (marshal claims) = Ret claims ->
  validate_with unmarshal verify later (issue_with marshal alg sign now now' subject role ttl) =
    if Unix (now' + ttl) <? Unix later then Fail (Text "token expired") else Ret claims.
Proof.
  intros claims Hsign Hver Hb Hu. unfold issue_with, validate_with. fold claims.
  set (h := EncodeToString (header_json alg)). set (b := EncodeToString (marshal claims)).
  rewrite (proj2 (split_dots_three _ h b (EncodeToString (sign (h ++ 46 :: b))))).
  2: { rewrite <- app_assoc. split_and!; try done; by apply encode_no_dot; try apply header_bytes. }
  rewrite decode_encode, Hver by done. simpl. unfold b. rewrite decode_encode by done. simpl.
  rewrite Hu. simpl. done.
Qed.

(** C23: a token that was issued is accepted with its claims until the second it expires
    in has passed, and is reported as expired from then on; and with the secret of the
    issuer, a token is accepted exactly when it has three parts, the third of which
    decodes to the HMAC-SHA256 of the other two under the secret and the second to claims
    that have not expired. *)
Theorem token_roundtrip secret now now' later subject role ttl :
  let claims := MkJWTClaims subject (Unix now) (Unix (now' + ttl)) role in
  Forall is_byte (marshal claims) -> unmarshal (marshal claims) = Ret claims ->
  Validate unmarshal secret later (Issue marshal secret now now' subject role ttl) =
    (if Unix (now' + ttl) <? Unix later then Fail (Text "token expired") else Ret claims) ∧
  ∀ token c, Validate unmarshal secret later token = Ret c <->
    ∃ header body signature bytes,
      token = header ++ 46 :: body ++ 46 :: signature ∧ (46 ∉ header) ∧ (46 ∉ body) ∧ (46 ∉ signature) ∧
      DecodeString signature = Some (hmac_Sum secret (header ++ 46 :: body)) ∧
      DecodeString body = Some bytes ∧ unmarshal bytes = Ret c ∧ Unix later <= ExpiresAt c.
Proof.
  intros claims Hb Hu. split.
  - apply issue_validate; [intros; apply sha256_is_byte| |done|done].
    intros. unfold hmac_verify. by apply bool_decide_eq_true.
  - intros token c. unfold Validate. rewrite validate_with_Ret. unfold hmac_verify.
    setoid_rewrite bool_decide_eq_true. split.
    + intros (h & b & g & sig & bytes & ? & ? & ? & ? & ? & -> & ?). by exists h, b, g, bytes.
    + intros (h & b & g & bytes & ?). exists h, b, g, (hmac_Sum secret (h ++ 46 :: b)), bytes. naive_solver.
Qed.
End tokens.

(** A concrete encoding of claims. *)
Definition demo_marshal (c : JWTClaims) : list Z :=
  le_bytes 8 (IssuedAt c) ++ le_bytes 8 (ExpiresAt c) ++ Z.of_nat (length (Subject c)) :: Subject c ++ Role c.
Definition demo_unmarshal (bs : list Z) : go JWTClaims :=
  match drop 16 bs with
  | n :: rest => Ret (MkJWTClaims (take (Z.to_nat n) rest) (le_val (take 8 bs)) (le_val (take 8 (drop 8 bs)))
                        (drop (Z.to_nat n) rest))
  | [] => Fail (Text "unexpected end of JSON input")
  end.

Definition demo_token : list Z :=
  Issue demo_marshal (bstr "secret") 1000000000 1000000001 (bstr "ops") (bstr "admin") 60000000000.

Lemma token_roundtrip_witness :
  Validate demo_unmarshal (bstr "secret") 2000000000 demo_token = Ret (MkJWTClaims (bstr "ops") 1 61 (bstr "admin")).
Proof.
  destruct (token_roundtrip demo_marshal demo_unmarshal (bstr "secret") 1000000000 1000000001 2000000000
              (bstr "ops") (bstr "admin") 60000000000) as [Hv _].
  - apply (bool_decide_unpack _). vm_compute. exact I.
  - vm_compute. reflexivity.
  - exact Hv.
Defined.

(** The signature is compared after decoding, so the text of a token is not unique: the
    bits that a final symbol has to spare, and line ends, are ignored. *)
Example token_text_not_unique :
  DecodeString (bstr "Zg") = DecodeString (bstr "Zh") ∧
  Validate demo_unmarshal (bstr "secret") 2000000000 (demo_token ++ [10]) =
    Validate demo_unmarshal (bstr "secret") 2000000000 demo_token.
Proof. split; vm_compute; reflexivity. Qed.
