(* ===== verification/PolicyStore.v ===== *)
(** internal/policyserver: the store of policies and agents (types.go, store.go) and the
    gradual rollouts over it (rollout.go).

    What a file contains and what the clock shows are arguments, and so are the orders
    in which the maps are iterated.  Versions are int64 values.  A policy that the store
    hands out is a copy. *)

From S2P Require Import Prelude GoApi Sha256.

(** ** types.go *)

Record Policy : Type := MkPolicy {
  p_ID : string;
  p_Name : string;
  p_Version : Z;
  p_WASMPath : string;
  p_WASMHash : list Z;
  p_Selector : gmap string string;
  p_AuditMode : bool;
  p_Priority : Z;
  p_CreatedAt : Z;
  p_UpdatedAt : Z;
  p_Description : string;
}.

Inductive AgentStatus : Type := AgentStatusActive | AgentStatusStale | AgentStatusDisconnected.
#[global] Instance AgentStatus_eq_dec : EqDecision AgentStatus.
Proof. solve_decision. Defined.

Record Agent : Type := MkAgent {
  a_ID : string;
  a_Hostname : string;
  a_Labels : gmap string string;
  a_PolicyVersion : Z;
  a_LastHeartbeat : Z;
  a_Status : AgentStatus;
}.

Record RegisterRequest : Type := MkRegisterRequest {
  rq_ID : string;
  rq_Hostname : string;
  rq_Labels : gmap string string;
}.

Record HeartbeatRequest : Type := MkHeartbeatRequest { hb_AgentID : string; hb_PolicyVersion : Z }.

(** The data of a module is sent separately; [WASMData] is never filled. *)
Record PolicyAssignment : Type := MkPolicyAssignment {
  as_PolicyID : string;
  as_Version : Z;
  as_WASMHash : list Z;
  as_WASMPath : string;
}.

(** ** store.go *)

Record Store : Type := MkStore {
  policies : gmap string Policy;
  agents : gmap string Agent;
  wasm : gmap string (list Z);
}.

Definition NewStore : Store := MkStore ∅ ∅ ∅.

Definition hash_of (data : list Z) : list Z := hex_EncodeToString (Sha256.Sum data).

(** [file]: what os.ReadFile returns for [wasmPath]. *)
Definition CreatePolicy (now : Z) (file : go (list Z)) (p : Policy) (wasmPath : string) (s : Store) : go Store :=
  match policies s !! p_ID p with
  | Some _ => Fail (Sprintf "policy %s already exists" [AStr (bstr (p_ID p))])
  | None =>
      let! data := wrap "read wasm: %w" file in
      let p := MkPolicy (p_ID p) (p_Name p) 1 wasmPath (hash_of data) (p_Selector p) (p_AuditMode p)
                 (p_Priority p) now now (p_Description p) in
      Ret (MkStore (<[p_ID p := p]> (policies s)) (agents s) (<[p_ID p := data]> (wasm s)))
  end.

Definition UpdatePolicy (now : Z) (file : go (list Z)) (id wasmPath : string) (s : Store) : go Store :=
  match policies s !! id with
  | None => Fail (Sprintf "policy %s not found" [AStr (bstr id)])
  | Some p =>
      let! data := wrap "read wasm: %w" file in
      let p := MkPolicy (p_ID p) (p_Name p) (to_s 64 (p_Version p + 1)) wasmPath (hash_of data) (p_Selector p)
                 (p_AuditMode p) (p_Priority p) (p_CreatedAt p) now (p_Description p) in
      Ret (MkStore (<[id := p]> (policies s)) (agents s) (<[id := data]> (wasm s)))
  end.

Definition DeletePolicy (id : string) (s : Store) : go Store :=
  match policies s !! id with
  | None => Fail (Sprintf "policy %s not found" [AStr (bstr id)])
  | Some _ => Ret (MkStore (delete id (policies s)) (agents s) (delete id (wasm s)))
  end.

Definition GetPolicy (id : string) (s : Store) : option Policy := policies s !! id.
Definition GetWASM (policyID : string) (s : Store) : option (list Z) := wasm s !! policyID.
Definition ListPolicies (order : list Policy -> list Policy) (s : Store) : list Policy :=
  order (snd <$> map_to_list (policies s)).

(** A label that is not set reads as the empty string. *)
Definition selectorMatches (selector labels : gmap string string) : bool :=
  forallb (fun kv => String.eqb (default "" (labels !! kv.1)) kv.2) (map_to_list selector).

(** The loop of [MatchPolicy]. *)
Definition better (best : option Policy) (p : Policy) : option Policy :=
  match best with
  | None => Some p
  | Some b => if p_Priority b <? p_Priority p then Some p else best
  end.
Definition MatchPolicy (order : list Policy -> list Policy) (labels : gmap string string) (s : Store) : option Policy :=
  fold_left (fun best p => if selectorMatches (p_Selector p) labels then better best p else best)
    (order (snd <$> map_to_list (policies s))) None.

Definition RegisterAgent (now : Z) (req : RegisterRequest) (s : Store) : Store :=
  let version := from_option a_PolicyVersion 0 (agents s !! rq_ID req) in
  MkStore (policies s)
    (<[rq_ID req := MkAgent (rq_ID req) (rq_Hostname req) (rq_Labels req) version now AgentStatusActive]> (agents s))
    (wasm s).

Definition Heartbeat (now : Z) (agentID : string) (policyVersion : Z) (s : Store) : go Store :=
  match agents s !! agentID with
  | None => Fail (Sprintf "agent %s not registered" [AStr (bstr agentID)])
  | Some a =>
      Ret (MkStore (policies s)
             (<[agentID := MkAgent (a_ID a) (a_Hostname a) (a_Labels a) policyVersion now AgentStatusActive]> (agents s))
             (wasm s))
  end.

Definition GetAgent (id : string) (s : Store) : option Agent := agents s !! id.
Definition ListAgents (order : list Agent -> list Agent) (s : Store) : list Agent :=
  order (snd <$> map_to_list (agents s)).

(** The two tests of [MarkStaleAgents] on one agent, in the order of the source. *)
Definition with_status (st : AgentStatus) (a : Agent) : Agent :=
  MkAgent (a_ID a) (a_Hostname a) (a_Labels a) (a_PolicyVersion a) (a_LastHeartbeat a) st.
Definition mark_agent (now threshold : Z) (a : Agent) : Agent :=
  let age := now - a_LastHeartbeat a in
  let a := if bool_decide (a_Status a = AgentStatusActive) && (threshold <? age) then with_status AgentStatusStale a else a in
  if bool_decide (a_Status a = AgentStatusStale) && (to_s 64 (threshold * 3) <? age)
  then with_status AgentStatusDisconnected a else a.
Definition MarkStaleAgents (now threshold : Z) (s : Store) : Store :=
  MkStore (policies s) (mark_agent now threshold <$> agents s) (wasm s).

(** ** rollout.go *)

(** [Rollout] and the fields of [RolloutState] around it. *)
Record RolloutState : Type := MkRolloutState {
  r_ID : string;
  r_PolicyID : string;
  r_TargetVersion : Z;
  r_Percentage : Z;
  r_StartedAt : Z;
  r_CompletedAt : option Z;
  r_Status : string;
  r_BaseVersion : Z;
}.

Record RolloutConfig : Type := MkRolloutConfig {
  rcfg_ID : string;
  rcfg_PolicyID : string;
  rcfg_TargetVersion : Z;
  rcfg_Percentage : Z;
}.

Abbreviation Rollouts := (gmap string RolloutState).

Definition CreateRollout (now : Z) (cfg : RolloutConfig) (s : Store) (rollouts : Rollouts) : go Rollouts :=
  match rollouts !! rcfg_ID cfg with
  | Some _ => Fail (Sprintf "rollout %s already exists" [AStr (bstr (rcfg_ID cfg))])
  | None =>
      match GetPolicy (rcfg_PolicyID cfg) s with
      | None => Fail (Sprintf "policy %s not found" [AStr (bstr (rcfg_PolicyID cfg))])
      | Some policy =>
          if (rcfg_Percentage cfg <? 0) || (100 <? rcfg_Percentage cfg)
          then Fail (Sprintf "percentage must be 0-100, got %d" [ANum (rcfg_Percentage cfg)])
          else Ret (<[rcfg_ID cfg := MkRolloutState (rcfg_ID cfg) (rcfg_PolicyID cfg) (rcfg_TargetVersion cfg)
                                       (rcfg_Percentage cfg) now None "active" (to_s 64 (p_Version policy - 1))]> rollouts)
      end
  end.

Definition UpdatePercentage (now : Z) (rolloutID : string) (pct : Z) (rollouts : Rollouts) : go Rollouts :=
  match rollouts !! rolloutID with
  | None => Fail (Sprintf "rollout %s not found" [AStr (bstr rolloutID)])
  | Some r =>
      if (pct <? 0) || (100 <? pct) then Fail (Text "percentage must be 0-100")
      else Ret (<[rolloutID :=
        if pct =? 100
        then MkRolloutState (r_ID r) (r_PolicyID r) (r_TargetVersion r) pct (r_StartedAt r) (Some now) "completed"
               (r_BaseVersion r)
        else MkRolloutState (r_ID r) (r_PolicyID r) (r_TargetVersion r) pct (r_StartedAt r) (r_CompletedAt r)
               (r_Status r) (r_BaseVersion r)]> rollouts)
  end.

Definition CompleteRollout (now : Z) (rolloutID : string) (rollouts : Rollouts) : go Rollouts :=
  UpdatePercentage now rolloutID 100 rollouts.

Definition AbortRollout (now : Z) (rolloutID : string) (rollouts : Rollouts) : go Rollouts :=
  match rollouts !! rolloutID with
  | None => Fail (Sprintf "rollout %s not found" [AStr (bstr rolloutID)])
  | Some r =>
      Ret (<[rolloutID := MkRolloutState (r_ID r) (r_PolicyID r) (r_TargetVersion r) (r_Percentage r)
                            (r_StartedAt r) (Some now) "aborted" (r_BaseVersion r)]> rollouts)
  end.

Definition GetRollout (id : string) (rollouts : Rollouts) : option RolloutState := rollouts !! id.
Definition ListRollouts (order : list RolloutState -> list RolloutState) (rollouts : Rollouts) : list RolloutState :=
  order (snd <$> map_to_list rollouts).

(** The first four bytes of the sum, big endian, modulo 100. *)
Definition consistentBucket (rolloutID agentID : string) : Z :=
  be_val (take 4 (Sha256.Sum (bstr (rolloutID +:+ ":" +:+ agentID)))) mod 100.

Definition ShouldUseNewVersion (rolloutID agentID : string) (rollouts : Rollouts) : bool :=
  match rollouts !! rolloutID with
  | None => false
  | Some r =>
      if negb (String.eqb (r_Status r) "active") then false
      else if 100 <=? r_Percentage r then true
      else if r_Percentage r <=? 0 then false
      else consistentBucket rolloutID agentID <? r_Percentage r
  end.

(** The loop of [ResolvePolicy]: the version of the first active rollout of the policy
    that has reached the agent. *)
Fixpoint resolve (agentID policyID : string) (visited : list RolloutState) : option Z :=
  match visited with
  | [] => None
  | r :: visited' =>
      if negb (String.eqb (r_Status r) "active") then resolve agentID policyID visited'
      else if negb (String.eqb (r_PolicyID r) policyID) then resolve agentID policyID visited'
      else if consistentBucket (r_ID r) agentID <? r_Percentage r then Some (r_TargetVersion r)
      else resolve agentID policyID visited'
  end.

Definition ResolvePolicy (orderP : list Policy -> list Policy) (orderR : list RolloutState -> list RolloutState)
    (agentID : string) (labels : gmap string string) (s : Store) (rollouts : Rollouts) : option PolicyAssignment :=
  p ← MatchPolicy orderP labels s;
  Some (MkPolicyAssignment (p_ID p)
          (default (p_Version p) (resolve agentID (p_ID p) (orderR (snd <$> map_to_list rollouts))))
          (p_WASMHash p) (p_WASMPath p)).

(** ** What the store promises *)

Lemma selectorMatches_iff selector labels :
  selectorMatches selector labels = true <-> ∀ k v, selector !! k = Some v -> default "" (labels !! k) = v.
Proof.
  unfold selectorMatches. rewrite forallb_forall. split.
  - intros Hall k v Hk. apply elem_of_map_to_list, list_elem_of_In in Hk.
    by apply String.eqb_eq, (Hall (k, v)).
  - intros Hall [k v] Hin. apply list_elem_of_In, elem_of_map_to_list in Hin. apply String.eqb_eq. simpl. by apply Hall.
Qed.

Lemma match_loop labels ps best :
  let r := fold_left (fun best p => if selectorMatches (p_Selector p) labels then better best p else best) ps best in
  (∀ p, r = Some p -> best = Some p ∨ (p ∈ ps ∧ selectorMatches (p_Selector p) labels = true)) ∧
  (∀ q, best = Some q ∨ (q ∈ ps ∧ selectorMatches (p_Selector q) labels = true) ->
     ∃ p, r = Some p ∧ p_Priority q <= p_Priority p).
Proof.
  revert best. induction ps as [|p0 ps IH]; intros best; simpl.
  { split; [by left|]. intros q [->|[Hq _]]; [by exists q|by apply not_elem_of_nil in Hq]. }
  set (best' := if selectorMatches (p_Selector p0) labels then better best p0 else best).
  destruct (IH best') as [H1 H2]. split.
  - intros p Hp. destruct (H1 p Hp) as [Hb|[Hin Hm]]; [|right; split; [by right|done]].
    unfold best', better in Hb. destruct (selectorMatches (p_Selector p0) labels) eqn:Hm; [|by left].
    destruct best as [b|]; [destruct (_ <? _)|]; simplify_eq; first [by left|right; split; [by left|done]].
  - assert (Hb : ∀ q, best = Some q ∨ (q = p0 ∧ selectorMatches (p_Selector q) labels = true) ->
      ∃ q', best' = Some q' ∧ p_Priority q <= p_Priority q').
    { intros q. unfold best', better. destruct (selectorMatches (p_Selector p0) labels) eqn:Hm.
      2: { intros [->|[-> Hm']]; [by eexists|congruence]. }
      destruct best as [b|]; [|intros [|[-> _]]; [done|by exists p0]].
      destruct (Z.ltb_spec (p_Priority b) (p_Priority p0)); intros [[= ->]|[-> _]]; eexists; (split; [done|lia]). }
    intros q [Hq|[[->|Hq]%elem_of_cons Hm]].
    + destruct (Hb q (or_introl Hq)) as (q' & Hq' & ?). destruct (H2 q' (or_introl Hq')) as (p & ? & ?). exists p. split; [done|lia].
    + destruct (Hb p0 (or_intror (conj eq_refl Hm))) as (q' & Hq' & ?).
      destruct (H2 q' (or_introl Hq')) as (p & ? & ?). exists p. split; [done|lia].
    + apply H2. by right.
Qed.

(** A matching policy of the highest priority, for every order of iteration. *)
Lemma MatchPolicy_spec order labels s :
  (∀ l, order l ≡ₚ l) ->
  match MatchPolicy order labels s with
  | Some p => (∃ id, policies s !! id = Some p) ∧ selectorMatches (p_Selector p) labels = true ∧
      ∀ id q, policies s !! id = Some q -> selectorMatches (p_Selector q) labels = true -> p_Priority q <= p_Priority p
  | None => ∀ id q, policies s !! id = Some q -> selectorMatches (p_Selector q) labels = false
  end.
Proof.
  intros Hperm. unfold MatchPolicy.
  destruct (match_loop labels (order (snd <$> map_to_list (policies s))) None) as [H1 H2].
  assert (Hin : ∀ q, q ∈ order (snd <$> map_to_list (policies s)) <-> ∃ id, policies s !! id = Some q).
  { intros q. rewrite Hperm, list_elem_of_fmap. split.
    - intros ([id q'] & -> & Hq%elem_of_map_to_list). by exists id.
    - intros (id & Hid%elem_of_map_to_list). by exists (id, q). }
  destruct (fold_left _ _ None) as [p|]; simpl in *.
  - destruct (H1 p eq_refl) as [|[Hp Hm]]; [done|]. split_and!; [by apply Hin|done|].
    intros id q Hq Hmq. destruct (H2 q) as (p' & [= <-] & ?); [|done]. right. split; [apply Hin; eauto|done].
  - intros id q Hq. apply not_true_iff_false. intros Hm.
    destruct (H2 q) as (p' & ? & _); [|done]. right. split; [apply Hin; eauto|done].
Qed.

(** *** Rollouts *)

Lemma bucket_range rolloutID agentID : 0 <= consistentBucket rolloutID agentID < 100.
Proof. apply Z.mod_pos_bound. lia. Qed.

(** Whether a rollout has reached an agent. *)
Definition reached (agentID policyID : string) (r : RolloutState) : bool :=
  String.eqb (r_Status r) "active" && String.eqb (r_PolicyID r) policyID &&
  (consistentBucket (r_ID r) agentID <? r_Percentage r).

Lemma resolve_spec agentID policyID rs :
  match resolve agentID policyID rs with
  | Some v => ∃ r, r ∈ rs ∧ reached agentID policyID r = true ∧ v = r_TargetVersion r
  | None => ∀ r, r ∈ rs -> reached agentID policyID r = false
  end.
Proof.
  unfold reached. induction rs as [|r rs IH]; simpl; [by intros r ?%not_elem_of_nil|].
  destruct (String.eqb (r_Status r) "active") eqn:Ha, (String.eqb (r_PolicyID r) policyID) eqn:Hp,
    (consistentBucket (r_ID r) agentID <? r_Percentage r) eqn:Hb; cbn [negb];
    try (exists r; rewrite Ha, Hp, Hb; split_and!; [by left|done|done]).
  all: destruct (resolve agentID policyID rs) as [v|];
    [destruct IH as (r' & Hin & ?); exists r'; (split; [by right|done])
    |intros r' [->|Hin]%elem_of_cons; [by rewrite Ha, Hp, ?Hb|by apply IH]].
Qed.
