(* ===== verification/PolicyServer.v ===== *)
(** internal/policyserver: the HTTP handlers of the policy server (server.go, containers.go,
    auth.go) and the agent's client (client.go).

    A request is what routing and JSON decoding make of it: the method, the parameters, and
    the body, [None] where decoding fails.  A response is its status and what is written.
    The clock, the files and the orders of map iterations that a request meets are its
    environment.  A poll of the client is two exchanges, each with whatever answers at that
    time, [None] for a transport error; its identifiers are taken to need no escaping in a
    URL, and a route answers with the kinds of content its handler writes. *)

From S2P Require Import Prelude GoApi Sha256 Jwt PolicyStore.

(** ** Requests and responses *)

Inductive method : Type := GET | POST | PUT | DELETE | OtherMethod.

Record ContainerBinding : Type := MkContainerBinding {
  cb_ContainerID : string;
  cb_PID : Z;
  cb_PolicyID : string;
  cb_Labels : gmap string string;
}.

Inductive admin_request : Type :=
| AdminPolicies (m : method) (body : option Policy)
| AdminPolicy (m : method) (id : string) (body : option string)
| AdminAgents (m : method)
| AdminRollouts (m : method) (body : option RolloutConfig)
| AdminRollout (m : method) (id : string) (body : option Z).

(** [if_version] is the number that scanning the parameter yields, 0 where it fails, and
    [None] when the parameter is empty. *)
Inductive request : Type :=
| Register (m : method) (body : option RegisterRequest)
| HeartbeatReq (m : method) (body : option HeartbeatRequest)
| GetPolicyReq (m : method) (agent_id : string) (if_version : option Z)
| GetWASMReq (m : method) (policy_id : string)
| ContainerBind (m : method) (body : option ContainerBinding)
| ContainerDelete (m : method) (id : string)
| Admin (authorization : list Z) (r : admin_request).

Inductive content : Type :=
| NoContent
| ErrorText (m : message)
| AgentJSON (a : Agent)
| NoPolicyJSON
| AssignmentJSON (a : PolicyAssignment)
| Wasm (data : list Z)
| PolicyJSON (p : Policy)
| PoliciesJSON (ps : list Policy)
| AgentsJSON (l : list Agent)
| RolloutJSON (r : RolloutState)
| RolloutsJSON (l : list RolloutState)
| BoundJSON (container policy : string).

Record response : Type := MkResponse { StatusCode : Z; resp_content : content }.

Definition http_error (status : Z) (text : string) : response := MkResponse status (ErrorText (Text text)).
Definition method_not_allowed : response := http_error 405 "method not allowed".
Definition bad_body : response := http_error 400 "invalid request body".

(** ** The server *)

(** [containers] is a variable of the package. *)
Record Server : Type := MkServer {
  store : Store;
  rollouts : Rollouts;
  containers : gmap string ContainerBinding;
}.

Definition NewServer : Server := MkServer NewStore ∅ ∅.
Definition with_store (s : Store) (srv : Server) : Server := MkServer s (rollouts srv) (containers srv).
Definition with_rollouts (r : Rollouts) (srv : Server) : Server := MkServer (store srv) r (containers srv).
Definition with_containers (c : gmap string ContainerBinding) (srv : Server) : Server :=
  MkServer (store srv) (rollouts srv) c.

Record Env : Type := MkEnv {
  now : Z;
  ReadFile : string -> go (list Z);
  policy_order : list Policy -> list Policy;
  rollout_order : list RolloutState -> list RolloutState;
  agent_order : list Agent -> list Agent;
}.

(** *** Agent endpoints *)

(** An error of the store or of the rollout manager becomes [status]. *)
Definition finish {A} (status : Z) (m : go A) (srv : Server) (ok : A -> response * Server) : response * Server :=
  match m with
  | Ret a => ok a
  | Fail err => (MkResponse status (ErrorText err), srv)
  | Panic _ | Block => (MkResponse status NoContent, srv)
  end.

Definition handleRegister (env : Env) (m : method) (body : option RegisterRequest) (srv : Server) : response * Server :=
  match m, body with
  | POST, None => (bad_body, srv)
  | POST, Some req =>
      if String.eqb (rq_ID req) "" then (http_error 400 "id is required", srv)
      else
        let s := RegisterAgent (now env) req (store srv) in
        (MkResponse 200 (from_option AgentJSON NoContent (GetAgent (rq_ID req) s)), with_store s srv)
  | _, _ => (method_not_allowed, srv)
  end.

Definition assignment_of (env : Env) (agentID : string) (labels : gmap string string) (srv : Server)
    : option PolicyAssignment :=
  ResolvePolicy (policy_order env) (rollout_order env) agentID labels (store srv) (rollouts srv).

Definition handleHeartbeat (env : Env) (m : method) (body : option HeartbeatRequest) (srv : Server) : response * Server :=
  match m, body with
  | POST, None => (bad_body, srv)
  | POST, Some req =>
      finish 404 (Heartbeat (now env) (hb_AgentID req) (hb_PolicyVersion req) (store srv)) srv (fun s =>
        let labels := from_option a_Labels ∅ (GetAgent (hb_AgentID req) s) in
        (MkResponse 200 (from_option AssignmentJSON NoPolicyJSON
                           (assignment_of env (hb_AgentID req) labels (with_store s srv))), with_store s srv))
  | _, _ => (method_not_allowed, srv)
  end.

Definition handleGetPolicy (env : Env) (m : method) (agent_id : string) (if_version : option Z) (srv : Server) : response :=
  match m with
  | GET =>
      if String.eqb agent_id "" then http_error 400 "agent_id required"
      else match GetAgent agent_id (store srv) with
      | None => http_error 404 "agent not registered"
      | Some agent =>
          match assignment_of env agent_id (a_Labels agent) srv with
          | None => http_error 404 "no matching policy"
          | Some a =>
              match if_version with
              | Some v => if as_Version a <=? v then MkResponse 304 NoContent else MkResponse 200 (AssignmentJSON a)
              | None => MkResponse 200 (AssignmentJSON a)
              end
          end
      end
  | _ => method_not_allowed
  end.

Definition handleGetWASM (m : method) (policy_id : string) (srv : Server) : response :=
  match m with
  | GET =>
      if String.eqb policy_id "" then http_error 400 "policy_id required"
      else match GetWASM policy_id (store srv) with
      | None => http_error 404 "policy not found"
      | Some data => MkResponse 200 (Wasm data)
      end
  | _ => method_not_allowed
  end.

(** *** containers.go *)

Definition handleContainerBind (m : method) (body : option ContainerBinding) (srv : Server) : response * Server :=
  match m, body with
  | POST, None => (bad_body, srv)
  | POST, Some b =>
      if String.eqb (cb_ContainerID b) "" || String.eqb (cb_PolicyID b) ""
      then (http_error 400 "container_id and policy_id required", srv)
      else (MkResponse 200 (BoundJSON (cb_ContainerID b) (cb_PolicyID b)),
            with_containers (<[cb_ContainerID b := b]> (containers srv)) srv)
  | _, _ => (method_not_allowed, srv)
  end.

Definition handleContainerDelete (m : method) (id : string) (srv : Server) : response * Server :=
  match m with
  | DELETE =>
      if String.eqb id "" then (http_error 400 "container_id required", srv)
      else (MkResponse 204 NoContent, with_containers (delete id (containers srv)) srv)
  | _ => (method_not_allowed, srv)
  end.

Definition GetContainerPolicy (containerID : string) (srv : Server) : option string :=
  cb_PolicyID <$> containers srv !! containerID.

(** *** Admin endpoints *)

Definition handleAdminPolicies (env : Env) (m : method) (body : option Policy) (srv : Server) : response * Server :=
  match m, body with
  | GET, _ => (MkResponse 200 (PoliciesJSON (ListPolicies (policy_order env) (store srv))), srv)
  | POST, None => (bad_body, srv)
  | POST, Some p =>
      if String.eqb (p_ID p) "" || String.eqb (p_WASMPath p) "" then (http_error 400 "id and wasm_path required", srv)
      else finish 409 (CreatePolicy (now env) (ReadFile env (p_WASMPath p)) p (p_WASMPath p) (store srv)) srv (fun s =>
        (MkResponse 201 (from_option PolicyJSON NoContent (GetPolicy (p_ID p) s)), with_store s srv))
  | _, _ => (method_not_allowed, srv)
  end.

Definition handleAdminPolicy (env : Env) (m : method) (id : string) (body : option string) (srv : Server) : response * Server :=
  if String.eqb id "" then (http_error 400 "policy id required", srv)
  else match m, body with
  | GET, _ =>
      match GetPolicy id (store srv) with
      | Some p => (MkResponse 200 (PolicyJSON p), srv)
      | None => (http_error 404 "not found", srv)
      end
  | PUT, None => (bad_body, srv)
  | PUT, Some path =>
      finish 404 (UpdatePolicy (now env) (ReadFile env path) id path (store srv)) srv (fun s =>
        (MkResponse 200 (from_option PolicyJSON NoContent (GetPolicy id s)), with_store s srv))
  | DELETE, _ => finish 404 (DeletePolicy id (store srv)) srv (fun s => (MkResponse 204 NoContent, with_store s srv))
  | _, _ => (method_not_allowed, srv)
  end.

Definition handleAdminAgents (env : Env) (m : method) (srv : Server) : response :=
  match m with
  | GET => MkResponse 200 (AgentsJSON (ListAgents (agent_order env) (store srv)))
  | _ => method_not_allowed
  end.

Definition handleAdminRollouts (env : Env) (m : method) (body : option RolloutConfig) (srv : Server) : response * Server :=
  match m, body with
  | GET, _ => (MkResponse 200 (RolloutsJSON (ListRollouts (rollout_order env) (rollouts srv))), srv)
  | POST, None => (bad_body, srv)
  | POST, Some cfg =>
      if String.eqb (rcfg_ID cfg) "" || String.eqb (rcfg_PolicyID cfg) ""
      then (http_error 400 "id and policy_id required", srv)
      else finish 409 (CreateRollout (now env) cfg (store srv) (rollouts srv)) srv (fun r =>
        (MkResponse 201 (from_option RolloutJSON NoContent (GetRollout (rcfg_ID cfg) r)), with_rollouts r srv))
  | _, _ => (method_not_allowed, srv)
  end.

Definition handleAdminRollout (env : Env) (m : method) (id : string) (body : option Z) (srv : Server) : response * Server :=
  if String.eqb id "" then (http_error 400 "rollout id required", srv)
  else match m, body with
  | GET, _ =>
      match GetRollout id (rollouts srv) with
      | Some r => (MkResponse 200 (RolloutJSON r), srv)
      | None => (http_error 404 "not found", srv)
      end
  | PUT, None => (bad_body, srv)
  | PUT, Some pct =>
      finish 404 (UpdatePercentage (now env) id pct (rollouts srv)) srv (fun r =>
        (MkResponse 200 (from_option RolloutJSON NoContent (GetRollout id r)), with_rollouts r srv))
  | DELETE, _ =>
      finish 404 (AbortRollout (now env) id (rollouts srv)) srv (fun r => (MkResponse 204 NoContent, with_rollouts r srv))
  | _, _ => (method_not_allowed, srv)
  end.

Definition handle_admin (env : Env) (r : admin_request) (srv : Server) : response * Server :=
  match r with
  | AdminPolicies m body => handleAdminPolicies env m body srv
  | AdminPolicy m id body => handleAdminPolicy env m id body srv
  | AdminAgents m => (handleAdminAgents env m srv, srv)
  | AdminRollouts m body => handleAdminRollouts env m body srv
  | AdminRollout m id body => handleAdminRollout env m id body srv
  end.

Section Server.
Context (unmarshal : list Z -> go JWTClaims) (jwtSecret : list Z).

Definition bearer : list Z := bstr "Bearer ".

Definition requireJWT (env : Env) (authorization : list Z) (next : Server -> response * Server) (srv : Server)
    : response * Server :=
  match jwtSecret with
  | [] => next srv
  | _ =>
      if negb (bool_decide (take 7 authorization = bearer)) then (http_error 401 "missing authorization", srv)
      else match Validate unmarshal jwtSecret (now env) (drop 7 authorization) with
      | Ret claims =>
          if bool_decide (Role claims = bstr "admin") then next srv else (http_error 403 "admin role required", srv)
      | Fail err => (MkResponse 401 (ErrorText (Sprintf "invalid token: %w" [AErr err])), srv)
      | _ => (http_error 401 "invalid token", srv)
      end
  end.

(** The routes of [NewServer]. *)
Definition serve (env : Env) (r : request) (srv : Server) : response * Server :=
  match r with
  | Register m body => handleRegister env m body srv
  | HeartbeatReq m body => handleHeartbeat env m body srv
  | GetPolicyReq m agent_id if_version => (handleGetPolicy env m agent_id if_version srv, srv)
  | GetWASMReq m policy_id => (handleGetWASM m policy_id srv, srv)
  | ContainerBind m body => handleContainerBind m body srv
  | ContainerDelete m id => handleContainerDelete m id srv
  | Admin authorization r => requireJWT env authorization (handle_admin env r) srv
  end.

(** What happens at the server: a request, or a tick of [staleLoop]. *)
Inductive event : Type := Request (env : Env) (r : request) | Tick (time threshold : Z).

Definition server_step (srv : Server) (e : event) : Server :=
  match e with
  | Request env r => (serve env r srv).2
  | Tick time threshold => with_store (MarkStaleAgents time threshold (store srv)) srv
  end.

Definition server_run (es : list event) : Server := fold_left server_step es NewServer.
End Server.

(** ** The client *)

(** [updates]: the calls of [onUpdate] so far, the latest last. *)
Record Client : Type := MkClient {
  agentID : string;
  hostname : string;
  c_labels : gmap string string;
  policyVersion : Z;
  updates : list (PolicyAssignment * list Z);
}.

Definition NewClient (id host : string) (l : gmap string string) : Client := MkClient id host l 0 [].

Definition register_request (c : Client) : request :=
  Register POST (Some (MkRegisterRequest (agentID c) (hostname c) (c_labels c))).
Definition heartbeat_request (c : Client) : request :=
  HeartbeatReq POST (Some (MkHeartbeatRequest (agentID c) (policyVersion c))).
Definition poll_request (c : Client) : request := GetPolicyReq GET (agentID c) (Some (policyVersion c)).

(** The first exchange of [poll]: the assignment to fetch. *)
Definition poll_assignment (c : Client) (resp : option response) : option PolicyAssignment :=
  r ← resp;
  if negb (StatusCode r =? 200) then None
  else match resp_content r with
  | AssignmentJSON a => if as_Version a <=? policyVersion c then None else Some a
  | _ => None
  end.

(** [fetchWASM]; [io.ReadAll] of the body. *)
Definition fetchWASM (resp : option response) : option (list Z) :=
  r ← resp;
  if negb (StatusCode r =? 200) then None
  else match resp_content r with Wasm data => Some data | _ => None end.

(** [http] answers the first exchange and [http'] the second. *)
Definition poll (http http' : request -> option response) (c : Client) : Client :=
  match poll_assignment c (http (poll_request c)) with
  | None => c
  | Some a =>
      match fetchWASM (http' (GetWASMReq GET (as_PolicyID a))) with
      | None => c
      | Some data =>
          MkClient (agentID c) (hostname c) (c_labels c) (as_Version a) (updates c ++ [(a, data)])
      end
  end.
