(* ===== verification/PolicyServerFacts.v ===== *)
(** What the policy server and its agents guarantee: consistency of the server's state
    over every sequence of requests, who can change it, what a poll installs, and what a
    rollout does. *)

From stdpp Require Import sorting.
From S2P Require Import Prelude GoApi Sha256 Jwt PolicyStore PolicyServer.

(** ** Consistency of the server *)

Record policy_entry (w : gmap string (list Z)) (id : string) (p : Policy) : Prop := {
  pe_id : p_ID p = id;
  pe_named : id ≠ "";
  pe_data : ∃ data, w !! id = Some data ∧ p_WASMHash p = hash_of data;
}.

Record rollout_entry (id : string) (r : RolloutState) : Prop := {
  re_id : r_ID r = id;
  re_named : id ≠ "";
  re_range : 0 <= r_Percentage r <= 100;
  re_status : r_Status r ∈ ["active"; "completed"; "aborted"];
  re_active : r_Status r = "active" -> r_CompletedAt r = None;
  re_ended : r_Status r ≠ "active" -> is_Some (r_CompletedAt r);
}.

Record server_ok (srv : Server) : Prop := {
  ok_policies : map_Forall (policy_entry (wasm (store srv))) (policies (store srv));
  ok_wasm : ∀ id, is_Some (wasm (store srv) !! id) -> is_Some (policies (store srv) !! id);
  ok_agents : map_Forall (fun id a => a_ID a = id ∧ id ≠ "") (agents (store srv));
  ok_rollouts : map_Forall rollout_entry (rollouts srv);
}.

Definition only_agents (srv srv' : Server) : Prop :=
  policies (store srv') = policies (store srv) ∧ wasm (store srv') = wasm (store srv) ∧ rollouts srv' = rollouts srv.

Lemma server_ok_agents srv srv' :
  server_ok srv -> only_agents srv srv' ->
  map_Forall (fun id a => a_ID a = id ∧ id ≠ "") (agents (store srv')) -> server_ok srv'.
Proof. intros [] (Hp & Hw & Hr) Ha. by split; rewrite ?Hp, ?Hw, ?Hr. Qed.

Lemma policies_insert (w : gmap string (list Z)) (ps : gmap string Policy) id p data :
  map_Forall (policy_entry w) ps -> p_ID p = id -> id ≠ "" -> p_WASMHash p = hash_of data ->
  map_Forall (policy_entry (<[id := data]> w)) (<[id := p]> ps).
Proof.
  intros Hps Hid Hne Hh id' p' [[<- <-]|[Hd Hp']]%lookup_insert_Some.
  - split; [done|done|]. exists data. by rewrite lookup_insert_eq.
  - destruct (Hps id' p' Hp') as [? ? (d & Hw & ?)]. split; [done|done|]. exists d. by rewrite lookup_insert_ne.
Qed.

Lemma wasm_insert (w : gmap string (list Z)) (ps : gmap string Policy) id p data :
  (∀ id, is_Some (w !! id) -> is_Some (ps !! id)) ->
  ∀ id', is_Some (<[id := data]> w !! id') -> is_Some (<[id := p]> ps !! id').
Proof.
  intros Hw id'. destruct (decide (id = id')) as [<-|]; [intros _; rewrite lookup_insert_eq; by eexists|].
  rewrite !lookup_insert_ne by done. apply Hw.
Qed.

Lemma rollouts_insert (rs : gmap string RolloutState) id r :
  map_Forall rollout_entry rs -> rollout_entry id r -> map_Forall rollout_entry (<[id := r]> rs).
Proof. intros Hrs Hr id' r' [[<- <-]|[_ Hr']]%lookup_insert_Some; [done|by apply Hrs]. Qed.

(** The operations of the store and of the rollouts. *)

Lemma CreatePolicy_ok t file p path s srv s' :
  server_ok srv -> store srv = s -> p_ID p ≠ "" -> CreatePolicy t file p path s = Ret s' ->
  server_ok (with_store s' srv).
Proof.
  intros [] <- Hne. unfold CreatePolicy. destruct (policies (store srv) !! p_ID p); [done|].
  destruct file as [data|err|why|]; try done. intros [= <-].
  split; simpl; [by apply policies_insert|by apply wasm_insert|done|done].
Qed.

Lemma UpdatePolicy_ok t file id path s srv s' :
  server_ok srv -> store srv = s -> UpdatePolicy t file id path s = Ret s' -> server_ok (with_store s' srv).
Proof.
  intros [Hp Hw Ha Hr] <-. unfold UpdatePolicy. destruct (policies (store srv) !! id) as [p|] eqn:Hid; [|done].
  destruct (Hp id p Hid) as [Hi Hn _].
  destruct file as [data|err|why|]; try done. intros [= <-].
  split; simpl; [by apply policies_insert|by apply wasm_insert|done|done].
Qed.

Lemma DeletePolicy_ok id s srv s' :
  server_ok srv -> store srv = s -> DeletePolicy id s = Ret s' -> server_ok (with_store s' srv).
Proof.
  intros [Hp Hw Ha Hr] <-. unfold DeletePolicy. destruct (policies (store srv) !! id) as [p|]; [|done].
  intros [= <-]. split; simpl; [| |done|done].
  - intros id' p' [Hne Hp']%lookup_delete_Some. destruct (Hp id' p' Hp') as [? ? (d & ? & ?)].
    split; [done|done|]. exists d. by rewrite lookup_delete_ne.
  - intros id'. destruct (decide (id = id')) as [<-|]; [rewrite lookup_delete_eq; by intros []|].
    rewrite !lookup_delete_ne by done. apply Hw.
Qed.

Lemma CreateRollout_ok t cfg srv r' :
  server_ok srv -> rcfg_ID cfg ≠ "" -> CreateRollout t cfg (store srv) (rollouts srv) = Ret r' ->
  server_ok (with_rollouts r' srv).
Proof.
  intros [Hp Hw Ha Hr] Hne. unfold CreateRollout. destruct (rollouts srv !! _); [done|].
  destruct (GetPolicy _ _); [|done]. destruct ((_ <? 0) || _) eqn:Hb; [done|]. intros [= <-].
  apply orb_false_iff in Hb as [? ?]. zbool.
  split; simpl; try done. apply rollouts_insert; [done|]. split; simpl; try done; (lia || listed).
Qed.

Lemma UpdatePercentage_ok t id pct srv r' :
  server_ok srv -> UpdatePercentage t id pct (rollouts srv) = Ret r' -> server_ok (with_rollouts r' srv).
Proof.
  intros [Hp Hw Ha Hr]. unfold UpdatePercentage. destruct (rollouts srv !! id) as [r|] eqn:Hid; [|done].
  destruct (Hr id r Hid). destruct ((_ <? 0) || _) eqn:Hb; [done|]. intros [= <-].
  apply orb_false_iff in Hb as [? ?]. zbool.
  split; simpl; try done. apply rollouts_insert; [done|].
  destruct (pct =? 100); split; simpl; try done; (lia || listed).
Qed.

Lemma AbortRollout_ok t id srv r' :
  server_ok srv -> AbortRollout t id (rollouts srv) = Ret r' -> server_ok (with_rollouts r' srv).
Proof.
  intros [Hp Hw Ha Hr]. unfold AbortRollout. destruct (rollouts srv !! id) as [r|] eqn:Hid; [|done].
  destruct (Hr id r Hid). intros [= <-]. split; simpl; try done. apply rollouts_insert; [done|].
  split; simpl; try done; listed.
Qed.

(** A handler whose operation fails leaves the server as it was. *)
Lemma finish_ok {A} (P : Server -> Prop) status (m : go A) srv ok :
  P srv -> (∀ a, m = Ret a -> P (ok a).2) -> P (finish status m srv ok).2.
Proof. intros Hp Hok. unfold finish. destruct m; [by apply Hok|done..]. Qed.

Lemma handle_admin_ok env r srv : server_ok srv -> server_ok (handle_admin env r srv).2.
Proof.
  intros Hok. destruct r as [m body|m id body|m|m body|m id body]; simpl; [| |done| |].
  - unfold handleAdminPolicies. destruct m, body as [p|]; try done.
    destruct (String.eqb_spec (p_ID p) ""); [done|]. destruct (String.eqb (p_WASMPath p) ""); [done|]. simpl.
    apply finish_ok; [done|]. intros s' Hs. by eapply CreatePolicy_ok.
  - unfold handleAdminPolicy. destruct (String.eqb id ""); [done|]. destruct m, body; try done; try by destruct (GetPolicy _ _).
    all: apply finish_ok; [done|]; intros s' Hs; first [by eapply UpdatePolicy_ok|by eapply DeletePolicy_ok].
  - unfold handleAdminRollouts. destruct m, body as [cfg|]; try done.
    destruct (String.eqb_spec (rcfg_ID cfg) ""); [done|]. destruct (String.eqb (rcfg_PolicyID cfg) ""); [done|]. simpl.
    apply finish_ok; [done|]. intros r' Hr. by eapply CreateRollout_ok.
  - unfold handleAdminRollout. destruct (String.eqb id ""); [done|]. destruct m, body; try done; try by destruct (GetRollout _ _).
    all: apply finish_ok; [done|]; intros r' Hr; first [by eapply UpdatePercentage_ok|by eapply AbortRollout_ok].
Qed.

(** ** Who changes what *)

Lemma RegisterAgent_ok t req s :
  map_Forall (fun id a => a_ID a = id ∧ id ≠ "") (agents s) -> rq_ID req ≠ "" ->
  map_Forall (fun id a => a_ID a = id ∧ id ≠ "") (agents (RegisterAgent t req s)).
Proof. intros Ha Hne id a Hid. simpl in Hid. apply lookup_insert_Some in Hid as [[<- <-]|[_ Hid]]; [done|by apply Ha]. Qed.

Lemma Heartbeat_ok t id v s s' :
  map_Forall (fun id a => a_ID a = id ∧ id ≠ "") (agents s) -> Heartbeat t id v s = Ret s' ->
  map_Forall (fun id a => a_ID a = id ∧ id ≠ "") (agents s') ∧ policies s' = policies s ∧ wasm s' = wasm s.
Proof.
  intros Ha. unfold Heartbeat. destruct (agents s !! id) as [a|] eqn:Hid; [|done]. intros [= <-]. split; [|done].
  intros id' a' Hin. simpl in Hin.
  apply lookup_insert_Some in Hin as [[<- <-]|[_ Hid']]; [by apply (Ha id a)|by apply Ha].
Qed.

Lemma MarkStaleAgents_ok t threshold s :
  map_Forall (fun id a => a_ID a = id ∧ id ≠ "") (agents s) ->
  map_Forall (fun id a => a_ID a = id ∧ id ≠ "") (agents (MarkStaleAgents t threshold s)).
Proof.
  intros Ha id a Hid. simpl in Hid. apply lookup_fmap_Some in Hid as (a0 & <- & Hid).
  destruct (Ha id a0 Hid) as [Hi Hn]. split; [|done]. unfold mark_agent, with_status.
  by repeat case_match; simpl.
Qed.

Section runs.
Context (unmarshal : list Z -> go JWTClaims) (jwtSecret : list Z).

Abbreviation step := (server_step unmarshal jwtSecret).

(** The requests that are allowed to administrate. *)
Definition authorized (env : Env) (authorization : list Z) : Prop :=
  jwtSecret = [] ∨
  take 7 authorization = bearer ∧
  ∃ claims, Validate unmarshal jwtSecret (now env) (drop 7 authorization) = Ret claims ∧ Role claims = bstr "admin".

Lemma requireJWT_cases env authorization next srv :
  (authorized env authorization ∧ requireJWT unmarshal jwtSecret env authorization next srv = next srv) ∨
  (requireJWT unmarshal jwtSecret env authorization next srv).2 = srv.
Proof.
  unfold requireJWT, authorized. destruct jwtSecret as [|k ks]; [by left; split; [left|]|].
  case_bool_decide as Hb; simpl; [|by right].
  destruct (Validate _ _ _ _) as [claims|err|why|] eqn:Hv; try by right.
  case_bool_decide as Hr; [|by right]. left. split; [|done]. right. split; [done|]. by exists claims.
Qed.

(** What the other endpoints and the ticks leave alone. *)
Lemma step_cases srv e :
  server_ok srv ->
  (only_agents srv (step srv e) ∧ map_Forall (fun id a => a_ID a = id ∧ id ≠ "") (agents (store (step srv e)))) ∨
  ∃ env authorization r, e = Request env (Admin authorization r) ∧ authorized env authorization ∧
    step srv e = (handle_admin env r srv).2.
Proof.
  intros Hok. pose proof (ok_agents _ Hok) as Ha. destruct e as [env r|time threshold]; simpl.
  2: { left. split; [done|]. by apply MarkStaleAgents_ok. }
  destruct r as [m body|m body|m aid v|m pid|m body|m id|authorization r]; simpl; try by left.
  - left. unfold handleRegister. destruct m, body as [req|]; try done.
    destruct (String.eqb_spec (rq_ID req) ""); [done|]. split; [done|]. by apply RegisterAgent_ok.
  - left. unfold handleHeartbeat. destruct m, body as [req|]; try done.
    apply (finish_ok (fun srv' => only_agents srv srv' ∧ map_Forall _ (agents (store srv')))); [done|].
    intros s' (Ha' & Hp & Hw)%Heartbeat_ok; [|done]. simpl. by split_and!.
  - left. unfold handleContainerBind. destruct m, body as [b|]; try done. by destruct (_ || _).
  - left. unfold handleContainerDelete. destruct m; try done. by destruct (String.eqb id "").
  - destruct (requireJWT_cases env authorization (handle_admin env r) srv) as [[Hauth ->]|Heq]; [|by left; rewrite Heq].
    right. by exists env, authorization, r.
Qed.

Lemma step_ok srv e : server_ok srv -> server_ok (step srv e).
Proof.
  intros Hok. destruct (step_cases srv e Hok) as [[? ?]|(env & auth & r & _ & _ & ->)].
  - by eapply server_ok_agents.
  - by apply handle_admin_ok.
Qed.

Lemma run_ok es : server_ok (server_run unmarshal jwtSecret es).
Proof.
  unfold server_run. assert (Hok : server_ok NewServer).
  { split; try apply map_Forall_empty. intros id. simpl. rewrite lookup_empty. by intros []. }
  revert Hok. generalize NewServer as srv. induction es as [|e es IH]; intros srv Hok; simpl; [done|].
  by apply IH, step_ok.
Qed.

(** C14: after any sequence of requests and clock ticks the policy server is consistent:
    policies and agents are stored under their own non-empty ids, a policy always comes
    with the module whose SHA-256 sum it reports, no module is left without its policy,
    and a rollout has a percentage between 0 and 100, one of three states, and a time of
    completion exactly when it has ended. *)
Theorem server_runs_consistent es : server_ok (server_run unmarshal jwtSecret es).
Proof. apply run_ok. Qed.

(** C13: when a secret is configured, policies, modules and rollouts change only through
    a request to an admin endpoint whose token is valid and has the role admin; everything
    else an agent, a container runtime or a stranger can send leaves them as they are,
    in every reachable state of the server. *)
Theorem only_admins_change_policies es e :
  jwtSecret ≠ [] ->
  let srv := server_run unmarshal jwtSecret es in
  only_agents srv (step srv e) ∨
  ∃ env authorization r claims, e = Request env (Admin authorization r) ∧ take 7 authorization = bearer ∧
    Validate unmarshal jwtSecret (now env) (drop 7 authorization) = Ret claims ∧ Role claims = bstr "admin".
Proof.
  intros Hs srv. destruct (step_cases srv e (run_ok es)) as [[? _]|(env & auth & r & He & [|[Hb (c & ? & ?)]] & _)].
  - by left.
  - done.
  - right. by exists env, auth, r, c.
Qed.
End runs.

(** ** Polling *)

(** A client after a sequence of polls, each with whatever answers it. *)
Definition exchange : Type := (request -> option response) * (request -> option response).
Definition polls (xs : list exchange) (c : Client) : Client := fold_left (fun c x => poll x.1 x.2 c) xs c.
Definition versions (c : Client) : list Z := (fun u => as_Version u.1) <$> updates c.

Lemma poll_cases http http' c :
  poll http http' c = c ∨
  ∃ a data, policyVersion c < as_Version a ∧
    poll http http' c = MkClient (agentID c) (hostname c) (c_labels c) (as_Version a) (updates c ++ [(a, data)]).
Proof.
  unfold poll, poll_assignment. destruct (http (poll_request c)) as [r|]; simpl; [|by left].
  destruct (negb _); [by left|]. destruct (resp_content r); try by left.
  destruct (Z.leb_spec (as_Version a) (policyVersion c)); [by left|].
  destruct (fetchWASM _) as [data|]; [|by left]. right. by exists a, data.
Qed.

Lemma polls_grow xs c :
  ∃ new, updates (polls xs c) = updates c ++ new ∧
    StronglySorted Z.lt (policyVersion c :: ((fun u => as_Version u.1) <$> new)) ∧
    policyVersion (polls xs c) = default (policyVersion c) (last ((fun u => as_Version u.1) <$> new)).
Proof.
  revert c. induction xs as [|x xs IH]; intros c; simpl.
  { exists []. rewrite app_nil_r. split_and!; [done| |done]. repeat constructor. }
  destruct (IH (poll x.1 x.2 c)) as (new & Hu & Hs & Hv). fold (polls xs (poll x.1 x.2 c)).
  destruct (poll_cases x.1 x.2 c) as [Heq|(a & data & Hlt & Heq)]; rewrite Heq in *; [by exists new|].
  simpl in *. exists ((a, data) :: new). rewrite Hu, <- (assoc_L (++)). split_and!; [done| |].
  - apply SSorted_cons; [done|]. apply Forall_cons. split; [done|].
    apply StronglySorted_inv in Hs as [_ Hs]. eapply Forall_impl; [exact Hs|]. simpl. lia.
  - rewrite Hv, fmap_cons, last_cons. by destruct (last _).
Qed.

(** C24: an agent never goes back.  Whatever answers its polls, and whatever the server's
    policies and rollouts go through in between, every update it applies has a higher
    version than all before; the version it reports is the last one it applied.  So no
    later assignment of an equal or lower version takes effect: not the base version
    after a rollout was aborted, and not another policy whose version is lower. *)
Theorem agents_never_go_back id host l xs xs' :
  let c := polls xs (NewClient id host l) in
  let c' := polls (xs ++ xs') (NewClient id host l) in
  StronglySorted Z.lt (versions c') ∧ policyVersion c' = default 0 (last (versions c')) ∧
  policyVersion c <= policyVersion c' ∧
  ∃ new, updates c' = updates c ++ new ∧ Forall (fun u => policyVersion c < as_Version u.1) new.
Proof.
  intros c c'. assert (Hc : c' = polls xs' c) by apply fold_left_app.
  destruct (polls_grow (xs ++ xs') (NewClient id host l)) as (all & Hu & [Hs _]%StronglySorted_inv & Hv).
  destruct (polls_grow xs' c) as (new & Hu' & [Hs' Hnew]%StronglySorted_inv & Hv'). rewrite <- Hc in Hu', Hv'.
  fold c' in Hu, Hv. simpl in Hu, Hv. unfold versions. rewrite Hu. split_and!; [done|done| |].
  - rewrite Hv'. destruct (last ((fun u : PolicyAssignment * list Z => as_Version u.1) <$> new)) as [v|] eqn:Hl; [|apply Z.le_refl].
    rewrite Forall_forall in Hnew. apply Z.lt_le_incl, Hnew. by apply last_Some_elem_of.
  - exists new. split; [by rewrite <- Hu|]. rewrite Forall_fmap in Hnew. exact Hnew.
Qed.

(** ** What a poll installs *)

Section install.
Context (unmarshal : list Z -> go JWTClaims) (jwtSecret : list Z).

(** The server as it answers while nothing changes. *)
Definition answers (env : Env) (srv : Server) (r : request) : option response :=
  Some (serve unmarshal jwtSecret env r srv).1.

Definition policy_assigned_entry (srv : Server) (a : PolicyAssignment) : Prop :=
  as_PolicyID a ≠ "" ∧ ∃ data, GetWASM (as_PolicyID a) (store srv) = Some data ∧ as_WASMHash a = hash_of data.

Lemma assignment_entry env id labels srv a :
  (∀ l, policy_order env l ≡ₚ l) -> server_ok srv -> assignment_of env id labels srv = Some a ->
  policy_assigned_entry srv a.
Proof.
  intros Hperm Hok. unfold assignment_of, ResolvePolicy.
  pose proof (MatchPolicy_spec (policy_order env) labels (store srv) Hperm) as Hm.
  destruct (MatchPolicy _ _ _) as [p|]; simpl; [|done]. intros [= <-]. simpl.
  destruct Hm as ((pid & Hp) & _). destruct (ok_policies _ Hok pid p Hp) as [-> Hne Hd]. done.
Qed.

End install.

(** ** Rollouts *)

(** The cohort decision for an agent after the percentage was set. *)
Definition in_cohort (t : Z) (id agent : string) (rs : Rollouts) (pct : Z) : bool :=
  match UpdatePercentage t id pct rs with Ret rs' => ShouldUseNewVersion id agent rs' | _ => false end.

(** What an assignment makes an agent run. *)
Definition module_of (a : PolicyAssignment) : string * list Z * string := (as_PolicyID a, as_WASMHash a, as_WASMPath a).

Lemma in_cohort_active t id agent rs r pct :
  rs !! id = Some r -> r_Status r = "active" -> 0 <= pct < 100 ->
  in_cohort t id agent rs pct = (consistentBucket id agent <? pct).
Proof.
  intros Hr Ha Hp. unfold in_cohort, UpdatePercentage. rewrite Hr.
  replace ((pct <? 0) || (100 <? pct)) with false
    by (symmetry; apply orb_false_iff; split; apply Z.ltb_ge; lia).
  unfold ShouldUseNewVersion. rewrite lookup_insert_eq. rewrite (proj2 (Z.eqb_neq _ _)) by lia. simpl. rewrite Ha.
  rewrite (proj2 (Z.leb_gt 100 pct)) by lia. simpl.
  destruct (Z.leb_spec pct 0); [|done]. symmetry. apply Z.ltb_ge. pose proof (bucket_range id agent). lia.
Qed.

(** C27: an active rollout selects the agents whose bucket, a fixed number below 100, lies
    below its percentage, so that raising the percentage (short of 100) never takes an
    agent out; but at 100, where it counts as completed, and once aborted, it selects no
    agent at all.  And being selected changes nothing but the version number in the
    assignment: the policy, its module and its path are those of an agent outside the
    rollout. *)
Theorem rollout_effect t id rs r :
  rs !! id = Some r -> r_Status r = "active" ->
  (∀ agent pct, 0 <= pct < 100 -> in_cohort t id agent rs pct = (consistentBucket id agent <? pct)) ∧
  (∀ agent pct pct', 0 <= pct <= pct' -> pct' < 100 ->
     in_cohort t id agent rs pct = true -> in_cohort t id agent rs pct' = true) ∧
  (∀ agent, in_cohort t id agent rs 100 = false ∧
     ∃ rs', AbortRollout t id rs = Ret rs' ∧ ShouldUseNewVersion id agent rs' = false) ∧
  (∀ orderP orderR agent labels s,
     module_of <$> ResolvePolicy orderP orderR agent labels s rs =
     module_of <$> ResolvePolicy orderP orderR agent labels s ∅).
Proof.
  intros Hr Ha. split_and!.
  - intros agent pct Hp. by eapply in_cohort_active.
  - intros agent pct pct' Hp Hp'. rewrite !(in_cohort_active t id agent rs r) by (done || lia).
    rewrite !Z.ltb_lt. lia.
  - intros agent. unfold in_cohort, UpdatePercentage, AbortRollout, ShouldUseNewVersion. rewrite Hr. simpl.
    rewrite lookup_insert_eq. split; [done|]. eexists. split; [done|]. by rewrite lookup_insert_eq.
  - intros. unfold ResolvePolicy. by destruct (MatchPolicy orderP labels s).
Qed.

(** ** A concrete server *)

Definition demo_file (path : string) : go (list Z) :=
  if String.eqb path "/policies/v1.wasm" then Ret (bstr "one") else Ret (bstr "two").
Definition demo_env (t : Z) : Env := MkEnv t demo_file (fun l => l) (fun l => l) (fun l => l).
Definition demo_auth : list Z := bearer ++ demo_token.
Definition admin (t : Z) (r : admin_request) : event := Request (demo_env t) (Admin demo_auth r).

Definition demo_policy : Policy :=
  MkPolicy "base" "Base" 0 "/policies/v1.wasm" [] {["env" := "prod"]} false 1 0 0 "".
Definition demo_client : Client := NewClient "node-1" "node-1.local" {["env" := "prod"]}.

Definition demo_setup : list event :=
  [admin 2000000000 (AdminPolicies POST (Some demo_policy)); Request (demo_env 2000000001) (register_request demo_client)].
Definition demo_rollout : list event :=
  demo_setup ++
  [admin 3000000000 (AdminPolicy PUT "base" (Some "/policies/v2.wasm"));
   admin 3000000001 (AdminRollouts POST (Some (MkRolloutConfig "r1" "base" 7 99)))].

(** The same requests to a server without a secret, and to one with it. *)
Abbreviation demo_server es := (server_run demo_unmarshal [] es).
Abbreviation secure_server es := (server_run demo_unmarshal (bstr "secret") es).
Abbreviation demo_poll es c :=
  (poll (answers demo_unmarshal [] (demo_env 4000000000) (demo_server es))
     (answers demo_unmarshal [] (demo_env 4000000000) (demo_server es)) c).

(** What an agent applied: versions and modules. *)
Definition applied (c : Client) : list (Z * list Z) := (fun u => (as_Version u.1, u.2)) <$> updates c.

(** The agent gets version 1, then in the rollout version 7 with the module that is
    already everybody's; when the rollout is aborted it keeps version 7, and policy
    updates no longer reach it until their version exceeds 7. *)
Example abort_does_not_revert :
  let c1 := demo_poll demo_setup demo_client in
  let c2 := demo_poll demo_rollout c1 in
  let aborted := demo_rollout ++ [admin 3000000002 (AdminRollout DELETE "r1" None)] in
  let c3 := demo_poll aborted c2 in
  let updated := aborted ++ [admin 3000000003 (AdminPolicy PUT "base" (Some "/policies/v1.wasm"))] in
  let c4 := demo_poll updated c3 in
  applied c1 = [(1, bstr "one")] ∧ applied c2 = [(1, bstr "one"); (7, bstr "two")] ∧
  applied c3 = applied c2 ∧ applied c4 = applied c2.
Proof. split_and!; vm_compute; reflexivity. Qed.

(** A policy that is updated between the two exchanges of a poll: the agent applies a
    module whose sum is not the one of its assignment, and nothing compares them. *)
Example poll_race :
  let srv := demo_server demo_setup in
  let srv' := demo_server (demo_setup ++ [admin 3000000000 (AdminPolicy PUT "base" (Some "/policies/v2.wasm"))]) in
  let c := poll (answers demo_unmarshal [] (demo_env 0) srv) (answers demo_unmarshal [] (demo_env 0) srv') demo_client in
  (fun u => (as_Version u.1, bool_decide (as_WASMHash u.1 = hash_of u.2))) <$> updates c = [(1, false)].
Proof. vm_compute. reflexivity. Qed.

(** With the secret, the token of the demonstration is accepted. *)
Example demo_token_accepted : policies (store (secure_server demo_setup)) !! "base" ≠ None.
Proof. vm_compute. discriminate. Qed.

Lemma only_admins_change_policies_witness :
  bstr "secret" ≠ [] ∧
  only_agents (secure_server demo_setup)
    (server_step demo_unmarshal (bstr "secret") (secure_server demo_setup)
       (Request (demo_env 5000000000) (Admin (bearer ++ bstr "a.b.c") (AdminPolicy DELETE "base" None)))).
Proof.
  assert (Hs : bstr "secret" ≠ []) by done. split; [exact Hs|].
  destruct (only_admins_change_policies demo_unmarshal (bstr "secret") demo_setup
    (Request (demo_env 5000000000) (Admin (bearer ++ bstr "a.b.c") (AdminPolicy DELETE "base" None))) Hs)
    as [Ho|(env & auth & r & claims & Heq & _ & Hv & _)]; [exact Ho|].
  injection Heq as <- <- _. vm_compute in Hv. discriminate Hv.
Defined.


Definition demo_active : Rollouts := {["r1" := MkRolloutState "r1" "base" 7 50 0 None "active" 1]}.

Lemma rollout_effect_witness :
  demo_active !! "r1" = Some (MkRolloutState "r1" "base" 7 50 0 None "active" 1) ∧
  in_cohort 5000000000 "r1" "node-1" demo_active 100 = false.
Proof.
  assert (Hr : demo_active !! "r1" = Some (MkRolloutState "r1" "base" 7 50 0 None "active" 1)) by reflexivity.
  split; [exact Hr|].
  destruct (rollout_effect 5000000000 "r1" _ _ Hr eq_refl) as (_ & _ & H100 & _). apply H100.
Defined.
