(* ===== verification/Canary.v ===== *)
(** internal/policyserver/canary.go: the comparison of the deny rates of the two cohorts of
    a rollout, and the automatic rollback.

    Rates are binary64 numbers ([GoFmt.v]); counters are 64-bit integers; the readings of
    the clock are arguments, one for each time the source asks for it. *)

From S2P Require Import Prelude GoApi GoFmt PolicyStore.

Record CanaryConfig : Type := MkCanaryConfig {
  MaxDenyRateDelta : float64;
  ObservationWindow : Z;
  MinSampleSize : Z;
  AutoRollback : bool;
}.

Record CanaryMetrics : Type := MkCanaryMetrics {
  BaselineDenyRate : float64;
  CanaryDenyRate : float64;
  BaselineSamples : Z;
  CanarySamples : Z;
  ObservedFor : Z;
  Verdict : string;
}.

Record canaryCounters : Type := MkCounters {
  baselineTotal : Z;
  baselineDeny : Z;
  canaryTotal : Z;
  canaryDeny : Z;
  startedAt : Z;
  rolledBack : bool;
}.

Record CanaryAnalyzer : Type := MkCanaryAnalyzer {
  configs : gmap string CanaryConfig;
  counters : gmap string canaryCounters;
}.

Definition NewCanaryAnalyzer : CanaryAnalyzer := MkCanaryAnalyzer ∅ ∅.

Definition zero_counters (t : Z) : canaryCounters := MkCounters 0 0 0 0 t false.
Definition counters_of (t : Z) (id : string) (ca : CanaryAnalyzer) : canaryCounters :=
  default (zero_counters t) (counters ca !! id).

Definition Configure (t : Z) (rolloutID : string) (cfg : CanaryConfig) (ca : CanaryAnalyzer) : CanaryAnalyzer :=
  MkCanaryAnalyzer (<[rolloutID := cfg]> (configs ca)) (<[rolloutID := counters_of t rolloutID ca]> (counters ca)).

Definition incr (b : bool) (n : Z) : Z := if b then to_s 64 (n + 1) else n.

Definition record_in (isCanary denied : bool) (c : canaryCounters) : canaryCounters :=
  if isCanary
  then MkCounters (baselineTotal c) (baselineDeny c) (incr true (canaryTotal c)) (incr denied (canaryDeny c))
         (startedAt c) (rolledBack c)
  else MkCounters (incr true (baselineTotal c)) (incr denied (baselineDeny c)) (canaryTotal c) (canaryDeny c)
         (startedAt c) (rolledBack c).

Definition RecordDecision (t : Z) (rolloutID : string) (isCanary denied : bool) (ca : CanaryAnalyzer) : CanaryAnalyzer :=
  MkCanaryAnalyzer (configs ca)
    (<[rolloutID := record_in isCanary denied (counters_of t rolloutID ca)]> (counters ca)).

Definition rate (deny total : Z) : float64 := fdiv (float_of_int deny) (float_of_int total).

Definition buildMetrics (t : Z) (c : canaryCounters) (verdict : string) : CanaryMetrics := {|
  BaselineDenyRate := if 0 <? baselineTotal c then rate (baselineDeny c) (baselineTotal c) else float_of_int 0;
  CanaryDenyRate := if 0 <? canaryTotal c then rate (canaryDeny c) (canaryTotal c) else float_of_int 0;
  BaselineSamples := baselineTotal c;
  CanarySamples := canaryTotal c;
  ObservedFor := t - startedAt c;
  Verdict := verdict |}.

Definition pending_metrics : CanaryMetrics := MkCanaryMetrics (float_of_int 0) (float_of_int 0) 0 0 0 "pending".

(** The canary denies more than the baseline by more than the configured margin. *)
Definition degraded (cfg : CanaryConfig) (c : canaryCounters) : bool :=
  flt (MaxDenyRateDelta cfg)
    (fsub (rate (canaryDeny c) (canaryTotal c)) (rate (baselineDeny c) (baselineTotal c))).

Definition set_rolledBack (c : canaryCounters) : canaryCounters :=
  MkCounters (baselineTotal c) (baselineDeny c) (canaryTotal c) (canaryDeny c) (startedAt c) true.

(** The error of aborting an unknown rollout is ignored. *)
Definition abort_ignored (t : Z) (rolloutID : string) (rollouts : Rollouts) : Rollouts :=
  match AbortRollout t rolloutID rollouts with Ret r => r | _ => rollouts end.

(** [t] is read to measure the observation, [t'] by [buildMetrics] and [t''] by the abort. *)
Definition Evaluate (t t' t'' : Z) (rolloutID : string) (ca : CanaryAnalyzer) (rollouts : Rollouts)
    : CanaryMetrics * bool * (CanaryAnalyzer * Rollouts) :=
  match configs ca !! rolloutID, counters ca !! rolloutID with
  | Some cfg, Some c =>
      if rolledBack c then (buildMetrics t' c "rolled-back", false, (ca, rollouts))
      else if (canaryTotal c <? MinSampleSize cfg) || (baselineTotal c <? MinSampleSize cfg)
      then (buildMetrics t' c "pending", false, (ca, rollouts))
      else if t - startedAt c <? ObservationWindow cfg then (buildMetrics t' c "pending", false, (ca, rollouts))
      else if degraded cfg c then
        if AutoRollback cfg then
          (buildMetrics t' (set_rolledBack c) "rolled-back", true,
           (MkCanaryAnalyzer (configs ca) (<[rolloutID := set_rolledBack c]> (counters ca)),
            abort_ignored t'' rolloutID rollouts))
        else (buildMetrics t' c "degraded", false, (ca, rollouts))
      else (buildMetrics t' c "healthy", false, (ca, rollouts))
  | _, _ => (pending_metrics, false, (ca, rollouts))
  end.

Definition Metrics (t : Z) (rolloutID : string) (ca : CanaryAnalyzer) : CanaryMetrics :=
  match counters ca !! rolloutID with
  | None => pending_metrics
  | Some c => buildMetrics t c (if rolledBack c then "rolled-back" else "pending")
  end.

Definition canary_Reset (rolloutID : string) (ca : CanaryAnalyzer) : CanaryAnalyzer :=
  MkCanaryAnalyzer (delete rolloutID (configs ca)) (delete rolloutID (counters ca)).

(** ** Runs *)

Inductive canary_op : Type :=
| OpConfigure (t : Z) (id : string) (cfg : CanaryConfig)
| OpRecord (t : Z) (id : string) (isCanary denied : bool)
| OpEvaluate (t t' t'' : Z) (id : string)
| OpReset (id : string).

(** The state, and as its history the operations so far, each with whether it triggered a
    rollback, the latest last. *)
Record canary_state : Type := MkCanaryState {
  cs_ca : CanaryAnalyzer;
  cs_rollouts : Rollouts;
  cs_past : list (canary_op * bool);
}.

Definition canary_step (s : canary_state) (op : canary_op) : canary_state :=
  match op with
  | OpConfigure t id cfg => MkCanaryState (Configure t id cfg (cs_ca s)) (cs_rollouts s) (cs_past s ++ [(op, false)])
  | OpRecord t id isCanary denied =>
      MkCanaryState (RecordDecision t id isCanary denied (cs_ca s)) (cs_rollouts s) (cs_past s ++ [(op, false)])
  | OpEvaluate t t' t'' id =>
      let '(_, triggered, (ca, r)) := Evaluate t t' t'' id (cs_ca s) (cs_rollouts s) in
      MkCanaryState ca r (cs_past s ++ [(op, triggered)])
  | OpReset id => MkCanaryState (canary_Reset id (cs_ca s)) (cs_rollouts s) (cs_past s ++ [(op, false)])
  end.
Definition canary_run (ops : list canary_op) (r : Rollouts) : canary_state :=
  fold_left canary_step ops (MkCanaryState NewCanaryAnalyzer r []).

Lemma canary_run_snoc ops op r : canary_run (ops ++ [op]) r = canary_step (canary_run ops r) op.
Proof. apply fold_left_app. Qed.

Lemma past_is_run ops r : (cs_past (canary_run ops r)).*1 = ops.
Proof.
  induction ops as [|op ops IH] using rev_ind; [done|]. rewrite canary_run_snoc. rewrite <- IH at 2.
  destruct op as [t id cfg|t id k d|t t' t'' id|id]; simpl; rewrite ?fmap_app; try done.
  destruct (Evaluate _ _ _ _ _ _) as [[m tr] [ca' r']]. simpl. by rewrite fmap_app.
Qed.

(** ** What a history says of a rollout *)

Definition is_reset (id : string) (op : canary_op) : bool :=
  match op with OpReset id' => String.eqb id' id | _ => false end.
(** What happened after the last reset of the rollout. *)
Definition since_reset (id : string) (past : list (canary_op * bool)) : list (canary_op * bool) :=
  fold_left (fun h x => if is_reset id x.1 then [] else h ++ [x]) past [].

Definition decision_of (id : string) (isCanary : bool) (x : canary_op * bool) : option bool :=
  match x.1 with
  | OpRecord _ id' c d => if String.eqb id' id && eqb c isCanary then Some d else None
  | _ => None
  end.
Definition config_of (id : string) (x : canary_op * bool) : option CanaryConfig :=
  match x.1 with OpConfigure _ id' cfg => if String.eqb id' id then Some cfg else None | _ => None end.
Definition start_of (id : string) (x : canary_op * bool) : option Z :=
  match x.1 with
  | OpConfigure t id' _ | OpRecord t id' _ _ => if String.eqb id' id then Some t else None
  | _ => None
  end.
Definition rollback_of (id : string) (x : canary_op * bool) : option unit :=
  match x with (OpEvaluate _ _ _ id', true) => if String.eqb id' id then Some tt else None | _ => None end.

(** The decisions of a cohort, denials as [true]; the configuration in force; the time the
    observation began; the number of rollbacks. *)
Definition decisions (id : string) (isCanary : bool) (h : list (canary_op * bool)) : list bool :=
  omap (decision_of id isCanary) h.
Definition configured (id : string) (h : list (canary_op * bool)) : option CanaryConfig := last (omap (config_of id) h).
Definition started (id : string) (h : list (canary_op * bool)) : option Z := head (omap (start_of id) h).
Definition rollbacks (id : string) (h : list (canary_op * bool)) : nat := length (omap (rollback_of id) h).

(** A number of decisions in a 64-bit counter, and the rate of denials as a quotient of
    doubles. *)
Definition counter (n : nat) : Z := to_s 64 (Z.of_nat n).
Definition denials (ds : list bool) : nat := length (filter Is_true ds).
Definition deny_rate (ds : list bool) : float64 :=
  fdiv (float_of_int (counter (denials ds))) (float_of_int (counter (length ds))).

(** When an evaluation at [t] has to roll back, from the history since the last reset: the
    rollout is configured to, no evaluation has, both cohorts have enough decisions, the
    observation is long enough, and the canary's rate less the baseline's exceeds the
    margin. *)
Definition rollback_due (t : Z) (id : string) (h : list (canary_op * bool)) : Prop :=
  ∃ cfg t0, configured id h = Some cfg ∧ started id h = Some t0 ∧ rollbacks id h = O ∧
    AutoRollback cfg = true ∧ ObservationWindow cfg <= t - t0 ∧
    MinSampleSize cfg <= counter (length (decisions id true h)) ∧
    MinSampleSize cfg <= counter (length (decisions id false h)) ∧
    flt (MaxDenyRateDelta cfg) (fsub (deny_rate (decisions id true h)) (deny_rate (decisions id false h))) = true.

(** ** The state of the analyser follows the history *)

Definition counters_as (id : string) (h : list (canary_op * bool)) (t0 : Z) : canaryCounters :=
  MkCounters (counter (length (decisions id false h))) (counter (denials (decisions id false h)))
    (counter (length (decisions id true h))) (counter (denials (decisions id true h))) t0
    (negb (rollbacks id h =? 0)%nat).

Record tracks (id : string) (h : list (canary_op * bool)) (ca : CanaryAnalyzer) : Prop := {
  tr_config : configs ca !! id = configured id h;
  tr_counters : counters ca !! id = counters_as id h <$> started id h;
  tr_fresh : started id h = None -> (∀ k, decisions id k h = []) ∧ rollbacks id h = O;
  tr_known : is_Some (configured id h) -> is_Some (started id h);
  tr_once : (rollbacks id h <= 1)%nat;
}.

Lemma since_reset_snoc id past x :
  since_reset id (past ++ [x]) = if is_reset id x.1 then [] else since_reset id past ++ [x].
Proof. unfold since_reset. by rewrite fold_left_app. Qed.

Lemma decisions_snoc id k h x : decisions id k (h ++ [x]) = decisions id k h ++ option_list (decision_of id k x).
Proof. apply omap_snoc. Qed.
Lemma configured_snoc id h x :
  configured id (h ++ [x]) = match config_of id x with Some c => Some c | None => configured id h end.
Proof. unfold configured. by rewrite omap_snoc, last_option_list. Qed.
Lemma started_snoc id h x :
  started id (h ++ [x]) = match started id h with Some t => Some t | None => start_of id x end.
Proof. unfold started. by rewrite omap_snoc, head_option_list. Qed.
Lemma rollbacks_snoc id h x :
  rollbacks id (h ++ [x]) = (rollbacks id h + length (option_list (rollback_of id x)))%nat.
Proof. unfold rollbacks. by rewrite omap_snoc, length_app. Qed.
Create Rewrite HintDb canary.
#[export] Hint Rewrite decisions_snoc configured_snoc started_snoc rollbacks_snoc : canary.

(** An operation that says nothing of the rollout. *)
Lemma tracks_silent id h x ca ca' :
  tracks id h ca -> (∀ k, decision_of id k x = None) -> config_of id x = None -> start_of id x = None ->
  rollback_of id x = None -> configs ca' !! id = configs ca !! id -> counters ca' !! id = counters ca !! id ->
  tracks id (h ++ [x]) ca'.
Proof.
  intros [Hc Hn Hf Hk Ho] Hd Hcf Hs Hr Hc' Hn'.
  assert (Hda : ∀ k, decisions id k (h ++ [x]) = decisions id k h) by (intros k; by rewrite decisions_snoc, Hd, app_nil_r).
  assert (Hra : rollbacks id (h ++ [x]) = rollbacks id h) by (rewrite rollbacks_snoc, Hr; simpl; lia).
  assert (Hsa : started id (h ++ [x]) = started id h) by (rewrite started_snoc, Hs; by destruct (started id h)).
  assert (Hca : configured id (h ++ [x]) = configured id h) by (by rewrite configured_snoc, Hcf).
  split; rewrite ?Hca, ?Hsa, ?Hra; try done; [by rewrite Hc'| |].
  - rewrite Hn', Hn. unfold counters_as. by rewrite !Hda, Hra.
  - intros Hnone. destruct (Hf Hnone) as [Hdn Hrn]. split; [intros k; by rewrite Hda|done].
Qed.

Lemma tracks_counters_of id h ca t : tracks id h ca -> counters_of t id ca = counters_as id h (default t (started id h)).
Proof.
  intros [_ Hn Hf _ _]. unfold counters_of. rewrite Hn. destruct (started id h) as [t0|]; [done|].
  destruct (Hf eq_refl) as [Hd Hr]. unfold counters_as. by rewrite !Hd, Hr.
Qed.

Lemma tracks_configure id h ca t cfg :
  tracks id h ca -> tracks id (h ++ [(OpConfigure t id cfg, false)]) (Configure t id cfg ca).
Proof.
  intros Ht. pose proof (tracks_counters_of id h ca t Ht) as Hn. destruct Ht as [_ _ Hf _ Ho].
  split; autorewrite with canary; unfold decision_of, config_of, start_of, rollback_of; simpl;
    rewrite ?String.eqb_refl; simpl; rewrite ?lookup_insert_eq; try done.
  - rewrite Hn. unfold counters_as. rewrite !decisions_snoc, rollbacks_snoc. simpl. rewrite !app_nil_r, Nat.add_0_r.
    by destruct (started id h).
  - by destruct (started id h).
  - by destruct (started id h).
  - lia.
Qed.

Lemma counter_succ n : to_s 64 (counter n + 1) = counter (S n).
Proof. apply to_s_of_nat_succ. Qed.
Lemma denials_snoc ds (d : bool) : counter (denials (ds ++ [d])) = incr d (counter (denials ds)).
Proof.
  unfold denials. rewrite filter_app, length_app. destruct d; simpl; [|by rewrite Nat.add_0_r].
  by rewrite counter_succ, Nat.add_1_r.
Qed.
Lemma length_decisions_snoc (ds : list bool) d : counter (length (ds ++ [d])) = incr true (counter (length ds)).
Proof. rewrite length_app, Nat.add_1_r. symmetry. apply counter_succ. Qed.

Lemma tracks_record id h ca t k d :
  tracks id h ca -> tracks id (h ++ [(OpRecord t id k d, false)]) (RecordDecision t id k d ca).
Proof.
  intros Ht. pose proof (tracks_counters_of id h ca t Ht) as Hn. destruct Ht as [Hc _ Hf Hk Ho].
  split; autorewrite with canary; unfold config_of, start_of, rollback_of; simpl; rewrite ?String.eqb_refl; simpl.
  - done.
  - rewrite lookup_insert_eq, Hn. unfold counters_as, record_in. rewrite !decisions_snoc, rollbacks_snoc.
    unfold decision_of. simpl. rewrite String.eqb_refl. rewrite Nat.add_0_r.
    destruct k; simpl; rewrite !app_nil_r, length_decisions_snoc, denials_snoc; by destruct (started id h).
  - by destruct (started id h).
  - by destruct (started id h).
  - lia.
Qed.

(** ** Evaluation *)

(** The branches of [Evaluate] on the state of the analyser. *)
Lemma Evaluate_cases t t' t'' id ca r :
  let due := ∃ cfg c, configs ca !! id = Some cfg ∧ counters ca !! id = Some c ∧ rolledBack c = false ∧
    MinSampleSize cfg <= canaryTotal c ∧ MinSampleSize cfg <= baselineTotal c ∧
    ObservationWindow cfg <= t - startedAt c ∧ degraded cfg c = true ∧ AutoRollback cfg = true in
  let res := Evaluate t t' t'' id ca r in
  (res.1.2 = false ∧ res.2 = (ca, r) ∧ ~ due) ∨
  (res.1.2 = true ∧ due ∧ ∃ c, counters ca !! id = Some c ∧
     res.2 = (MkCanaryAnalyzer (configs ca) (<[id := set_rolledBack c]> (counters ca)), abort_ignored t'' id r)).
Proof.
  unfold Evaluate. cbv zeta.
  destruct (configs ca !! id) as [cfg|]; [|left; split_and!; [done|done|by intros (? & ? & ? & _)]].
  destruct (counters ca !! id) as [c|]; [|left; split_and!; [done|done|by intros (? & ? & _ & ? & _)]].
  destruct (rolledBack c) eqn:Hr.
  { left. split_and!; [done|done|]. intros (? & ? & _ & [= <-] & ? & _). congruence. }
  destruct ((_ <? _) || _) eqn:Hm.
  { left. split_and!; [done|done|]. intros (? & ? & [= <-] & [= <-] & _ & ? & ? & _).
    apply orb_true_iff in Hm as [|]; zbool; lia. }
  apply orb_false_iff in Hm as [? ?]. zbool.
  destruct (Z.ltb_spec (t - startedAt c) (ObservationWindow cfg)).
  { left. split_and!; [done|done|]. intros (? & ? & [= <-] & [= <-] & _ & _ & _ & ? & _). lia. }
  destruct (degraded cfg c) eqn:Hd, (AutoRollback cfg) eqn:Ha;
    try (left; split_and!; [done|done|]; intros (? & ? & [= <-] & [= <-] & _ & _ & _ & _ & ? & ?); congruence).
  right. split_and!; [done|by exists cfg, c|]. by exists c.
Qed.

(** On a state that follows the history the test of the code is [rollback_due]. *)
Lemma Evaluate_due t t' t'' id h ca r :
  tracks id h ca ->
  let res := Evaluate t t' t'' id ca r in
  (res.1.2 = false ∧ res.2 = (ca, r) ∧ ~ rollback_due t id h) ∨
  (res.1.2 = true ∧ rollback_due t id h ∧ ∃ t0, started id h = Some t0 ∧
     res.2 = (MkCanaryAnalyzer (configs ca) (<[id := set_rolledBack (counters_as id h t0)]> (counters ca)),
              abort_ignored t'' id r)).
Proof.
  intros [Hc Hn _ _ _] res. destruct (Evaluate_cases t t' t'' id ca r) as [(H1 & H2 & Hd)|(H1 & Hd & c & Hcc & H2)].
  - left. split_and!; [done|done|]. contradict Hd.
    destruct Hd as (cfg & t0 & Hcfg & Hst & Hrb & Ha & Hw & Hs1 & Hs2 & Hr).
    exists cfg, (counters_as id h t0). rewrite Hc, Hn, Hst. split_and!; try done. simpl. by rewrite Hrb.
  - right. rewrite Hn in Hcc. destruct (started id h) as [t0|] eqn:Hst; [|done]. injection Hcc as <-.
    split_and!; [done| |by exists t0].
    destruct Hd as (cfg & c & Hcfg & Hcc & Hrb & Hs1 & Hs2 & Hw & Hr & Ha).
    rewrite Hn in Hcc. injection Hcc as <-. rewrite Hc in Hcfg. exists cfg, t0. split_and!; try done.
    simpl in Hrb. by destruct (Nat.eqb_spec (rollbacks id h) 0).
Qed.

Lemma tracks_evaluate id h ca r t t' t'' :
  tracks id h ca ->
  let '(_, triggered, (ca', _)) := Evaluate t t' t'' id ca r in
  tracks id (h ++ [(OpEvaluate t t' t'' id, triggered)]) ca'.
Proof.
  intros Ht. pose proof (Evaluate_due t t' t'' id h ca r Ht) as Hd.
  destruct (Evaluate t t' t'' id ca r) as [[m tr] [ca' r']]. simpl in Hd.
  destruct Hd as [(-> & [= -> ->] & _)|(-> & Hdue & t0 & Hst & [= -> ->])]; [by eapply tracks_silent|].
  destruct Hdue as (cfg & t1 & Hcfg & _ & Hrb & _). destruct Ht as [Hc Hn _ Hk _].
  split; autorewrite with canary; unfold decision_of, config_of, start_of, rollback_of; simpl;
    rewrite ?String.eqb_refl, ?Hst, ?Hrb; try done.
  rewrite lookup_insert_eq. unfold counters_as, set_rolledBack. rewrite !decisions_snoc, rollbacks_snoc.
  unfold rollback_of. simpl. by rewrite !app_nil_r, String.eqb_refl, Hrb.
Qed.

(** Evaluating another rollout. *)
Lemma tracks_evaluate_other id h ca r t t' t'' id' :
  id' ≠ id -> tracks id h ca ->
  let '(_, triggered, (ca', _)) := Evaluate t t' t'' id' ca r in
  tracks id (h ++ [(OpEvaluate t t' t'' id', triggered)]) ca'.
Proof.
  intros Hne Ht. pose proof (Evaluate_cases t t' t'' id' ca r) as Hd.
  destruct (Evaluate t t' t'' id' ca r) as [[m tr] [ca' r']]. simpl in Hd.
  assert (Hr : rollback_of id (OpEvaluate t t' t'' id', tr) = None).
  { destruct tr; simpl; [|done]. by destruct (String.eqb_spec id' id). }
  destruct Hd as [(_ & [= -> ->] & _)|(_ & _ & c & _ & [= -> ->])]; eapply tracks_silent; try done.
  simpl. by rewrite lookup_insert_ne.
Qed.

Lemma tracks_empty id ca : configs ca !! id = None -> counters ca !! id = None -> tracks id [] ca.
Proof. intros Hc Hn. split; simpl; try done; [by intros []|unfold rollbacks; simpl; lia]. Qed.

Lemma run_tracks ops r id :
  tracks id (since_reset id (cs_past (canary_run ops r))) (cs_ca (canary_run ops r)).
Proof.
  induction ops as [|op ops IH] using rev_ind; [by apply tracks_empty|]. rewrite canary_run_snoc.
  destruct op as [t id' cfg|t id' k d|t t' t'' id'|id']; simpl; rewrite ?since_reset_snoc; simpl.
  - destruct (decide (id' = id)) as [->|Hne]; [by apply tracks_configure|].
    eapply tracks_silent; eauto; simpl; unfold config_of, start_of; simpl; rewrite ?lookup_insert_ne by done; try done;
      by destruct (String.eqb_spec id' id).
  - destruct (decide (id' = id)) as [->|Hne]; [by apply tracks_record|].
    eapply tracks_silent; eauto; simpl; unfold decision_of, start_of; simpl; rewrite ?lookup_insert_ne by done; try done;
      intros; by destruct (String.eqb_spec id' id).
  - pose proof (tracks_evaluate id _ _ (cs_rollouts (canary_run ops r)) t t' t'' IH) as Hs.
    pose proof (fun Hne => tracks_evaluate_other id _ _ (cs_rollouts (canary_run ops r)) t t' t'' id' Hne IH) as Ho.
    destruct (decide (id' = id)) as [->|Hne]; [clear Ho|specialize (Ho Hne); clear Hs];
      destruct (Evaluate _ _ _ _ _ _) as [[m tr] [ca' r']]; simpl; by rewrite since_reset_snoc.
  - destruct (String.eqb_spec id' id) as [->|Hne]; [apply tracks_empty; apply lookup_delete_eq|].
    eapply tracks_silent; eauto; simpl; by rewrite lookup_delete_ne.
Qed.

(** The samples that an evaluation reports. *)
Lemma Evaluate_samples t t' t'' id h ca r :
  tracks id h ca -> is_Some (configured id h) ->
  let m := (Evaluate t t' t'' id ca r).1.1 in
  BaselineSamples m = counter (length (decisions id false h)) ∧
  CanarySamples m = counter (length (decisions id true h)).
Proof.
  intros [Hc Hn _ Hk _] Hcfg. destruct (Hk Hcfg) as [t0 Hst], Hcfg as [cfg Hcfg].
  unfold Evaluate. rewrite Hc, Hn, Hcfg, Hst. simpl. by repeat case_match.
Qed.

(** C26: the canary analyser rolls back exactly when it should and only once.  Read off the
    history of a run since the last reset of a rollout: an evaluation triggers a rollback if
    and only if the rollout was configured to be rolled back, none was triggered, both
    cohorts have the configured number of decisions, the observation has lasted long enough,
    and the share of denials among the canary's decisions less the share among the
    baseline's, as doubles, exceeds the configured margin.  A rollback leaves the rollout
    aborted and no other one changed; without one nothing changes.  The numbers of samples
    reported are the numbers of decisions recorded (in 64-bit counters).  In every history
    there is at most one rollback since the last reset, hence at most one between any two
    resets. *)
Theorem canary_rolls_back_once ops r id t t' t'' :
  let s := canary_run ops r in
  let h := since_reset id (cs_past s) in
  let '(m, triggered, (_, r')) := Evaluate t t' t'' id (cs_ca s) (cs_rollouts s) in
  (triggered = true <-> rollback_due t id h) ∧
  (triggered = true -> ∀ st, r' !! id = Some st -> r_Status st = "aborted") ∧
  (∀ id', id' ≠ id ∨ triggered = false -> r' !! id' = cs_rollouts s !! id') ∧
  (is_Some (configured id h) -> BaselineSamples m = counter (length (decisions id false h)) ∧
     CanarySamples m = counter (length (decisions id true h))) ∧
  (rollbacks id h <= 1)%nat.
Proof.
  intros s h. pose proof (run_tracks ops r id) as Ht. fold s in Ht. fold h in Ht.
  pose proof (Evaluate_due t t' t'' id h (cs_ca s) (cs_rollouts s) Ht) as Hd.
  pose proof (Evaluate_samples t t' t'' id h (cs_ca s) (cs_rollouts s) Ht) as Hs.
  destruct (Evaluate _ _ _ _ _ _) as [[m tr] [ca' r']]. simpl in Hd, Hs. pose proof (tr_once _ _ _ Ht) as Honce.
  destruct Hd as [(-> & [= -> ->] & Hn)|(-> & Hd & t0 & _ & [= -> ->])]; [by split_and!|].
  unfold abort_ignored, AbortRollout. destruct (cs_rollouts s !! id) as [st0|] eqn:Hst; simpl; split_and!; try done.
  - intros _ st. rewrite lookup_insert_eq. by intros [= <-].
  - intros id' [Hne|]; [by rewrite lookup_insert_ne|done].
  - intros _ st Hsome. congruence.
Qed.

(** ** Concrete runs *)

(** A quarter of the baseline and three quarters of the canary are denied. *)
Definition demo_decisions : list canary_op :=
  OpRecord 1 "r1" false true :: OpRecord 2 "r1" false false :: OpRecord 3 "r1" false false ::
  OpRecord 4 "r1" false false :: OpRecord 5 "r1" true false :: replicate 3 (OpRecord 6 "r1" true true).

Definition demo_run (cfg : CanaryConfig) : canary_state :=
  canary_run (OpConfigure 0 "r1" cfg :: demo_decisions)
    {["r1" := MkRolloutState "r1" "base" 2 10 0 None "active" 1]}.

Definition verdict_at (t : Z) (s : canary_state) : string * bool :=
  let res := Evaluate t t t "r1" (cs_ca s) (cs_rollouts s) in (Verdict res.1.1, res.1.2).

Example demo_verdicts :
  verdict_at 100 (demo_run (MkCanaryConfig (float_lit 2 10) 50 4 true)) = ("rolled-back", true) ∧
  verdict_at 100 (demo_run (MkCanaryConfig (float_lit 2 10) 50 4 false)) = ("degraded", false) ∧
  verdict_at 100 (demo_run (MkCanaryConfig (float_lit 5 10) 50 4 true)) = ("healthy", false) ∧
  verdict_at 10 (demo_run (MkCanaryConfig (float_lit 2 10) 50 4 true)) = ("pending", false) ∧
  verdict_at 100 (demo_run (MkCanaryConfig (float_lit 2 10) 50 5 true)) = ("pending", false).
Proof. split_and!; vm_compute; reflexivity. Qed.

(** Without a minimum of samples and without any baseline decision the rate of the baseline
    is not a number, which exceeds nothing: a canary that denies everything is healthy. *)
Example no_baseline_is_healthy :
  verdict_at 100 (canary_run [OpConfigure 0 "r1" (MkCanaryConfig (float_lit 2 10) 50 0 true); OpRecord 1 "r1" true true] ∅)
    = ("healthy", false).
Proof. vm_compute. reflexivity. Qed.

(** A run in which the canary is rolled back by the first of two evaluations. *)
Definition demo_ops : list canary_op :=
  OpConfigure 0 "r1" (MkCanaryConfig (float_lit 2 10) 50 4 true) :: demo_decisions ++ [OpEvaluate 100 100 100 "r1"].

Lemma canary_rolls_back_once_witness :
  let s := canary_run demo_ops {["r1" := MkRolloutState "r1" "base" 2 10 0 None "active" 1]} in
  rollbacks "r1" (since_reset "r1" (cs_past s)) = 1%nat ∧
  (Evaluate 200 200 200 "r1" (cs_ca s) (cs_rollouts s)).1.2 = false ∧
  ~ rollback_due 200 "r1" (since_reset "r1" (cs_past s)).
Proof.
  intros s. assert (Hf : (Evaluate 200 200 200 "r1" (cs_ca s) (cs_rollouts s)).1.2 = false) by (vm_compute; reflexivity).
  split; [vm_compute; reflexivity|]. split; [exact Hf|].
  pose proof (canary_rolls_back_once demo_ops {["r1" := MkRolloutState "r1" "base" 2 10 0 None "active" 1]} "r1" 200 200 200) as H.
  cbv zeta in H. fold s in H. revert Hf H. generalize (Evaluate 200 200 200 "r1" (cs_ca s) (cs_rollouts s)).
  intros [[m tr] [ca r']]. simpl. intros -> [[_ Hd] _] Hdue. discriminate (Hd Hdue).
Defined.
