(* ===== verification/Temporal.v ===== *)
(** internal/temporal: time-based constraints (constraints.go), the guard that applies them
    to events (guard.go) and the enrichment of events with times (enricher.go).

    An instant is its nanoseconds since the epoch together with the offset of its location
    in seconds; hours, minutes and weekdays are those of the location, as in package time. *)

From S2P Require Import Prelude GoApi GoFmt Streaming.

(** ** Package time *)

Record Time : Type := MkTime { instant : Z; zone : Z }.

Definition UTC (t : Time) : Time := MkTime (instant t) 0.
(** [t.Sub(u)], which saturates. *)
Definition Sub (t u : Time) : Z := Z.max (- 2 ^ 63) (Z.min (2 ^ 63 - 1) (instant t - instant u)).

Definition local_seconds (t : Time) : Z := instant t / 1000000000 + zone t.
Definition Hour (t : Time) : Z := local_seconds t mod 86400 / 3600.
Definition Minute (t : Time) : Z := local_seconds t mod 3600 / 60.
Definition Second (t : Time) : Z := local_seconds t mod 60.
Definition days_since_epoch (t : Time) : Z := local_seconds t / 86400.
(** The epoch was a Thursday; Sunday is 0. *)
Definition Weekday (t : Time) : Z := (days_since_epoch t + 4) mod 7.
Definition Weekday_String (d : Z) : string :=
  nth (Z.to_nat d) ["Sunday"; "Monday"; "Tuesday"; "Wednesday"; "Thursday"; "Friday"; "Saturday"] "".

(** The date of a day: years begin in March, so that a leap day is the last of its year. *)
Definition civil (days : Z) : Z * Z * Z :=
  let z := days + 719468 in
  let era := z / 146097 in
  let doe := z mod 146097 in
  let yoe := (doe - doe / 1460 + doe / 36524 - doe / 146096) / 365 in
  let doy := doe - (365 * yoe + yoe / 4 - yoe / 100) in
  let mp := (5 * doy + 2) / 153 in
  let d := doy - (153 * mp + 2) / 5 + 1 in
  let m := if mp <? 10 then mp + 3 else mp - 9 in
  ((if m <=? 2 then yoe + era * 400 + 1 else yoe + era * 400), m, d).

(** A number with at least [w] digits. *)
Definition padded (w : nat) (n : Z) : string :=
  let s := Sprint_d n in String.concat "" (replicate (w - String.length s) "0") +:+ s.

(** time.RFC3339 for a time in UTC. *)
Definition Format_RFC3339 (t : Time) : string :=
  let '(y, m, d) := civil (days_since_epoch t) in
  padded 4 y +:+ "-" +:+ padded 2 m +:+ "-" +:+ padded 2 d +:+ "T" +:+ padded 2 (Hour t) +:+ ":" +:+
  padded 2 (Minute t) +:+ ":" +:+ padded 2 (Second t) +:+ "Z".

(** ** constraints.go *)

Record TimeOfDay : Type := MkTimeOfDay { td_Hour : Z; td_Minute : Z }.
Record TimeRange : Type := MkTimeRange { Start : TimeOfDay; End : TimeOfDay }.

Record Constraint : Type := MkConstraint {
  MaxContainerAge : Z;
  MinContainerAge : Z;
  co_TimeOfDay : option TimeRange;
  DaysOfWeek : list Z;
}.

Definition minutes (td : TimeOfDay) : Z := td_Hour td * 60 + td_Minute td.

Definition in_range (r : TimeRange) (nowMinutes : Z) : bool :=
  let start := minutes (Start r) in
  let end_ := minutes (End r) in
  if start <=? end_ then negb ((nowMinutes <? start) || (end_ <? nowMinutes))
  else negb ((nowMinutes <? start) && (end_ <? nowMinutes)).

Definition Evaluate (c : option Constraint) (containerAge : Z) (wallClock : Time) : bool :=
  match c with
  | None => true
  | Some c =>
      if (0 <? MaxContainerAge c) && (MaxContainerAge c <? containerAge) then false
      else if (0 <? MinContainerAge c) && (containerAge <? MinContainerAge c) then false
      else if match co_TimeOfDay c with
              | Some r => negb (in_range r (Hour wallClock * 60 + Minute wallClock))
              | None => false
              end then false
      else if negb (bool_decide (DaysOfWeek c = [])) && negb (bool_decide (Weekday wallClock ∈ DaysOfWeek c)) then false
      else true
  end.

(** ** enricher.go *)

Record Enricher : Type := MkEnricher { startTimes : gmap Z Time }.

Definition NewEnricher : Enricher := MkEnricher ∅.
Definition RegisterContainer (cgroupID : Z) (startTime : Time) (e : Enricher) : Enricher :=
  MkEnricher (<[cgroupID := startTime]> (startTimes e)).
Definition UnregisterContainer (cgroupID : Z) (e : Enricher) : Enricher := MkEnricher (delete cgroupID (startTimes e)).

(** 0 for a container that is not known. *)
Definition ContainerAge (now : Time) (cgroupID : Z) (e : Enricher) : Z :=
  match startTimes e !! cgroupID with None => 0 | Some startTime => Sub now startTime end.

Fixpoint set_label (k v : string) (labels : list (string * string)) : list (string * string) :=
  match labels with
  | [] => [(k, v)]
  | (k', v') :: labels' => if String.eqb k' k then (k, v) :: labels' else (k', v') :: set_label k v labels'
  end.

(** The labels that [Enrich] leaves on an event; age.Milliseconds() truncates to zero. *)
Definition Enrich_labels (now : Time) (e : Enricher) (cgroupID : Z) (labels : list (string * string))
    : list (string * string) :=
  if cgroupID =? 0 then labels
  else
    let labels := set_label "day_of_week" (Weekday_String (Weekday (UTC now)))
                    (set_label "wall_clock" (Format_RFC3339 (UTC now)) labels) in
    match startTimes e !! cgroupID with
    | Some startTime => set_label "container_age_ms" (Sprint_d (Z.quot (Sub now startTime) 1000000)) labels
    | None => labels
    end.

(** ** guard.go *)

Record Rule : Type := MkRule {
  ru_Name : list Z;
  ru_EventType : string;
  ru_Comm : list Z;
  ru_Constraint : option Constraint;
}.

Record Guard : Type := MkGuard { rules : list Rule; enricher : Enricher }.

Definition NewGuard (e : Enricher) : Guard := MkGuard [] e.
Definition AddRule (r : Rule) (g : Guard) : Guard := MkGuard (rules g ++ [r]) (enricher g).
Definition ClearRules (g : Guard) : Guard := MkGuard [] (enricher g).

Definition matchesEvent (r : Rule) (event : SecurityEvent) : bool :=
  if negb (String.eqb (ru_EventType r) "") && negb (String.eqb (ru_EventType r) (se_EventType event)) then false
  else if negb (bool_decide (ru_Comm r = [])) && negb (bool_decide (ru_Comm r = se_Comm event)) then false
  else true.

(** The loop of [CheckEvent]: the rule that denies. *)
Fixpoint violated (rs : list Rule) (event : SecurityEvent) (containerAge : Z) (now : Time) : option Rule :=
  match rs with
  | [] => None
  | r :: rs' =>
      if negb (matchesEvent r event) then violated rs' event containerAge now
      else if negb (Evaluate (ru_Constraint r) containerAge now) then Some r
      else violated rs' event containerAge now
  end.

(** The clock of the guard shows [now] and that of its enricher [now']. *)
Definition CheckEvent (now now' : Time) (event : SecurityEvent) (g : Guard) : option ActionResult :=
  if se_CgroupID event =? 0 then None
  else
    let containerAge := ContainerAge now' (se_CgroupID event) (enricher g) in
    r ← violated (rules g) event containerAge now;
    Some (MkResult api.ActionDeny (Sprintf "temporal constraint violated: %s" [AStr (ru_Name r)]) 0 false 0 false).

(** ** What a constraint means *)

(** The minutes of the day from [start] on through [end_], over midnight if need be. *)
Definition in_window (start end_ m : Z) : Prop := (m - start) mod 1440 <= (end_ - start) mod 1440.

Definition of_day (td : TimeOfDay) : Prop := 0 <= td_Hour td < 24 ∧ 0 <= td_Minute td < 60.

Record satisfied (c : Constraint) (age : Z) (t : Time) : Prop := {
  sa_max : MaxContainerAge c <= 0 ∨ age <= MaxContainerAge c;
  sa_min : MinContainerAge c <= 0 ∨ MinContainerAge c <= age;
  sa_time : ∀ r, co_TimeOfDay c = Some r ->
    in_window (minutes (Start r)) (minutes (End r)) (Hour t * 60 + Minute t);
  sa_days : DaysOfWeek c = [] ∨ Weekday t ∈ DaysOfWeek c;
}.

Definition well_formed (c : Constraint) : Prop :=
  ∀ r, co_TimeOfDay c = Some r -> of_day (Start r) ∧ of_day (End r).

Lemma minute_of_day t : 0 <= Hour t * 60 + Minute t < 1440.
Proof. unfold Hour, Minute. Z.to_euclidean_division_equations. lia. Qed.

Lemma in_range_window r m :
  of_day (Start r) -> of_day (End r) -> 0 <= m < 1440 ->
  in_range r m = true <-> in_window (minutes (Start r)) (minutes (End r)) m.
Proof.
  unfold of_day, in_range, in_window, minutes. intros Hs He Hm. cbv zeta.
  set (s := td_Hour (Start r) * 60 + td_Minute (Start r)). set (e := td_Hour (End r) * 60 + td_Minute (End r)).
  assert (0 <= s < 1440) by lia. assert (0 <= e < 1440) by lia. clearbody s e.
  assert (Hmod : ∀ x y, 0 <= x < 1440 -> 0 <= y < 1440 -> (x - y) mod 1440 = if y <=? x then x - y else x - y + 1440).
  { intros x y Hx Hy. destruct (Z.leb_spec y x); [by rewrite Z.mod_small by lia|].
    rewrite <- (Z_mod_plus_full _ 1), Z.mod_small by lia. lia. }
  rewrite !Hmod by lia. destruct (Z.leb_spec s e), (Z.leb_spec s m);
    rewrite negb_true_iff, ?orb_false_iff, ?andb_false_iff, ?Z.ltb_ge; lia.
Qed.

Lemma Evaluate_satisfied c age t :
  well_formed c -> Evaluate (Some c) age t = true <-> satisfied c age t.
Proof.
  intros Hwf. unfold Evaluate.
  assert (Htime : match co_TimeOfDay c with
                  | Some r => negb (in_range r (Hour t * 60 + Minute t))
                  | None => false end = false <->
    ∀ r, co_TimeOfDay c = Some r -> in_window (minutes (Start r)) (minutes (End r)) (Hour t * 60 + Minute t)).
  { unfold well_formed in Hwf. destruct (co_TimeOfDay c) as [r|]; [|done]. destruct (Hwf r eq_refl) as [Hs He].
    rewrite negb_false_iff, in_range_window by (done || apply minute_of_day). naive_solver. }
  assert (Hmax : (0 <? MaxContainerAge c) && (MaxContainerAge c <? age) = false <->
    MaxContainerAge c <= 0 ∨ age <= MaxContainerAge c) by (rewrite andb_false_iff, !Z.ltb_ge; lia).
  assert (Hmin : (0 <? MinContainerAge c) && (age <? MinContainerAge c) = false <->
    MinContainerAge c <= 0 ∨ MinContainerAge c <= age) by (rewrite andb_false_iff, !Z.ltb_ge; lia).
  assert (Hdays : negb (bool_decide (DaysOfWeek c = [])) && negb (bool_decide (Weekday t ∈ DaysOfWeek c)) = false <->
    DaysOfWeek c = [] ∨ Weekday t ∈ DaysOfWeek c)
    by (rewrite andb_false_iff, !negb_false_iff, !bool_decide_eq_true; done).
  assert (Hsat : satisfied c age t <-> (MaxContainerAge c <= 0 ∨ age <= MaxContainerAge c) ∧
    (MinContainerAge c <= 0 ∨ MinContainerAge c <= age) ∧
    (∀ r, co_TimeOfDay c = Some r -> in_window (minutes (Start r)) (minutes (End r)) (Hour t * 60 + Minute t)) ∧
    (DaysOfWeek c = [] ∨ Weekday t ∈ DaysOfWeek c)) by (split; [by intros []|by intros (? & ? & ? & ?)]).
  rewrite Hsat, <- Hmax, <- Hmin, <- Htime, <- Hdays.
  do 4 (match goal with |- context [if ?b then false else _] => destruct b end; [split; [done|intuition congruence]|]).
  tauto.
Qed.

Definition applies (r : Rule) (event : SecurityEvent) : Prop :=
  (ru_EventType r = "" ∨ ru_EventType r = se_EventType event) ∧ (ru_Comm r = [] ∨ ru_Comm r = se_Comm event).

Lemma matchesEvent_applies r event : matchesEvent r event = true <-> applies r event.
Proof.
  unfold matchesEvent, applies.
  destruct (String.eqb_spec (ru_EventType r) ""), (String.eqb_spec (ru_EventType r) (se_EventType event)); simpl;
    repeat case_bool_decide; simpl; intuition congruence.
Qed.

Definition violates (r : Rule) (event : SecurityEvent) (age : Z) (now : Time) : Prop :=
  applies r event ∧ ∃ c, ru_Constraint r = Some c ∧ ~ satisfied c age now.

Definition rule_well_formed (r : Rule) : Prop := ∀ c, ru_Constraint r = Some c -> well_formed c.

Lemma violated_spec rs event age now r :
  Forall rule_well_formed rs ->
  violated rs event age now = Some r <->
  ∃ pre post, rs = pre ++ r :: post ∧ Forall (fun r' => ~ violates r' event age now) pre ∧ violates r event age now.
Proof.
  intros Hwf. induction Hwf as [|r0 rs Hwf _ IH]; simpl.
  { split; [done|]. intros (pre & post & Heq & _). by destruct pre. }
  assert (Hv : violates r0 event age now <-> matchesEvent r0 event = true ∧ Evaluate (ru_Constraint r0) age now = false).
  { unfold violates. rewrite matchesEvent_applies. destruct (ru_Constraint r0) as [c|] eqn:Hc.
    - pose proof (Evaluate_satisfied c age now (Hwf c Hc)) as He. rewrite <- not_true_iff_false, He.
      split; [intros [? (c' & [= <-] & ?)]; done|]. intros [? ?]. split; [done|]. by exists c.
    - split; [by intros [_ (c & ? & _)]|by intros [_ ?]]. }
  assert (Hcons : ~ violates r0 event age now ->
    violated rs event age now = Some r <->
    ∃ pre post, r0 :: rs = pre ++ r :: post ∧ Forall (fun r' => ~ violates r' event age now) pre ∧ violates r event age now).
  { intros Hn. rewrite IH. split.
    - intros (pre & post & -> & ? & ?). exists (r0 :: pre), post. split_and!; [done|by constructor|done].
    - intros ([|r' pre] & post & Heq & Hpre & ?); injection Heq as -> ->; [done|].
      apply Forall_cons in Hpre as [_ ?]. by exists pre, post. }
  destruct (matchesEvent r0 event); simpl; [|apply Hcons; rewrite Hv; by intros []].
  destruct (Evaluate (ru_Constraint r0) age now); simpl; [apply Hcons; rewrite Hv; by intros []|].
  split.
  - intros [= <-]. exists [], rs. split_and!; [done|constructor|by apply Hv].
  - intros ([|r' pre] & post & Heq & Hpre & ?); injection Heq as -> ->; [done|].
    apply Forall_cons in Hpre as [Hn _]. destruct Hn. by apply Hv.
Qed.

(** The temporal guard denies an event of a container exactly when some rule for its
    type and command has a constraint that the age of the container and the time of day
    and week do not satisfy, and the reason names the first such rule; a window that
    starts after it ends runs over midnight.  Events of the host are never denied. *)
Lemma guard_denies_iff now now' event g res :
  Forall rule_well_formed (rules g) ->
  let age := ContainerAge now' (se_CgroupID event) (enricher g) in
  CheckEvent now now' event g = Some res <->
  se_CgroupID event ≠ 0 ∧
  ∃ pre r post, rules g = pre ++ r :: post ∧ Forall (fun r' => ~ violates r' event age now) pre ∧
    violates r event age now ∧
    res = MkResult api.ActionDeny (Sprintf "temporal constraint violated: %s" [AStr (ru_Name r)]) 0 false 0 false.
Proof.
  intros Hwf age. unfold CheckEvent. destruct (Z.eqb_spec (se_CgroupID event) 0) as [H0|H0]; [by split; [|intros []]|].
  fold age. pose proof (fun r => violated_spec (rules g) event age now r Hwf) as Hv. split.
  - destruct (violated (rules g) event age now) as [r|]; [|done]. simpl. intros [= <-]. split; [done|].
    destruct (proj1 (Hv r) eq_refl) as (pre & post & ? & ? & ?). by exists pre, r, post.
  - intros (_ & pre & r & post & ? & ? & ? & ->).
    rewrite (proj2 (Hv r)); [done|]. by exists pre, post.
Qed.

(** A container that is not registered has age 0: it never exceeds a maximal age, and
    always misses a minimal one. *)
Lemma unknown_container_age now c t :
  ContainerAge now c NewEnricher = 0 ∧
  Evaluate (Some (MkConstraint 3600 0 None [])) (ContainerAge now c NewEnricher) t = true ∧
  Evaluate (Some (MkConstraint 0 3600 None [])) (ContainerAge now c NewEnricher) t = false.
Proof. done. Qed.

(** ** Concrete times *)

(** 2024-02-29 22:30:15 UTC, a Thursday; and the same instant two hours east. *)
Definition demo_time : Time := MkTime 1709245815000000000 0.
Definition demo_time_east : Time := MkTime 1709245815000000000 7200.

Example demo_date :
  Format_RFC3339 demo_time = "2024-02-29T22:30:15Z" ∧ Weekday_String (Weekday demo_time) = "Thursday" ∧
  Weekday_String (Weekday demo_time_east) = "Friday" ∧ Format_RFC3339 (MkTime 0 0) = "1970-01-01T00:00:00Z".
Proof. split_and!; vm_compute; reflexivity. Qed.

(** Windows are meant to be UTC, but the guard passes the clock's local time on: the same
    instant is inside or outside of a window depending on the zone of the machine. *)
Definition demo_window : Constraint :=
  MkConstraint 0 0 (Some (MkTimeRange (MkTimeOfDay 22 0) (MkTimeOfDay 23 59))) [].
Example window_in_local_time :
  Evaluate (Some demo_window) 0 demo_time = true ∧ Evaluate (Some demo_window) 0 demo_time_east = false.
Proof. split; vm_compute; reflexivity. Qed.

Definition demo_sec_event : SecurityEvent :=
  {| se_ID := []; se_Timestamp := 0; se_Hostname := []; se_EventType := "process"; se_CgroupID := 7; se_PID := 1;
     se_PPID := 0; se_UID := 0; se_GID := 0; se_Comm := bstr "sh"; se_Filename := []; se_RemoteAddr := [];
     se_RemotePort := 0; se_LocalPort := 0; se_Protocol := []; se_MountType := []; se_PtraceComm := [];
     se_Decision := ""; se_Reason := Text ""; se_PolicyRule := []; se_Cached := false; se_Enforced := false;
     se_AuditOnly := false; se_LatencyUS := 0; se_Lineage := []; se_Labels := [] |}.
Definition demo_night : Rule := MkRule (bstr "nights") "process" []
  (Some (MkConstraint 0 0 (Some (MkTimeRange (MkTimeOfDay 23 0) (MkTimeOfDay 5 30))) [])).
Definition demo_guard : Guard := AddRule demo_night (NewGuard NewEnricher).

Lemma demo_night_ok : Forall rule_well_formed (rules demo_guard).
Proof.
  constructor; [|constructor]. intros c [= <-] r [= <-]. unfold of_day. simpl. lia.
Qed.

Lemma guard_denies_iff_witness :
  Forall rule_well_formed (rules demo_guard) ∧
  ∃ pre r post, rules demo_guard = pre ++ r :: post ∧ violates r demo_sec_event 0 demo_time.
Proof.
  split; [exact demo_night_ok|].
  destruct (guard_denies_iff demo_time demo_time demo_sec_event demo_guard
    (MkResult api.ActionDeny (Sprintf "temporal constraint violated: %s" [AStr (bstr "nights")]) 0 false 0 false)
    demo_night_ok) as [Hd _].
  destruct Hd as (_ & pre & r & post & Heq & _ & Hv & _); [vm_compute; reflexivity|].
  exists pre, r, post. split; [exact Heq|exact Hv].
Defined.
