(* ===== verification/Learner.v ===== *)
(** internal/learner: recording the behaviour of containers (recorder.go) and synthesizing a
    policy that allows it (synthesizer.go, and [Synthesize] of learner.go).

    A recorded event is the [SecurityEvent] of the streaming pipeline.  A profile has seven
    maps with counts; the maps are named by [kind].  The order in which [SynthesizeAll]
    visits the profiles is an argument. *)

From stdpp Require Import sorting.
From S2P Require Import Prelude GoApi GoFmt PolicySchema Streaming PolicyMerge.

Import compiler.

(** ** recorder.go *)

Inductive kind : Type := Execs | Files | Networks | Binds | Listens | Mounts | Ptrace.
#[global] Instance kind_eq_dec : EqDecision kind.
Proof. solve_decision. Defined.

Record ContainerProfile : Type := MkContainerProfile {
  cp_CgroupID : Z;
  cp_maps : kind -> gmap string Z;
}.

Definition newContainerProfile (cgroupID : Z) : ContainerProfile := MkContainerProfile cgroupID (fun _ => ∅).

(** [m[key] += v], and the same in the map of a kind. *)
Definition add_count (key : string) (v : Z) (m : gmap string Z) : gmap string Z :=
  <[key := to_s 64 (default 0 (m !! key) + v)]> m.
Definition add_to (k : kind) (key : string) (v : Z) (p : ContainerProfile) : ContainerProfile :=
  MkContainerProfile (cp_CgroupID p)
    (fun k' => if decide (k' = k) then add_count key v (cp_maps p k') else cp_maps p k').

Record Recorder : Type := MkRecorder {
  profiles : gmap Z ContainerProfile;
  active : bool;
  rec_filter : option (gset Z);
}.

Definition NewRecorder (cgroupIDs : list Z) : Recorder :=
  MkRecorder ∅ true (match cgroupIDs with [] => None | _ => Some (list_to_set cgroupIDs) end).

Definition text (bs : list Z) : string := String.string_of_list_ascii (chr <$> bs).

(** The switch of [Write]: the map and the key that an event counts for. *)
Definition observation (event : SecurityEvent) : option (kind * string) :=
  match se_EventType event with
  | "exec" => Some (Execs, text (match se_Filename event with [] => se_Comm event | f => f end))
  | "file" => match se_Filename event with [] => None | f => Some (Files, text f) end
  | "network" => Some (Networks, text (se_Protocol event) +:+ ":" +:+ text (se_RemoteAddr event) +:+ ":" +:+
                                   Sprint_d (se_RemotePort event))
  | "bind" => Some (Binds, text (se_Protocol event) +:+ ":" +:+ Sprint_d (se_LocalPort event))
  | "listen" => Some (Listens, text (se_Protocol event) +:+ ":" +:+ Sprint_d (se_LocalPort event))
  | "mount" => match se_MountType event with [] => None | t => Some (Mounts, text t) end
  | "ptrace" => match se_PtraceComm event with [] => None | c => Some (Ptrace, text c) end
  | _ => None
  end.

Definition recorded (r : Recorder) (event : SecurityEvent) : bool :=
  active r && match rec_filter r with None => true | Some f => bool_decide (se_CgroupID event ∈ f) end.

Definition Write (event : SecurityEvent) (r : Recorder) : Recorder :=
  if recorded r event then
    let p := default (newContainerProfile (se_CgroupID event)) (profiles r !! se_CgroupID event) in
    let p := match observation event with Some (k, key) => add_to k key 1 p | None => p end in
    MkRecorder (<[se_CgroupID event := p]> (profiles r)) (active r) (rec_filter r)
  else r.

Definition Close (r : Recorder) : Recorder := MkRecorder (profiles r) false (rec_filter r).

(** ** synthesizer.go *)

Definition sortedKeys (m : gmap string Z) : list string :=
  merge_sort (fun a b => String.leb a b = true) (map_to_list m).*1.

Fixpoint string_map (f : Ascii.ascii -> Ascii.ascii) (s : string) : string :=
  match s with EmptyString => EmptyString | String c s' => String (f c) (string_map f s') end.
Definition dash : Ascii.ascii := chr 45.
Definition is_dash (c : Ascii.ascii) : bool := code c =? 45.

Fixpoint trim_left (s : string) : string :=
  match s with String c s' => if is_dash c then trim_left s' else s | EmptyString => EmptyString end.
Fixpoint trim_right (s : string) : string :=
  match s with
  | EmptyString => EmptyString
  | String c s' =>
      match trim_right s' with
      | EmptyString => if is_dash c then EmptyString else String c EmptyString
      | t => String c t
      end
  end.

(** Slash, colon, dot and space become dashes. *)
Definition sanitizeName (s : string) : string :=
  let name := string_map (fun c => if existsb (Z.eqb (code c)) [47; 58; 46; 32] then dash else c) s in
  let name := if 60 <? Z.of_nat (String.length name) then String.substring 0 60 name else name in
  trim_right (trim_left name).

(** strings.Cut at a colon; [SplitN] with 2 and 3 parts. *)
Fixpoint cut (s : string) : option (string * string) :=
  match s with
  | EmptyString => None
  | String c s' =>
      if code c =? 58 then Some (EmptyString, s')
      else match cut s' with Some (a, b) => Some (String c a, b) | None => None end
  end.
Definition split2 (s : string) : option (string * string) := cut s.
Definition split3 (s : string) : option (string * string * string) :=
  '(a, rest) ← cut s; '(b, c) ← cut rest; Some (a, b, c).

Definition learned_rule (prefix event key : string) (n : Z) (all : list (string * yaml)) : RuleYAML :=
  MkRawRule (prefix +:+ sanitizeName key) event (MkRawConditions ((fun kv => [kv]) <$> all) [] []) "allow" ""
    ("observed " +:+ Sprint_d n +:+ " times during learning").

(** The rule for one key of a map, where there is one. *)
Definition learned (k : kind) (key : string) (n : Z) : option RuleYAML :=
  match k with
  | Execs => Some (learned_rule "allow-exec-" "process" key n [("filename", YStr key)])
  | Files => Some (learned_rule "allow-file-" "file" key n [("filename", YStr key)])
  | Networks =>
      '(proto, addr, port) ← split3 key;
      Some (learned_rule "allow-connect-" "network" key n
              [("protocol", YStr proto); ("remote_addr", YStr addr); ("remote_port", YStr port)])
  | Binds =>
      '(proto, port) ← split2 key;
      Some (learned_rule "allow-bind-" "bind" key n [("protocol", YStr proto); ("local_port", YStr port)])
  | Listens =>
      '(proto, port) ← split2 key;
      Some (learned_rule "allow-listen-" "listen" key n [("protocol", YStr proto); ("local_port", YStr port)])
  | Mounts => Some (learned_rule "allow-mount-" "mount" key n [("mount_type", YStr key)])
  | Ptrace => Some (learned_rule "allow-ptrace-" "ptrace" key n [("ptrace_target_comm", YStr key)])
  end.

(** synthesizeExecRules and its six siblings. *)
Definition synthesizeRules (k : kind) (m : gmap string Z) : list RuleYAML :=
  omap (fun key => learned k key (default 0 (m !! key))) (sortedKeys m).

Definition kinds : list kind := [Execs; Files; Networks; Binds; Listens; Mounts; Ptrace].

Definition Synthesize (profile : ContainerProfile) (name : string) : PolicyYAML :=
  MkRawPolicy (if String.eqb name "" then "learned-policy-cgroup-" +:+ Sprint_d (cp_CgroupID profile) else name) 1
    ("Auto-generated policy from observed behavior (cgroup " +:+ Sprint_d (cp_CgroupID profile) +:+ ")") []
    (concat ((fun k => synthesizeRules k (cp_maps profile k)) <$> kinds)) "deny".

Definition merge_profile (merged p : ContainerProfile) : ContainerProfile :=
  MkContainerProfile (cp_CgroupID merged)
    (fun k => fold_left (fun m kv => add_count kv.1 kv.2 m) (map_to_list (cp_maps p k)) (cp_maps merged k)).

Definition SynthesizeAll (order : list ContainerProfile -> list ContainerProfile) (ps : gmap Z ContainerProfile)
    (name : string) : PolicyYAML :=
  Synthesize (fold_left merge_profile (order (map_to_list ps).*2) (newContainerProfile 0))
    (if String.eqb name "" then "learned-policy" else name).

(** A session: the events recorded, and the policy it synthesizes. *)
Definition learn (cgroupIDs : list Z) (events : list SecurityEvent) : Recorder :=
  fold_left (fun r e => Write e r) events (NewRecorder cgroupIDs).

(** ** What is recorded *)

Lemma dom_add_count key v m : dom (add_count key v m) = {[key]} ∪ dom m.
Proof. apply dom_insert_L. Qed.

Lemma merge_counts (l : list (string * Z)) m key :
  key ∈ dom (fold_left (fun m kv => add_count kv.1 kv.2 m) l m) <-> key ∈ dom m ∨ key ∈ l.*1.
Proof.
  revert m. induction l as [|[k v] l IH]; intros m; simpl; [set_solver|].
  rewrite IH, dom_add_count. set_solver.
Qed.

Lemma merged_keys ps init k key :
  key ∈ dom (cp_maps (fold_left merge_profile ps init) k) <->
  key ∈ dom (cp_maps init k) ∨ ∃ p, p ∈ ps ∧ key ∈ dom (cp_maps p k).
Proof.
  revert init. induction ps as [|p ps IH]; intros init; simpl.
  { split; [by left|]. intros [|(p & Hp & _)]; [done|by apply not_elem_of_nil in Hp]. }
  rewrite IH. simpl. rewrite merge_counts.
  assert (Hd : key ∈ (map_to_list (cp_maps p k)).*1 <-> key ∈ dom (cp_maps p k)).
  { rewrite elem_of_dom, list_elem_of_fmap. split.
    - intros ([key' v] & -> & Hin%elem_of_map_to_list). by exists v.
    - intros [v Hv%elem_of_map_to_list]. by exists (key, v). }
  rewrite Hd. setoid_rewrite elem_of_cons. split.
  - intros [[?|?]|(p' & ? & ?)]; [by left|right; exists p; by split; [left|]|right; exists p'; by split; [right|]].
  - intros [?|(p' & [->|?] & ?)]; [by left; left|by left; right|right; by exists p'].
Qed.

(** Some profile has the key: exactly when an event was recorded with it. *)
Definition seen_key (r : Recorder) (k : kind) (key : string) : Prop :=
  ∃ id p, profiles r !! id = Some p ∧ key ∈ dom (cp_maps p k).

Lemma seen_key_insert id p r (k : kind) key :
  let r' := MkRecorder (<[id := p]> (profiles r)) (active r) (rec_filter r) in
  (∀ p0, profiles r !! id = Some p0 -> ∀ key, key ∈ dom (cp_maps p0 k) -> key ∈ dom (cp_maps p k)) ->
  seen_key r' k key <-> seen_key r k key ∨ key ∈ dom (cp_maps p k).
Proof.
  intros r' Hmono. unfold seen_key. simpl. split.
  - intros (id' & p' & [[<- <-]|[Hne Hp]]%lookup_insert_Some & Hk); [by right|left; by exists id', p'].
  - intros [(id' & p' & Hp & Hk)|Hk]; [|exists id, p; by rewrite lookup_insert_eq].
    destruct (decide (id = id')) as [<-|Hne]; [|exists id', p'; by rewrite lookup_insert_ne].
    exists id, p. rewrite lookup_insert_eq. split; [done|]. by eapply Hmono.
Qed.

Lemma dom_add_to k k' key p :
  dom (cp_maps (add_to k key 1 p) k') = (if decide (k' = k) then {[key]} else ∅) ∪ dom (cp_maps p k').
Proof. simpl. case_decide; [apply dom_add_count|]. by rewrite (left_id_L ∅ (∪)). Qed.

Lemma Write_seen e r k key :
  seen_key (Write e r) k key <-> seen_key r k key ∨ (recorded r e = true ∧ observation e = Some (k, key)).
Proof.
  unfold Write. destruct (recorded r e); [|naive_solver].
  set (p0 := default _ _).
  assert (Hp0 : ∀ p, profiles r !! se_CgroupID e = Some p -> p0 = p) by (intros p Hp; unfold p0; by rewrite Hp).
  assert (Hnew : profiles r !! se_CgroupID e = None -> dom (cp_maps p0 k) = ∅)
    by (intros Hn; unfold p0; rewrite Hn; simpl; apply dom_empty_L).
  assert (Hold : key ∈ dom (cp_maps p0 k) -> seen_key r k key).
  { destruct (profiles r !! se_CgroupID e) as [p|] eqn:Hp.
    - rewrite (Hp0 p eq_refl). intros Hk. by exists (se_CgroupID e), p.
    - rewrite (Hnew eq_refl). by intros ?%not_elem_of_empty. }
  rewrite seen_key_insert.
  - destruct (observation e) as [[k' key']|]; [rewrite dom_add_to|naive_solver].
    rewrite elem_of_union. case_decide as Hk; [subst k'; rewrite elem_of_singleton|rewrite elem_of_empty];
      naive_solver.
  - intros p Hp key0 Hk. rewrite <- (Hp0 p Hp) in Hk.
    destruct (observation e) as [[k' key']|]; [|done]. rewrite dom_add_to. apply elem_of_union. by right.
Qed.

Lemma recorded_same es cg e : recorded (learn cg es) e = recorded (NewRecorder cg) e.
Proof.
  unfold learn. generalize (NewRecorder cg) as r. induction es as [|e' es IH]; intros r; simpl; [done|].
  rewrite IH. unfold Write. by destruct (recorded r e').
Qed.

(** The events a session records. *)
Definition session_events (cg : list Z) (es : list SecurityEvent) : list SecurityEvent :=
  filter (fun e => recorded (NewRecorder cg) e = true) es.

Lemma learn_seen cg es k key :
  seen_key (learn cg es) k key <-> ∃ e, e ∈ session_events cg es ∧ observation e = Some (k, key).
Proof.
  unfold session_events. induction es as [|e es IH] using rev_ind.
  - split; [by intros (id & p & Hp & _)|]. by intros (e & He%not_elem_of_nil & _).
  - unfold learn. rewrite fold_left_app. fold (learn cg es). simpl. rewrite Write_seen, IH, recorded_same.
    setoid_rewrite list_elem_of_filter. setoid_rewrite elem_of_app. setoid_rewrite list_elem_of_singleton.
    split; [intros [(e' & [? ?] & ?)|[? ?]]; eauto|]. intros (e' & [? [?| ->]] & ?); eauto.
Qed.

(** ** Whether the compiler accepts what was learned *)

Lemma elem_of_sortedKeys m key : key ∈ sortedKeys m <-> key ∈ dom m.
Proof.
  unfold sortedKeys. rewrite merge_sort_Permutation, elem_of_dom, list_elem_of_fmap. split.
  - intros ([key' v] & -> & Hin%elem_of_map_to_list). by exists v.
  - intros [v Hv%elem_of_map_to_list]. by exists (key, v).
Qed.

Lemma elem_of_kinds k : k ∈ kinds.
Proof. destruct k; listed. Qed.

Lemma Synthesize_rules p name rr :
  rr ∈ rp_Rules (Synthesize p name) <->
  ∃ k key, key ∈ dom (cp_maps p k) ∧ learned k key (default 0 (cp_maps p k !! key)) = Some rr.
Proof.
  unfold Synthesize. cbn [rp_Rules]. rewrite list_elem_of_In, in_concat. setoid_rewrite <- list_elem_of_In.
  unfold synthesizeRules. split.
  - intros (l & (k & -> & _)%list_elem_of_fmap & Hin). apply list_elem_of_omap in Hin as (key & Hkey & Hr).
    exists k, key. by rewrite <- elem_of_sortedKeys.
  - intros (k & key & Hkey & Hr). eexists. split; [apply list_elem_of_fmap; exists k; split; [done|apply elem_of_kinds]|].
    apply list_elem_of_omap. exists key. by rewrite elem_of_sortedKeys.
Qed.

Lemma resolve_nothing s : resolveVariables [] (YStr s) = YStr s.
Proof. destruct s as [|c s]; simpl; [done|]. by destruct (code c =? 36). Qed.

Definition eq_condition (kv : string * string) : Condition := MkCondition kv.1 "eq" (YStr kv.2).

Lemma learned_elaborates prefix event key n (all : list (string * string)) :
  elaborates_rule [] (learned_rule prefix event key n (prod_map id YStr <$> all))
    (MkRule (prefix +:+ sanitizeName key) event (MkConditions (eq_condition <$> all) [] []) "allow" ""
       ("observed " +:+ Sprint_d n +:+ " times during learning")).
Proof.
  split; simpl; [|constructor|constructor|done].
  induction all as [|[f v] all IH]; simpl; constructor; [|done].
  unfold eq_condition. simpl. rewrite <- (resolve_nothing v) at 2. constructor. by rewrite resolve_nothing.
Qed.

(** The rule of a network key is accepted; a rule of any other kind is not. *)
Lemma learned_network key n rr :
  learned Networks key n = Some rr -> ∃ r, elaborates_rule [] rr r ∧ rule_ok r.
Proof.
  simpl. destruct (split3 key) as [[[proto addr] port]|]; [|done]. simpl. intros [= <-].
  eexists. split; [apply (learned_elaborates "allow-connect-" "network" key n
    [("protocol", proto); ("remote_addr", addr); ("remote_port", port)])|].
  split; simpl; try done; try listed.
Qed.

Lemma learned_other k key n rr r :
  k ≠ Networks -> learned k key n = Some rr -> elaborates_rule [] rr r -> ~ rule_ok r.
Proof.
  intros Hk Hl Hr [_ He _ _ _ Hc]. pose proof (er_rest _ _ _ Hr) as Heq. pose proof (er_all _ _ _ Hr) as Hall.
  assert (Hev : r_Event r = rr_Event rr) by (by rewrite Heq). rewrite Hev in He, Hc.
  unfold conditions in Hc. apply Forall_app in Hc as [Hc _].
  destruct k; try done; simpl in Hl.
  1,2: injection Hl as <-; simpl in Hall; apply Forall2_cons_inv_l in Hall as (c & ? & Hcond & _ & Heqc);
    rewrite Heqc in Hc; apply Forall_cons in Hc as [[Hf _] _];
    inversion Hcond; subst; simpl in Hf; revert Hf; listed.
  1,2: destruct (split2 key) as [[? ?]|]; [|done]; injection Hl as <-; simpl in He; revert He; listed.
  1,2: injection Hl as <-; simpl in He; revert He; listed.
Qed.

Lemma cut_app a s : is_Some (cut s) -> is_Some (cut (a +:+ s)).
Proof.
  intros Hs. induction a as [|c a [[x y] IH]]; simpl; [done|].
  destruct (code c =? 58); [by eexists|]. rewrite IH. by eexists.
Qed.

Lemma split3_app a s : is_Some (split3 s) -> is_Some (split3 (a +:+ s)).
Proof.
  intros Hs. assert (Hc : is_Some (cut s)).
  { unfold split3 in Hs. destruct (cut s); [by eexists|]. by destruct Hs. }
  unfold split3 in *. induction a as [|c a IH]; simpl; [done|].
  destruct (code c =? 58); simpl; [destruct (cut_app a s Hc) as [[x y] ->]; by eexists|].
  destruct (cut (a +:+ s)) as [[x y]|]; simpl in *; [|by destruct IH].
  destruct (cut y) as [[? ?]|]; [by eexists|by destruct IH].
Qed.

Lemma cut_colon a b : is_Some (cut (a +:+ ":" +:+ b)).
Proof. apply cut_app. by eexists. Qed.

Lemma split3_some a b c : is_Some (split3 (a +:+ ":" +:+ b +:+ ":" +:+ c)).
Proof.
  apply split3_app. unfold split3. generalize (cut_colon b c). generalize (b +:+ ":" +:+ c). intros s Hs.
  simpl. change ("" +:+ s) with s. destruct Hs as [[x y] ->]. by eexists.
Qed.

(** Every recorded key gets a rule. *)
Lemma observation_learned e k key n : observation e = Some (k, key) -> is_Some (learned k key n).
Proof.
  unfold observation. intros Ho.
  repeat case_match; simplify_eq; simpl; try by eexists.
  - destruct (split3_some (text (se_Protocol e)) (text (se_RemoteAddr e)) (Sprint_d (se_RemotePort e))) as [[[a b] c] ->].
    by eexists.
  - unfold split2. destruct (cut_colon (text (se_Protocol e)) (Sprint_d (se_LocalPort e))) as [[a b] ->]. by eexists.
  - unfold split2. destruct (cut_colon (text (se_Protocol e)) (Sprint_d (se_LocalPort e))) as [[a b] ->]. by eexists.
Qed.

Lemma SynthesizeAll_rules order cg es name rr :
  (∀ l, order l ≡ₚ l) ->
  rr ∈ rp_Rules (SynthesizeAll order (profiles (learn cg es)) name) ->
  ∃ e k key n, e ∈ session_events cg es ∧ observation e = Some (k, key) ∧ learned k key n = Some rr.
Proof.
  intros Hperm (k & key & Hk & Hl)%Synthesize_rules. apply merged_keys in Hk as [Hk|(p & Hp & Hk)].
  { simpl in Hk. by rewrite dom_empty_L in Hk. }
  rewrite Hperm in Hp. apply list_elem_of_fmap in Hp as ([id p'] & -> & Hp%elem_of_map_to_list).
  assert (Hs : seen_key (learn cg es) k key) by (by exists id, p').
  apply learn_seen in Hs as (e & He & Ho). by exists e, k, key, (default 0 (cp_maps (fold_left merge_profile (order (map_to_list (profiles (learn cg es))).*2) (newContainerProfile 0)) k !! key)).
Qed.

Lemma SynthesizeAll_has_rule order cg es name e k key :
  (∀ l, order l ≡ₚ l) -> e ∈ session_events cg es -> observation e = Some (k, key) ->
  ∃ rr n, rr ∈ rp_Rules (SynthesizeAll order (profiles (learn cg es)) name) ∧ learned k key n = Some rr.
Proof.
  intros Hperm He Ho. assert (Hs : seen_key (learn cg es) k key) by (apply learn_seen; eauto).
  destruct Hs as (id & p & Hp & Hk).
  set (merged := fold_left merge_profile (order (map_to_list (profiles (learn cg es))).*2) (newContainerProfile 0)).
  destruct (observation_learned e k key (default 0 (cp_maps merged k !! key)) Ho) as [rr Hrr].
  exists rr, (default 0 (cp_maps merged k !! key)). split; [|done]. apply Synthesize_rules. exists k, key. split; [|done].
  apply merged_keys. right. exists p. split; [|done]. rewrite Hperm. apply list_elem_of_fmap.
  exists (id, p). split; [done|]. by apply elem_of_map_to_list.
Qed.

(** Rules that all elaborate to legal ones make a legal list. *)
Lemma elaborate_all raws :
  (∀ rr, rr ∈ raws -> ∃ r, elaborates_rule [] rr r ∧ rule_ok r) ->
  ∃ rs, Forall2 (elaborates_rule []) raws rs ∧ Forall rule_ok rs.
Proof.
  induction raws as [|rr raws IH]; intros Hall; [exists []; by split|].
  destruct (Hall rr) as (r & ? & ?); [by left|]. destruct IH as (rs & ? & ?); [intros; apply Hall; by right|].
  exists (r :: rs). by split; constructor.
Qed.

(** C28: the compiler's parser accepts the policy a learning session synthesizes exactly when the
    session recorded connections and nothing else: the rules for programs and files test a
    field that no event has, and the rules for binds, listens, mounts and traces are for
    events that the policy language does not know.  In every other case, an empty session
    included, parsing the learned policy is an error. *)
Theorem learned_policy_accepted_iff order cg es name :
  (∀ l, order l ≡ₚ l) ->
  let policy := SynthesizeAll order (profiles (learn cg es)) name in
  let network e := ∃ key, observation e = Some (Networks, key) in
  ((∃ P, Parse_raw policy = Ret P) <->
     Exists network (session_events cg es) ∧
     Forall (fun e => observation e = None ∨ network e) (session_events cg es)) ∧
  ((∃ P, Parse_raw policy = Ret P) ∨ (∃ err, Parse_raw policy = Fail err)).
Proof.
  intros Hperm policy network. split; [|apply Parse_raw_total]. split.
  - intros [P [[Hel Heq] [_ _ Hne Hok _]]%Parse_raw_Ret].
    assert (Hvars : rp_Variables policy = []) by done. rewrite Hvars in Hel.
    assert (Hall : Forall (fun e => observation e = None ∨ network e) (session_events cg es)).
    { apply Forall_forall. intros e He. destruct (observation e) as [[k key]|] eqn:Ho; [right|by left].
      destruct (decide (k = Networks)) as [->|Hk]; [by exists key|]. exfalso.
      destruct (SynthesizeAll_has_rule order cg es name e k key Hperm He Ho) as (rr & n & [i Hi]%list_elem_of_lookup & Hl).
      destruct (Forall2_lookup_l _ _ _ _ _ Hel Hi) as (r & Hr & Hrr).
      eapply learned_other; [done|done|done|]. by eapply Forall_lookup_1. }
    split; [|done]. destruct (rp_Rules policy) as [|rr rrs] eqn:Hrules; [by apply Forall2_nil_inv_l in Hel|].
    destruct (SynthesizeAll_rules order cg es name rr Hperm) as (e & k & key & n & He & Ho & _).
    { fold policy. rewrite Hrules. by left. }
    apply Exists_exists. exists e. split; [done|]. rewrite Forall_forall in Hall.
    destruct (Hall e He) as [?|?]; [congruence|done].
  - intros [(e & He & key & Ho)%Exists_exists Hall]. rewrite Forall_forall in Hall.
    destruct (elaborate_all (rp_Rules policy)) as (rs & Hrs & Hoks).
    { intros rr Hrr. destruct (SynthesizeAll_rules order cg es name rr Hperm Hrr) as (e' & k & key' & n & He' & Ho' & Hl).
      destruct (Hall e' He') as [?|[key'' Hn]]; [congruence|]. rewrite Ho' in Hn. injection Hn as -> ->.
      by eapply learned_network. }
    exists (MkPolicy (rp_Name policy) 1 (rp_Description policy) [] rs "deny"). apply Parse_raw_Ret.
    split; split; try done; simpl.
    + unfold policy, SynthesizeAll, Synthesize. cbn [rp_Name].
      destruct (String.eqb_spec name ""); [done|]. by destruct (String.eqb_spec name "").
    + intros ->. apply Forall2_nil_inv_r in Hrs.
      destruct (SynthesizeAll_has_rule order cg es name e Networks key Hperm He Ho) as (rr & n & Hin & _).
      fold policy in Hin. rewrite Hrs in Hin. by apply not_elem_of_nil in Hin.
    + listed.
Qed.

(** ** Concrete sessions *)

Definition demo_observed (ty filename proto addr : string) (port : Z) : SecurityEvent :=
  {| se_ID := []; se_Timestamp := 0; se_Hostname := []; se_EventType := ty; se_CgroupID := 7; se_PID := 1;
     se_PPID := 0; se_UID := 0; se_GID := 0; se_Comm := bstr "app"; se_Filename := bstr filename;
     se_RemoteAddr := bstr addr; se_RemotePort := port; se_LocalPort := 0; se_Protocol := bstr proto;
     se_MountType := []; se_PtraceComm := []; se_Decision := "allow"; se_Reason := Text ""; se_PolicyRule := [];
     se_Cached := false; se_Enforced := false; se_AuditOnly := false; se_LatencyUS := 0; se_Lineage := [];
     se_Labels := [] |}.

Definition demo_exec : SecurityEvent := demo_observed "exec" "/usr/bin/app" "" "" 0.
Definition demo_connect : SecurityEvent := demo_observed "network" "" "tcp" "10.0.0.1" 443.
Definition demo_connect6 : SecurityEvent := demo_observed "network" "" "tcp" "fe80::1" 443.

Definition demo_learned (es : list SecurityEvent) : PolicyYAML :=
  SynthesizeAll (fun l => l) (profiles (learn [] es)) "".

(** An IPv6 address is cut at its first colon, and the rest becomes the port. *)
Example demo_rules :
  (fun r => (rr_Name r, rc_All (rr_Conditions r))) <$> rp_Rules (demo_learned [demo_exec; demo_connect; demo_connect6]) =
  [("allow-exec-usr-bin-app", [[("filename", YStr "/usr/bin/app")]]);
   ("allow-connect-tcp-10-0-0-1-443",
     [[("protocol", YStr "tcp")]; [("remote_addr", YStr "10.0.0.1")]; [("remote_port", YStr "443")]]);
   ("allow-connect-tcp-fe80--1-443",
     [[("protocol", YStr "tcp")]; [("remote_addr", YStr "fe80")]; [("remote_port", YStr ":1:443")]])].
Proof. vm_compute. reflexivity. Qed.

Lemma learned_policy_accepted_iff_witness :
  (∀ l : list ContainerProfile, l ≡ₚ l) ∧ ∃ P, Parse_raw (demo_learned [demo_connect]) = Ret P.
Proof.
  assert (Hp : ∀ l : list ContainerProfile, l ≡ₚ l) by done. split; [exact Hp|].
  destruct (learned_policy_accepted_iff (fun l => l) [] [demo_connect] "" Hp) as [[_ Hacc] _].
  apply Hacc. split.
  - apply Exists_cons_hd. eexists. reflexivity.
  - constructor; [|constructor]. right. eexists. reflexivity.
Defined.

Example learned_execs_refused :
  Parse_raw (demo_learned [demo_exec]) =
  Fail (Sprintf "validate: %w" [AErr (Sprintf "rule[%d] %q: %w" [ANum 0; AStr (bstr "allow-exec-usr-bin-app");
    AErr (Sprintf "conditions.all[%d]: %w" [ANum 0; AErr (Sprintf "field %q is not valid for event type %q"
      [AStr (bstr "filename"); AStr (bstr "process")])])])]).
Proof. vm_compute. reflexivity. Qed.
